(* ===== verification/_CoqProject ===== *)
-Q . S2P
Prelude.v
Wire.v
Tpkt.v
Cotp.v
S7Header.v
Negotiate.v
ReadVar.v
WriteVar.v
Clock.v
Szl.v
Decoders.v
Store.v
Io.v
ServerHandshake.v
Dispatch.v
Vlq.v
PlusWire.v
Types.v
Connection.v
Tag.v
Text.v
PlusClient.v
Client.v
Loopback.v
Batching.v
ClientServices.v
ServiceLoop.v
Blocks.v
BlockInfo.v
CpuInfo.v
Partner.v
Registry.v
Poller.v
ConfigFile.v
Concurrent.v
AcceptLoop.v
Udp.v
Handle.v
GatewayServer.v
Pool.v
PlusOpen.v
Watch.v
Cli.v
CliBlocks.v
CliInfo.v
Queries.v
CliMain.v
BatchReader.v
Served.v
Examples.v
Bench.v
TestsProto.v
TestsClient.v
TestsComponents.v
TestsSystem.v
