(* ===== verification/Prelude.v ===== *)
(** * Verification of rs-snap7

    rs-snap7 is a Rust implementation of the Siemens S7 protocols: a client
    (crates/snap7-client), a PLC simulator (crates/snap7-server) and a
    peer-to-peer partner (crates/snap7-partner), with an OPC UA gateway
    (crates/snap7-opcua-gateway), a command line tool (snap7-cli) and benchmarks
    on top.  This library models the code of these crates as executable
    functions and step relations and proves it correct.

    ** The program

    Bytes travel in TPKT frames (proto/tpkt.rs) that hold COTP PDUs
    (proto/cotp.rs) that hold S7 messages: a header (proto/s7/header.rs) and a
    body (negotiate, read_var, write_var, clock, szl).  A client connects
    (connection.rs), then sends one request at a time and waits for its answer
    (client.rs); a pool shares clients among tasks (pool.rs).  The simulator
    accepts connections up to a limit (server.rs), performs the other side of
    the handshake (handshake.rs), serves requests in a loop (dispatch.rs) and
    keeps the PLC's memory, clock, events and locks in a shared store
    (store.rs).  Newer PLCs speak S7CommPlus (proto/s7commplus,
    plus_connection.rs, plus_client.rs).  Partners exchange buffers of up to
    64 KiB in acknowledged fragments.  The gateway reads tags of its PLCs
    periodically and publishes them as OPC UA variables; the tool reads and
    writes a PLC from the command line.  Example programs (snap7-cli/bin) serve
    stores of their own, read tags in batches through the gateway and subscribe
    to its variables.

    ** Files

    - [Prelude]: results with panics, machine integers, byte strings, checked
      slices, tactics, the rewrite base [blen] and the hint base [wire].
    - [Wire]: decoders as a reader monad over [Buf], [ProtoError], the class
      [U8Enum] of wire enumerations, the tactics that run decoders.
    - [Tpkt], [Cotp], [S7Header], [Negotiate], [ReadVar], [WriteVar], [Clock],
      [Szl]: the message formats of proto/, one file per source file;
      [Decoders] puts their decoders together.
    - [Vlq], [PlusWire]: the S7CommPlus formats of proto/s7commplus.
    - [Io]: the class [Transport] (read_exact, write_all), programs over a
      transport, and the instance [Pipe] (input still to come, output so far).
    - [Udp]: the datagram transport of udp.rs, read as a byte stream, and the
      outcome of opening a TCP stream (transport.rs).
    - [Store]: snap7-server/store.rs.  [StoreInner] is the state behind the
      mutex, one function per method.  [Concurrent] opens these methods into
      the critical sections of the mutex and lets the sections of any number of
      connections, and of the owner of the store, interleave.
    - [ServerHandshake], [Dispatch]: snap7-server/handshake.rs, dispatch.rs.
      [AcceptLoop]: server.rs, the accept loop and the connection tasks as
      interleaved steps over the semaphore and the store, a request at a time;
      a peer closes when it has sent its bytes or stays open in silence.
    - [Connection], [Client], [Batching], [ClientServices], [Blocks],
      [BlockInfo], [CpuInfo], [Handle]: snap7-client/connection.rs and
      client.rs.  [Inner] is the state behind the client's mutex; a method is a
      function on it.  [Handle] adds the parameters around it, [connect] and
      [reconnect].
    - [Types]: blocks, checksums and passwords of snap7-client/types.rs.
    - [Tag]: the tag parser of tag.rs.  [Text]: what is used of strings and
      their formatting.  [Pool]: the connection pool of pool.rs as steps of
      concurrent tasks around [Handle]'s clients.  [PlusClient]: plus_connection.rs and plus_client.rs;
      [PlusOpen]: opening that client over TCP and over TLS (tls.rs).
    - [Loopback], [ServiceLoop]: the instance [Link] of [Transport] that runs
      the simulator's handshake and dispatch loop on what a client writes, so
      that running a client on it runs both ends of the stack.  [Queries]: the
      client methods that leave the simulator's data as it is.  [Served]: what
      succeeds on a [Link] succeeds on a byte stream with a connection task of
      [AcceptLoop] at the other end; [Prog] is the programs that call the
      methods of a client (all but [compare_blocks], which goes on after
      errors).
    - [Partner]: snap7-partner (proto.rs, transport.rs, partner.rs).
    - [Registry], [ConfigFile], [Poller], [GatewayServer]: snap7-opcua-gateway
      (config.rs and registry.rs with the error texts; the configuration file;
      poller.rs; server.rs).  A poller is a
      task that steps among ticks, commands and other tasks.  The address space
      of the OPC UA library is the class [AddressSpace] with the laws the code
      relies on, [NodeMap] an instance.
    - [Watch], [Cli], [CliBlocks], [CliInfo]: the commands of snap7-cli (cmd/,
      output.rs, args.rs).  A command acts on the client and the lines printed,
      block commands also on files.  [CliMain]: cmd/mod.rs, from the parsed
      arguments over connecting to the command.
    - [BatchReader], [Examples]: the example programs of snap7-cli/bin.
      [Bench]: the benchmarks of snap7-bench.
    - [TestsProto], [TestsClient], [TestsComponents], [TestsSystem]: the unit
      tests of the source files, run on the model.

    ** Conventions

    A w-bit integer is a [Z]; casts and wrapping are written out, arithmetic is
    that of release builds.  What unwinds is the result [Panic].  [Type_method]
    models a method, other names are the source's.  An async function is a
    function on the state it owns; the clock is not modelled, and a timer that
    fires is a transport that answers [TimedOut].  Tasks that share state are
    step relations, one step per stretch between awaits, in [Concurrent] one
    per critical section.  Text is a list of Unicode scalar values.

    ** What is proved

    - End to end: [db_write_read_end_to_end], [read_multi_vars_end_to_end],
      [write_multi_vars_end_to_end], [clock_end_to_end], [szl_end_to_end],
      [identity_end_to_end], [db_fill_exact] (client methods against the
      simulator), [tick_end_to_end] (a gateway's poller), [tag_write_read_prints]
      and [write_then_read_prints] (the tool, the latter from its handshake to
      its output), [handshake_agreement], [bsend_brecv_roundtrip] (partners),
      [plus_session_read], [download_complete], [upload_complete] (against a
      scripted PLC).
    - The simulation of the end-to-end theorems is the deployed system:
      [sessions_served] (client and connection task, message by message),
      [session_lifecycle] (the task from accept to close).
    - The server survives and answers every peer: [dispatch_loop_safe],
      [dispatch_one_response], [write_then_read_over_wire]; it keeps its limit
      and its counters ([server_limits]) and every connection whose peer closes
      ends and gives its permit back ([server_drains]).
    - Concurrency: whatever interleaves, requests are linearizable call by call
      ([requests_linearizable]); requests of one item are atomic
      ([single_item_atomic]), those of several as long as nobody touches what
      they read ([undisturbed_read_atomic]) and not in general
      ([multi_item_read_torn]); an uninterrupted request is the handler of
      [Dispatch] ([solo_run]); the values of the sensor server are read whole
      and up to date ([sensor_reads_whole]).
    - What must not change does not: [query_commands_change_nothing] (the
      commands of the tool that only ask).
    - Refinement and invariants: [store_refines_memory] (the store implements
      an abstract byte memory), [store_wf_preserved], [event_queue_fifo],
      [pool_safe]; the pool makes progress: [pool_live].
    - Equivalences: [udp_stream_equivalence] (datagrams are read as one stream),
      [date_algorithms_agree] (closed form and loops give the same date),
      [reconnect_is_connect].
    - The gateway: [GatewayConfig_roundtrip], [from_specs_exact],
      [variant_bytes_roundtrip], [gateway_starts_configured]; its batch reader:
      [reader_config_roundtrip], [batch_specs_register], [node_names_distinct].
    - The tool: [batch_upload_reload], [datetime_roundtrip],
      [force_address_roundtrip], [watch_prints_changes],
      [unconfirmed_is_harmless].
    - Formats: round trips of every message, exact languages of the TPKT and
      S7CommPlus decoders ([TpktFrame_decode_exact], [S7PlusFrame_exact]) and
      of the tag parser ([parse_tag_exact]), integrity tails
      ([integrity_accepts_sealed], [integrity_sound]), the checksum
      ([crc32_detects_byte_change]), block and CPU records
      ([parse_block_info_image], [cpu_info_of_entries]); every decoder is total
      and well typed ([decoders_safe]).
    - Bounds and termination: [batches_within_pdu], [date_of_secs_correct],
      [transfers_terminate], [plus_client_no_panic]; a S7CommPlus client is
      the same over TCP and TLS ([plus_open_transports]).
    - The model passes the source's own unit tests: [proto_tests_pass],
      [client_tests_pass], [component_tests_pass], [system_tests_pass]; the
      benchmarks run without a panic ([bench_iterations],
      [bench_groups_complete]).
    - Defects, stated as what the code does: [stale_response_accepted],
      [short_frame_panics_connect], [callbacks_lost_by_concurrent_reads],
      [read_batch_response_overruns_pdu], [timer_address_not_preserved],
      [DataItem_8192_lost], [get_protection_misread], [db_lid_aliasing],
      [garbage_offset_accepted], [upload_short_start_panics],
      [silent_peers_block], [bsend_length_wraps], [gateway_never_writes],
      [bit_write_clobbers], [poll_ignores_area], [node_names_collide],
      [subscription_prints_nothing], [subscriber_name_lost],
      [transport_flags_ignored],
      [control_without_effect], [block_info_unsupported], [block_info_of_cases],
      [block_layouts_disagree], [timeouts_diverge], [marker_tag_read_truncated],
      [block_filename_panics], [returned_client_reused],
      [json_format_prints_nothing].

    ** Loops and fuel

    Loops over data recurse on the data.  [dispatch_loop], [brecv] and the
    transfer loops of [Blocks] run until the peer stops; they take a number of
    turns, and [None] is a loop that is still running.  Every turn of the
    dispatch loop, of [brecv] and of listing blocks consumes input, so the
    length of the input is enough ([dispatch_loop_safe],
    [bsend_brecv_roundtrip], [list_loop_ends]); uploads and downloads end by
    themselves, in a number of turns that the 4 MiB limit, the length of the
    data and the PDU size give ([transfers_terminate]).  The loops of
    COTP parameters, multi-variable batches and years, and the scans of CPU
    records ([scan_loop_fuel], [sub_record_loop_fuel]), take fuel computed from
    their input, with lemmas that it suffices.  An exact read over UDP takes one
    turn per byte wanted and per event of the socket, which
    [udp_stream_equivalence] shows to be enough.  The steps of the server's
    tasks decrease a measure: the bytes their peers still send.

    ** Not modelled

    TCP streams and TLS sessions are input and output behind [Transport]; what
    opening, binding and accepting sockets gives is an argument.  On a [Pipe]
    the end of the input is the end of the stream; a peer that stays open in
    silence is modelled where nothing bounds the wait, in [AcceptLoop], and
    elsewhere is a transport that answers [TimedOut].  A peer that does not read
    what it is sent, and so blocks a write, is not modelled.  HMAC-SHA256,
    the TLS library, the uppercase and lowercase tables outside ASCII, the texts
    of operating system errors, 32-bit floats in text, float arithmetic and
    random numbers of the sensors, the hex crate, the JSON and TOML parsers and
    the OPC UA library are parameters or inputs.  Statistics of elapsed time are
    left out.  Of the tool, the argument parser (clap) is not modelled, and the
    serve command, which does not type-check against the gateway's
    configuration, is a parameter; the part of gateway_demo that starts the
    gateway has the same defect and is left out. *)

From Stdlib Require Export ZArith Lia ZifyBool.
From stdpp Require Export base option list sets pretty strings.

Local Open Scope Z_scope.

(** ** Results of fallible Rust code

    [Ok] and [Err] are the two variants of [Result]; [Panic] is the outcome of
    an operation that unwinds (an index out of range, a [Buf] getter on an
    exhausted buffer, an allocation of an impossible size). *)
Inductive res (E A : Type) : Type :=
| Ok (a : A)
| Err (e : E)
| Panic.
Arguments Ok {E A} a.
Arguments Err {E A} e.
Arguments Panic {E A}.

Definition res_bind {E A B} (m : res E A) (k : A → res E B) : res E B :=
  match m with
  | Ok a => k a
  | Err e => Err e
  | Panic => Panic
  end.

Definition res_map_err {E F A} (f : E → F) (m : res E A) : res F A :=
  match m with
  | Ok a => Ok a
  | Err e => Err (f e)
  | Panic => Panic
  end.

Declare Scope res_scope.
Delimit Scope res_scope with res.
Notation "'let?' x ':=' m 'in' k" := (res_bind m (fun x => k))
  (at level 10, x pattern, m at level 200, k at level 200,
   format "'[v' 'let?'  x  ':='  m  'in' '/' k ']'") : res_scope.
#[global] Open Scope res_scope.

Definition is_ok {E A} (r : res E A) : bool :=
  match r with Ok _ => true | _ => false end.

Definition no_panic {E A} (r : res E A) : Prop := r ≠ Panic.

(** ** Machine integers

    A w-bit unsigned integer is a [Z]; the predicates below say that it is in
    range, the [as_] functions are Rust's [as] casts. *)
Definition u8 (z : Z) : Prop := 0 <= z < 256.
Definition u16 (z : Z) : Prop := 0 <= z < 65536.
Definition u32 (z : Z) : Prop := 0 <= z < 4294967296.

Definition as_u8 (z : Z) : Z := z mod 256.
Definition as_u16 (z : Z) : Z := z mod 65536.
Definition as_u32 (z : Z) : Z := z mod 4294967296.

(** [a.saturating_sub(b)] on an unsigned type. *)
Definition saturating_sub (a b : Z) : Z := Z.max 0 (a - b).

Abbreviation bytes := (list Z).
Abbreviation wf_bytes := (Forall u8).

Definition blen (b : bytes) : Z := Z.of_nat (length b).

(** Big-endian encodings, as produced by [BufMut::put_u16]/[put_u32] and
    [to_be_bytes]. *)
Definition be16 (v : Z) : bytes := [as_u8 (v / 256); as_u8 v].
Definition be32 (v : Z) : bytes :=
  [as_u8 (v / 16777216); as_u8 (v / 65536); as_u8 (v / 256); as_u8 v].

(** [u16::from_be_bytes], [u32::from_be_bytes]. *)
Definition of_be16 (a b : Z) : Z := a * 256 + b.
Definition of_be32 (a b c d : Z) : Z := a * 16777216 + b * 65536 + c * 256 + d.

(** Checked slice reads: [None] is the panic of an index out of range. *)
Definition slice_from (b : bytes) (i : Z) : option bytes :=
  if (i <? 0) || (blen b <? i) then None else Some (drop (Z.to_nat i) b).
Definition slice_to (b : bytes) (n : Z) : option bytes :=
  if (n <? 0) || (blen b <? n) then None else Some (take (Z.to_nat n) b).
Definition slice (b : bytes) (i j : Z) : option bytes :=
  if (i <? 0) || (j <? i) || (blen b <? j) then None
  else Some (take (Z.to_nat (j - i)) (drop (Z.to_nat i) b)).

(** ** Automation *)
Create HintDb wire.
Create Rewrite HintDb blen.

Ltac case_ltb :=
  match goal with
  | |- context [?a <? ?b] => destruct (Z.ltb_spec a b)
  | |- context [?a <=? ?b] => destruct (Z.leb_spec a b)
  | |- context [?a =? ?b] => destruct (Z.eqb_spec a b)
  end.

Ltac unwidth := unfold u8, u16, u32, as_u8, as_u16, as_u32 in *.

(** ** Lemmas on lengths *)
Lemma blen_nil : blen [] = 0.
Proof. reflexivity. Qed.
Lemma blen_cons x b : blen (x :: b) = 1 + blen b.
Proof. unfold blen. cbn [length]. lia. Qed.
Lemma blen_app a b : blen (a ++ b) = blen a + blen b.
Proof. unfold blen. rewrite length_app. lia. Qed.
Lemma blen_nonneg b : 0 <= blen b.
Proof. unfold blen. lia. Qed.
Lemma blen_be16 v : blen (be16 v) = 2.
Proof. reflexivity. Qed.
Lemma blen_be32 v : blen (be32 v) = 4.
Proof. reflexivity. Qed.
Lemma blen_replicate n x : blen (replicate n x) = Z.of_nat n.
Proof. unfold blen. by rewrite length_replicate. Qed.
Lemma blen_take n b : blen (take n b) = Z.min (Z.of_nat n) (blen b).
Proof. unfold blen. rewrite length_take. lia. Qed.
Lemma blen_drop n b : blen (drop n b) = Z.max 0 (blen b - Z.of_nat n).
Proof. unfold blen. rewrite length_drop. lia. Qed.
Lemma blen_0_nil b : blen b = 0 → b = [].
Proof. destruct b; [done|]. rewrite blen_cons. pose proof (blen_nonneg b). lia. Qed.
Lemma to_nat_blen b : Z.to_nat (blen b) = length b.
Proof. unfold blen. lia. Qed.

#[export] Hint Rewrite blen_nil blen_cons blen_app blen_be16 blen_be32 blen_replicate
  blen_take blen_drop : blen.
#[export] Hint Resolve blen_nonneg : wire.

(** [blen_lia] normalises lengths and closes linear goals about them. *)
Ltac blen_pose_of b :=
  lazymatch goal with
  | _ : 0 <= blen b |- _ => fail
  | _ => pose proof (blen_nonneg b)
  end.
Ltac blen_pose :=
  repeat match goal with
  | |- context [blen ?b] => blen_pose_of b
  | _ : context [blen ?b] |- _ => blen_pose_of b
  end.
Ltac blen_lia := autorewrite with blen in *; blen_pose; lia.

(** ** Lemmas on machine integers *)
Lemma as_u8_small z : u8 z → as_u8 z = z.
Proof. unwidth. intros. by apply Z.mod_small. Qed.
Lemma as_u16_small z : u16 z → as_u16 z = z.
Proof. unwidth. intros. by apply Z.mod_small. Qed.
Lemma as_u32_small z : u32 z → as_u32 z = z.
Proof. unwidth. intros. by apply Z.mod_small. Qed.
Lemma as_u8_u8 z : u8 (as_u8 z).
Proof. unwidth. by apply Z.mod_pos_bound. Qed.
Lemma as_u16_u16 z : u16 (as_u16 z).
Proof. unwidth. by apply Z.mod_pos_bound. Qed.
Lemma as_u32_u32 z : u32 (as_u32 z).
Proof. unwidth. by apply Z.mod_pos_bound. Qed.

(** [as i16], [as i32] of unsigned values of the same width, and back. *)
Definition as_i16 (z : Z) : Z := if z <? 32768 then z else z - 65536.
Definition as_i32 (z : Z) : Z := if z <? 2147483648 then z else z - 4294967296.

Lemma as_i32_as_u32 i : -2147483648 <= i < 2147483648 → as_i32 (as_u32 i) = i.
Proof. intros. unfold as_i32. unwidth. case_ltb; Z.div_mod_to_equations; lia. Qed.
Lemma as_i16_as_u16 i : -32768 <= i < 32768 → as_i16 (as_u16 i) = i.
Proof. intros. unfold as_i16. unwidth. case_ltb; Z.div_mod_to_equations; lia. Qed.
Lemma as_u32_as_i32 u : u32 u → as_u32 (as_i32 u) = u.
Proof. intros. unfold as_i32. unwidth. case_ltb; Z.div_mod_to_equations; lia. Qed.
Lemma as_u16_as_i16 u : u16 u → as_u16 (as_i16 u) = u.
Proof. intros. unfold as_i16. unwidth. case_ltb; Z.div_mod_to_equations; lia. Qed.

Lemma of_be16_split v : u16 v → of_be16 (as_u8 (v / 256)) (as_u8 v) = v.
Proof. unfold of_be16. unwidth. intros. Z.div_mod_to_equations. lia. Qed.
Lemma of_be32_split v : u32 v →
  of_be32 (as_u8 (v / 16777216)) (as_u8 (v / 65536)) (as_u8 (v / 256)) (as_u8 v) = v.
Proof. unfold of_be32. unwidth. intros. Z.div_mod_to_equations. lia. Qed.
Lemma of_be16_u16 a b : u8 a → u8 b → u16 (of_be16 a b).
Proof. unfold of_be16. unwidth. lia. Qed.
Lemma be32_of_be32 a b c d : u8 a → u8 b → u8 c → u8 d → be32 (of_be32 a b c d) = [a; b; c; d].
Proof.
  unfold of_be32, be32. unwidth. intros. repeat f_equal; Z.div_mod_to_equations; lia.
Qed.
Lemma of_be32_u32 a b c d : u8 a → u8 b → u8 c → u8 d → u32 (of_be32 a b c d).
Proof. unfold of_be32. unwidth. lia. Qed.
Lemma be16_of_be16 a b : u8 a → u8 b → be16 (of_be16 a b) = [a; b].
Proof.
  unfold be16, of_be16. unwidth. intros.
  repeat (f_equal; try (Z.div_mod_to_equations; lia)).
Qed.
Lemma be16_wf v : wf_bytes (be16 v).
Proof. repeat constructor; apply as_u8_u8. Qed.
Lemma be32_wf v : wf_bytes (be32 v).
Proof. repeat constructor; apply as_u8_u8. Qed.

#[export] Hint Resolve as_u8_u8 as_u16_u16 as_u32_u32 be16_wf be32_wf
  of_be16_u16 of_be32_u32 : wire.

(** Bit operations whose mask is [2^n - 1] are remainders. *)
Lemma land_mask_mod z n : 0 <= n → Z.land z (2 ^ n - 1) = z mod 2 ^ n.
Proof.
  intros. rewrite <- Z.land_ones by lia. f_equal.
  rewrite Z.ones_equiv. lia.
Qed.

Lemma land_1 z : Z.land z 1 = z mod 2.
Proof. apply (land_mask_mod z 1). lia. Qed.
Lemma land_7 z : Z.land z 0x07 = z mod 8.
Proof. apply (land_mask_mod z 3). lia. Qed.
Lemma land_15 z : Z.land z 0x0F = z mod 16.
Proof. apply (land_mask_mod z 4). lia. Qed.
Lemma land_31 z : Z.land z 0x1F = z mod 32.
Proof. apply (land_mask_mod z 5). lia. Qed.
Lemma land_127 z : Z.land z 0x7F = z mod 128.
Proof. apply (land_mask_mod z 7). lia. Qed.
Lemma land_255 z : Z.land z 0xFF = z mod 256.
Proof. apply (land_mask_mod z 8). lia. Qed.

(** Combining disjoint bit fields is addition. *)
Lemma lor_shiftl_add a b n : 0 <= n → 0 <= b < 2 ^ n → Z.lor (Z.shiftl a n) b = a * 2 ^ n + b.
Proof.
  intros Hn Hb. rewrite <- (Z.shiftl_mul_pow2 a n) by lia.
  assert (Z.land (Z.shiftl a n) b = 0) as Hl.
  { apply Z.bits_inj'. intros i Hi. rewrite Z.land_spec, Z.bits_0.
    destruct (Z.lt_ge_cases i n).
    - by rewrite Z.shiftl_spec_low.
    - rewrite <- (Z.mod_small b (2 ^ n)) by lia.
      rewrite Z.mod_pow2_bits_high by lia. apply andb_false_r. }
  by rewrite Z.add_nocarry_lxor, Z.lxor_lor.
Qed.
Lemma lxor_range n a b :
  0 <= n → 0 <= a < 2 ^ n → 0 <= b < 2 ^ n → 0 <= Z.lxor a b < 2 ^ n.
Proof.
  intros Hn Ha Hb.
  assert (Z.lxor a b = Z.lxor a b mod 2 ^ n) as ->; [|apply Z.mod_pos_bound; lia].
  rewrite <- Z.land_ones by lia. apply Z.bits_inj'. intros i Hi.
  rewrite Z.land_spec, Z.lxor_spec. destruct (Z.lt_ge_cases i n).
  - rewrite Z.ones_spec_low by lia. by rewrite andb_true_r.
  - rewrite Z.ones_spec_high, andb_false_r by lia.
    rewrite <- (Z.mod_small a (2 ^ n)), <- (Z.mod_small b (2 ^ n)) by lia.
    by rewrite !Z.mod_pow2_bits_high by lia.
Qed.
Lemma shiftr_div z n : 0 <= n → Z.shiftr z n = z / 2 ^ n.
Proof. apply Z.shiftr_div_pow2. Qed.

(** ** Checked slices *)
Lemma slice_from_ok b i : 0 <= i <= blen b → slice_from b i = Some (drop (Z.to_nat i) b).
Proof. intros. unfold slice_from. repeat case_ltb; cbn; done || lia. Qed.
Lemma slice_to_ok b n : 0 <= n <= blen b → slice_to b n = Some (take (Z.to_nat n) b).
Proof. intros. unfold slice_to. repeat case_ltb; cbn; done || lia. Qed.
Lemma slice_ok b i j : 0 <= i → i <= j → j <= blen b →
  slice b i j = Some (take (Z.to_nat (j - i)) (drop (Z.to_nat i) b)).
Proof. intros. unfold slice. repeat case_ltb; cbn; done || lia. Qed.

(** ** Exhaustive checks over one byte

    A decidable property of a byte is proved by running it on the 256 values. *)
Definition all_u8 : list Z := Z.of_nat <$> seq 0 256.

Lemma u8_exhaust (P : Z → bool) :
  forallb P all_u8 = true → ∀ z, u8 z → P z = true.
Proof.
  rewrite forallb_forall. intros H z Hz. apply H.
  rewrite <- list_elem_of_In. unfold all_u8. apply list_elem_of_fmap.
  exists (Z.to_nat z). unwidth. split; [lia|]. apply elem_of_seq. lia.
Qed.

(** The same over an initial segment of the naturals. *)
Lemma Z_exhaust (n : nat) (P : Z → bool) :
  forallb P (Z.of_nat <$> seq 0 n) = true → ∀ z, 0 <= z < Z.of_nat n → P z = true.
Proof.
  rewrite forallb_forall. intros H z Hz. apply H.
  rewrite <- list_elem_of_In. apply list_elem_of_fmap.
  exists (Z.to_nat z). split; [lia|]. apply elem_of_seq. lia.
Qed.

(** Replacing an element of a list replaces its share of a sum over the list. *)
Lemma bind_insert {A B} (f : A → list B) (l : list A) i x y :
  l !! i = Some x → f x ++ (<[i := y]> l ≫= f) ≡ₚ f y ++ (l ≫= f).
Proof.
  revert i. induction l as [|z l IH]; intros [|i] Hi; try done; cbn in *.
  - injection Hi as ->. rewrite !(assoc_L (++)). by rewrite (comm (++) (f x)).
  - rewrite !(assoc_L (++)), (comm (++) (f x)), (comm (++) (f y)), <- !(assoc_L (++)).
    by rewrite IH.
Qed.
Lemma length_bind_insert {A B} (f : A → list B) (l : list A) i x y :
  l !! i = Some x →
  (length (f x) + length (<[i := y]> l ≫= f) = length (f y) + length (l ≫= f))%nat.
Proof. intros Hi. rewrite <- !length_app. by apply Permutation_length, bind_insert. Qed.
