(* ===== verification/Wire.v ===== *)
(** * Byte buffers: the [bytes] crate's [Buf]/[BufMut] as a reader monad

    A decoder of the source takes [buf: &mut Bytes] and returns a
    [Result<T, ProtoError>].  Here it is a function from the unread bytes to
    the value together with the bytes left unread.  An encoder takes
    [buf: &mut BytesMut] and appends to it; here it is the list of bytes it
    appends.  [Buf] getters on an exhausted buffer panic, as in the crate. *)

From S2P Require Import Prelude.

Local Open Scope Z_scope.

(** [ProtoError] of proto/error.rs. *)
Inductive ProtoError : Type :=
| BufferTooShort (need have : Z)
| InvalidMagic (expected got : Z)
| UnsupportedPduType (v : Z)
| UnsupportedFunction (v : Z)
| EncodingFailed (msg : string)
| UnsupportedArea (v : Z)
| UnsupportedTransportSize (v : Z)
| InvalidVersion (v : Z)
| IntegrityFailure.

#[export] Instance ProtoError_eq_dec : EqDecision ProtoError.
Proof. solve_decision. Defined.

(** ** The reader monad *)
Definition Rd (A : Type) : Type := bytes → res ProtoError (A * bytes).

Definition rd_ret {A} (a : A) : Rd A := fun b => Ok (a, b).
Definition rd_fail {A} (e : ProtoError) : Rd A := fun _ => Err e.
Definition rd_bind {A B} (m : Rd A) (k : A → Rd B) : Rd B := fun b =>
  match m b with
  | Ok (a, b') => k a b'
  | Err e => Err e
  | Panic => Panic
  end.
(** [?] on a [Result] that does not touch the buffer. *)
Definition rd_lift {A} (r : res ProtoError A) : Rd A := fun b =>
  match r with
  | Ok a => Ok (a, b)
  | Err e => Err e
  | Panic => Panic
  end.

Declare Scope rd_scope.
Delimit Scope rd_scope with rd.
Notation "'let!' x ':=' m 'in' k" := (rd_bind m (fun x => k))
  (at level 10, x pattern, m at level 200, k at level 200,
   format "'[v' 'let!'  x  ':='  m  'in' '/' k ']'") : rd_scope.
#[global] Open Scope rd_scope.

(** [buf.len()], [buf.remaining()]. *)
Definition remaining : Rd Z := fun b => Ok (blen b, b).
Definition get_u8 : Rd Z := fun b =>
  match b with
  | x :: b' => Ok (x, b')
  | _ => Panic
  end.
Definition get_u16 : Rd Z := fun b =>
  match b with
  | x :: y :: b' => Ok (of_be16 x y, b')
  | _ => Panic
  end.
Definition get_u32 : Rd Z := fun b =>
  match b with
  | x :: y :: z :: t :: b' => Ok (of_be32 x y z t, b')
  | _ => Panic
  end.
(** [buf[i]]. *)
Definition peek (i : nat) : Rd Z := fun b =>
  match b !! i with
  | Some x => Ok (x, b)
  | None => Panic
  end.
Definition advance (n : Z) : Rd unit := fun b =>
  if blen b <? n then Panic else Ok (tt, drop (Z.to_nat n) b).
(** [buf.split_to(n)], [buf.copy_to_bytes(n)]. *)
Definition split_to (n : Z) : Rd bytes := fun b =>
  if blen b <? n then Panic else Ok (take (Z.to_nat n) b, drop (Z.to_nat n) b).
(** [if buf.len() < n { return Err(BufferTooShort { need: n, have: buf.len() }) }] *)
Definition need (n : Z) : Rd unit := fun b =>
  if blen b <? n then Err (BufferTooShort n (blen b)) else Ok (tt, b).

(** [for _ in 0..n { items.push(m) }]: the values in order. *)
Fixpoint rd_repeat {A} (n : nat) (m : Rd A) : Rd (list A) :=
  match n with
  | O => rd_ret []
  | S n' =>
      let! x := m in
      let! xs := rd_repeat n' m in
      rd_ret (x :: xs)
  end.

(** [for x in xs { items.push(f(x)) }]. *)
Fixpoint rd_map {A B} (f : A → Rd B) (l : list A) : Rd (list B) :=
  match l with
  | [] => rd_ret []
  | x :: l' =>
      let! y := f x in
      let! ys := rd_map f l' in
      rd_ret (y :: ys)
  end.

(** A decoder that never panics, whatever the buffer holds. *)
Definition rd_total {A} (m : Rd A) : Prop := ∀ b, m b ≠ Panic.

(** ** [#[repr(u8)]] enumerations

    What a wire enumeration promises: [to_u8] ([as u8]) and [try_from_u8]
    ([TryFrom<u8>]) are inverse to each other on the codes that are accepted. *)
Class U8Enum (T : Type) := {
  to_u8 : T → Z;
  try_from_u8 : Z → res ProtoError T;
  to_u8_range t : u8 (to_u8 t);
  try_from_to_u8 t : try_from_u8 (to_u8 t) = Ok t;
  try_from_u8_sound v t : try_from_u8 v = Ok t → to_u8 t = v;
  try_from_u8_total v : try_from_u8 v ≠ Panic
}.

(** ** Equations of the monad *)
Lemma rd_bind_ok {A B} (m : Rd A) (k : A → Rd B) b a b' :
  m b = Ok (a, b') → rd_bind m k b = k a b'.
Proof. intros H. unfold rd_bind. by rewrite H. Qed.
Lemma rd_bind_err {A B} (m : Rd A) (k : A → Rd B) b e :
  m b = Err e → rd_bind m k b = Err e.
Proof. intros H. unfold rd_bind. by rewrite H. Qed.
Lemma rd_bind_inv {A B} (m : Rd A) (k : A → Rd B) b c :
  rd_bind m k b = Ok c → ∃ a b', m b = Ok (a, b') ∧ k a b' = Ok c.
Proof. unfold rd_bind. destruct (m b) as [[a b']|e|]; naive_solver. Qed.
Lemma rd_bind_assoc {A B C} (m : Rd A) (k : A → Rd B) (h : B → Rd C) b :
  rd_bind (rd_bind m k) h b = rd_bind m (fun a => rd_bind (k a) h) b.
Proof. unfold rd_bind. by destruct (m b) as [[a b']|e|]. Qed.

Lemma need_ok n b : n <= blen b → need n b = Ok (tt, b).
Proof. intros. unfold need. case_ltb; done || lia. Qed.
Lemma need_err n b : blen b < n → need n b = Err (BufferTooShort n (blen b)).
Proof. intros. unfold need. case_ltb; done || lia. Qed.
Lemma advance_ok n b : n <= blen b → advance n b = Ok (tt, drop (Z.to_nat n) b).
Proof. intros. unfold advance. case_ltb; done || lia. Qed.
Lemma split_to_ok n b : n <= blen b →
  split_to n b = Ok (take (Z.to_nat n) b, drop (Z.to_nat n) b).
Proof. intros. unfold split_to. case_ltb; done || lia. Qed.
Lemma split_to_app a b : split_to (blen a) (a ++ b) = Ok (a, b).
Proof.
  rewrite split_to_ok by blen_lia. rewrite to_nat_blen.
  by rewrite take_app_length, drop_app_length.
Qed.
Lemma get_u16_be16 v b : u16 v → get_u16 (be16 v ++ b) = Ok (v, b).
Proof. intros. cbn. by rewrite of_be16_split. Qed.
Lemma get_u32_be32 v b : u32 v → get_u32 (be32 v ++ b) = Ok (v, b).
Proof. intros. cbn. by rewrite of_be32_split. Qed.

Create Rewrite HintDb rd.
#[export] Hint Rewrite @of_be16_split @of_be32_split using (assumption || unwidth; lia) : rd.

(** ** Loops *)
Lemma rd_repeat_fmap {A B} (m : Rd B) (enc : A → bytes) (f : A → B) (l : list A) rest :
  (∀ x r, x ∈ l → m (enc x ++ r) = Ok (f x, r)) →
  rd_repeat (length l) m (concat (enc <$> l) ++ rest) = Ok (f <$> l, rest).
Proof.
  revert rest. induction l as [|x l IH]; intros rest H; [done|]. cbn.
  rewrite <- (assoc_L (++)).
  rewrite (rd_bind_ok _ _ _ _ _ (H x (concat (enc <$> l) ++ rest) ltac:(set_solver))).
  by rewrite (rd_bind_ok _ _ _ _ _ (IH rest ltac:(set_solver))).
Qed.

Lemma rd_map_zip {A B C} (m : A → Rd B) (enc : C → bytes) (g : C → A) (f : C → B)
  (l : list C) rest :
  (∀ x r, x ∈ l → m (g x) (enc x ++ r) = Ok (f x, r)) →
  rd_map m (g <$> l) (concat (enc <$> l) ++ rest) = Ok (f <$> l, rest).
Proof.
  revert rest. induction l as [|x l IH]; intros rest H; [done|]. cbn.
  rewrite <- (assoc_L (++)).
  rewrite (rd_bind_ok _ _ _ _ _ (H x (concat (enc <$> l) ++ rest) ltac:(set_solver))).
  by rewrite (rd_bind_ok _ _ _ _ _ (IH rest ltac:(set_solver))).
Qed.

Lemma rd_repeat_length {A} n (m : Rd A) b l b' :
  rd_repeat n m b = Ok (l, b') → length l = n.
Proof.
  revert b l. induction n as [|n IH]; intros b l; cbn.
  - unfold rd_ret. naive_solver.
  - intros (x & b1 & _ & H)%rd_bind_inv.
    apply rd_bind_inv in H as (xs & b2 & Hxs & H). unfold rd_ret in H.
    simplify_eq. cbn. f_equal. by eapply IH.
Qed.

(** ** Totality *)
Lemma rd_total_ret {A} (a : A) : rd_total (rd_ret a).
Proof. done. Qed.
Lemma rd_total_fail {A} e : rd_total (@rd_fail A e).
Proof. done. Qed.
Lemma rd_total_bind {A B} (m : Rd A) (k : A → Rd B) :
  rd_total m → (∀ a, rd_total (k a)) → rd_total (rd_bind m k).
Proof.
  intros Hm Hk b. unfold rd_bind. specialize (Hm b).
  destruct (m b) as [[a b']|e|]; [apply Hk|done|done].
Qed.
Lemma rd_total_repeat {A} n (m : Rd A) : rd_total m → rd_total (rd_repeat n m).
Proof.
  intros Hm. induction n as [|n IH]; cbn; [apply rd_total_ret|].
  repeat (apply rd_total_bind; [done|intros ?]); by apply rd_total_ret.
Qed.
Lemma rd_total_map {A B} (f : A → Rd B) l :
  (∀ x, rd_total (f x)) → rd_total (rd_map f l).
Proof.
  intros Hf. induction l as [|x l IH]; cbn; [apply rd_total_ret|].
  apply rd_total_bind; [done|intros y].
  apply rd_total_bind; [done|intros ys]. apply rd_total_ret.
Qed.

#[export] Hint Resolve rd_total_ret rd_total_fail rd_total_repeat rd_total_map : wire.

(** [rd_uncons] exposes the leading bytes of a buffer that is about to be read;
    the impossible empty case is closed by the length known of the buffer. *)
Ltac buf_uncons b :=
  lazymatch b with
  | ?x :: ?b' => buf_uncons b'
  | _ => is_var b; destruct b; [exfalso; blen_lia|]
  end.
Ltac rd_uncons :=
  match goal with
  | |- context [rd_bind get_u8 _ ?b] => buf_uncons b
  | |- context [rd_bind get_u16 _ ?b] => buf_uncons b
  | |- context [rd_bind get_u32 _ ?b] => buf_uncons b
  | |- context [rd_bind (peek _) _ ?b] => buf_uncons b
  end.

(** Literal offsets as [nat]s, so that [take] and [drop] compute on them. *)
Ltac nat_lits :=
  repeat match goal with
  | |- context [Z.to_nat (Zpos ?p)] =>
      let m := eval vm_compute in (Z.to_nat (Zpos p)) in
      change (Z.to_nat (Zpos p)) with m
  | |- context [Z.to_nat Z0] => change (Z.to_nat Z0) with O
  end; cbn [firstn skipn]; rewrite ?drop_0, ?firstn_O.

(** [rd_step] runs the first operation of a decoder on a buffer whose leading
    bytes (or whose length) are known. *)
Ltac rd_step :=
  match goal with
  | |- context [rd_bind (need ?n) ?k ?b] =>
      rewrite (rd_bind_ok (need n) k b tt b (need_ok n b ltac:(blen_lia)))
  | |- context [rd_bind get_u8 ?k (?x :: ?b)] =>
      change (rd_bind get_u8 k (x :: b)) with (k x b)
  | |- context [rd_bind get_u16 ?k (?x :: ?y :: ?b)] =>
      change (rd_bind get_u16 k (x :: y :: b)) with (k (of_be16 x y) b)
  | |- context [rd_bind get_u32 ?k (?x :: ?y :: ?z :: ?t :: ?b)] =>
      change (rd_bind get_u32 k (x :: y :: z :: t :: b)) with (k (of_be32 x y z t) b)
  | |- context [rd_bind (peek 0) ?k (?x :: ?b)] =>
      change (rd_bind (peek 0) k (x :: b)) with (k x (x :: b))
  | |- context [rd_bind (peek 1) ?k (?x :: ?y :: ?b)] =>
      change (rd_bind (peek 1) k (x :: y :: b)) with (k y (x :: y :: b))
  | |- context [rd_bind (peek 2) ?k (?x :: ?y :: ?z :: ?b)] =>
      change (rd_bind (peek 2) k (x :: y :: z :: b)) with (k z (x :: y :: z :: b))
  | |- context [rd_bind (peek 3) ?k (?x :: ?y :: ?z :: ?t :: ?b)] =>
      change (rd_bind (peek 3) k (x :: y :: z :: t :: b)) with (k t (x :: y :: z :: t :: b))
  | |- context [rd_bind (rd_ret ?a) ?k ?b] => change (rd_bind (rd_ret a) k b) with (k a b)
  | |- context [rd_bind (rd_lift (Ok ?a)) ?k ?b] =>
      change (rd_bind (rd_lift (Ok a)) k b) with (k a b)
  | |- context [rd_bind remaining ?k ?b] =>
      change (rd_bind remaining k b) with (k (blen b) b)
  | |- context [rd_bind (rd_bind ?m ?k) ?h ?b] => rewrite (rd_bind_assoc m k h b)
  | |- context [rd_bind (advance ?n) ?k ?b] =>
      rewrite (rd_bind_ok (advance n) k b tt (drop (Z.to_nat n) b)
                 (advance_ok n b ltac:(blen_lia))); nat_lits
  | |- context [rd_bind (split_to (blen ?a)) ?k (?a ++ ?b)] =>
      rewrite (rd_bind_ok (split_to (blen a)) k (a ++ b) a b (split_to_app a b))
  | |- context [rd_bind (split_to ?n) ?k ?b] =>
      rewrite (rd_bind_ok (split_to n) k b _ _ (split_to_ok n b ltac:(blen_lia))); nat_lits
  end; cbv beta.

(** [rd_total_solve] proves that a decoder does not panic by running it: a
    failed guard returns an error, a passed one gives the length the getters
    after it rely on. *)
Ltac rd_total_step :=
  match goal with
  | |- rd_bind (need ?n) ?k ?b ≠ Panic =>
      let H := fresh "Hlen" in
      destruct (Z.lt_ge_cases (blen b) n) as [H|H];
      [rewrite (rd_bind_err _ _ _ _ (need_err n b H)); done
      |rewrite (rd_bind_ok _ _ _ _ _ (need_ok n b H)); cbv beta]
  | |- (if ?c then _ else _) _ ≠ Panic => let E := fresh "E" in destruct c eqn:E
  | |- (match ?c with _ => _ end) _ ≠ Panic => let E := fresh "E" in destruct c eqn:E
  | |- rd_fail _ _ ≠ Panic => done
  | |- rd_ret _ _ ≠ Panic => done
  | |- rd_bind (rd_fail _) _ _ ≠ Panic => done
  | |- rd_bind (rd_lift ?r) _ _ ≠ Panic =>
      lazymatch r with
      | Ok _ => fail | Err _ => done
      | Panic => by match goal with H : try_from_u8 _ = Panic |- _ =>
                      apply try_from_u8_total in H end
      | _ => let E := fresh "E" in destruct r eqn:E
      end
  | _ => rd_step
  | _ => rd_uncons
  end.
Ltac rd_total_solve := repeat rd_total_step; try done.

(** [rd_inv_solve] runs a decoder whose success is the premise of the goal. *)
Ltac rd_inv_step :=
  match goal with
  | |- rd_bind (need ?n) ?k ?b = Ok _ → _ =>
      let H := fresh "Hlen" in
      destruct (Z.lt_ge_cases (blen b) n) as [H|H];
      [rewrite (rd_bind_err _ _ _ _ (need_err n b H)); discriminate
      |rewrite (rd_bind_ok _ _ _ _ _ (need_ok n b H)); cbv beta]
  | |- (if ?c then _ else _) _ = Ok _ → _ => let E := fresh "E" in destruct c eqn:E
  | |- (match ?c with _ => _ end) _ = Ok _ → _ => let E := fresh "E" in destruct c eqn:E
  | |- rd_fail _ _ = Ok _ → _ => discriminate
  | |- rd_bind (rd_fail _) _ _ = Ok _ → _ => discriminate
  | |- rd_bind (rd_lift ?r) _ _ = Ok _ → _ =>
      lazymatch r with
      | Ok _ => fail
      | _ => let E := fresh "E" in destruct r eqn:E; [|discriminate|discriminate]
      end
  | _ => rd_step
  | _ => rd_uncons
  end.
Ltac rd_inv := repeat rd_inv_step.

(** [wf_inv] splits the well-formedness of an explicit buffer. *)
Ltac wf_inv :=
  repeat match goal with
  | H : Forall u8 (_ :: _) |- _ => apply Forall_cons in H as [? ?]
  | H : Forall u8 (_ ++ _) |- _ => apply Forall_app in H as [? ?]
  end.

(** ** Typed decoders

    [rd_typed P m]: from a buffer of bytes, [m] returns values that satisfy [P]
    and leaves a buffer of bytes. *)
Definition rd_typed {A} (P : A → Prop) (m : Rd A) : Prop :=
  ∀ b a b', wf_bytes b → m b = Ok (a, b') → P a ∧ wf_bytes b'.

Lemma rd_typed_bind {A B} (P : A → Prop) (Q : B → Prop) (m : Rd A) (k : A → Rd B) :
  rd_typed P m → (∀ a, P a → rd_typed Q (k a)) → rd_typed Q (rd_bind m k).
Proof.
  intros Hm Hk b c b' Hb (a & b1 & E1 & E2)%rd_bind_inv.
  destruct (Hm _ _ _ Hb E1). by eapply Hk.
Qed.
Lemma rd_typed_ret {A} (P : A → Prop) a : P a → rd_typed P (rd_ret a).
Proof. intros ? b x b' ? [= <- <-]. done. Qed.
Lemma rd_typed_fail {A} (P : A → Prop) e : rd_typed P (rd_fail e).
Proof. done. Qed.
Lemma rd_typed_get_u8 : rd_typed u8 get_u8.
Proof. intros [|x b] a b' Hb; cbn; [done|]. intros [= <- <-]. by wf_inv. Qed.
Lemma rd_typed_get_u16 : rd_typed u16 get_u16.
Proof.
  intros [|x [|y b]] a b' Hb; cbn; try done. intros [= <- <-]. wf_inv.
  split; [by apply of_be16_u16|done].
Qed.
Lemma rd_typed_need n : rd_typed (fun _ => True) (need n).
Proof. intros b a b' Hb. unfold need. case_ltb; [done|]. by intros [= <- <-]. Qed.
Lemma rd_typed_remaining : rd_typed (fun _ => True) remaining.
Proof. intros b a b' Hb. by intros [= <- <-]. Qed.
Lemma rd_typed_advance n : rd_typed (fun _ => True) (advance n).
Proof.
  intros b a b' Hb. unfold advance. case_ltb; [done|]. intros [= <- <-].
  split; [done|by apply Forall_drop].
Qed.
Lemma rd_typed_split_to n : rd_typed (Forall u8) (split_to n).
Proof.
  intros b a b' Hb. unfold split_to. case_ltb; [done|]. intros [= <- <-].
  split; [by apply Forall_take|by apply Forall_drop].
Qed.
Lemma rd_typed_lift {A} (r : res ProtoError A) : rd_typed (fun _ => True) (rd_lift r).
Proof. intros b a b' Hb. unfold rd_lift. destruct r; [|done|done]. by intros [= <- <-]. Qed.
Lemma rd_typed_repeat {A} (P : A → Prop) n m : rd_typed P m → rd_typed (Forall P) (rd_repeat n m).
Proof.
  intros Hm. induction n as [|n IH]; cbn; [by apply rd_typed_ret|].
  eapply rd_typed_bind; [done|]. intros a Ha. eapply rd_typed_bind; [done|].
  intros l Hl. apply rd_typed_ret. by constructor.
Qed.
Lemma rd_typed_map {A B} (P : A → Prop) (Q : B → Prop) f l :
  (∀ x, P x → rd_typed Q (f x)) → Forall P l → rd_typed (Forall Q) (rd_map f l).
Proof.
  intros Hf. induction 1 as [|x l Hx Hl IH]; cbn; [by apply rd_typed_ret|].
  eapply rd_typed_bind; [by apply Hf|]. intros a Ha. eapply rd_typed_bind; [done|].
  intros l' Hl'. apply rd_typed_ret. by constructor.
Qed.

(** [rd_typed_go] follows the structure of a decoder, leaving the goals about
    the values it returns. *)
Ltac rd_typed_step :=
  match goal with
  | |- rd_typed _ (rd_bind get_u8 _) => eapply rd_typed_bind; [apply rd_typed_get_u8|intros ? ?]
  | |- rd_typed _ (rd_bind get_u16 _) => eapply rd_typed_bind; [apply rd_typed_get_u16|intros ? ?]
  | |- rd_typed _ (rd_bind (need _) _) => eapply rd_typed_bind; [apply rd_typed_need|intros ? _]
  | |- rd_typed _ (rd_bind remaining _) =>
      eapply rd_typed_bind; [apply rd_typed_remaining|intros ? _]
  | |- rd_typed _ (rd_bind (advance _) _) =>
      eapply rd_typed_bind; [apply rd_typed_advance|intros ? _]
  | |- rd_typed _ (rd_bind (split_to _) _) =>
      eapply rd_typed_bind; [apply rd_typed_split_to|intros ? ?]
  | |- rd_typed _ (rd_bind (rd_lift _) _) =>
      eapply rd_typed_bind; [apply rd_typed_lift|intros ? _]
  | |- rd_typed _ (rd_ret _) => apply rd_typed_ret
  | |- rd_typed _ (rd_fail _) => apply rd_typed_fail
  | |- rd_typed _ (if ?c then _ else _) => destruct c
  end; cbv beta zeta.
Ltac rd_typed_go := repeat rd_typed_step.
