(* ===== verification/Tpkt.v ===== *)
(** * TPKT frames (proto/tpkt.rs) *)

From S2P Require Import Prelude Wire.
Local Open Scope Z_scope.

Record TpktFrame := { tpkt_payload : bytes }.

Definition TPKT_VERSION : Z := 0x03.
Definition TPKT_HEADER_LEN : Z := 4.

Definition TpktFrame_encode (f : TpktFrame) : res ProtoError bytes :=
  let total := TPKT_HEADER_LEN + blen (tpkt_payload f) in
  if 65535 <? total then
    Err (EncodingFailed ("frame too large: " +:+ pretty total +:+
                         " bytes exceeds TPKT maximum of 65535"))
  else
    Ok ([TPKT_VERSION] ++ [0x00] ++ be16 (as_u16 total) ++ tpkt_payload f).

Definition TpktFrame_decode : Rd TpktFrame :=
  let! _ := need TPKT_HEADER_LEN in
  let! version := peek 0 in
  if negb (version =? TPKT_VERSION) then rd_fail (InvalidMagic TPKT_VERSION version)
  else
    let! b2 := peek 2 in
    let! b3 := peek 3 in
    let total := of_be16 b2 b3 in
    if total <? TPKT_HEADER_LEN then rd_fail (BufferTooShort TPKT_HEADER_LEN total)
    else
      let! _ := need total in
      let! _ := advance TPKT_HEADER_LEN in
      let! payload := split_to (total - TPKT_HEADER_LEN) in
      rd_ret {| tpkt_payload := payload |}.

(** ** Encoding *)
Lemma TpktFrame_encode_ok f :
  4 + blen (tpkt_payload f) <= 65535 →
  TpktFrame_encode f = Ok (3 :: 0 :: be16 (4 + blen (tpkt_payload f)) ++ tpkt_payload f).
Proof.
  intros H. unfold TpktFrame_encode, TPKT_HEADER_LEN, TPKT_VERSION. case_ltb; [lia|].
  rewrite as_u16_small; [done|]. unwidth. blen_lia.
Qed.

Lemma TpktFrame_encode_inv f b :
  TpktFrame_encode f = Ok b →
  4 + blen (tpkt_payload f) <= 65535 ∧
  b = 3 :: 0 :: be16 (4 + blen (tpkt_payload f)) ++ tpkt_payload f.
Proof.
  intros H. assert (4 + blen (tpkt_payload f) <= 65535).
  { unfold TpktFrame_encode, TPKT_HEADER_LEN in H. revert H. case_ltb; [done|lia]. }
  split; [done|]. rewrite TpktFrame_encode_ok in H by done. congruence.
Qed.

(** ** Decoding *)
Lemma TpktFrame_decode_frame r payload rest :
  4 + blen payload <= 65535 →
  TpktFrame_decode (3 :: r :: be16 (4 + blen payload) ++ payload ++ rest) =
  Ok ({| tpkt_payload := payload |}, rest).
Proof.
  intros H. unfold TpktFrame_decode, TPKT_HEADER_LEN, TPKT_VERSION. cbn [be16 app].
  assert (Hu : u16 (4 + blen payload)) by (unwidth; blen_lia).
  rd_step. rd_step. cbn [Z.eqb Pos.eqb negb]. rd_step. rd_step.
  rewrite of_be16_split by done. case_ltb; [blen_lia|].
  do 2 rd_step. replace (4 + blen payload - 4) with (blen payload) by lia.
  by rd_step.
Qed.

(** A TPKT frame that the encoder accepts is read back by the decoder,
    which stops exactly at the end of the frame whatever bytes follow. *)
Theorem TpktFrame_roundtrip f b rest :
  TpktFrame_encode f = Ok b → TpktFrame_decode (b ++ rest) = Ok (f, rest).
Proof.
  intros (Hl & ->)%TpktFrame_encode_inv. cbn [app]. rewrite <- (assoc_L (++)).
  rewrite TpktFrame_decode_frame by done. by destruct f.
Qed.

(** ** Totality and exactness *)
Lemma TpktFrame_decode_total : rd_total TpktFrame_decode.
Proof. intros b. unfold TpktFrame_decode, TPKT_HEADER_LEN. rd_total_solve. Qed.

(** C39: the decoder accepts exactly the byte strings that begin with a
    complete version-3 frame, and returns the payload that the length field
    delimits; everything after it is left unread. *)
Theorem TpktFrame_decode_exact b f rest :
  wf_bytes b →
  TpktFrame_decode b = Ok (f, rest) ↔
  ∃ r, 4 + blen (tpkt_payload f) <= 65535 ∧
       b = 3 :: r :: be16 (4 + blen (tpkt_payload f)) ++ tpkt_payload f ++ rest.
Proof.
  intros Hwf. split.
  - unfold TpktFrame_decode, TPKT_HEADER_LEN, TPKT_VERSION. rd_inv.
    intros [= <- <-]. cbn [tpkt_payload]. apply negb_false_iff, Z.eqb_eq in E as ->.
    wf_inv. rewrite blen_take. exists z0.
    pose proof (of_be16_u16 z1 z2 ltac:(done) ltac:(done)) as Hu. unwidth.
    replace (4 + _) with (of_be16 z1 z2) by blen_lia.
    rewrite be16_of_be16 by (unwidth; done). split; [lia|].
    cbn [app]. by rewrite take_drop.
  - intros (r & Hl & ->). rewrite TpktFrame_decode_frame by done. by destruct f.
Qed.

(** The theorems at a concrete frame (the payload ["hello"] of the unit test). *)
Lemma TpktFrame_roundtrip_witness :
  TpktFrame_decode ([3; 0; 0; 9; 104; 101; 108; 108; 111] ++ [1; 2]) =
  Ok ({| tpkt_payload := [104; 101; 108; 108; 111] |}, [1; 2]).
Proof. apply TpktFrame_roundtrip. reflexivity. Defined.

Lemma TpktFrame_decode_exact_witness :
  TpktFrame_decode [3; 0; 0; 6; 7; 8; 9] = Ok ({| tpkt_payload := [7; 8] |}, [9]).
Proof.
  apply TpktFrame_decode_exact.
  - repeat constructor; unwidth; lia.
  - exists 0. split; [vm_compute; discriminate|reflexivity].
Defined.
