(* ===== verification/Cotp.v ===== *)
(** * COTP PDUs (proto/cotp.rs) *)

From S2P Require Import Prelude Wire.
Local Open Scope Z_scope.

Inductive CotpPdu : Type :=
| ConnectRequest (dst_ref src_ref rack slot : Z)
| ConnectConfirm (dst_ref src_ref : Z)
| Data (tpdu_nr : Z) (last : bool) (payload : bytes)
| CotpError (dst_ref src_ref reject_cause : Z).

Definition CODE_CR : Z := 0xE0.
Definition CODE_CC : Z := 0xD0.
Definition CODE_DT : Z := 0xF0.
Definition CODE_ER : Z := 0x70.

Definition CotpPdu_encode (p : CotpPdu) : bytes :=
  match p with
  | ConnectRequest dst_ref src_ref rack slot =>
      let dst_tsap := Z.lor (as_u8 (Z.shiftl (Z.land rack 0x07) 5)) (Z.land slot 0x1F) in
      [17] ++ [CODE_CR] ++ be16 dst_ref ++ be16 src_ref ++ [0x00] ++
      [0xC1; 2; 0x01; 0x00] ++
      [0xC2; 2; 0x01; dst_tsap] ++
      [0xC0; 1; 0x0A]
  | ConnectConfirm dst_ref src_ref =>
      [6] ++ [CODE_CC] ++ be16 dst_ref ++ be16 src_ref ++ [0x00]
  | Data tpdu_nr last payload =>
      let tpdu_byte := Z.lor (Z.land tpdu_nr 0x7F) (if last then 0x80 else 0) in
      [2] ++ [CODE_DT] ++ [tpdu_byte] ++ payload
  | CotpError dst_ref src_ref reject_cause =>
      [6] ++ [CODE_ER] ++ be16 dst_ref ++ be16 src_ref ++ [reject_cause]
  end.

(** The parameter loop of a connect request,
    [while buf.len() >= 3 { code; len; if buf.len() < len { break }; ... }].
    Every turn consumes two bytes at least, so the length of the buffer is
    enough fuel ([cotp_params_fuel]). *)
Fixpoint cotp_params (fuel : nat) (rack slot : Z) : Rd (Z * Z) := fun b =>
  match fuel with
  | O => Ok ((rack, slot), b)
  | S fuel' =>
      if blen b <? 3 then Ok ((rack, slot), b)
      else
        (let! param_code := get_u8 in
         let! param_len := get_u8 in
         let! n := remaining in
         if n <? param_len then rd_ret (rack, slot)
         else
           let! param_data := split_to param_len in
           if (param_code =? 0xC2) && (2 <=? param_len) then
             let! tsap := rd_lift (match param_data !! 1%nat with
                                   | Some t => Ok t | None => Panic end) in
             cotp_params fuel' (Z.land (Z.shiftr tsap 5) 0x07) (Z.land tsap 0x1F)
           else cotp_params fuel' rack slot) b
  end.

Definition CotpPdu_decode : Rd CotpPdu :=
  let! _ := need 2 in
  let! code := peek 1 in
  if code =? CODE_CR then
    let! _ := need 7 in
    let! _ := advance 2 in
    let! dst_ref := get_u16 in
    let! src_ref := get_u16 in
    let! _ := get_u8 in
    let! (rack, slot) := (fun b => cotp_params (length b) 0 0 b) in
    rd_ret (ConnectRequest dst_ref src_ref rack slot)
  else if code =? CODE_CC then
    let! _ := need 7 in
    let! _ := advance 2 in
    let! dst_ref := get_u16 in
    let! src_ref := get_u16 in
    let! n := remaining in
    let! _ := advance n in
    rd_ret (ConnectConfirm dst_ref src_ref)
  else if code =? CODE_DT then
    let! _ := need 3 in
    let! _ := advance 2 in
    let! tpdu_byte := get_u8 in
    let tpdu_nr := Z.land tpdu_byte 0x7F in
    let last := negb (Z.land tpdu_byte 0x80 =? 0) in
    let! n := remaining in
    let! payload := split_to n in
    rd_ret (Data tpdu_nr last payload)
  else if code =? CODE_ER then
    let! _ := need 6 in
    let! _ := advance 2 in
    let! dst_ref := get_u16 in
    let! src_ref := get_u16 in
    let! n := remaining in
    let! reject_cause := if 0 <? n then get_u8 else rd_ret 0 in
    rd_ret (CotpError dst_ref src_ref reject_cause)
  else rd_fail (UnsupportedPduType code).

(** The fields fit their Rust types. *)
Definition CotpPdu_wf (p : CotpPdu) : Prop :=
  match p with
  | ConnectRequest d s r sl => u16 d ∧ u16 s ∧ u8 r ∧ u8 sl
  | ConnectConfirm d s => u16 d ∧ u16 s
  | Data n _ p => u8 n ∧ wf_bytes p
  | CotpError d s c => u16 d ∧ u16 s ∧ u8 c
  end.

(** What the wire keeps of a PDU: three bits of rack, five of slot, seven of
    the sequence number. *)
Definition CotpPdu_wire (p : CotpPdu) : CotpPdu :=
  match p with
  | ConnectRequest d s r sl => ConnectRequest d s (r mod 8) (sl mod 32)
  | Data n l p => Data (n mod 128) l p
  | p => p
  end.

(** ** The parameter loop *)
Lemma cotp_params_turn fuel rack slot b :
  cotp_params (S fuel) rack slot b =
  match b with
  | c :: l :: d =>
      if blen d <? 1 then Ok ((rack, slot), b)
      else if blen d <? l then Ok ((rack, slot), d)
      else
        let pd := take (Z.to_nat l) d in
        let d' := drop (Z.to_nat l) d in
        if (c =? 0xC2) && (2 <=? l) then
          match pd !! 1%nat with
          | Some t => cotp_params fuel (Z.land (Z.shiftr t 5) 7) (Z.land t 31) d'
          | None => Panic
          end
        else cotp_params fuel rack slot d'
  | _ => Ok ((rack, slot), b)
  end.
Proof.
  destruct b as [|c [|l d]]; [done|done|]. cbn [cotp_params].
  destruct (Z.ltb_spec (blen (c :: l :: d)) 3), (Z.ltb_spec (blen d) 1);
    [done|blen_lia|blen_lia|].
  do 3 rd_step. destruct (Z.ltb_spec (blen d) l); [done|].
  rd_step. destruct ((c =? 194) && (2 <=? l)); [|done].
  by destruct (take (Z.to_nat l) d !! 1%nat).
Qed.

Lemma cotp_params_fuel n rack slot b :
  (length b <= n)%nat → cotp_params n rack slot b = cotp_params (length b) rack slot b.
Proof.
  revert rack slot b.
  assert (∀ m n rack slot b, (length b <= m)%nat → (length b <= n)%nat →
    cotp_params n rack slot b = cotp_params m rack slot b) as H; [|eauto].
  induction m as [|m IH]; intros [|n'] rack slot b Hm Hn.
  1-3: by (destruct b as [|? [|? ?]]; [try done|cbn in *; lia|cbn in *; lia]).
  rewrite !cotp_params_turn. destruct b as [|c [|l d]]; [done|done|].
  cbn [length] in *. repeat case_ltb; try done; cbn [andb].
  all: try (destruct (_ !! _); [|done]); apply IH; rewrite length_drop; lia.
Qed.

Lemma cotp_params_total n rack slot b : cotp_params n rack slot b ≠ Panic.
Proof.
  revert rack slot b. induction n as [|n IH]; intros rack slot b; [done|].
  rewrite cotp_params_turn. destruct b as [|c [|l d]]; [done|done|].
  repeat case_ltb; try done; cbn [andb]; try apply IH.
  destruct (_ !! _) eqn:E; [apply IH|].
  apply lookup_ge_None in E. rewrite length_take in E. unfold blen in *. lia.
Qed.

(** ** Totality *)

(** Decoding a COTP PDU never panics, on any byte string. *)
Lemma CotpPdu_decode_total : rd_total CotpPdu_decode.
Proof.
  intros b. unfold CotpPdu_decode. rd_total_solve.
  - unfold rd_bind. destruct (cotp_params _ _ _ _) as [[[? ?] ?]| |] eqn:Ep; [done|done|].
    by apply cotp_params_total in Ep.
  - match goal with |- context [0 <? blen ?l] => by destruct l end.
Qed.

(** ** Round trips *)
Lemma tsap_roundtrip rack slot : u8 rack → u8 slot →
  let t := Z.lor (as_u8 (Z.shiftl (Z.land rack 0x07) 5)) (Z.land slot 0x1F) in
  Z.land (Z.shiftr t 5) 0x07 = rack mod 8 ∧ Z.land t 0x1F = slot mod 32.
Proof.
  intros Hr Hs. cbv zeta.
  rewrite (land_7 rack), (land_31 slot).
  assert (H : ∀ r s, 0 <= r < Z.of_nat 8 → 0 <= s < Z.of_nat 32 →
    (Z.land (Z.shiftr (Z.lor (as_u8 (Z.shiftl r 5)) s) 5) 7 =? r) &&
    (Z.land (Z.lor (as_u8 (Z.shiftl r 5)) s) 31 =? s) = true).
  { intros r s Hr' Hs'. revert s Hs'. apply Z_exhaust. revert r Hr'. apply Z_exhaust.
    vm_compute. reflexivity. }
  specialize (H (rack mod 8) (slot mod 32)).
  rewrite andb_true_iff, !Z.eqb_eq in H. apply H; apply Z.mod_pos_bound; lia.
Qed.

Lemma tpdu_byte_roundtrip nr (last : bool) : u8 nr →
  let t := Z.lor (Z.land nr 0x7F) (if last then 0x80 else 0) in
  Z.land t 0x7F = nr mod 128 ∧ negb (Z.land t 0x80 =? 0) = last.
Proof.
  intros Hn. cbv zeta. rewrite (land_127 nr).
  assert (H : ∀ n, 0 <= n < Z.of_nat 128 →
    (Z.land (Z.lor n (if last then 128 else 0)) 127 =? n) &&
    (eqb (negb (Z.land (Z.lor n (if last then 128 else 0)) 128 =? 0)) last) = true).
  { apply Z_exhaust. destruct last; vm_compute; reflexivity. }
  specialize (H (nr mod 128) ltac:(apply Z.mod_pos_bound; lia)).
  by rewrite andb_true_iff, Z.eqb_eq, eqb_true_iff in H.
Qed.

Lemma cotp_params_cr t :
  cotp_params 11 0 0 [0xC1; 2; 0x01; 0x00; 0xC2; 2; 0x01; t; 0xC0; 1; 0x0A] =
  Ok ((Z.land (Z.shiftr t 5) 7, Z.land t 31), []).
Proof. reflexivity. Qed.

Lemma CotpPdu_decode_encode p :
  CotpPdu_wf p → CotpPdu_decode (CotpPdu_encode p) = Ok (CotpPdu_wire p, []).
Proof.
  unfold CotpPdu_decode.
  destruct p as [d s r sl|d s|n l pl|d s c]; cbn [CotpPdu_wf CotpPdu_encode CotpPdu_wire];
    unfold CODE_CR, CODE_CC, CODE_DT, CODE_ER.
  - intros (Hd & Hs & Hr & Hsl). cbn [be16 app].
    do 2 rd_step. cbn [Z.eqb Pos.eqb]. do 5 rd_step. rewrite !of_be16_split by done.
    unfold rd_bind. cbn [length]. rewrite cotp_params_cr.
    destruct (tsap_roundtrip r sl Hr Hsl) as [-> ->]. done.
  - intros (Hd & Hs). cbn [be16 app]. do 2 rd_step. cbn [Z.eqb Pos.eqb].
    do 5 rd_step. rd_step. by rewrite !of_be16_split.
  - intros (Hn & Hp). cbn [app]. do 2 rd_step. cbn [Z.eqb Pos.eqb].
    do 5 rd_step. rewrite to_nat_blen.
    destruct (tpdu_byte_roundtrip n l Hn) as [-> ->].
    by rewrite firstn_all, drop_all.
  - intros (Hd & Hs & Hc). cbn [be16 app]. do 2 rd_step. cbn [Z.eqb Pos.eqb].
    do 5 rd_step. cbn [blen Z.ltb]. by rewrite !of_be16_split.
Qed.

(** Every COTP PDU the stack encodes is decoded to itself, up to the bits
    the wire format keeps (rack modulo 8, slot modulo 32, sequence number
    modulo 128); in particular a connect request for rack < 8 and slot < 32
    and every data PDU number < 128 survive unchanged. *)
Theorem CotpPdu_roundtrip p :
  CotpPdu_wf p → CotpPdu_decode (CotpPdu_encode p) = Ok (CotpPdu_wire p, []).
Proof. apply CotpPdu_decode_encode. Qed.

Lemma CotpPdu_roundtrip_witness :
  CotpPdu_decode (CotpPdu_encode (ConnectRequest 0 1 1 3)) = Ok (ConnectRequest 0 1 1 3, []).
Proof. apply (CotpPdu_roundtrip (ConnectRequest 0 1 1 3)). cbn. unwidth. lia. Defined.
