(* ===== verification/S7Header.v ===== *)
(** * S7 header and wire enumerations (proto/s7/header.rs) *)

From S2P Require Import Prelude Wire.
Local Open Scope Z_scope.

Definition S7_MAGIC : Z := 0x32.

Inductive PduType := Job | Ack | AckData | UserData.

Definition PduType_as_u8 (t : PduType) : Z :=
  match t with
  | Job => 0x01
  | Ack => 0x02
  | AckData => 0x03
  | UserData => 0x07
  end.

Definition PduType_try_from (v : Z) : res ProtoError PduType :=
  match v with
  | 0x01 => Ok Job
  | 0x02 => Ok Ack
  | 0x03 => Ok AckData
  | 0x07 => Ok UserData
  | _ => Err (UnsupportedPduType v)
  end.

Inductive Area :=
| PeripheralInput | ProcessInput | ProcessOutput | Marker | DataBlock
| InstanceDB | LocalData | ACounter | ATimer.

Definition Area_as_u8 (a : Area) : Z :=
  match a with
  | PeripheralInput => 0x80
  | ProcessInput => 0x81
  | ProcessOutput => 0x82
  | Marker => 0x83
  | DataBlock => 0x84
  | InstanceDB => 0x85
  | LocalData => 0x86
  | ACounter => 0x1C
  | ATimer => 0x1D
  end.

Definition Area_try_from (v : Z) : res ProtoError Area :=
  match v with
  | 0x80 => Ok PeripheralInput
  | 0x81 => Ok ProcessInput
  | 0x82 => Ok ProcessOutput
  | 0x83 => Ok Marker
  | 0x84 => Ok DataBlock
  | 0x85 => Ok InstanceDB
  | 0x86 => Ok LocalData
  | 0x1C => Ok ACounter
  | 0x1D => Ok ATimer
  | _ => Err (UnsupportedArea v)
  end.

Inductive TransportSize :=
| Bit | Byte | Char | Word | Int | DWord | DInt | Real | Date | Tod | Time
| S5Time | DtL | TCounter | TTimer.

Definition TransportSize_as_u8 (t : TransportSize) : Z :=
  match t with
  | Bit => 0x01
  | Byte => 0x02
  | Char => 0x03
  | Word => 0x04
  | Int => 0x05
  | DWord => 0x06
  | DInt => 0x07
  | Real => 0x08
  | Date => 0x09
  | Tod => 0x0A
  | Time => 0x0B
  | S5Time => 0x0C
  | DtL => 0x0F
  | TCounter => 0x1C
  | TTimer => 0x1D
  end.

Definition TransportSize_try_from (v : Z) : res ProtoError TransportSize :=
  match v with
  | 0x01 => Ok Bit
  | 0x02 => Ok Byte
  | 0x03 => Ok Char
  | 0x04 => Ok Word
  | 0x05 => Ok Int
  | 0x06 => Ok DWord
  | 0x07 => Ok DInt
  | 0x08 => Ok Real
  | 0x09 => Ok Date
  | 0x0A => Ok Tod
  | 0x0B => Ok Time
  | 0x0C => Ok S5Time
  | 0x0F => Ok DtL
  | 0x1C => Ok TCounter
  | 0x1D => Ok TTimer
  | _ => Err (UnsupportedTransportSize v)
  end.

#[export] Instance PduType_eq_dec : EqDecision PduType.
Proof. solve_decision. Defined.
#[export] Instance Area_eq_dec : EqDecision Area.
Proof. solve_decision. Defined.
#[export] Instance TransportSize_eq_dec : EqDecision TransportSize.
Proof. solve_decision. Defined.

(** The three enumerations implement the wire-enumeration interface. *)
Ltac enum_sound f :=
  intros v t; unfold f;
  repeat (case_match; try discriminate; try (by intros [= <-])).

#[export] Instance PduType_U8Enum : U8Enum PduType.
Proof.
  refine {| to_u8 := PduType_as_u8; try_from_u8 := PduType_try_from |}.
  - intros []; unwidth; cbn; lia.
  - by intros [].
  - enum_sound PduType_try_from.
  - intros v. unfold PduType_try_from. by repeat case_match.
Defined.

#[export] Instance Area_U8Enum : U8Enum Area.
Proof.
  refine {| to_u8 := Area_as_u8; try_from_u8 := Area_try_from |}.
  - intros []; unwidth; cbn; lia.
  - by intros [].
  - enum_sound Area_try_from.
  - intros v. unfold Area_try_from. by repeat case_match.
Defined.

#[export] Instance TransportSize_U8Enum : U8Enum TransportSize.
Proof.
  refine {| to_u8 := TransportSize_as_u8; try_from_u8 := TransportSize_try_from |}.
  - intros []; unwidth; cbn; lia.
  - by intros [].
  - enum_sound TransportSize_try_from.
  - intros v. unfold TransportSize_try_from. by repeat case_match.
Defined.

Record S7Header := {
  pdu_type : PduType;
  reserved : Z;
  pdu_ref : Z;
  param_len : Z;
  data_len : Z;
  error_class : option Z;
  error_code : option Z;
}.

Definition S7Header_encode (h : S7Header) : bytes :=
  [S7_MAGIC] ++ [to_u8 (pdu_type h)] ++ be16 (reserved h) ++ be16 (pdu_ref h) ++
  be16 (param_len h) ++ be16 (data_len h) ++
  match error_class h, error_code h with
  | Some ec, Some ecd => [ec] ++ [ecd]
  | _, _ => []
  end.

Definition S7Header_decode : Rd S7Header :=
  let! _ := need 10 in
  let! magic := get_u8 in
  if negb (magic =? S7_MAGIC) then rd_fail (InvalidMagic S7_MAGIC magic)
  else
    let! t := get_u8 in
    let! pdu_type := rd_lift (try_from_u8 t) in
    let! reserved := get_u16 in
    let! pdu_ref := get_u16 in
    let! param_len := get_u16 in
    let! data_len := get_u16 in
    let! n := remaining in
    let! (error_class, error_code) :=
      match pdu_type with
      | Ack | AckData =>
          if 2 <=? n then
            let! a := get_u8 in
            let! c := get_u8 in
            rd_ret (Some a, Some c)
          else rd_ret (None, None)
      | _ => rd_ret (None, None)
      end in
    rd_ret {| pdu_type := pdu_type; reserved := reserved; pdu_ref := pdu_ref;
              param_len := param_len; data_len := data_len;
              error_class := error_class; error_code := error_code |}.

(** An acknowledgement carries the two error bytes, a request does not. *)
Definition has_error_fields (t : PduType) : bool :=
  match t with Ack | AckData => true | _ => false end.

Definition S7Header_wf (h : S7Header) : Prop :=
  u16 (reserved h) ∧ u16 (pdu_ref h) ∧ u16 (param_len h) ∧ u16 (data_len h) ∧
  if has_error_fields (pdu_type h) then
    ∃ a c, error_class h = Some a ∧ error_code h = Some c ∧ u8 a ∧ u8 c
  else error_class h = None ∧ error_code h = None.

(** ** Totality and round trip *)
Lemma S7Header_decode_total : rd_total S7Header_decode.
Proof.
  intros b. unfold S7Header_decode. rd_total_solve.
  destruct a; rd_total_solve; case_ltb; rd_total_solve.
Qed.

Lemma S7Header_decode_encode h rest :
  S7Header_wf h → S7Header_decode (S7Header_encode h ++ rest) = Ok (h, rest).
Proof.
  destruct h as [t r p pl dl ec ecd].
  intros (Hr & Hp & Hpl & Hdl & He).
  cbn [pdu_type reserved pdu_ref param_len data_len error_class error_code] in *.
  unfold S7Header_decode, S7Header_encode, S7_MAGIC.
  cbn [pdu_type reserved pdu_ref param_len data_len error_class error_code be16 app].
  do 2 rd_step. cbn [Z.eqb Pos.eqb negb]. rd_step. rewrite try_from_to_u8.
  do 6 rd_step. rewrite !of_be16_split by done.
  destruct t; cbn [has_error_fields] in He.
  1, 4: by destruct He as [-> ->].
  all: destruct He as (a & c & -> & -> & Ha & Hc); cbn [app].
  all: case_ltb; [done|blen_lia].
Qed.

(** An S7 header is read back from its encoding, whatever follows it: the
    PDU type, the reference number, both length fields and, exactly for
    acknowledgements, the two error bytes. *)
Theorem S7Header_roundtrip h rest :
  S7Header_wf h → S7Header_decode (S7Header_encode h ++ rest) = Ok (h, rest).
Proof. apply S7Header_decode_encode. Qed.

Lemma S7Header_roundtrip_witness :
  let h := {| pdu_type := AckData; reserved := 0; pdu_ref := 2; param_len := 8;
              data_len := 4; error_class := Some 0; error_code := Some 0 |} in
  S7Header_decode (S7Header_encode h ++ [1; 2; 3]) = Ok (h, [1; 2; 3]).
Proof.
  intros h. apply S7Header_roundtrip. repeat split; try (cbn; unwidth; lia).
  exists 0, 0. split_and!; try done; unwidth; lia.
Defined.

(** The wire codes of PDU types, areas and transport sizes are read back
    to the value that was written, and a code is accepted only if it is the
    code of the value returned. *)
Theorem enum_codes (v : Z) :
  (∀ t : PduType, PduType_try_from v = Ok t ↔ v = PduType_as_u8 t) ∧
  (∀ a : Area, Area_try_from v = Ok a ↔ v = Area_as_u8 a) ∧
  (∀ s : TransportSize, TransportSize_try_from v = Ok s ↔ v = TransportSize_as_u8 s).
Proof.
  assert (H : ∀ T (U : U8Enum T) (t : T), try_from_u8 v = Ok t ↔ v = to_u8 t).
  { intros T U t. split; [intros E; by apply try_from_u8_sound in E|].
    intros ->. apply try_from_to_u8. }
  split_and!; intros x;
    [apply (H _ PduType_U8Enum x)|apply (H _ Area_U8Enum x)|apply (H _ TransportSize_U8Enum x)].
Qed.

(** A decoded header fits its types; only acknowledgements have error bytes. *)
Definition S7Header_typed (h : S7Header) : Prop :=
  u16 (pdu_ref h) ∧ u16 (param_len h) ∧ u16 (data_len h) ∧ u16 (reserved h) ∧
  match error_class h, error_code h with
  | Some a, Some c => u8 a ∧ u8 c ∧ has_error_fields (pdu_type h) = true
  | None, None => True
  | _, _ => False
  end.
Lemma S7Header_decode_typed : rd_typed S7Header_typed S7Header_decode.
Proof.
  unfold S7Header_decode. rd_typed_go.
  eapply (rd_typed_bind (fun p : option Z * option Z => match p with
    | (Some x, Some y) => u8 x ∧ u8 y ∧ has_error_fields a2 = true
    | (None, None) => True | _ => False end)).
  - case_match; rd_typed_go; done.
  - intros [ec cd] Hp. rd_typed_go. by split_and!.
Qed.
