(* ===== verification/Negotiate.v ===== *)
(** * PDU-size negotiation messages (proto/s7/negotiate.rs) *)

From S2P Require Import Prelude Wire.
Local Open Scope Z_scope.

Definition FUNC_NEGOTIATE : Z := 0xF0.

Record NegotiateRequest := {
  req_max_amq_calling : Z;
  req_max_amq_called : Z;
  req_pdu_length : Z;
}.

Definition NegotiateRequest_encode (r : NegotiateRequest) : bytes :=
  [FUNC_NEGOTIATE] ++ [0x00] ++ be16 (req_max_amq_calling r) ++
  be16 (req_max_amq_called r) ++ be16 (req_pdu_length r).

Definition NegotiateRequest_decode : Rd NegotiateRequest :=
  let! _ := need 8 in
  let! func := get_u8 in
  if negb (func =? FUNC_NEGOTIATE) then rd_fail (UnsupportedFunction func)
  else
    let! _ := get_u8 in
    let! a := get_u16 in
    let! b := get_u16 in
    let! p := get_u16 in
    rd_ret {| req_max_amq_calling := a; req_max_amq_called := b; req_pdu_length := p |}.

Record NegotiateResponse := {
  resp_max_amq_calling : Z;
  resp_max_amq_called : Z;
  resp_pdu_length : Z;
}.

Definition NegotiateResponse_encode (r : NegotiateResponse) : bytes :=
  [FUNC_NEGOTIATE] ++ [0x00] ++ be16 (resp_max_amq_calling r) ++
  be16 (resp_max_amq_called r) ++ be16 (resp_pdu_length r).

Definition NegotiateResponse_decode : Rd NegotiateResponse :=
  let! _ := need 8 in
  let! func := get_u8 in
  if negb (func =? FUNC_NEGOTIATE) then rd_fail (UnsupportedFunction func)
  else
    let! _ := get_u8 in
    let! a := get_u16 in
    let! b := get_u16 in
    let! p := get_u16 in
    rd_ret {| resp_max_amq_calling := a; resp_max_amq_called := b; resp_pdu_length := p |}.

Definition NegotiateRequest_wf (r : NegotiateRequest) : Prop :=
  u16 (req_max_amq_calling r) ∧ u16 (req_max_amq_called r) ∧ u16 (req_pdu_length r).
Definition NegotiateResponse_wf (r : NegotiateResponse) : Prop :=
  u16 (resp_max_amq_calling r) ∧ u16 (resp_max_amq_called r) ∧ u16 (resp_pdu_length r).

Lemma NegotiateRequest_decode_encode r rest :
  NegotiateRequest_wf r →
  NegotiateRequest_decode (NegotiateRequest_encode r ++ rest) = Ok (r, rest).
Proof.
  destruct r. intros (? & ? & ?). cbn in *.
  unfold NegotiateRequest_decode, NegotiateRequest_encode, FUNC_NEGOTIATE. cbn [be16 app].
  do 2 rd_step. cbn [Z.eqb Pos.eqb negb]. do 4 rd_step. by rewrite !of_be16_split.
Qed.

Lemma NegotiateResponse_decode_encode r rest :
  NegotiateResponse_wf r →
  NegotiateResponse_decode (NegotiateResponse_encode r ++ rest) = Ok (r, rest).
Proof.
  destruct r. intros (? & ? & ?). cbn in *.
  unfold NegotiateResponse_decode, NegotiateResponse_encode, FUNC_NEGOTIATE. cbn [be16 app].
  do 2 rd_step. cbn [Z.eqb Pos.eqb negb]. do 4 rd_step. by rewrite !of_be16_split.
Qed.

Lemma NegotiateRequest_decode_total : rd_total NegotiateRequest_decode.
Proof. intros b. unfold NegotiateRequest_decode. rd_total_solve. Qed.
Lemma NegotiateResponse_decode_total : rd_total NegotiateResponse_decode.
Proof. intros b. unfold NegotiateResponse_decode. rd_total_solve. Qed.

(** The values a decoder returns fit their types. *)
Lemma NegotiateRequest_decode_wf b r rest :
  wf_bytes b → NegotiateRequest_decode b = Ok (r, rest) → NegotiateRequest_wf r.
Proof.
  intros Hwf. unfold NegotiateRequest_decode. rd_inv. intros [= <- <-].
  wf_inv. unfold NegotiateRequest_wf. split_and!; cbn; by eauto with wire.
Qed.
