(* ===== verification/ReadVar.v ===== *)
(** * Read-variable requests and responses (proto/s7/read_var.rs) *)

From S2P Require Import Prelude Wire S7Header.
Local Open Scope Z_scope.

Definition FUNC_READ_VAR : Z := 0x04.
Definition ITEM_SPEC : Z := 0x12.
Definition ITEM_LEN : Z := 0x0A.
Definition ADDR_ANY : Z := 0x10.

Record AddressItem := {
  area : Area;
  db_number : Z;
  start : Z;
  bit_offset : Z;
  item_length : Z;
  transport : TransportSize;
}.

Record ReadVarRequest := { read_items : list AddressItem }.

Record DataItem := {
  return_code : Z;
  item_data : bytes;
}.

Record ReadVarResponse := { resp_items : list DataItem }.

(** The 24-bit address field, before it is cut to three bytes.  The
    multiplication is Rust's [u32] multiplication (wrapping in release
    builds). *)
Definition addr_bits (item : AddressItem) : Z :=
  match transport item with
  | TTimer | TCounter => start item
  | _ => Z.lor (as_u32 (start item * 8)) (bit_offset item)
  end.

Definition AddressItem_encode (item : AddressItem) : bytes :=
  [ITEM_SPEC] ++ [ITEM_LEN] ++ [ADDR_ANY] ++ [to_u8 (transport item)] ++
  be16 (item_length item) ++ be16 (db_number item) ++ [to_u8 (area item)] ++
  let a := addr_bits item in
  [Z.land (Z.shiftr a 16) 0xFF; Z.land (Z.shiftr a 8) 0xFF; Z.land a 0xFF].

Definition AddressItem_decode : Rd AddressItem :=
  let! _ := need 12 in
  let! spec := get_u8 in
  if negb (spec =? ITEM_SPEC) then rd_fail (InvalidMagic ITEM_SPEC spec)
  else
    let! _ := get_u8 in
    let! addr_type := get_u8 in
    if negb (addr_type =? ADDR_ANY) then rd_fail (InvalidMagic ADDR_ANY addr_type)
    else
      let! t := get_u8 in
      let! transport := rd_lift (try_from_u8 t) in
      let! length := get_u16 in
      let! db_number := get_u16 in
      let! a := get_u8 in
      let! area := rd_lift (try_from_u8 a) in
      let! b0 := get_u8 in
      let! b1 := get_u8 in
      let! b2 := get_u8 in
      let addr := Z.lor (Z.lor (Z.shiftl b0 16) (Z.shiftl b1 8)) b2 in
      rd_ret {| area := area; db_number := db_number; start := Z.shiftr addr 3;
                bit_offset := Z.land addr 0x07; item_length := length;
                transport := transport |}.

Definition ReadVarRequest_encode (r : ReadVarRequest) : bytes :=
  [FUNC_READ_VAR] ++ [as_u8 (Z.of_nat (length (read_items r)))] ++
  concat (AddressItem_encode <$> read_items r).

Definition ReadVarRequest_decode : Rd ReadVarRequest :=
  let! _ := need 2 in
  let! func := get_u8 in
  if negb (func =? FUNC_READ_VAR) then rd_fail (UnsupportedFunction func)
  else
    let! count := get_u8 in
    let! items := rd_repeat (Z.to_nat count) AddressItem_decode in
    rd_ret {| read_items := items |}.

(** [x.is_multiple_of(2)]. *)
Definition is_even (n : Z) : bool := n mod 2 =? 0.

Definition DataItem_encode (item : DataItem) : bytes :=
  [return_code item] ++ [0x04] ++
  be16 (as_u16 (blen (item_data item) * 8)) ++ item_data item ++
  (if negb (is_even (blen (item_data item))) then [0x00] else []).

(** The length-prefixed, evenly padded payload shared by read responses and
    write requests: [bit_len.div_ceil(8)] bytes, then a pad byte after an odd
    count if the buffer has one. *)
Definition padded_payload : Rd bytes :=
  let! bit_len := get_u16 in
  let byte_len := (bit_len + 7) / 8 in
  let! _ := need byte_len in
  let! data := split_to byte_len in
  let! n := remaining in
  let! _ := if negb (is_even byte_len) && (0 <? n) then advance 1 else rd_ret tt in
  rd_ret data.

Definition DataItem_decode : Rd DataItem :=
  let! _ := need 4 in
  let! return_code := get_u8 in
  let! _ := get_u8 in
  let! data := padded_payload in
  rd_ret {| return_code := return_code; item_data := data |}.

Definition ReadVarResponse_encode (r : ReadVarResponse) : bytes :=
  concat (DataItem_encode <$> resp_items r).

Definition ReadVarResponse_decode (item_count : nat) : Rd ReadVarResponse :=
  let! items := rd_repeat item_count DataItem_decode in
  rd_ret {| resp_items := items |}.

(** ** Well-formed values *)
Definition AddressItem_wf (i : AddressItem) : Prop :=
  u16 (db_number i) ∧ u32 (start i) ∧ u8 (bit_offset i) ∧ u16 (item_length i).

(** The items whose address the wire format can carry. *)
Definition AddressItem_addressable (i : AddressItem) : Prop :=
  u16 (db_number i) ∧ u16 (item_length i) ∧
  0 <= start i < 2097152 ∧ 0 <= bit_offset i < 8 ∧
  transport i ≠ TTimer ∧ transport i ≠ TCounter.

(** What a receiver sees of an item: the low 24 bits of its address field,
    read as byte offset and bit number. *)
Definition AddressItem_wire (i : AddressItem) : AddressItem :=
  let a := addr_bits i mod 16777216 in
  {| area := area i; db_number := db_number i; start := a / 8; bit_offset := a mod 8;
     item_length := item_length i; transport := transport i |}.

Definition DataItem_wf (d : DataItem) : Prop := blen (item_data d) < 8192.

(** ** Addresses *)
Lemma addr24_roundtrip a : 0 <= a →
  Z.lor (Z.lor (Z.shiftl (Z.land (Z.shiftr a 16) 0xFF) 16)
               (Z.shiftl (Z.land (Z.shiftr a 8) 0xFF) 8)) (Z.land a 0xFF) = a mod 16777216.
Proof.
  intros Ha. rewrite !land_255, !shiftr_div by lia.
  rewrite <- Z.lor_assoc.
  rewrite (lor_shiftl_add (a / 2 ^ 8 mod 256)), lor_shiftl_add by
    (try lia; Z.div_mod_to_equations; lia).
  change (2 ^ 8) with 256. change (2 ^ 16) with 65536. Z.div_mod_to_equations. lia.
Qed.

Lemma addr_bits_nonneg i : AddressItem_wf i → 0 <= addr_bits i.
Proof.
  intros (_ & Hs & Hb & _). unwidth. unfold addr_bits.
  destruct (transport i); try lia; apply Z.lor_nonneg; split; try lia;
    apply Z.mod_pos_bound; lia.
Qed.

Lemma addr_bits_addressable i : AddressItem_addressable i →
  addr_bits i = start i * 8 + bit_offset i.
Proof.
  intros (_ & _ & Hs & Hb & Ht & Hc).
  assert (addr_bits i = Z.lor (as_u32 (start i * 8)) (bit_offset i)) as ->.
  { unfold addr_bits. by destruct (transport i). }
  rewrite as_u32_small by (unwidth; lia).
  change 8 with (2 ^ 3) at 1. rewrite <- Z.shiftl_mul_pow2 by lia.
  by rewrite lor_shiftl_add by lia.
Qed.

Lemma AddressItem_wire_id i : AddressItem_addressable i → AddressItem_wire i = i.
Proof.
  intros H. unfold AddressItem_wire. rewrite addr_bits_addressable by done.
  destruct H as (_ & _ & Hs & Hb & _). destruct i; cbn in *.
  rewrite Z.mod_small by lia. f_equal; Z.div_mod_to_equations; lia.
Qed.

Lemma AddressItem_addressable_wf i : AddressItem_addressable i → AddressItem_wf i.
Proof. intros (? & ? & ? & ? & _). unfold AddressItem_wf. unwidth. lia. Qed.

#[export] Hint Resolve AddressItem_addressable_wf : wire.

Lemma blen_AddressItem_encode i : blen (AddressItem_encode i) = 12.
Proof. reflexivity. Qed.

Lemma AddressItem_decode_encode i rest :
  AddressItem_wf i →
  AddressItem_decode (AddressItem_encode i ++ rest) = Ok (AddressItem_wire i, rest).
Proof.
  intros Hwf. pose proof (addr_bits_nonneg i Hwf) as Ha. destruct Hwf as (Hd & _ & _ & Hl).
  unfold AddressItem_decode, AddressItem_encode, ITEM_SPEC, ITEM_LEN, ADDR_ANY.
  cbn [be16 app].
  do 2 rd_step. cbn [Z.eqb Pos.eqb negb]. do 2 rd_step. cbn [Z.eqb Pos.eqb negb].
  rd_step. rewrite try_from_to_u8. do 4 rd_step. rewrite try_from_to_u8. do 4 rd_step.
  rewrite !of_be16_split, addr24_roundtrip, land_7, shiftr_div by done. done.
Qed.

Lemma AddressItem_decode_total : rd_total AddressItem_decode.
Proof. intros b. unfold AddressItem_decode. rd_total_solve. Qed.
#[export] Hint Resolve AddressItem_decode_total : wire.

(** ** Requests *)
Lemma ReadVarRequest_decode_encode r rest :
  Forall AddressItem_wf (read_items r) → (length (read_items r) <= 255)%nat →
  ReadVarRequest_decode (ReadVarRequest_encode r ++ rest) =
  Ok ({| read_items := AddressItem_wire <$> read_items r |}, rest).
Proof.
  destruct r as [items]. cbn [read_items]. intros Hwf Hn.
  unfold ReadVarRequest_decode, ReadVarRequest_encode, FUNC_READ_VAR.
  cbn [app read_items]. do 2 rd_step. cbn [Z.eqb Pos.eqb negb]. rd_step.
  rewrite as_u8_small by (unwidth; lia). rewrite Nat2Z.id.
  rewrite Forall_forall in Hwf.
  erewrite rd_bind_ok; [|by apply rd_repeat_fmap; intros; apply AddressItem_decode_encode, Hwf].
  done.
Qed.

Lemma ReadVarRequest_decode_total : rd_total ReadVarRequest_decode.
Proof.
  intros b. unfold ReadVarRequest_decode. rd_total_solve.
  apply rd_total_bind; auto with wire.
Qed.

(** A read request of at most 255 items arrives at the receiver with every
    item in order; byte addresses below 2^21 with bit numbers below 8 arrive
    unchanged, every other address arrives as the low 24 bits of its address
    field split into byte and bit. *)
Theorem ReadVarRequest_roundtrip r :
  Forall AddressItem_wf (read_items r) → (length (read_items r) <= 255)%nat →
  ReadVarRequest_decode (ReadVarRequest_encode r) =
    Ok ({| read_items := AddressItem_wire <$> read_items r |}, []) ∧
  (Forall AddressItem_addressable (read_items r) →
   ReadVarRequest_decode (ReadVarRequest_encode r) = Ok (r, [])).
Proof.
  intros Hwf Hn.
  pose proof (ReadVarRequest_decode_encode r [] Hwf Hn) as H. rewrite app_nil_r in H.
  split; [done|]. intros Ha. rewrite H. destruct r as [items]. cbn in *.
  rewrite (list_fmap_ext _ id), list_fmap_id; [done|].
  intros i x Hx. by eapply AddressItem_wire_id, Forall_lookup_1.
Qed.

Definition example_read : ReadVarRequest :=
  {| read_items :=
       [ {| area := DataBlock; db_number := 1; start := 4; bit_offset := 3;
            item_length := 2; transport := Byte |};
         {| area := Marker; db_number := 0; start := 10; bit_offset := 0;
            item_length := 1; transport := Word |} ] |}.

Lemma ReadVarRequest_roundtrip_witness :
  ReadVarRequest_decode (ReadVarRequest_encode example_read) = Ok (example_read, []).
Proof.
  apply (ReadVarRequest_roundtrip example_read); cbn; [|lia|].
  - repeat (constructor; [unfold AddressItem_wf; cbn; unwidth; lia|]). constructor.
  - repeat (constructor;
      [unfold AddressItem_addressable; cbn; split_and!; unwidth; done || lia|]). constructor.
Defined.

(** A timer or counter item is encoded with its element index as address,
    but the decoder still splits the address into byte and bit: timer [n]
    arrives as byte offset [n / 8], bit [n mod 8], so timers 0 to 7 all arrive
    at offset 0. *)
Theorem timer_address_not_preserved i rest :
  AddressItem_wf i → transport i = TTimer ∨ transport i = TCounter →
  start i < 16777216 →
  ∃ i', AddressItem_decode (AddressItem_encode i ++ rest) = Ok (i', rest) ∧
        start i' = start i / 8 ∧ bit_offset i' = start i mod 8.
Proof.
  intros Hwf Ht Hs. exists (AddressItem_wire i).
  rewrite AddressItem_decode_encode by done.
  assert (addr_bits i mod 16777216 = start i) as Ha.
  { unfold addr_bits. destruct Hwf as (_ & Hs' & _). unwidth.
    destruct Ht as [-> | ->]; apply Z.mod_small; lia. }
  unfold AddressItem_wire. by rewrite Ha.
Qed.

Lemma timer_address_not_preserved_witness :
  let i := {| area := ATimer; db_number := 0; start := 5; bit_offset := 0;
              item_length := 1; transport := TTimer |} in
  ∃ i', AddressItem_decode (AddressItem_encode i ++ []) = Ok (i', []) ∧
        start i' = 0 ∧ bit_offset i' = 5.
Proof.
  intros i. apply (timer_address_not_preserved i []); cbn; [|by left|lia].
  unfold AddressItem_wf, u8, u16, u32; cbn; lia.
Defined.

(** ** Responses *)
Lemma padded_payload_total b : 2 <= blen b → padded_payload b ≠ Panic.
Proof.
  intros H. unfold padded_payload. rd_total_solve.
  match goal with |- context [if ?c then _ else _] => destruct c eqn:Ec end; [|done].
  apply andb_true_iff in Ec as [_ Ec]. by rd_step.
Qed.

Lemma DataItem_decode_total : rd_total DataItem_decode.
Proof.
  intros b. unfold DataItem_decode. rd_total_solve.
  unfold rd_bind. destruct (padded_payload _) as [[? ?]| |] eqn:E; [done|done|].
  apply padded_payload_total in E; [done|blen_lia].
Qed.
#[export] Hint Resolve DataItem_decode_total : wire.

Lemma ReadVarResponse_decode_total n : rd_total (ReadVarResponse_decode n).
Proof. apply rd_total_bind; auto with wire. Qed.

(** The padded payload is read back, pad byte included. *)
Definition pad (n : Z) : bytes := if negb (is_even n) then [0x00] else [].

Lemma padded_payload_encode d rest :
  blen d < 8192 →
  padded_payload (be16 (as_u16 (blen d * 8)) ++ d ++ pad (blen d) ++ rest) = Ok (d, rest).
Proof.
  intros Hd. unfold padded_payload. pose proof (blen_nonneg d).
  assert (u16 (blen d * 8)) by (unwidth; lia).
  rewrite (as_u16_small (blen d * 8)) by done. cbn [be16 app]. rd_step.
  rewrite of_be16_split by done.
  replace ((blen d * 8 + 7) / 8) with (blen d) by (Z.div_mod_to_equations; lia).
  do 3 rd_step. unfold pad. destruct (is_even (blen d)); cbn [negb andb app]; [done|].
  case_ltb; [by rd_step|blen_lia].
Qed.

Lemma DataItem_decode_encode d rest :
  DataItem_wf d → DataItem_decode (DataItem_encode d ++ rest) = Ok (d, rest).
Proof.
  destruct d as [rc d]. intros Hd. unfold DataItem_wf in Hd. cbn in Hd.
  unfold DataItem_decode, DataItem_encode. cbn [app return_code item_data be16].
  do 3 rd_step. fold (pad (blen d)).
  change (as_u8 (as_u16 (blen d * 8) / 256) :: as_u8 (as_u16 (blen d * 8)) :: ?x)
    with (be16 (as_u16 (blen d * 8)) ++ x).
  rewrite <- (assoc_L (++)).
  by rewrite (rd_bind_ok _ _ _ _ _ (padded_payload_encode d rest Hd)).
Qed.

Lemma ReadVarResponse_decode_encode r rest :
  Forall DataItem_wf (resp_items r) →
  ReadVarResponse_decode (length (resp_items r)) (ReadVarResponse_encode r ++ rest) =
  Ok (r, rest).
Proof.
  destruct r as [items]. cbn. intros Hwf. rewrite Forall_forall in Hwf.
  unfold ReadVarResponse_decode, ReadVarResponse_encode. cbn [resp_items].
  erewrite rd_bind_ok; [|apply (rd_repeat_fmap _ _ id); intros;
                         by apply DataItem_decode_encode, Hwf].
  by rewrite list_fmap_id.
Qed.

(** A read response is read back item by item, return codes and data, odd
    items with their pad byte, as long as every item holds less than 8192
    bytes (its length in bits then fits the 16-bit field). *)
Theorem ReadVarResponse_roundtrip r rest :
  Forall DataItem_wf (resp_items r) →
  ReadVarResponse_decode (length (resp_items r)) (ReadVarResponse_encode r ++ rest) =
  Ok (r, rest).
Proof. apply ReadVarResponse_decode_encode. Qed.

Lemma ReadVarResponse_roundtrip_witness :
  let r := {| resp_items := [ {| return_code := 255; item_data := [171] |};
                              {| return_code := 255; item_data := [222; 173] |} ] |} in
  ReadVarResponse_decode 2 (ReadVarResponse_encode r ++ [7]) = Ok (r, [7]).
Proof.
  intros r. apply (ReadVarResponse_roundtrip r).
  repeat (constructor; [reflexivity|]). constructor.
Defined.

Lemma padded_payload_zero b : padded_payload (0 :: 0 :: b) = Ok ([], b).
Proof.
  unfold padded_payload. rd_step. change ((of_be16 0 0 + 7) / 8) with 0. by do 3 rd_step.
Qed.

(** The bit length of a response item is computed modulo 2^16: an item of
    8192 bytes is announced with length 0, and a receiver reads back no data
    at all. *)
Theorem DataItem_8192_lost rc d rest :
  blen d = 8192 →
  DataItem_decode (DataItem_encode {| return_code := rc; item_data := d |} ++ rest) =
  Ok ({| return_code := rc; item_data := [] |}, d ++ rest).
Proof.
  intros Hd. unfold DataItem_decode, DataItem_encode. cbn [return_code item_data].
  rewrite Hd. change (be16 (as_u16 (8192 * 8))) with [0; 0]. cbn [app negb is_even].
  change (negb (is_even 8192)) with false. rewrite app_nil_r. do 3 rd_step.
  by rewrite (rd_bind_ok _ _ _ _ _ (padded_payload_zero _)).
Qed.

Lemma DataItem_8192_lost_witness :
  DataItem_decode (DataItem_encode {| return_code := 255; item_data := replicate (Z.to_nat 8192) 1 |} ++ [])
  = Ok ({| return_code := 255; item_data := [] |}, replicate (Z.to_nat 8192) 1 ++ []).
Proof. apply DataItem_8192_lost. vm_compute. reflexivity. Defined.

(** ** Decoded values fit their types *)
Lemma AddressItem_decode_typed : rd_typed AddressItem_wf AddressItem_decode.
Proof.
  unfold AddressItem_decode. rd_typed_go. unfold AddressItem_wf. cbn.
  rewrite land_7, shiftr_div, <- Z.lor_assoc by lia.
  assert (0 <= a9 < 256 ∧ 0 <= a10 < 256 ∧ 0 <= a11 < 256) as (Hb0 & Hb1 & Hb2)
    by (unwidth; lia).
  rewrite (lor_shiftl_add a10), lor_shiftl_add by lia.
  change (2 ^ 8) with 256. change (2 ^ 16) with 65536. change (2 ^ 3) with 8.
  split_and!; try done; unwidth; Z.div_mod_to_equations; lia.
Qed.

Lemma ReadVarRequest_decode_typed :
  rd_typed (fun r => Forall AddressItem_wf (read_items r)) ReadVarRequest_decode.
Proof.
  unfold ReadVarRequest_decode. rd_typed_go.
  eapply rd_typed_bind; [apply rd_typed_repeat, AddressItem_decode_typed|].
  intros l Hl. by rd_typed_go.
Qed.

Lemma padded_payload_typed : rd_typed (Forall u8) padded_payload.
Proof.
  unfold padded_payload. rd_typed_go.
  eapply (rd_typed_bind (fun _ => True)); [|intros; by rd_typed_go].
  destruct (_ && _); [apply rd_typed_advance|by rd_typed_go].
Qed.
