(* ===== verification/WriteVar.v ===== *)
(** * Write-variable requests and responses (proto/s7/write_var.rs) *)

From S2P Require Import Prelude Wire S7Header ReadVar.
Local Open Scope Z_scope.

Definition FUNC_WRITE_VAR : Z := 0x05.

Record WriteItem := {
  address : AddressItem;
  write_data : bytes;
}.

Record WriteVarRequest := { write_items : list WriteItem }.

Record WriteVarResponse := { return_codes : list Z }.

(** The data section of one item; the address sections come first. *)
Definition WriteItem_data_decode (a : AddressItem) : Rd WriteItem :=
  let! _ := need 4 in
  let! _ := get_u8 in
  let! _ := get_u8 in
  let! data := padded_payload in
  rd_ret {| address := a; write_data := data |}.

Definition WriteVarRequest_decode : Rd WriteVarRequest :=
  let! _ := need 2 in
  let! func := get_u8 in
  if negb (func =? FUNC_WRITE_VAR) then rd_fail (UnsupportedFunction func)
  else
    let! count := get_u8 in
    let! addresses := rd_repeat (Z.to_nat count) AddressItem_decode in
    let! items := rd_map WriteItem_data_decode addresses in
    rd_ret {| write_items := items |}.

Definition WriteItem_data_encode (item : WriteItem) : bytes :=
  [0x00] ++ [to_u8 (transport (address item))] ++
  be16 (as_u16 (blen (write_data item) * 8)) ++ write_data item ++
  (if negb (is_even (blen (write_data item))) then [0x00] else []).

Definition WriteVarRequest_encode (r : WriteVarRequest) : bytes :=
  [FUNC_WRITE_VAR] ++ [as_u8 (Z.of_nat (length (write_items r)))] ++
  concat ((fun item => AddressItem_encode (address item)) <$> write_items r) ++
  concat (WriteItem_data_encode <$> write_items r).

(** [if !buf.has_remaining() { return Err(...) }; return_codes.push(buf.get_u8())] *)
Definition WriteVarResponse_code : Rd Z :=
  let! n := remaining in
  if n =? 0 then rd_fail (BufferTooShort 1 0) else get_u8.

Definition WriteVarResponse_decode (item_count : nat) : Rd WriteVarResponse :=
  let! codes := rd_repeat item_count WriteVarResponse_code in
  rd_ret {| return_codes := codes |}.

Definition WriteItem_wf (i : WriteItem) : Prop :=
  AddressItem_wf (address i) ∧ blen (write_data i) < 8192.

Definition WriteItem_wire (i : WriteItem) : WriteItem :=
  {| address := AddressItem_wire (address i); write_data := write_data i |}.

(** ** Totality *)
Lemma WriteItem_data_decode_total a : rd_total (WriteItem_data_decode a).
Proof.
  intros b. unfold WriteItem_data_decode. rd_total_solve.
  unfold rd_bind. destruct (padded_payload _) as [[? ?]| |] eqn:E; [done|done|].
  apply padded_payload_total in E; [done|blen_lia].
Qed.
#[export] Hint Resolve WriteItem_data_decode_total : wire.

Lemma WriteVarRequest_decode_total : rd_total WriteVarRequest_decode.
Proof.
  intros b. unfold WriteVarRequest_decode. rd_total_solve.
  apply rd_total_bind; [auto with wire|intros l].
  apply rd_total_bind; auto with wire.
Qed.

Lemma WriteVarResponse_code_total : rd_total WriteVarResponse_code.
Proof. by intros [|? ?]. Qed.

Lemma WriteVarResponse_decode_total n : rd_total (WriteVarResponse_decode n).
Proof.
  apply rd_total_bind; [|auto with wire].
  apply rd_total_repeat, WriteVarResponse_code_total.
Qed.

(** ** Round trips *)
Lemma WriteItem_data_decode_encode i rest :
  blen (write_data i) < 8192 →
  WriteItem_data_decode (AddressItem_wire (address i)) (WriteItem_data_encode i ++ rest) =
  Ok (WriteItem_wire i, rest).
Proof.
  destruct i as [a d]. cbn. intros Hd.
  unfold WriteItem_data_decode, WriteItem_data_encode. cbn [app write_data address be16].
  do 3 rd_step. fold (pad (blen d)).
  change (as_u8 (as_u16 (blen d * 8) / 256) :: as_u8 (as_u16 (blen d * 8)) :: ?x)
    with (be16 (as_u16 (blen d * 8)) ++ x).
  rewrite <- (assoc_L (++)).
  by rewrite (rd_bind_ok _ _ _ _ _ (padded_payload_encode d rest Hd)).
Qed.

Lemma WriteVarRequest_decode_encode r rest :
  Forall WriteItem_wf (write_items r) → (length (write_items r) <= 255)%nat →
  WriteVarRequest_decode (WriteVarRequest_encode r ++ rest) =
  Ok ({| write_items := WriteItem_wire <$> write_items r |}, rest).
Proof.
  destruct r as [items]. cbn [write_items]. intros Hwf Hn.
  unfold WriteVarRequest_decode, WriteVarRequest_encode, FUNC_WRITE_VAR.
  cbn [app write_items]. do 2 rd_step. cbn [Z.eqb Pos.eqb negb]. rd_step.
  rewrite as_u8_small by (unwidth; lia). rewrite Nat2Z.id, <- (assoc_L (++)).
  rewrite Forall_forall in Hwf.
  erewrite rd_bind_ok; [|apply (rd_repeat_fmap _ _ (fun i => AddressItem_wire (address i)));
                         intros; by apply AddressItem_decode_encode, Hwf].
  erewrite rd_bind_ok; [|apply (rd_map_zip _ _ _ WriteItem_wire);
                         intros; by apply WriteItem_data_decode_encode, Hwf].
  done.
Qed.

(** C38: a write request of at most 255 items, each with less than 8192 bytes
    of data, arrives with all its items in order and their data intact;
    addresses arrive unchanged when they are byte addresses below 2^21. *)
Theorem WriteVarRequest_roundtrip r :
  Forall WriteItem_wf (write_items r) → (length (write_items r) <= 255)%nat →
  WriteVarRequest_decode (WriteVarRequest_encode r) =
    Ok ({| write_items := WriteItem_wire <$> write_items r |}, []) ∧
  (Forall (fun i => AddressItem_addressable (address i)) (write_items r) →
   WriteVarRequest_decode (WriteVarRequest_encode r) = Ok (r, [])).
Proof.
  intros Hwf Hn.
  pose proof (WriteVarRequest_decode_encode r [] Hwf Hn) as H. rewrite app_nil_r in H.
  split; [done|]. intros Ha. rewrite H. destruct r as [items]. cbn in *.
  rewrite (list_fmap_ext _ id), list_fmap_id; [done|].
  intros i x Hx. unfold WriteItem_wire. rewrite AddressItem_wire_id; [by destruct x|].
  by eapply (Forall_lookup_1 _ items i x Ha).
Qed.

Definition example_write : WriteVarRequest :=
  {| write_items :=
       [ {| address := {| area := DataBlock; db_number := 3; start := 4; bit_offset := 0;
                          item_length := 3; transport := Byte |};
            write_data := [17; 34; 51] |} ] |}.

Lemma WriteVarRequest_roundtrip_witness :
  WriteVarRequest_decode (WriteVarRequest_encode example_write) = Ok (example_write, []).
Proof.
  apply (WriteVarRequest_roundtrip example_write); cbn; [|lia|].
  - constructor; [|constructor]. split; [unfold AddressItem_wf; cbn; unwidth; lia|reflexivity].
  - constructor; [|constructor].
    unfold AddressItem_addressable; cbn; split_and!; unwidth; done || lia.
Defined.

Lemma WriteVarResponse_decode_codes l rest :
  WriteVarResponse_decode (length l) (l ++ rest) = Ok ({| return_codes := l |}, rest).
Proof.
  unfold WriteVarResponse_decode.
  assert (H : rd_repeat (length l) WriteVarResponse_code (l ++ rest) = Ok (l, rest)).
  { induction l as [|x l IH]; [done|]. cbn [length rd_repeat app].
    erewrite rd_bind_ok; [by erewrite rd_bind_ok|].
    unfold WriteVarResponse_code. rd_step. case_ltb; [blen_lia|done]. }
  by rewrite (rd_bind_ok _ _ _ _ _ H).
Qed.

(** ** Decoded values fit their types *)
Lemma WriteVarRequest_decode_typed :
  rd_typed (fun r => Forall (fun i => AddressItem_wf (address i) ∧ wf_bytes (write_data i))
                       (write_items r)) WriteVarRequest_decode.
Proof.
  unfold WriteVarRequest_decode. rd_typed_go.
  eapply rd_typed_bind; [apply rd_typed_repeat, AddressItem_decode_typed|].
  intros l Hl. eapply rd_typed_bind; [|intros items Hi; by rd_typed_go].
  eapply rd_typed_map; [|done]. intros i Hi. unfold WriteItem_data_decode. rd_typed_go.
  eapply rd_typed_bind; [apply padded_payload_typed|]. intros d Hd. by rd_typed_go.
Qed.
