(* ===== verification/Clock.v ===== *)
(** * PLC clock: BCD DATE_AND_TIME (proto/s7/clock.rs) *)

From S2P Require Import Prelude Wire.
Local Open Scope Z_scope.

Record PlcDateTime := {
  year : Z;
  month : Z;
  day : Z;
  hour : Z;
  minute : Z;
  second : Z;
  millisecond : Z;
  weekday : Z;
}.

#[export] Instance PlcDateTime_eq_dec : EqDecision PlcDateTime.
Proof. solve_decision. Defined.

Definition to_bcd (v : Z) : Z := Z.lor (as_u8 (Z.shiftl (v / 10) 4)) (v mod 10).

Definition from_bcd (v : Z) : Z := as_u8 (as_u8 (Z.shiftr v 4 * 10) + Z.land v 0x0F).

Definition PlcDateTime_encode (d : PlcDateTime) : bytes :=
  let y := as_u8 (year d mod 100) in
  let ms_hi := as_u8 (millisecond d / 10) in
  let ms_lo_nibble := as_u8 (millisecond d mod 10) in
  [to_bcd y; to_bcd (month d); to_bcd (day d); to_bcd (hour d); to_bcd (minute d);
   to_bcd (second d); to_bcd ms_hi;
   Z.lor (as_u8 (Z.shiftl ms_lo_nibble 4)) (Z.land (weekday d) 0x0F)].

Definition PlcDateTime_decode : Rd PlcDateTime :=
  let! _ := need 8 in
  let! y_bcd := get_u8 in
  let y := from_bcd y_bcd in
  let year := if 90 <=? y then 1900 + y else 2000 + y in
  let! b_month := get_u8 in
  let! b_day := get_u8 in
  let! b_hour := get_u8 in
  let! b_minute := get_u8 in
  let! b_second := get_u8 in
  let! ms_byte1 := get_u8 in
  let! ms_byte2 := get_u8 in
  rd_ret {| year := year; month := from_bcd b_month; day := from_bcd b_day;
            hour := from_bcd b_hour; minute := from_bcd b_minute;
            second := from_bcd b_second;
            millisecond := from_bcd ms_byte1 * 10 + Z.shiftr ms_byte2 4;
            weekday := Z.land ms_byte2 0x0F |}.

(** Date-times that two BCD digits per field can carry: the years the two-digit
    year stands for, two-digit fields, three-digit milliseconds. *)
Definition PlcDateTime_wf (d : PlcDateTime) : Prop :=
  1990 <= year d <= 2089 ∧ 0 <= month d < 100 ∧ 0 <= day d < 100 ∧
  0 <= hour d < 100 ∧ 0 <= minute d < 100 ∧ 0 <= second d < 100 ∧
  0 <= millisecond d < 1000 ∧ 0 <= weekday d < 16.

(** ** BCD *)
Lemma bcd_roundtrip v : 0 <= v < 100 → from_bcd (to_bcd v) = v.
Proof.
  intros Hv. apply Z.eqb_eq. revert v Hv.
  apply (Z_exhaust 100 (fun v => from_bcd (to_bcd v) =? v)). vm_compute. reflexivity.
Qed.

Lemma last_byte_roundtrip m w : 0 <= m < 10 → 0 <= w < 16 →
  Z.shiftr (Z.lor (as_u8 (Z.shiftl m 4)) (Z.land w 15)) 4 = m ∧
  Z.land (Z.lor (as_u8 (Z.shiftl m 4)) (Z.land w 15)) 15 = w.
Proof.
  intros Hm Hw.
  enough ((Z.shiftr (Z.lor (as_u8 (Z.shiftl m 4)) (Z.land w 15)) 4 =? m) &&
          (Z.land (Z.lor (as_u8 (Z.shiftl m 4)) (Z.land w 15)) 15 =? w) = true) as H.
  { by rewrite andb_true_iff, !Z.eqb_eq in H. }
  revert w Hw. apply (Z_exhaust 16). revert m Hm. apply (Z_exhaust 10).
  vm_compute. reflexivity.
Qed.

Lemma PlcDateTime_decode_total : rd_total PlcDateTime_decode.
Proof. intros b. unfold PlcDateTime_decode. rd_total_solve. Qed.

Lemma blen_PlcDateTime_encode d : blen (PlcDateTime_encode d) = 8.
Proof. reflexivity. Qed.

Lemma PlcDateTime_decode_encode d rest :
  PlcDateTime_wf d → PlcDateTime_decode (PlcDateTime_encode d ++ rest) = Ok (d, rest).
Proof.
  destruct d as [y mo da h mi s ms w]. unfold PlcDateTime_wf.
  cbn [year month day hour minute second millisecond weekday].
  intros (Hy & Hmo & Hd & Hh & Hmi & Hs & Hms & Hw).
  unfold PlcDateTime_decode, PlcDateTime_encode.
  cbn [year month day hour minute second millisecond weekday app].
  do 9 rd_step.
  rewrite !(as_u8_small (_ mod _)), (as_u8_small (ms / 10))
    by (unwidth; Z.div_mod_to_equations; lia).
  rewrite !bcd_roundtrip by (done || Z.div_mod_to_equations; lia).
  destruct (last_byte_roundtrip (ms mod 10) w) as [-> ->];
    [Z.div_mod_to_equations; lia|done|].
  unfold rd_ret. do 3 f_equal.
  - case_ltb; Z.div_mod_to_equations; lia.
  - Z.div_mod_to_equations; lia.
Qed.

(** The PLC clock round-trips: a date-time with a year from 1990 to 2089
    is encoded into eight BCD bytes and decoded back to itself, milliseconds
    and weekday included. *)
Theorem PlcDateTime_roundtrip d rest :
  PlcDateTime_wf d →
  blen (PlcDateTime_encode d) = 8 ∧
  PlcDateTime_decode (PlcDateTime_encode d ++ rest) = Ok (d, rest).
Proof. intros. split; [done|by apply PlcDateTime_decode_encode]. Qed.

Lemma PlcDateTime_roundtrip_witness :
  let d := {| year := 1999; month := 12; day := 31; hour := 23; minute := 59;
              second := 59; millisecond := 990; weekday := 6 |} in
  blen (PlcDateTime_encode d) = 8 ∧
  PlcDateTime_decode (PlcDateTime_encode d ++ []) = Ok (d, []).
Proof. intros d. apply PlcDateTime_roundtrip. unfold PlcDateTime_wf. cbn. lia. Defined.
