(* ===== verification/Szl.v ===== *)
(** * System status list queries (proto/s7/szl.rs) *)

From S2P Require Import Prelude Wire.
Local Open Scope Z_scope.

Record SzlRequest := { szl_id : Z; szl_index : Z }.

Record SzlResponse := { resp_szl_id : Z; resp_szl_index : Z; szl_data : bytes }.

Definition SzlRequest_encode_params (r : SzlRequest) : bytes :=
  [0x00; 0x01; 0x12; 0x04; 0x11; 0x44; 0x01; 0x00].

Definition SzlRequest_encode_data (r : SzlRequest) : bytes :=
  [0xFF] ++ [0x09] ++ be16 0x0004 ++ be16 (szl_id r) ++ be16 (szl_index r).

Definition SzlRequest_encode (r : SzlRequest) : bytes :=
  SzlRequest_encode_params r ++ SzlRequest_encode_data r.

Definition SzlRequest_decode : Rd SzlRequest :=
  let! _ := need 16 in
  let! _ := advance 8 in
  let! _ := advance 4 in
  let! id := get_u16 in
  let! index := get_u16 in
  rd_ret {| szl_id := id; szl_index := index |}.

Definition SzlResponse_decode : Rd SzlResponse :=
  let! _ := need 8 in
  let! id := get_u16 in
  let! index := get_u16 in
  let! n := remaining in
  let! data := split_to n in
  rd_ret {| resp_szl_id := id; resp_szl_index := index; szl_data := data |}.

Definition SzlRequest_wf (r : SzlRequest) : Prop := u16 (szl_id r) ∧ u16 (szl_index r).

Lemma SzlRequest_decode_encode r rest :
  SzlRequest_wf r → SzlRequest_decode (SzlRequest_encode r ++ rest) = Ok (r, rest).
Proof.
  destruct r as [i x]. intros [Hi Hx]. cbn in Hi, Hx.
  unfold SzlRequest_decode, SzlRequest_encode, SzlRequest_encode_data.
  cbn [SzlRequest_encode_params szl_id szl_index be16 app]. do 5 rd_step.
  by rewrite !of_be16_split.
Qed.

Lemma SzlRequest_decode_total : rd_total SzlRequest_decode.
Proof.
  intros b. unfold SzlRequest_decode. rd_total_step.
  do 16 (destruct b as [|? b]; [exfalso; blen_lia|]). rd_total_solve.
Qed.

Lemma SzlResponse_decode_total : rd_total SzlResponse_decode.
Proof. intros b. unfold SzlResponse_decode. rd_total_solve. Qed.

(** An SZL block [id, index, entries...] of at least eight bytes is split into
    its two numbers and the rest. *)
Lemma SzlResponse_decode_block i x d :
  u16 i → u16 x → 4 <= blen d →
  SzlResponse_decode (be16 i ++ be16 x ++ d) =
  Ok ({| resp_szl_id := i; resp_szl_index := x; szl_data := d |}, []).
Proof.
  intros Hi Hx Hd. unfold SzlResponse_decode. cbn [be16 app].
  rd_step. do 4 rd_step. rewrite !of_be16_split by done.
  by rewrite to_nat_blen, firstn_all, drop_all.
Qed.
