(* ===== verification/Decoders.v ===== *)
(** * The decoders together: well-typed values, no panics

    Every decoder of the S7 wire format, run on any buffer of bytes, ends in a
    value or an error, and the numbers it returns fit the Rust types of the
    fields they are stored in. *)

From S2P Require Import Prelude Wire Tpkt Cotp S7Header Negotiate ReadVar WriteVar Clock Szl.
Local Open Scope Z_scope.

Definition rd_safe {A} (P : A → Prop) (m : Rd A) : Prop := rd_total m ∧ rd_typed P m.

Lemma rd_typed_peek i : rd_typed u8 (peek i).
Proof.
  intros b a b' Hb. unfold peek. destruct (b !! i) as [x|] eqn:E; [|done]. intros [= <- <-].
  split; [|done]. by eapply Forall_lookup_1 in E.
Qed.
Ltac rd_typed_peeks :=
  repeat first [progress rd_typed_go
               |eapply rd_typed_bind; [apply rd_typed_peek|intros ? ?]; cbv beta zeta].

Ltac land_mods :=
  rewrite ?land_7, ?land_15, ?land_31, ?land_127, ?land_255; unwidth; Z.div_mod_to_equations; lia.

Lemma TpktFrame_decode_typed : rd_typed (fun f => wf_bytes (tpkt_payload f)) TpktFrame_decode.
Proof. unfold TpktFrame_decode. by rd_typed_peeks. Qed.

(** One turn of the parameter loop, continued with [k]. *)
Lemma cotp_param_typed rack slot (k : Z → Z → Rd (Z * Z)) :
  u8 rack → u8 slot →
  (∀ r s, u8 r → u8 s → rd_typed (fun p => u8 p.1 ∧ u8 p.2) (k r s)) →
  rd_typed (fun p => u8 p.1 ∧ u8 p.2)
    (let! param_code := get_u8 in
     let! param_len := get_u8 in
     let! n := remaining in
     if n <? param_len then rd_ret (rack, slot)
     else
       let! param_data := split_to param_len in
       if (param_code =? 0xC2) && (2 <=? param_len) then
         let! tsap := rd_lift (match param_data !! 1%nat with Some t => Ok t | None => Panic end) in
         k (Z.land (Z.shiftr tsap 5) 0x07) (Z.land tsap 0x1F)
       else k rack slot).
Proof. intros Hr Hs Hk. rd_typed_go; try done; apply Hk; try done; land_mods. Qed.

Lemma cotp_params_typed fuel : ∀ rack slot,
  u8 rack → u8 slot → rd_typed (fun p => u8 p.1 ∧ u8 p.2) (cotp_params fuel rack slot).
Proof.
  induction fuel as [|fuel IH]; intros rack slot Hr Hs b a b' Hb; cbn [cotp_params].
  { by intros [= <- <-]. }
  destruct (blen b <? 3); [by intros [= <- <-]|]. revert b a b' Hb. apply cotp_param_typed; [done..|].
  intros. apply IH; done.
Qed.

Lemma CotpPdu_decode_typed : rd_typed CotpPdu_wf CotpPdu_decode.
Proof.
  unfold CotpPdu_decode. rd_typed_peeks; try done.
  - eapply (rd_typed_bind (fun p : Z * Z => u8 p.1 ∧ u8 p.2)).
    + intros b p b' Hb. apply cotp_params_typed; try done; unwidth; lia.
    + intros [r s] [? ?]. rd_typed_go. by split_and!.
  - split; [land_mods|done].
  - eapply (rd_typed_bind u8); [|intros ? ?; by rd_typed_go].
    destruct (_ <? _); [apply rd_typed_get_u8|apply rd_typed_ret; unwidth; lia].
Qed.

Lemma NegotiateRequest_decode_typed : rd_typed NegotiateRequest_wf NegotiateRequest_decode.
Proof. unfold NegotiateRequest_decode. by rd_typed_go. Qed.
Lemma NegotiateResponse_decode_typed : rd_typed NegotiateResponse_wf NegotiateResponse_decode.
Proof. unfold NegotiateResponse_decode. by rd_typed_go. Qed.

Lemma ReadVarResponse_decode_typed n :
  rd_typed (fun r => Forall (fun d => u8 (return_code d) ∧ wf_bytes (item_data d)) (resp_items r))
    (ReadVarResponse_decode n).
Proof.
  unfold ReadVarResponse_decode. eapply rd_typed_bind; [apply rd_typed_repeat|intros l Hl; by rd_typed_go].
  unfold DataItem_decode. rd_typed_go. eapply rd_typed_bind; [apply padded_payload_typed|].
  intros d Hd. by rd_typed_go.
Qed.

Lemma WriteVarResponse_decode_typed n :
  rd_typed (fun r => Forall u8 (return_codes r)) (WriteVarResponse_decode n).
Proof.
  unfold WriteVarResponse_decode. eapply rd_typed_bind; [apply rd_typed_repeat|intros l Hl; by rd_typed_go].
  unfold WriteVarResponse_code. rd_typed_go. apply rd_typed_get_u8.
Qed.

Lemma SzlRequest_decode_typed : rd_typed SzlRequest_wf SzlRequest_decode.
Proof. unfold SzlRequest_decode. by rd_typed_go. Qed.
Lemma SzlResponse_decode_typed :
  rd_typed (fun r => u16 (resp_szl_id r) ∧ u16 (resp_szl_index r) ∧ wf_bytes (szl_data r))
    SzlResponse_decode.
Proof. unfold SzlResponse_decode. by rd_typed_go. Qed.

(** The fields of a date-time fit [u16] and [u8]. *)
Definition PlcDateTime_typed (d : PlcDateTime) : Prop :=
  u16 (year d) ∧ u8 (month d) ∧ u8 (day d) ∧ u8 (hour d) ∧ u8 (minute d) ∧ u8 (second d) ∧
  u16 (millisecond d) ∧ u8 (weekday d).

Lemma PlcDateTime_decode_typed : rd_typed PlcDateTime_typed PlcDateTime_decode.
Proof.
  unfold PlcDateTime_decode. rd_typed_go. unfold PlcDateTime_typed. cbn.
  assert (∀ v, u8 (from_bcd v)) as Hb by (intros; apply as_u8_u8).
  pose proof (Hb a0). pose proof (Hb a6).
  split_and!; try apply Hb; try land_mods.
  - destruct (90 <=? from_bcd a0); unwidth; lia.
  - rewrite shiftr_div by lia. unwidth. Z.div_mod_to_equations. lia.
Qed.

(** C29: every decoder of the S7 wire format is safe and well typed: on any
    buffer of bytes it returns a value or an error and never panics, the fields
    of the value fit the widths of their Rust types (sequence numbers,
    references and lengths 16 bits, offsets 32, codes 8, payloads bytes), and
    what it leaves unread is a buffer of bytes. *)
Theorem decoders_safe :
  rd_safe (fun f => wf_bytes (tpkt_payload f)) TpktFrame_decode ∧
  rd_safe CotpPdu_wf CotpPdu_decode ∧
  rd_safe S7Header_typed S7Header_decode ∧
  rd_safe NegotiateRequest_wf NegotiateRequest_decode ∧
  rd_safe NegotiateResponse_wf NegotiateResponse_decode ∧
  rd_safe (fun r => Forall AddressItem_wf (read_items r)) ReadVarRequest_decode ∧
  (∀ n, rd_safe (fun r => Forall (fun d => u8 (return_code d) ∧ wf_bytes (item_data d))
                            (resp_items r)) (ReadVarResponse_decode n)) ∧
  rd_safe (fun r => Forall (fun i => AddressItem_wf (address i) ∧ wf_bytes (write_data i))
                      (write_items r)) WriteVarRequest_decode ∧
  (∀ n, rd_safe (fun r => Forall u8 (return_codes r)) (WriteVarResponse_decode n)) ∧
  rd_safe SzlRequest_wf SzlRequest_decode ∧
  rd_safe (fun r => u16 (resp_szl_id r) ∧ u16 (resp_szl_index r) ∧ wf_bytes (szl_data r))
    SzlResponse_decode ∧
  rd_safe PlcDateTime_typed PlcDateTime_decode.
Proof.
  unfold rd_safe. split_and!; intros;
    auto using TpktFrame_decode_total, CotpPdu_decode_total, S7Header_decode_total,
      NegotiateRequest_decode_total, NegotiateResponse_decode_total, ReadVarRequest_decode_total,
      ReadVarResponse_decode_total, WriteVarRequest_decode_total, WriteVarResponse_decode_total,
      SzlRequest_decode_total, SzlResponse_decode_total, PlcDateTime_decode_total,
      TpktFrame_decode_typed, CotpPdu_decode_typed, S7Header_decode_typed,
      NegotiateRequest_decode_typed, NegotiateResponse_decode_typed, ReadVarRequest_decode_typed,
      ReadVarResponse_decode_typed, WriteVarRequest_decode_typed, WriteVarResponse_decode_typed,
      SzlRequest_decode_typed, SzlResponse_decode_typed, PlcDateTime_decode_typed.
Qed.
