(* ===== verification/Store.v ===== *)
(** * The simulated PLC's data store (snap7-server, store.rs)

    [DataStore] is a mutex around [StoreInner]; every method locks it once (or,
    when it fires callbacks, a few times), so a method is a function on the
    inner state.  Callbacks are opaque [Fn] values: a callback is a number, and
    the field [fired] records which callback was called with what, in order.
    [Concurrent] opens the methods into the separately locked steps they
    consist of. *)

From stdpp Require Import gmap.
From S2P Require Import Prelude.
Local Open Scope Z_scope.

Inductive CpuState := Run | Stop.
#[export] Instance CpuState_eq_dec : EqDecision CpuState.
Proof. solve_decision. Defined.

Record EventInfo := {
  event : string;
  ev_area : Z;
  ev_db_number : Z;
  ev_start : Z;
  ev_length : Z;
}.

(** A callback invocation: an access callback receives the event, an event
    callback the name. *)
Inductive Fired :=
| FiredRead (cb : nat) (e : EventInfo)
| FiredWrite (cb : nat) (e : EventInfo)
| FiredEvent (cb : nat) (name : string).

Record StoreInner := {
  data : gmap (Z * Z * Z) Z;
  cpu_state : CpuState;
  clock : bytes;
  registered_areas : gmap Z Z;
  locked_areas : gmap Z bool;
  events : list EventInfo;
  event_mask : Z;
  client_count : Z;
  read_callbacks : list nat;
  write_callbacks : list nat;
  event_callbacks : list nat;
  fired : list Fired;
}.

Record ServerStatus := {
  server_running : bool;
  st_cpu_state : CpuState;
  clients_count : Z;
}.

Definition U32_MAX : Z := 4294967295.

(** The area codes of [mod area]. *)
Definition PROCESS_INPUTS : Z := 0x81.
Definition PROCESS_OUTPUTS : Z := 0x82.
Definition MARKERS : Z := 0x83.
Definition DATA_BLOCK : Z := 0x84.
Definition INSTANCE_DB : Z := 0x85.
Definition LOCAL_DATA : Z := 0x86.
Definition TIMER : Z := 0x1D.
Definition COUNTER : Z := 0x1C.

(** [DataStore::default]. *)
Definition DataStore_new : StoreInner := {|
  data := ∅; cpu_state := Stop; clock := replicate 8 0;
  registered_areas := ∅; locked_areas := ∅; events := [];
  event_mask := 0xFFFFFFFF; client_count := 0;
  read_callbacks := []; write_callbacks := []; event_callbacks := []; fired := [];
|}.

(** Field updates. *)
Definition with_data s d := {|
  data := d; cpu_state := cpu_state s; clock := clock s;
  registered_areas := registered_areas s; locked_areas := locked_areas s;
  events := events s; event_mask := event_mask s; client_count := client_count s;
  read_callbacks := read_callbacks s; write_callbacks := write_callbacks s;
  event_callbacks := event_callbacks s; fired := fired s |}.
Definition with_cpu_state s c := {|
  data := data s; cpu_state := c; clock := clock s;
  registered_areas := registered_areas s; locked_areas := locked_areas s;
  events := events s; event_mask := event_mask s; client_count := client_count s;
  read_callbacks := read_callbacks s; write_callbacks := write_callbacks s;
  event_callbacks := event_callbacks s; fired := fired s |}.
Definition with_clock s c := {|
  data := data s; cpu_state := cpu_state s; clock := c;
  registered_areas := registered_areas s; locked_areas := locked_areas s;
  events := events s; event_mask := event_mask s; client_count := client_count s;
  read_callbacks := read_callbacks s; write_callbacks := write_callbacks s;
  event_callbacks := event_callbacks s; fired := fired s |}.
Definition with_areas s r l := {|
  data := data s; cpu_state := cpu_state s; clock := clock s;
  registered_areas := r; locked_areas := l;
  events := events s; event_mask := event_mask s; client_count := client_count s;
  read_callbacks := read_callbacks s; write_callbacks := write_callbacks s;
  event_callbacks := event_callbacks s; fired := fired s |}.
Definition with_events s e m := {|
  data := data s; cpu_state := cpu_state s; clock := clock s;
  registered_areas := registered_areas s; locked_areas := locked_areas s;
  events := e; event_mask := m; client_count := client_count s;
  read_callbacks := read_callbacks s; write_callbacks := write_callbacks s;
  event_callbacks := event_callbacks s; fired := fired s |}.
Definition with_client_count s n := {|
  data := data s; cpu_state := cpu_state s; clock := clock s;
  registered_areas := registered_areas s; locked_areas := locked_areas s;
  events := events s; event_mask := event_mask s; client_count := n;
  read_callbacks := read_callbacks s; write_callbacks := write_callbacks s;
  event_callbacks := event_callbacks s; fired := fired s |}.
Definition with_callbacks s r w e f := {|
  data := data s; cpu_state := cpu_state s; clock := clock s;
  registered_areas := registered_areas s; locked_areas := locked_areas s;
  events := events s; event_mask := event_mask s; client_count := client_count s;
  read_callbacks := r; write_callbacks := w; event_callbacks := e; fired := f |}.

(** ** Area registration and locking *)
Definition register_area (area_code size : Z) (s : StoreInner) : StoreInner :=
  with_areas s (<[area_code := size]> (registered_areas s)) (locked_areas s).

Definition unregister_area (area_code : Z) (s : StoreInner) : StoreInner :=
  let s := with_areas s (delete area_code (registered_areas s)) (locked_areas s) in
  with_data s (filter (fun kv => kv.1.1.1 ≠ area_code) (data s)).

Definition is_area_registered (area_code : Z) (s : StoreInner) : bool :=
  bool_decide (is_Some (registered_areas s !! area_code)).
(** The keys, in the order of the map. *)
Definition DataStore_registered_areas (s : StoreInner) : list Z := (map_to_list (registered_areas s)).*1.
Lemma registered_areas_spec s :
  NoDup (DataStore_registered_areas s) ∧
  ∀ a, a ∈ DataStore_registered_areas s ↔ is_area_registered a s = true.
Proof.
  split; [apply NoDup_fst_map_to_list|]. intros a. unfold DataStore_registered_areas, is_area_registered.
  rewrite bool_decide_eq_true, list_elem_of_fmap. split.
  - intros ([k v] & -> & Hin%elem_of_map_to_list). by exists v.
  - intros [v Hv]. exists (a, v). split; [done|]. by apply elem_of_map_to_list.
Qed.
Definition DataStore_cpu_state (s : StoreInner) : CpuState := cpu_state s.

Definition lock_area (area_code : Z) (s : StoreInner) : StoreInner :=
  with_areas s (registered_areas s) (<[area_code := true]> (locked_areas s)).

Definition unlock_area (area_code : Z) (s : StoreInner) : StoreInner :=
  with_areas s (registered_areas s) (delete area_code (locked_areas s)).

Definition is_area_locked (area_code : Z) (s : StoreInner) : bool :=
  bool_decide (is_Some (locked_areas s !! area_code)).

(** ** Status and client counter *)
Definition get_status (s : StoreInner) : ServerStatus :=
  {| server_running := true; st_cpu_state := cpu_state s; clients_count := client_count s |}.

Definition client_connected (s : StoreInner) : StoreInner :=
  with_client_count s (client_count s + 1).

Definition client_disconnected (s : StoreInner) : StoreInner :=
  with_client_count s (saturating_sub (client_count s) 1).

(** ** Event queue *)
Definition get_mask (s : StoreInner) : Z := event_mask s.
Definition set_mask (mask : Z) (s : StoreInner) : StoreInner := with_events s (events s) mask.
Definition clear_events (s : StoreInner) : StoreInner := with_events s [] (event_mask s).

Definition pick_event (s : StoreInner) : option EventInfo * StoreInner :=
  match events s with
  | [] => (None, s)
  | e :: q => (Some e, with_events s q (event_mask s))
  end.

Definition enqueue_event (info : EventInfo) (kind_bit : Z) (s : StoreInner) : StoreInner :=
  if Z.land (event_mask s) kind_bit =? 0 then s
  else
    let q := if 1024 <=? Z.of_nat (length (events s)) then tail (events s) else events s in
    with_events s (q ++ [info]) (event_mask s).

(** ** Callbacks: the list is taken out under the lock, called without it, and
    put back under the lock. *)
Definition fire_read (info : EventInfo) (s : StoreInner) : StoreInner :=
  let callbacks := read_callbacks s in
  let s := with_callbacks s [] (write_callbacks s) (event_callbacks s) (fired s) in
  let s := with_callbacks s (read_callbacks s) (write_callbacks s) (event_callbacks s)
             (fired s ++ ((fun cb => FiredRead cb info) <$> callbacks)) in
  with_callbacks s callbacks (write_callbacks s) (event_callbacks s) (fired s).

Definition fire_write (info : EventInfo) (s : StoreInner) : StoreInner :=
  let callbacks := write_callbacks s in
  let s := with_callbacks s (read_callbacks s) [] (event_callbacks s) (fired s) in
  let s := with_callbacks s (read_callbacks s) (write_callbacks s) (event_callbacks s)
             (fired s ++ ((fun cb => FiredWrite cb info) <$> callbacks)) in
  with_callbacks s (read_callbacks s) callbacks (event_callbacks s) (fired s).

Definition fire_event (name : string) (s : StoreInner) : StoreInner :=
  let callbacks := event_callbacks s in
  let s := with_callbacks s (read_callbacks s) (write_callbacks s) [] (fired s) in
  let s := with_callbacks s (read_callbacks s) (write_callbacks s) (event_callbacks s)
             (fired s ++ ((fun cb => FiredEvent cb name) <$> callbacks)) in
  with_callbacks s (read_callbacks s) (write_callbacks s) callbacks (fired s).

Definition on_read (cb : nat) (s : StoreInner) : StoreInner :=
  with_callbacks s (read_callbacks s ++ [cb]) (write_callbacks s) (event_callbacks s) (fired s).
Definition on_write (cb : nat) (s : StoreInner) : StoreInner :=
  with_callbacks s (read_callbacks s) (write_callbacks s ++ [cb]) (event_callbacks s) (fired s).
Definition on_event (cb : nat) (s : StoreInner) : StoreInner :=
  with_callbacks s (read_callbacks s) (write_callbacks s) (event_callbacks s ++ [cb]) (fired s).

(** ** CPU state and clock *)
Definition set_cpu_state (state : CpuState) (s : StoreInner) : StoreInner :=
  let s := with_cpu_state s state in
  fire_event (match state with Run => "cpu_start" | Stop => "cpu_stop" end) s.

Definition get_clock (s : StoreInner) : bytes := clock s.
Definition set_clock (b : bytes) (s : StoreInner) : StoreInner := with_clock s b.

(** ** Data access *)
Definition saturating_add_u32 (a b : Z) : Z := Z.min U32_MAX (a + b).

(** [(start..end).map(|offset| *inner.data.get(&(area, db, offset)).unwrap_or(&0))] *)
Definition read_range (m : gmap (Z * Z * Z) Z) (area db start end_ : Z) : bytes :=
  (fun offset => default 0 (m !! (area, db, offset))) <$> seqZ start (end_ - start).

Definition read_bytes (db start count : Z) (s : StoreInner) : bytes :=
  read_range (data s) 0x84 db start (saturating_add_u32 start count).

Definition read_area (area db start count : Z) (s : StoreInner) : bytes * StoreInner :=
  let end_ := saturating_add_u32 start count in
  let d := read_range (data s) area db start end_ in
  (d, fire_read {| event := "read"; ev_area := area; ev_db_number := db;
                   ev_start := start; ev_length := count |} s).

(** [for (i, &byte) in data.iter().enumerate()
      { if let Some(offset) = start.checked_add(i as u32) { insert } }] *)
Fixpoint write_loop (area db start i : Z) (bs : bytes) (m : gmap (Z * Z * Z) Z)
  : gmap (Z * Z * Z) Z :=
  match bs with
  | [] => m
  | byte :: bs' =>
      let offset := start + as_u32 i in
      write_loop area db start (i + 1) bs'
        (if offset <=? U32_MAX then <[(area, db, offset) := byte]> m else m)
  end.

Definition write_area (area db start : Z) (bs : bytes) (s : StoreInner) : StoreInner :=
  if is_area_locked area s then s
  else
    let s := with_data s (write_loop area db start 0 bs (data s)) in
    fire_write {| event := "write"; ev_area := area; ev_db_number := db;
                  ev_start := start; ev_length := as_u32 (blen bs) |} s.

Definition write_bytes (db start : Z) (bs : bytes) (s : StoreInner) : StoreInner :=
  write_area DATA_BLOCK db start bs s.

(** ** The abstract memory

    What the store promises its clients: a total memory of bytes, zero where
    nothing was written, in which an access touches exactly the addressed
    range.  Two memories are equal when they agree at every address. *)
Definition Mem : Type := Z * Z * Z → Z.

Definition mem_eq : relation Mem := pointwise_relation _ eq.
#[export] Instance mem_eq_equivalence : Equivalence mem_eq.
Proof.
  split; unfold mem_eq, pointwise_relation;
    [done|by intros x y H k|by intros x y z H1 H2 k; rewrite H1].
Qed.

Definition spec_read (area db start : Z) (n : Z) (m : Mem) : bytes :=
  (fun o => m (area, db, o)) <$> seqZ start n.

Definition spec_write (area db start : Z) (bs : bytes) (m : Mem) : Mem := fun '(a, d, o) =>
  if bool_decide (a = area ∧ d = db ∧ start <= o < start + blen bs)
  then default 0 (bs !! Z.to_nat (o - start)) else m (a, d, o).

Definition spec_purge (area : Z) (m : Mem) : Mem := fun '(a, d, o) =>
  if bool_decide (a = area) then 0 else m (a, d, o).

#[export] Instance spec_read_proper area db start n : Proper (mem_eq ==> eq) (spec_read area db start n).
Proof. intros m m' H. apply list_fmap_ext. intros. apply H. Qed.
#[export] Instance spec_write_proper area db start bs :
  Proper (mem_eq ==> mem_eq) (spec_write area db start bs).
Proof. intros m m' H [[a d] o]. cbn. by rewrite (H (a, d, o)). Qed.

Definition mem_of (s : StoreInner) : Mem := fun k => default 0 (data s !! k).

(** ** Writes *)
Lemma write_loop_lookup area db start i bs m a d o :
  0 <= i → i + blen bs <= 4294967296 → 0 <= start → start + i + blen bs <= 4294967296 →
  write_loop area db start i bs m !! (a, d, o) =
  if bool_decide (a = area ∧ d = db ∧ start + i <= o < start + i + blen bs)
  then bs !! Z.to_nat (o - start - i) else m !! (a, d, o).
Proof.
  revert i m. induction bs as [|b bs IH]; intros i m Hi Hl Hs Hsl; cbn [write_loop].
  - rewrite blen_nil. case_bool_decide; [lia|done].
  - rewrite blen_cons in *. blen_pose.
    rewrite as_u32_small by (unwidth; lia).
    rewrite IH by lia. unfold U32_MAX. case_ltb; [|lia].
    destruct (decide ((area, db, start + i) = (a, d, o))) as [[= -> -> <-]|Hne].
    + rewrite lookup_insert_eq.
      rewrite bool_decide_eq_false_2, bool_decide_eq_true_2 by lia.
      by replace (Z.to_nat _) with 0%nat by lia.
    + rewrite lookup_insert_ne by done. repeat case_bool_decide; try done; try lia.
      * replace (Z.to_nat (o - start - i)) with (S (Z.to_nat (o - start - (i + 1)))) by lia.
        done.
      * destruct_and!. subst. destruct Hne. repeat f_equal. lia.
Qed.

Lemma mem_of_fire_read info s : mem_of (fire_read info s) = mem_of s.
Proof. done. Qed.
Lemma mem_of_fire_write info s : mem_of (fire_write info s) = mem_of s.
Proof. done. Qed.

Lemma mem_of_write_area area db start bs s :
  is_area_locked area s = false → 0 <= start → start + blen bs <= 4294967296 →
  mem_eq (mem_of (write_area area db start bs s)) (spec_write area db start bs (mem_of s)).
Proof.
  intros Hl Hs Hb [[a d] o]. unfold write_area. rewrite Hl, mem_of_fire_write.
  unfold mem_of, spec_write. cbn. blen_pose.
  rewrite write_loop_lookup by lia. rewrite Z.add_0_r, Z.sub_0_r. by case_bool_decide.
Qed.

Lemma read_range_spec m area db start end_ :
  read_range m area db start end_ =
  spec_read area db start (end_ - start) (fun k => default 0 (m !! k)).
Proof. done. Qed.

Lemma read_area_spec area db start count s :
  0 <= start → 0 <= count → start + count <= U32_MAX →
  (read_area area db start count s).1 = spec_read area db start count (mem_of s).
Proof.
  intros. unfold read_area, saturating_add_u32. cbn. rewrite read_range_spec.
  by replace (U32_MAX `min` (start + count) - start) with count by lia.
Qed.

Lemma spec_read_write area db start bs m :
  spec_read area db start (blen bs) (spec_write area db start bs m) = bs.
Proof.
  apply list_eq. intros i. unfold spec_read. rewrite list_lookup_fmap.
  destruct (decide (i < length bs)%nat) as [Hi|Hi].
  - rewrite lookup_seqZ_lt by (unfold blen; lia). cbn.
    rewrite bool_decide_eq_true_2 by (unfold blen; lia).
    replace (Z.to_nat _) with i by lia.
    by destruct (lookup_lt_is_Some_2 bs i Hi) as [x ->].
  - rewrite lookup_seqZ_ge by (unfold blen; lia).
    by rewrite (lookup_ge_None_2 bs i) by lia.
Qed.

(** Two adjacent writes are one. *)
Lemma spec_write_app area db start x y m :
  mem_eq (spec_write area db (start + blen x) y (spec_write area db start x m))
         (spec_write area db start (x ++ y) m).
Proof.
  intros [[a d] o]. unfold spec_write. rewrite blen_app. blen_pose.
  repeat case_bool_decide; try done; try lia.
  - rewrite lookup_app_r by (unfold blen in *; lia). f_equal. f_equal. unfold blen in *. lia.
  - by rewrite lookup_app_l by (unfold blen in *; lia).
Qed.

Lemma length_spec_read area db start n m : blen (spec_read area db start n m) = Z.max 0 n.
Proof. unfold blen, spec_read. rewrite length_fmap, length_seqZ. lia. Qed.

(** ** Sequences of operations *)
Inductive StoreOp :=
| OpRegister (area_code size : Z)
| OpUnregister (area_code : Z)
| OpLock (area_code : Z)
| OpUnlock (area_code : Z)
| OpConnected
| OpDisconnected
| OpSetMask (mask : Z)
| OpClearEvents
| OpPickEvent
| OpEnqueue (info : EventInfo) (kind_bit : Z)
| OpSetCpuState (c : CpuState)
| OpSetClock (b : bytes)
| OpRead (area db start count : Z)
| OpWrite (area db start : Z) (bs : bytes)
| OpOnRead (cb : nat)
| OpOnWrite (cb : nat)
| OpOnEvent (cb : nat).

Definition run_op (op : StoreOp) (s : StoreInner) : bytes * StoreInner :=
  match op with
  | OpRegister a n => ([], register_area a n s)
  | OpUnregister a => ([], unregister_area a s)
  | OpLock a => ([], lock_area a s)
  | OpUnlock a => ([], unlock_area a s)
  | OpConnected => ([], client_connected s)
  | OpDisconnected => ([], client_disconnected s)
  | OpSetMask m => ([], set_mask m s)
  | OpClearEvents => ([], clear_events s)
  | OpPickEvent => ([], (pick_event s).2)
  | OpEnqueue i k => ([], enqueue_event i k s)
  | OpSetCpuState c => ([], set_cpu_state c s)
  | OpSetClock b => ([], set_clock b s)
  | OpRead a d st n => read_area a d st n s
  | OpWrite a d st bs => ([], write_area a d st bs s)
  | OpOnRead cb => ([], on_read cb s)
  | OpOnWrite cb => ([], on_write cb s)
  | OpOnEvent cb => ([], on_event cb s)
  end.

Fixpoint run_ops (ops : list StoreOp) (s : StoreInner) : list bytes * StoreInner :=
  match ops with
  | [] => ([], s)
  | op :: ops' =>
      let '(out, s1) := run_op op s in
      let '(outs, s2) := run_ops ops' s1 in
      (out :: outs, s2)
  end.

(** The abstract machine: a memory and the set of locked areas. *)
Record SpecState := { sm : Mem; sl : Z → bool }.

Definition spec_op (op : StoreOp) (t : SpecState) : bytes * SpecState :=
  match op with
  | OpUnregister a => ([], {| sm := spec_purge a (sm t); sl := sl t |})
  | OpLock a => ([], {| sm := sm t; sl := fun x => bool_decide (x = a) || sl t x |})
  | OpUnlock a => ([], {| sm := sm t; sl := fun x => negb (bool_decide (x = a)) && sl t x |})
  | OpRead a d st n => (spec_read a d st n (sm t), t)
  | OpWrite a d st bs =>
      ([], if sl t a then t else {| sm := spec_write a d st bs (sm t); sl := sl t |})
  | _ => ([], t)
  end.

Fixpoint spec_ops (ops : list StoreOp) (t : SpecState) : list bytes * SpecState :=
  match ops with
  | [] => ([], t)
  | op :: ops' =>
      let '(out, t1) := spec_op op t in
      let '(outs, t2) := spec_ops ops' t1 in
      (out :: outs, t2)
  end.

(** Accesses that stay inside the 32-bit offset range. *)
Definition op_in_range (op : StoreOp) : Prop :=
  match op with
  | OpRead _ _ st n => 0 <= st ∧ 0 <= n ∧ st + n <= U32_MAX
  | OpWrite _ _ st bs => 0 <= st ∧ st + blen bs <= 4294967296
  | _ => True
  end.

Definition refines (s : StoreInner) (t : SpecState) : Prop :=
  mem_eq (mem_of s) (sm t) ∧ ∀ a, is_area_locked a s = sl t a.

Lemma is_area_locked_lock a b s :
  is_area_locked b (lock_area a s) = bool_decide (b = a) || is_area_locked b s.
Proof.
  unfold is_area_locked, lock_area. cbn. rewrite lookup_insert.
  case_decide; repeat case_bool_decide; naive_solver.
Qed.

Lemma is_area_locked_unlock a b s :
  is_area_locked b (unlock_area a s) = negb (bool_decide (b = a)) && is_area_locked b s.
Proof.
  unfold is_area_locked, unlock_area. cbn. rewrite lookup_delete.
  case_decide; repeat case_bool_decide; naive_solver.
Qed.

Lemma mem_of_unregister a s :
  mem_eq (mem_of (unregister_area a s)) (spec_purge a (mem_of s)).
Proof.
  intros [[x d] o]. unfold mem_of, spec_purge, unregister_area. cbn.
  rewrite map_lookup_filter. destruct (data s !! (x, d, o)); cbn;
    [case_guard|]; cbn in *; case_bool_decide; try done; naive_solver.
Qed.

Lemma run_op_refines op s t :
  op_in_range op → refines s t →
  (run_op op s).1 = (spec_op op t).1 ∧ refines (run_op op s).2 (spec_op op t).2.
Proof.
  intros Hop [Hm Hl]. destruct op; try (split; done);
    cbn [run_op spec_op op_in_range fst snd] in *.
  - split; [done|]. split; [|done]. cbn [sm]. rewrite mem_of_unregister.
    intros [[x d] o]. cbn. by rewrite (Hm (x, d, o)).
  - split; [done|]. split; [done|]. intros a. rewrite is_area_locked_lock. by rewrite Hl.
  - split; [done|]. split; [done|]. intros a. rewrite is_area_locked_unlock. by rewrite Hl.
  - split; [done|]. split; unfold pick_event; by destruct (events s).
  - split; [done|]. split; unfold enqueue_event; by destruct (_ =? 0).
  - split; [|done]. rewrite read_area_spec by lia. by rewrite Hm.
  - split; [done|]. destruct (sl t area) eqn:El; rewrite <- Hl in El.
    + unfold write_area. by rewrite El.
    + split; cbn [sm sl].
      * rewrite mem_of_write_area by (done || lia). by rewrite Hm.
      * intros a. unfold write_area. rewrite El. apply Hl.
Qed.

Lemma run_ops_refines ops s t :
  Forall op_in_range ops → refines s t →
  (run_ops ops s).1 = (spec_ops ops t).1 ∧ refines (run_ops ops s).2 (spec_ops ops t).2.
Proof.
  intros Hops. revert s t. induction Hops as [|op ops Hop Hops IH]; intros s t HR; [done|].
  cbn [run_ops spec_ops]. destruct (run_op_refines op s t Hop HR) as [Ho HR'].
  destruct (run_op op s) as [o1 s1], (spec_op op t) as [o2 t1]. cbn in Ho, HR'. subst.
  destruct (IH s1 t1 HR') as [Ho' HR''].
  destruct (run_ops ops s1) as [os1 s2], (spec_ops ops t1) as [os2 t2].
  cbn in *. by subst.
Qed.

(** C6: the data store implements the abstract byte memory: for every
    sequence of its operations whose accesses stay within 32-bit offsets, the
    bytes every read returns are those of a total memory in which writes to
    unlocked areas change exactly the addressed range, writes to locked areas
    change nothing and unregistering an area zeroes it. *)
Theorem store_refines_memory ops s t :
  Forall op_in_range ops → refines s t →
  (run_ops ops s).1 = (spec_ops ops t).1 ∧ refines (run_ops ops s).2 (spec_ops ops t).2.
Proof. apply run_ops_refines. Qed.

Lemma store_refines_memory_witness :
  let ops := [OpWrite 132 1 0 [222; 173]; OpLock 132; OpWrite 132 1 0 [1; 1];
              OpRead 132 1 0 3; OpUnregister 132; OpRead 132 1 0 3] in
  (run_ops ops DataStore_new).1 = [[]; []; []; [222; 173; 0]; []; [0; 0; 0]].
Proof.
  intros ops.
  rewrite (proj1 (store_refines_memory ops DataStore_new
                    {| sm := fun _ => 0; sl := fun _ => false |} ltac:(
                      repeat (constructor; [cbn; unfold U32_MAX; repeat rewrite blen_cons;
                                            rewrite ?blen_nil; lia|]); constructor)
                    ltac:(split; [intros k; unfold mem_of; cbn; by rewrite lookup_empty
                                 |intros a; unfold is_area_locked; cbn;
                                  by rewrite lookup_empty]))).
  vm_compute. reflexivity.
Defined.

(** ** The store invariant *)
Definition store_wf (s : StoreInner) : Prop :=
  map_Forall (fun k v => u8 v ∧ 0 <= k.2 <= U32_MAX) (data s) ∧
  (length (clock s) = 8)%nat ∧ wf_bytes (clock s) ∧
  (length (events s) <= 1024)%nat ∧ u32 (event_mask s) ∧ 0 <= client_count s.

(** The arguments of an operation fit their Rust types. *)
Definition op_wf (op : StoreOp) : Prop :=
  match op with
  | OpSetMask m => u32 m
  | OpSetClock b => (length b = 8)%nat ∧ wf_bytes b
  | OpWrite _ _ st bs => u32 st ∧ wf_bytes bs
  | _ => True
  end.

Lemma write_loop_wf area db start i bs m :
  0 <= start → wf_bytes bs →
  map_Forall (fun k v => u8 v ∧ 0 <= k.2 <= U32_MAX) m →
  map_Forall (fun k v => u8 v ∧ 0 <= k.2 <= U32_MAX) (write_loop area db start i bs m).
Proof.
  intros Hs Hbs. revert i m. induction Hbs as [|b bs Hb Hbs IH]; intros i m Hm; [done|].
  cbn [write_loop]. apply IH. case_ltb; [|done].
  apply map_Forall_insert_2; [|done]. pose proof (as_u32_u32 i). unwidth. cbn. lia.
Qed.

Lemma run_op_wf op s :
  op_wf op → store_wf s → store_wf (run_op op s).2.
Proof.
  intros Hop (Hd & Hc & Hcw & He & Hm & Hn). unfold store_wf.
  destruct op; cbn [run_op snd op_wf] in *; try by split_and!.
  - split_and!; try done. cbn. intros k v [Hk _]%map_lookup_filter_Some. by apply Hd.
  - split_and!; try done. cbn. lia.
  - split_and!; try done. cbn. unfold saturating_sub. lia.
  - split_and!; try done. cbn. lia.
  - unfold pick_event. destruct (events s) as [|e q] eqn:E; cbn; rewrite ?E;
      split_and!; try done; cbn in *; lia.
  - unfold enqueue_event. destruct (_ =? 0); [by split_and!|]. split_and!; try done.
    cbn. rewrite length_app. cbn. case_ltb; [|lia].
    destruct (events s); cbn in *; lia.
  - destruct Hop. by split_and!.
  - unfold write_area. destruct (is_area_locked area s); [by split_and!|].
    destruct Hop as [Hst Hbs]. split_and!; try done. cbn.
    apply write_loop_wf; try done. unwidth. lia.
Qed.

Lemma DataStore_new_wf : store_wf DataStore_new.
Proof.
  unfold store_wf. split; [apply map_Forall_empty|]. split_and!; try (cbn; unwidth; lia).
  - apply Forall_replicate. unwidth. lia.
Qed.

(** Every sequence of operations keeps the store well formed: stored
    values are bytes at 32-bit offsets, the clock is eight bytes, the event
    queue never holds more than 1024 events and the client counter never goes
    below zero; in particular this holds of every state reachable from a new
    store. *)
Theorem store_wf_preserved ops s :
  Forall op_wf ops → store_wf s → store_wf (run_ops ops s).2.
Proof.
  intros Hops. revert s. induction Hops as [|op ops Hop Hops IH]; intros s Hs; [done|].
  cbn [run_ops]. pose proof (run_op_wf op s Hop Hs) as H1.
  destruct (run_op op s) as [o s1]. specialize (IH s1 H1).
  by destruct (run_ops ops s1) as [os s2].
Qed.

Lemma store_wf_preserved_witness :
  store_wf (run_ops [OpWrite 132 1 0 [222; 173]; OpDisconnected] DataStore_new).2.
Proof.
  apply store_wf_preserved; [|apply DataStore_new_wf].
  constructor; [|by repeat constructor].
  cbn. split; [unwidth; lia|]. repeat constructor; unwidth; lia.
Defined.

(** The event queue is a first-in first-out queue that drops its oldest
    entry when full: enqueueing an event whose kind is not masked out appends
    it and keeps the newest 1023 of the others, picking returns the events in
    the order they were enqueued, and a masked kind is not recorded. *)
Theorem event_queue_fifo info kind_bit s :
  (length (events s) <= 1024)%nat →
  events (enqueue_event info kind_bit s) =
    (if Z.land (event_mask s) kind_bit =? 0 then events s
     else drop (length (events s) - 1023) (events s) ++ [info]) ∧
  (∀ e q, events s = e :: q → (pick_event s).1 = Some e ∧ events (pick_event s).2 = q) ∧
  (events s = [] → pick_event s = (None, s)).
Proof.
  intros Hl. unfold enqueue_event, pick_event. split_and!.
  - destruct (_ =? 0); [done|]. cbn. f_equal. case_ltb.
    + replace (length (events s) - 1023)%nat with 1%nat by lia. by destruct (events s).
    + by replace (length (events s) - 1023)%nat with 0%nat by lia.
  - by intros e q ->.
  - by intros ->.
Qed.

Lemma event_queue_fifo_witness :
  let e := {| event := "read"; ev_area := 132; ev_db_number := 1; ev_start := 0; ev_length := 4 |} in
  events (enqueue_event e 1 DataStore_new) = [e].
Proof.
  intros e. rewrite (proj1 (event_queue_fifo e 1 DataStore_new ltac:(cbn; lia))).
  reflexivity.
Defined.
