(* ===== verification/Io.v ===== *)
(** * Transports: the AsyncRead + AsyncWrite interface

    The source is generic over [T: AsyncRead + AsyncWrite + Unpin]; the model
    is generic over an instance of [Transport].  An async function is run to
    completion between its awaits, so it is a function from the transport's
    state to a result and the transport's next state.  [Pipe] is the instance
    used to talk about wire traffic: the bytes still to be received before the
    peer closes, and the bytes sent so far.  A peer that stays open after its
    last byte is told apart where it matters, in [AcceptLoop]. *)

From S2P Require Import Prelude.
Local Open Scope Z_scope.

(** [std::io::ErrorKind], as far as the transports report it. *)
Inductive IoError := UnexpectedEof | TimedOut | BrokenPipe | InvalidInput | InvalidData.

Class Transport (T : Type) := {
  read_exact : Z → T → res IoError bytes * T;
  write_all : bytes → T → res IoError unit * T;
}.

(** ** Effects over a transport *)
Definition IO (T E A : Type) : Type := T → res E A * T.

Definition io_ret {T E A} (a : A) : IO T E A := fun t => (Ok a, t).
Definition io_fail {T E A} (e : E) : IO T E A := fun t => (Err e, t).
Definition io_lift {T E A} (r : res E A) : IO T E A := fun t => (r, t).
Definition io_bind {T E A B} (m : IO T E A) (k : A → IO T E B) : IO T E B := fun t =>
  match m t with
  | (Ok a, t') => k a t'
  | (Err e, t') => (Err e, t')
  | (Panic, t') => (Panic, t')
  end.
(** [m.map_err(f)], also the conversion that [?] applies. *)
Definition io_map_err {T E F A} (f : E → F) (m : IO T E A) : IO T F A := fun t =>
  let '(r, t') := m t in (res_map_err f r, t').

Declare Scope io_scope.
Delimit Scope io_scope with io.
Notation "'let*' x ':=' m 'in' k" := (io_bind m (fun x => k))
  (at level 10, x pattern, m at level 200, k at level 200,
   format "'[v' 'let*'  x  ':='  m  'in' '/' k ']'") : io_scope.
#[global] Open Scope io_scope.

Lemma io_bind_ok {T E A B} (m : IO T E A) (k : A → IO T E B) t a t' :
  m t = (Ok a, t') → io_bind m k t = k a t'.
Proof. intros H. unfold io_bind. by rewrite H. Qed.
Lemma io_bind_err {T E A B} (m : IO T E A) (k : A → IO T E B) t e t' :
  m t = (Err e, t') → io_bind m k t = (Err e, t').
Proof. intros H. unfold io_bind. by rewrite H. Qed.
Lemma io_map_err_ok {T E F A} (f : E → F) (m : IO T E A) t a t' :
  m t = (Ok a, t') → io_map_err f m t = (Ok a, t').
Proof. intros H. unfold io_map_err. by rewrite H. Qed.
Lemma io_map_err_err {T E F A} (f : E → F) (m : IO T E A) t e t' :
  m t = (Err e, t') → io_map_err f m t = (Err (f e), t').
Proof. intros H. unfold io_map_err. by rewrite H. Qed.

(** ** A scripted connection *)
Record Pipe := { rx : bytes; tx : bytes }.

#[export] Instance Pipe_transport : Transport Pipe := {|
  read_exact n p :=
    if blen (rx p) <? n then (Err UnexpectedEof, {| rx := []; tx := tx p |})
    else (Ok (take (Z.to_nat n) (rx p)), {| rx := drop (Z.to_nat n) (rx p); tx := tx p |});
  write_all b p := (Ok tt, {| rx := rx p; tx := tx p ++ b |});
|}.

Lemma pipe_read_app n a b o :
  n = blen a → read_exact n {| rx := a ++ b; tx := o |} = (Ok a, {| rx := b; tx := o |}).
Proof.
  intros ->. cbn. case_ltb; [blen_lia|].
  by rewrite to_nat_blen, take_app_length, drop_app_length.
Qed.
Lemma pipe_read_short n a o :
  blen a < n → read_exact n {| rx := a; tx := o |} = (Err UnexpectedEof, {| rx := []; tx := o |}).
Proof. intros. cbn. case_ltb; [done|lia]. Qed.

(** ASCII string literals as bytes ([b"..."], [str::as_bytes]). *)
Definition str_bytes (s : string) : bytes :=
  (fun a => Z.of_N (Ascii.N_of_ascii a)) <$> String.list_ascii_of_string s.

Lemma str_bytes_wf s : wf_bytes (str_bytes s).
Proof.
  unfold str_bytes. apply Forall_fmap, Forall_forall. intros a _. cbn.
  pose proof (Ascii.N_ascii_bounded a). unwidth. lia.
Qed.

(** ** Programs on a pipe that never panic and only consume their input *)
Definition io_safe {E A} (m : IO Pipe E A) : Prop :=
  ∀ p, (m p).1 ≠ Panic ∧ blen (rx (m p).2) <= blen (rx p).

Lemma io_safe_ret {E A} (a : A) : io_safe (@io_ret Pipe E A a).
Proof. split; [done|cbn; lia]. Qed.
Lemma io_safe_fail {E A} (e : E) : io_safe (@io_fail Pipe E A e).
Proof. split; [done|cbn; lia]. Qed.
Lemma io_safe_lift {E A} (r : res E A) : r ≠ Panic → io_safe (@io_lift Pipe E A r).
Proof. split; [done|cbn; lia]. Qed.
Lemma io_safe_bind {E A B} (m : IO Pipe E A) (k : A → IO Pipe E B) :
  io_safe m → (∀ a, io_safe (k a)) → io_safe (io_bind m k).
Proof.
  intros Hm Hk p. destruct (Hm p) as [H1 H2]. unfold io_bind.
  destruct (m p) as [[a|e|] t]; cbn in *; [|done|done].
  destruct (Hk a t) as [H3 H4]. split; [done|lia].
Qed.
Lemma io_safe_map_err {E F A} (f : E → F) (m : IO Pipe E A) :
  io_safe m → io_safe (io_map_err f m).
Proof.
  intros Hm p. destruct (Hm p) as [H1 H2]. unfold io_map_err.
  by destruct (m p) as [[a|e|] t].
Qed.
Lemma io_safe_read n : io_safe (read_exact n).
Proof. intros p. cbn. case_ltb; cbn; split; try done; blen_lia. Qed.
Lemma io_safe_write b : io_safe (write_all b).
Proof. intros p. cbn. split; [done|lia]. Qed.
(** A read that succeeds delivers exactly the bytes asked for. *)
Lemma io_safe_read_bind {E A} (f : IoError → E) (n : Z) (k : bytes → IO Pipe E A) :
  0 <= n → (∀ b, blen b = n → io_safe (k b)) → io_safe (io_bind (io_map_err f (read_exact n)) k).
Proof.
  intros Hn Hk p. unfold io_bind, io_map_err. cbn. case_ltb; cbn; [split; [done|blen_lia]|].
  destruct (Hk (take (Z.to_nat n) (rx p)) ltac:(rewrite blen_take; lia)
              {| rx := drop (Z.to_nat n) (rx p); tx := tx p |}) as [H1 H2].
  cbn in H2. split; [done|blen_lia].
Qed.

Lemma res_map_err_total {E F A} (f : E → F) (r : res E A) : r ≠ Panic → res_map_err f r ≠ Panic.
Proof. by destruct r. Qed.

#[export] Hint Resolve io_safe_ret io_safe_fail io_safe_lift io_safe_map_err io_safe_read
  io_safe_write res_map_err_total : wire.

(** Programs that only receive: they send nothing and consume a prefix of the
    input. *)
Definition io_reads {E A} (m : IO Pipe E A) : Prop :=
  ∀ p, tx (m p).2 = tx p ∧ ∃ pre, rx p = pre ++ rx (m p).2.

Lemma io_reads_lift {E A} (r : res E A) : io_reads (@io_lift Pipe E A r).
Proof. intros p. split; [done|]. by exists []. Qed.
Lemma io_reads_bind {E A B} (m : IO Pipe E A) (k : A → IO Pipe E B) :
  io_reads m → (∀ a, io_reads (k a)) → io_reads (io_bind m k).
Proof.
  intros Hm Hk p. destruct (Hm p) as (H1 & pre & H2). unfold io_bind.
  destruct (m p) as [[a|e|] t]; cbn in *; [|by eauto..].
  destruct (Hk a t) as (H3 & pre' & H4). split; [congruence|]. exists (pre ++ pre').
  by rewrite <- (assoc_L (++)), <- H4.
Qed.
Lemma io_reads_map_err {E F A} (f : E → F) (m : IO Pipe E A) :
  io_reads m → io_reads (io_map_err f m).
Proof.
  intros Hm p. specialize (Hm p). unfold io_map_err. by destruct (m p) as [[a|e|] t].
Qed.
Lemma io_reads_read n : io_reads (read_exact n).
Proof.
  intros p. cbn. case_ltb; cbn; (split; [done|]).
  - exists (rx p). by rewrite app_nil_r.
  - exists (take (Z.to_nat n) (rx p)). by rewrite take_drop.
Qed.
#[export] Hint Resolve io_reads_lift io_reads_map_err io_reads_read : wire.

Lemma io_bind_inv {T E A B} (m : IO T E A) (k : A → IO T E B) t b t' :
  io_bind m k t = (Ok b, t') → ∃ a t1, m t = (Ok a, t1) ∧ k a t1 = (Ok b, t').
Proof. unfold io_bind. destruct (m t) as [[a|e|] t1]; naive_solver. Qed.
Lemma io_map_err_inv {T E F A} (f : E → F) (m : IO T E A) t a t' :
  io_map_err f m t = (Ok a, t') → m t = (Ok a, t').
Proof. unfold io_map_err. destruct (m t) as [[?|e|] t1]; naive_solver. Qed.
Lemma pipe_read_inv n p b p' :
  0 <= n → read_exact n p = (Ok b, p') →
  rx p = b ++ rx p' ∧ blen b = n ∧ tx p' = tx p.
Proof.
  intros Hn. cbn. case_ltb; [done|]. intros [= <- <-]. cbn.
  rewrite take_drop, blen_take. split_and!; [done|lia|done].
Qed.
