(* ===== verification/ServerHandshake.v ===== *)
(** * Framing and handshake of the server (snap7-server, handshake.rs) *)

From S2P Require Import Prelude Wire Io Tpkt Cotp S7Header Negotiate.
Local Open Scope Z_scope.

Module Server.
(** snap7-server's [Error]. *)
Inductive Error :=
| Proto (e : ProtoError)
| Io (e : IoError)
| NegotiationFailed.
End Server.

Definition MAX_PDU_SIZE : Z := 480.
Definition NEGOTIATE_PARAM_LEN : Z := 8.

Section Framing.
Context {T : Type} `{Transport T}.

Definition recv_tpkt_cotp : IO T Server.Error CotpPdu :=
  let* header := io_map_err Server.Io (read_exact 4) in
  match header with
  | [h0; _; h2; h3] =>
      if negb (h0 =? 0x03) then io_fail Server.NegotiationFailed
      else
        let total := of_be16 h2 h3 in
        if total <? 4 then io_fail Server.NegotiationFailed
        else
          let* payload := io_map_err Server.Io (read_exact (total - 4)) in
          io_lift (res_map_err Server.Proto
                     (match CotpPdu_decode payload with
                      | Ok (pdu, _) => Ok pdu
                      | Err e => Err e
                      | Panic => Panic
                      end))
  | _ => io_lift Panic
  end.

Definition recv_cotp_data : IO T Server.Error bytes :=
  let* pdu := recv_tpkt_cotp in
  match pdu with
  | Data _ _ payload => io_ret payload
  | _ => io_fail Server.NegotiationFailed
  end.

Definition send_tpkt_cotp (pdu : CotpPdu) : IO T Server.Error unit :=
  let tpkt := {| tpkt_payload := CotpPdu_encode pdu |} in
  let* buf := io_lift (res_map_err Server.Proto (TpktFrame_encode tpkt)) in
  io_map_err Server.Io (write_all buf).

Definition send_cotp_data (payload : bytes) : IO T Server.Error unit :=
  send_tpkt_cotp (Data 0 true payload).

Definition server_handshake : IO T Server.Error Z :=
  let* cr := recv_tpkt_cotp in
  match cr with
  | ConnectRequest _ src_ref _ _ =>
      let* _ := send_tpkt_cotp (ConnectConfirm src_ref 0x0001) in
      let* payload := recv_cotp_data in
      let* (req_header, payload) :=
        io_lift (res_map_err Server.Proto (S7Header_decode payload)) in
      if negb (bool_decide (pdu_type req_header = Job)) then io_fail Server.NegotiationFailed
      else
        let* (neg_req, _) :=
          io_lift (res_map_err Server.Proto (NegotiateRequest_decode payload)) in
        let negotiated := Z.min (req_pdu_length neg_req) MAX_PDU_SIZE in
        let resp_header :=
          {| pdu_type := AckData; reserved := 0; pdu_ref := pdu_ref req_header;
             param_len := NEGOTIATE_PARAM_LEN; data_len := 0;
             error_class := Some 0; error_code := Some 0 |} in
        let neg_resp :=
          {| resp_max_amq_calling := req_max_amq_calling neg_req;
             resp_max_amq_called := req_max_amq_called neg_req;
             resp_pdu_length := negotiated |} in
        let* _ := send_cotp_data (S7Header_encode resp_header ++
                                  NegotiateResponse_encode neg_resp) in
        io_ret negotiated
  | _ => io_fail Server.NegotiationFailed
  end.
End Framing.

(** ** Frames on a pipe *)

(** One TPKT frame around [p]. *)
Definition tpkt_frame (p : bytes) : bytes := 3 :: 0 :: be16 (4 + blen p) ++ p.
(** The frame that carries S7 payload [p] in a COTP data PDU. *)
Definition data_frame (p : bytes) : bytes := tpkt_frame (2 :: 0xF0 :: 0x80 :: p).

Lemma blen_tpkt_frame p : blen (tpkt_frame p) = 4 + blen p.
Proof. unfold tpkt_frame. blen_lia. Qed.
Lemma blen_data_frame p : blen (data_frame p) = 7 + blen p.
Proof. unfold data_frame. rewrite blen_tpkt_frame. blen_lia. Qed.
#[export] Hint Rewrite blen_tpkt_frame blen_data_frame : blen.

Lemma data_frame_encode p : tpkt_frame (CotpPdu_encode (Data 0 true p)) = data_frame p.
Proof. reflexivity. Qed.

Lemma tpkt_frame_split body rest :
  tpkt_frame body ++ rest = (3 :: 0 :: be16 (4 + blen body)) ++ body ++ rest.
Proof. unfold tpkt_frame. cbn [app]. by rewrite <- (assoc_L (++)). Qed.

Lemma send_tpkt_cotp_ok pdu p :
  4 + blen (CotpPdu_encode pdu) <= 65535 →
  send_tpkt_cotp pdu p =
  (Ok tt, {| rx := rx p; tx := tx p ++ tpkt_frame (CotpPdu_encode pdu) |}).
Proof.
  intros Hl. unfold send_tpkt_cotp, io_lift, io_bind.
  by rewrite TpktFrame_encode_ok by done.
Qed.

Lemma send_cotp_data_ok payload p :
  7 + blen payload <= 65535 →
  send_cotp_data payload p = (Ok tt, {| rx := rx p; tx := tx p ++ data_frame payload |}).
Proof.
  intros Hl. unfold send_cotp_data. rewrite send_tpkt_cotp_ok; [done|].
  cbn [CotpPdu_encode app]. blen_lia.
Qed.

Lemma recv_tpkt_cotp_frame body rest o :
  4 + blen body <= 65535 →
  recv_tpkt_cotp {| rx := tpkt_frame body ++ rest; tx := o |} =
  (res_map_err Server.Proto (match CotpPdu_decode body with
                             | Ok (pdu, _) => Ok pdu | Err e => Err e | Panic => Panic end),
   {| rx := rest; tx := o |}).
Proof.
  intros Hl. unfold recv_tpkt_cotp.
  assert (Hu : u16 (4 + blen body)) by (unwidth; blen_lia). rewrite tpkt_frame_split.
  rewrite (io_bind_ok _ _ _ _ _ (io_map_err_ok _ _ _ _ _ 
    (pipe_read_app 4 (3 :: 0 :: be16 (4 + blen body)) (body ++ rest) o eq_refl))).
  cbn [be16 Z.eqb Pos.eqb negb]. rewrite of_be16_split by done. case_ltb; [blen_lia|].
  rewrite (io_bind_ok _ _ _ body {| rx := rest; tx := o |}); [done|].
  apply io_map_err_ok, pipe_read_app. lia.
Qed.

Lemma CotpPdu_decode_dt payload :
  CotpPdu_decode (2 :: 240 :: 128 :: payload) = Ok (Data 0 true payload, []).
Proof.
  unfold CotpPdu_decode. do 2 rd_step. cbn [Z.eqb Pos.eqb CODE_CR CODE_CC CODE_DT].
  do 5 rd_step. by rewrite to_nat_blen, firstn_all, drop_all.
Qed.

Lemma recv_cotp_data_frame payload rest o :
  7 + blen payload <= 65535 →
  recv_cotp_data {| rx := data_frame payload ++ rest; tx := o |} =
  (Ok payload, {| rx := rest; tx := o |}).
Proof.
  intros Hl. unfold recv_cotp_data.
  pose proof (recv_tpkt_cotp_frame (2 :: 240 :: 128 :: payload) rest o) as H.
  rewrite CotpPdu_decode_dt in H. cbn [res_map_err] in H.
  rewrite (io_bind_ok _ _ _ _ _ (H ltac:(blen_lia))). done.
Qed.

(** ** Safety *)
Lemma recv_tpkt_cotp_safe : io_safe recv_tpkt_cotp.
Proof.
  apply io_safe_read_bind; [lia|]. intros b Hb.
  destruct b as [|h0 [|h1 [|h2 [|h3 [|? ?]]]]]; try (exfalso; blen_lia).
  cbv zeta. destruct (negb _); [auto with wire|]. case_ltb; [auto with wire|].
  apply io_safe_bind; [auto with wire|]. intros payload.
  apply io_safe_lift, res_map_err_total. pose proof (CotpPdu_decode_total payload).
  by destruct (CotpPdu_decode payload) as [[? ?]| |].
Qed.
#[export] Hint Resolve recv_tpkt_cotp_safe : wire.

Lemma recv_cotp_data_safe : io_safe recv_cotp_data.
Proof.
  apply io_safe_bind; [auto with wire|]. intros []; auto with wire.
Qed.
#[export] Hint Resolve recv_cotp_data_safe : wire.

Lemma TpktFrame_encode_total f : TpktFrame_encode f ≠ Panic.
Proof. unfold TpktFrame_encode. by case_ltb. Qed.

Lemma send_tpkt_cotp_safe pdu : io_safe (send_tpkt_cotp pdu).
Proof.
  apply io_safe_bind; [|auto with wire].
  apply io_safe_lift, res_map_err_total, TpktFrame_encode_total.
Qed.
#[export] Hint Resolve send_tpkt_cotp_safe : wire.

Lemma send_cotp_data_safe b : io_safe (send_cotp_data b).
Proof. apply send_tpkt_cotp_safe. Qed.
#[export] Hint Resolve send_cotp_data_safe : wire.

(** The handshake rejects, but never panics on, whatever a peer sends. *)
Lemma server_handshake_safe : io_safe server_handshake.
Proof.
  apply io_safe_bind; [auto with wire|]. intros [| | |]; auto with wire.
  apply io_safe_bind; [auto with wire|]. intros _.
  apply io_safe_bind; [auto with wire|]. intros payload.
  apply io_safe_bind; [auto using S7Header_decode_total with wire|]. intros [h payload'].
  destruct (negb _); [auto with wire|].
  apply io_safe_bind; [auto using NegotiateRequest_decode_total with wire|]. intros [r ?].
  apply io_safe_bind; auto with wire.
Qed.

(** What is received is a piece of the input, in order. *)
Lemma CotpPdu_decode_data b n l payload b' :
  CotpPdu_decode b = Ok (Data n l payload, b') → ∃ x y z, b = x :: y :: z :: payload.
Proof.
  unfold CotpPdu_decode. rd_inv; try discriminate.
  - unfold rd_bind. by destruct (cotp_params _ _ _ _) as [[[? ?] ?]| |].
  - rewrite to_nat_blen, firstn_all, drop_all. intros [= <- <- <- <-]. eauto.
  - by destruct b.
Qed.

Lemma recv_tpkt_cotp_reads : io_reads recv_tpkt_cotp.
Proof.
  apply io_reads_bind; [auto with wire|].
  intros [|h0 [|h1 [|h2 [|h3 [|? ?]]]]]; cbv zeta; try apply io_reads_lift.
  destruct (negb _); [apply io_reads_lift|]. case_ltb; [apply io_reads_lift|].
  apply io_reads_bind; auto with wire.
Qed.
Lemma recv_cotp_data_reads : io_reads recv_cotp_data.
Proof. apply io_reads_bind; [apply recv_tpkt_cotp_reads|]. intros []; apply io_reads_lift. Qed.

Lemma recv_cotp_data_inv payload p p' :
  recv_cotp_data p = (Ok payload, p') →
  ∃ pre, rx p = pre ++ payload ++ rx p' ∧ 7 <= blen pre ∧ tx p' = tx p.
Proof.
  intros (pdu & t1 & H1 & H2)%io_bind_inv.
  assert (pdu = Data (match pdu with Data n _ _ => n | _ => 0 end)
                     (match pdu with Data _ l _ => l | _ => false end) payload ∧ t1 = p')
    as [Hpdu ->] by (destruct pdu; unfold io_fail, io_ret in H2; by simplify_eq).
  apply io_bind_inv in H1 as (h & t2 & Hh & H1).
  apply io_map_err_inv, pipe_read_inv in Hh as (E1 & Hl & Et1); [|lia].
  destruct h as [|h0 [|h1 [|h2 [|h3 [|? ?]]]]]; try (exfalso; blen_lia).
  cbv zeta in H1. destruct (negb _); [done|]. revert H1. case_ltb; [done|]. intros H1.
  apply io_bind_inv in H1 as (body & t3 & Hb & H1).
  apply io_map_err_inv, pipe_read_inv in Hb as (E2 & _ & Et2); [|lia].
  unfold io_lift in H1.
  destruct (CotpPdu_decode body) as [[pdu' b']| |] eqn:Ed; cbn in H1; simplify_eq.
  rewrite Hpdu in Ed. apply CotpPdu_decode_data in Ed as (x & y & z & ->).
  exists ([h0; h1; h2; h3] ++ [x; y; z]). rewrite E1, E2. split_and!; [done|done|congruence].
Qed.

Lemma send_cotp_data_rx b p : rx (send_cotp_data b p).2 = rx p.
Proof.
  unfold send_cotp_data, send_tpkt_cotp, io_bind, io_lift.
  by destruct (TpktFrame_encode _).
Qed.

(** ** The handshake *)
Lemma S7Header_wf_job r pl dl :
  u16 r → u16 pl → u16 dl →
  S7Header_wf {| pdu_type := Job; reserved := 0; pdu_ref := r; param_len := pl;
                 data_len := dl; error_class := None; error_code := None |}.
Proof. intros. repeat split; cbn; try done; unwidth; lia. Qed.
Lemma S7Header_wf_ack r pl dl a c :
  u16 r → u16 pl → u16 dl → u8 a → u8 c →
  S7Header_wf {| pdu_type := AckData; reserved := 0; pdu_ref := r; param_len := pl;
                 data_len := dl; error_class := Some a; error_code := Some c |}.
Proof. intros. repeat split; cbn; try done; try (unwidth; lia). by exists a, c. Qed.

(** The job that carries a negotiation request, and its answer. *)
Definition negotiate_job (r : Z) (n : NegotiateRequest) : bytes :=
  S7Header_encode {| pdu_type := Job; reserved := 0; pdu_ref := r; param_len := 8;
                     data_len := 0; error_class := None; error_code := None |} ++
  NegotiateRequest_encode n.
Definition negotiate_ack (r : Z) (n : NegotiateResponse) : bytes :=
  S7Header_encode {| pdu_type := AckData; reserved := 0; pdu_ref := r; param_len := 8;
                     data_len := 0; error_class := Some 0; error_code := Some 0 |} ++
  NegotiateResponse_encode n.

Definition negotiated (n : NegotiateRequest) : NegotiateResponse :=
  {| resp_max_amq_calling := req_max_amq_calling n;
     resp_max_amq_called := req_max_amq_called n;
     resp_pdu_length := Z.min (req_pdu_length n) 480 |}.

Lemma server_handshake_run d s rack slot r n rest o :
  CotpPdu_wf (ConnectRequest d s rack slot) → u16 r → NegotiateRequest_wf n →
  server_handshake {| rx := tpkt_frame (CotpPdu_encode (ConnectRequest d s rack slot)) ++
                            data_frame (negotiate_job r n) ++ rest; tx := o |} =
  (Ok (Z.min (req_pdu_length n) 480),
   {| rx := rest;
      tx := o ++ tpkt_frame (CotpPdu_encode (ConnectConfirm s 1)) ++
            data_frame (negotiate_ack r (negotiated n)) |}).
Proof.
  intros Hcr Hr Hn. unfold server_handshake.
  assert (4 + blen (CotpPdu_encode (ConnectRequest d s rack slot)) <= 65535) as Hl
    by (vm_compute; discriminate).
  pose proof (recv_tpkt_cotp_frame _ (data_frame (negotiate_job r n) ++ rest) o Hl) as H1.
  rewrite (CotpPdu_decode_encode _ Hcr) in H1.
  rewrite (io_bind_ok _ _ _ _ _ H1). cbn [CotpPdu_wire].
  rewrite (io_bind_ok _ _ _ _ _ (send_tpkt_cotp_ok (ConnectConfirm s 1) _
             ltac:(vm_compute; discriminate))).
  cbn [rx tx].
  rewrite (io_bind_ok _ _ _ _ _ (recv_cotp_data_frame (negotiate_job r n) rest _
             ltac:(vm_compute; discriminate))).
  unfold io_lift at 1, io_bind at 1, negotiate_job.
  rewrite S7Header_decode_encode by (apply S7Header_wf_job; [done|unwidth; lia..]).
  cbn [res_map_err pdu_type pdu_ref]. rewrite bool_decide_eq_true_2 by done. cbn [negb].
  unfold io_lift at 1, io_bind at 1.
  rewrite <- (app_nil_r (NegotiateRequest_encode n)).
  rewrite NegotiateRequest_decode_encode by done. cbn [res_map_err].
  match goal with |- context [send_cotp_data ?x] =>
    change x with (negotiate_ack r (negotiated n)) end.
  rewrite (io_bind_ok _ _ _ _ _ (send_cotp_data_ok (negotiate_ack r (negotiated n)) _
             ltac:(vm_compute; discriminate))). cbn [rx tx].
  by rewrite <- (assoc_L (++)).
Qed.
