(* ===== verification/Dispatch.v ===== *)
(** * The request dispatch loop of the server (snap7-server, dispatch.rs)

    A handler of the source borrows the transport and the shared [DataStore];
    here it runs over the pair of the two states, so that what a failed send
    leaves behind in the store is kept. *)

From S2P Require Import Prelude Wire Io Tpkt Cotp S7Header ReadVar WriteVar Store ServerHandshake.
Local Open Scope Z_scope.

(** ** Response payloads *)
Definition ack_header (pdu_ref param_len data_len ec ecd : Z) : S7Header :=
  {| pdu_type := AckData; reserved := 0; pdu_ref := pdu_ref; param_len := param_len;
     data_len := data_len; error_class := Some ec; error_code := Some ecd |}.

(** [if payload.len() > i { payload[i] } else { 0 }]: the guarded index never
    panics. *)
Definition byte_or_0 (payload : bytes) (i : nat) : Z := default 0 (payload !! i).

(** ** System status lists *)
Definition szl_block (szl_id szl_index entry_len : Z) (entries : bytes) : bytes :=
  let entry_count := if 0 <? entry_len then as_u16 (blen entries / entry_len) else 0 in
  be16 szl_id ++ be16 szl_index ++ be16 entry_len ++ be16 entry_count ++ entries.

(** [make] of the CPU-info block: a two-byte index and a name padded with
    spaces to 32 characters. *)
Definition szl_name_entry (idx : Z) (s : string) : bytes :=
  let e := replicate 34 32 in
  let e := <[0%nat := as_u8 (Z.shiftr idx 8)]> e in
  let e := <[1%nat := as_u8 idx]> e in
  list_inserts 2 (take 32 (str_bytes s)) e.

Definition build_szl_response (szl_id : Z) : bytes :=
  match szl_id with
  | 0x0011 =>
      let entry := replicate 28 0 in
      let entry := <[1%nat := 0x01]> (<[0%nat := 0x00]> entry) in
      let entry := list_inserts 2 (str_bytes "Simulated PLC       ") entry in
      let entry := <[25%nat := 0]> (<[24%nat := 0]> (<[23%nat := 1]> entry)) in
      szl_block 0x0011 0x0000 28 entry
  | 0x0032 =>
      let entry := <[4%nat := 3]> (<[2%nat := 3]> (<[0%nat := 3]> (replicate 16 0))) in
      szl_block 0x0032 0x0000 16 entry
  | 0x001C =>
      let entries :=
        szl_name_entry 0x0001 "SimPLC" ++
        szl_name_entry 0x0002 "CPU Simulated" ++
        szl_name_entry 0x0003 "SimPLC" ++
        szl_name_entry 0x0004 "(C) Simulated" ++
        szl_name_entry 0x0005 "SIM-0000000001" ++
        szl_name_entry 0x0007 "CPU Simulated" ++
        szl_name_entry 0x0008 "SimPLC" in
      szl_block 0x001C 0x0000 34 entries
  | 0x0131 =>
      let entry :=
        [0x00; 0x01; 0x01; 0xE0; 0x00; 0x20; 0x00; 0x02; 0xDC; 0x6C; 0x00; 0x00; 0x61; 0xA8] in
      szl_block 0x0131 0x0001 14 entry
  | 0x0424 =>
      let data := <[3%nat := 0x08]> (replicate 12 0) in
      szl_block 0x0424 0x0000 12 data
  | _ => szl_block szl_id 0x0000 0 []
  end.

(** ** Read and write handlers *)
Definition read_item (item : AddressItem) (s : StoreInner) : DataItem * StoreInner :=
  let '(data, s') :=
    read_area (to_u8 (area item)) (db_number item) (start item) (item_length item) s in
  ({| return_code := 0xFF; item_data := data |}, s').

Fixpoint read_items_loop (items : list AddressItem) (s : StoreInner)
  : list DataItem * StoreInner :=
  match items with
  | [] => ([], s)
  | item :: items' =>
      let '(d, s1) := read_item item s in
      let '(ds, s2) := read_items_loop items' s1 in
      (d :: ds, s2)
  end.

(** The handlers' [Err(())] is [None]. *)
Definition handle_read_var (payload : bytes) (s : StoreInner)
  : res unit (Z * bytes) * StoreInner :=
  match ReadVarRequest_decode payload with
  | Panic => (Panic, s)
  | Err _ => (Err tt, s)
  | Ok (req, _) =>
      let '(items, s') := read_items_loop (read_items req) s in
      (Ok (as_u8 (Z.of_nat (length items)), ReadVarResponse_encode {| resp_items := items |}), s')
  end.

Definition write_item (s : StoreInner) (item : WriteItem) : StoreInner :=
  write_area (to_u8 (area (address item))) (db_number (address item))
    (start (address item)) (write_data item) s.

Definition handle_write_var (payload : bytes) (s : StoreInner)
  : res unit (Z * bytes) * StoreInner :=
  match WriteVarRequest_decode payload with
  | Panic => (Panic, s)
  | Err _ => (Err tt, s)
  | Ok (req, _) =>
      let s' := foldl write_item s (write_items req) in
      let item_count := as_u8 (Z.of_nat (length (write_items req))) in
      (Ok (item_count, replicate (Z.to_nat item_count) 0xFF), s')
  end.

Section Dispatch.
Context {T : Type} `{Transport T}.

(** The state of a connection: its transport and the shared store. *)
Definition Srv (A : Type) : Type := IO (T * StoreInner) Server.Error A.

Definition on_transport {A} (m : IO T Server.Error A) : Srv A := fun '(t, s) =>
  let '(r, t') := m t in (r, (t', s)).
Definition on_store {A} (f : StoreInner → A * StoreInner) : Srv A := fun '(t, s) =>
  let '(a, s') := f s in (Ok a, (t, s')).

Definition send_simple_ack (pdu_ref : Z) : Srv unit :=
  on_transport (send_cotp_data (S7Header_encode (ack_header pdu_ref 0 0 0 0))).

Definition send_ack_data (pdu_ref func item_count : Z) (data : bytes) : Srv unit :=
  on_transport (send_cotp_data
    (S7Header_encode (ack_header pdu_ref 2 (as_u16 (blen data)) 0 0) ++
     [func; item_count] ++ data)).

Definition send_error_response (pdu_ref error_class error_code : Z) : Srv unit :=
  on_transport (send_cotp_data
    (S7Header_encode (ack_header pdu_ref 0 0 error_class error_code))).

Definition handle_clock_user_data (pdu_ref : Z) (payload : bytes) : Srv unit :=
  let subfn := if 7 <=? blen payload then byte_or_0 payload 6 else 0 in
  if subfn =? 0x02 then
    let* _ :=
      if 20 <=? blen payload then
        match slice payload 12 20 with
        | Some dt_bytes => on_store (fun s => (tt, set_clock dt_bytes s))
        | None => io_lift Panic
        end
      else io_ret tt in
    on_transport (send_cotp_data (S7Header_encode (ack_header pdu_ref 0 0 0 0)))
  else
    let* clock := on_store (fun s => (get_clock s, s)) in
    match slice_to clock 4, slice_from clock 4 with
    | Some hi, Some lo =>
        on_transport (send_cotp_data
          (S7Header_encode {| pdu_type := UserData; reserved := 0; pdu_ref := pdu_ref;
                              param_len := 12; data_len := 4;
                              error_class := None; error_code := None |} ++
           [0x00; 0x01; 0x12; 0x08; 0x12; 0x87; 0x01; 0x00] ++ hi ++ lo))
    | _, _ => io_lift Panic
    end.

Definition handle_szl_user_data (pdu_ref : Z) (payload : bytes) : Srv unit :=
  let szl_id :=
    if 14 <=? blen payload then of_be16 (byte_or_0 payload 12) (byte_or_0 payload 13) else 0 in
  let response_data := build_szl_response szl_id in
  let data_len := as_u16 (blen response_data) in
  let* echo :=
    if 12 <=? blen payload then
      match slice_to payload 12 with Some e => io_ret e | None => io_lift Panic end
    else io_ret (replicate 12 0) in
  on_transport (send_cotp_data
    (S7Header_encode (ack_header pdu_ref 12 data_len 0 0) ++ echo ++
     [0xFF] ++ [0x04] ++ be16 data_len ++ response_data)).

Definition handle_user_data (pdu_ref : Z) (payload : bytes) : Srv unit :=
  let tg := if 6 <=? blen payload then byte_or_0 payload 5 else 0 in
  let group := Z.land tg 0x0F in
  if group =? 0x07 then handle_clock_user_data pdu_ref payload
  else handle_szl_user_data pdu_ref payload.

(** What [Ok]/[Err(())] of a variable handler is answered with. *)
Definition answer_var (pdu_ref func : Z) (r : res unit (Z * bytes)) : Srv unit :=
  match r with
  | Ok (item_count, response) => send_ack_data pdu_ref func item_count response
  | Err _ => send_error_response pdu_ref 0x81 0x04
  | Panic => io_lift Panic
  end.

Definition dispatch_job (pdu_ref : Z) (payload : bytes) : Srv unit :=
  match payload with
  | [] => io_lift Panic
  | func :: _ =>
      if func =? FUNC_READ_VAR then
        let* r := on_store (handle_read_var payload) in
        answer_var pdu_ref FUNC_READ_VAR r
      else if func =? FUNC_WRITE_VAR then
        let* r := on_store (handle_write_var payload) in
        answer_var pdu_ref FUNC_WRITE_VAR r
      else if bool_decide (func ∈ [0x28; 0x29; 0x2A; 0x31]) then
        let hdr := ack_header pdu_ref 2 (if func =? 0x31 then 1 else 0) 0 0 in
        on_transport (send_cotp_data
          (S7Header_encode hdr ++ [func; 0x00] ++ (if func =? 0x31 then [0x08] else [])))
      else if bool_decide (func ∈ [0x11; 0x12]) then send_simple_ack pdu_ref
      else send_error_response pdu_ref 0x81 0x04
  end.

(** One turn of the loop after a payload has arrived. *)
Definition dispatch_request (payload : bytes) : Srv unit :=
  match S7Header_decode payload with
  | Panic => io_lift Panic
  | Err _ => send_error_response 0 0x81 0x04
  | Ok (header, payload) =>
      if blen payload =? 0 then send_error_response (pdu_ref header) 0x81 0x04
      else
        match pdu_type header with
        | Job => dispatch_job (pdu_ref header) payload
        | UserData =>
            if (5 <=? blen payload) && (byte_or_0 payload 4 =? 0x11)
            then handle_user_data (pdu_ref header) payload
            else send_simple_ack (pdu_ref header)
        | _ => send_error_response (pdu_ref header) 0x81 0x04
        end
  end.

(** One turn: [inl r] leaves the loop with [r], [inr tt] continues it. *)
Definition dispatch_turn (st : T * StoreInner)
  : (res Server.Error unit + unit) * (T * StoreInner) :=
  match on_transport recv_cotp_data st with
  | (Ok payload, st1) =>
      match dispatch_request payload st1 with
      | (Ok _, st2) => (inr tt, st2)
      | (r, st2) => (inl r, st2)
      end
  | (Err _, st1) => (inl (Ok tt), st1)
  | (Panic, st1) => (inl Panic, st1)
  end.

(** [loop { ... }] with a bound on its turns; [None] when the bound is hit. *)
Fixpoint dispatch_loop (fuel : nat) (st : T * StoreInner)
  : option (res Server.Error unit * (T * StoreInner)) :=
  match fuel with
  | O => None
  | S fuel' =>
      match dispatch_turn st with
      | (inl r, st') => Some (r, st')
      | (inr _, st') => dispatch_loop fuel' st'
      end
  end.
End Dispatch.

(** ** Items against the store *)

(** An access that stays inside the 32-bit offset range. *)
Definition item_in_range (i : AddressItem) : Prop :=
  0 <= start i ∧ 0 <= item_length i ∧ start i + item_length i <= U32_MAX.

Lemma addressable_in_range i : AddressItem_addressable i → item_in_range i.
Proof. intros (? & ? & ? & _). unfold item_in_range, U32_MAX. unwidth. lia. Qed.

(** What a read request for [i] is answered with, in terms of the memory. *)
Definition spec_read_item (m : Mem) (i : AddressItem) : DataItem :=
  {| return_code := 0xFF;
     item_data := spec_read (to_u8 (area i)) (db_number i) (start i) (item_length i) m |}.

Definition spec_write_item (locked : Z → bool) (m : Mem) (i : WriteItem) : Mem :=
  if locked (to_u8 (area (address i))) then m
  else spec_write (to_u8 (area (address i))) (db_number (address i))
         (start (address i)) (write_data i) m.

(** Two stores that differ in nothing but the callbacks fired. *)
Definition same_data (s s' : StoreInner) : Prop :=
  mem_of s' = mem_of s ∧ clock s' = clock s ∧
  (∀ a, is_area_locked a s' = is_area_locked a s) ∧ (store_wf s → store_wf s').

#[export] Instance same_data_preorder : PreOrder same_data.
Proof.
  split; [by intros s; split_and!|]. intros x y z (E1 & E2 & E3 & E4) (F1 & F2 & F3 & F4).
  split_and!; [congruence|congruence|intros; congruence|auto].
Qed.

Lemma read_items_loop_spec items s :
  Forall item_in_range items →
  (read_items_loop items s).1 = spec_read_item (mem_of s) <$> items ∧
  same_data s (read_items_loop items s).2.
Proof.
  intros Hi. revert s. induction Hi as [|i items (H1 & H2 & H3) Hi IH]; intros s; [done|].
  cbn [read_items_loop]. unfold read_item.
  pose proof (read_area_spec (to_u8 (area i)) (db_number i) (start i) (item_length i) s
                H1 H2 H3) as Hr.
  assert (same_data s (read_area (to_u8 (area i)) (db_number i) (start i) (item_length i) s).2)
    as Hs by (by split_and!).
  destruct (read_area _ _ _ _ s) as [d s1]. cbn in Hr, Hs. destruct (IH s1) as [E1 E2].
  destruct (read_items_loop items s1) as [ds s2]. cbn in *. subst.
  destruct Hs as (Hm & Hs). split; [|by transitivity s1; [split|]].
  by rewrite Hm.
Qed.

Lemma read_items_loop_wf items s : store_wf s → store_wf (read_items_loop items s).2.
Proof.
  revert s. induction items as [|i items IH]; intros s Hs; [done|].
  cbn [read_items_loop]. unfold read_item. cbn [read_area].
  match goal with |- context [read_items_loop items ?s1] =>
    specialize (IH s1 Hs); destruct (read_items_loop items s1) as [ds s2] end.
  done.
Qed.

Lemma write_item_locked s i a : is_area_locked a (write_item s i) = is_area_locked a s.
Proof. unfold write_item, write_area. by destruct (is_area_locked (to_u8 _) s). Qed.
Lemma write_item_clock s i : clock (write_item s i) = clock s.
Proof. unfold write_item, write_area. by destruct (is_area_locked (to_u8 _) s). Qed.

Lemma write_items_spec items s :
  Forall (fun i => 0 <= start (address i) ∧
                   start (address i) + blen (write_data i) <= 4294967296) items →
  mem_eq (mem_of (foldl write_item s items))
    (foldl (spec_write_item (fun a => is_area_locked a s)) (mem_of s) items) ∧
  (∀ a, is_area_locked a (foldl write_item s items) = is_area_locked a s) ∧
  clock (foldl write_item s items) = clock s.
Proof.
  intros Hi. revert s. induction Hi as [|i items (H1 & H2) Hi IH]; intros s; [done|]. cbn.
  destruct (IH (write_item s i)) as (E1 & E2 & E3). split_and!.
  - rewrite E1. clear E1 E2 E3 IH Hi.
    assert (mem_eq (mem_of (write_item s i))
              (spec_write_item (fun a => is_area_locked a s) (mem_of s) i)) as Hm.
    { unfold write_item, spec_write_item.
      destruct (is_area_locked _ s) eqn:El; [unfold write_area; by rewrite El|].
      by apply mem_of_write_area. }
    revert Hm. generalize (mem_of (write_item s i)) as m.
    generalize (spec_write_item (fun a => is_area_locked a s) (mem_of s) i) as m'.
    induction items as [|j items IH]; intros m' m Hm; cbn; [done|]. apply IH.
    unfold spec_write_item. rewrite write_item_locked.
    destruct (is_area_locked _ s); [done|]. by rewrite Hm.
  - intros a. by rewrite E2, write_item_locked.
  - by rewrite E3, write_item_clock.
Qed.

Lemma write_items_wf items s :
  Forall (fun i => AddressItem_wf (address i) ∧ wf_bytes (write_data i)) items →
  store_wf s → store_wf (foldl write_item s items).
Proof.
  intros Hi. revert s. induction Hi as [|i items [(_ & Hs' & _) Hd] Hi IH]; intros s Hs; [done|].
  cbn. apply IH.
  apply (run_op_wf (OpWrite (to_u8 (area (address i))) (db_number (address i))
                      (start (address i)) (write_data i)) s); done.
Qed.

(** ** Every request is answered *)

(** [resp] is an acknowledgement or user-data response with reference [ref]. *)
Definition answers (ref : Z) (resp : bytes) : Prop :=
  ∃ h body, S7Header_decode resp = Ok (h, body) ∧ pdu_ref h = ref ∧
            (pdu_type h = AckData ∨ pdu_type h = UserData).

(** The reference of a request, 0 when its header is unreadable. *)
Definition request_ref (payload : bytes) : Z :=
  match S7Header_decode payload with
  | Ok (h, _) => pdu_ref h
  | _ => 0
  end.

Lemma ack_header_wf ref pl dl ec ecd :
  u16 ref → u16 pl → u16 dl → u8 ec → u8 ecd → S7Header_wf (ack_header ref pl dl ec ecd).
Proof. apply S7Header_wf_ack. Qed.

Lemma answers_ack ref pl dl ec ecd body :
  u16 ref → u16 pl → u16 dl → u8 ec → u8 ecd →
  answers ref (S7Header_encode (ack_header ref pl dl ec ecd) ++ body).
Proof.
  intros. exists (ack_header ref pl dl ec ecd), body.
  rewrite S7Header_decode_encode by (by apply ack_header_wf).
  split_and!; [done|done|by left].
Qed.
Lemma answers_ack_nil ref ec ecd :
  u16 ref → u8 ec → u8 ecd → answers ref (S7Header_encode (ack_header ref 0 0 ec ecd)).
Proof.
  intros. rewrite <- (app_nil_r (S7Header_encode _)).
  apply answers_ack; try done; unwidth; lia.
Qed.

(** [m] consists of one store update followed by one response, whatever the
    transport is. *)
Definition one_answer (ref : Z) (m : ∀ T (Tr : Transport T), @Srv T unit) (s : StoreInner)
  : Prop :=
  ∃ resp s', (∀ T (Tr : Transport T) t, m T Tr (t, s) = on_transport (send_cotp_data resp) (t, s'))
             ∧ answers ref resp ∧ store_wf s'.

Lemma one_answer_send ref resp s :
  answers ref resp → store_wf s →
  one_answer ref (fun T Tr => on_transport (send_cotp_data resp)) s.
Proof. intros. by exists resp, s. Qed.

Lemma one_answer_store {A} ref (f : StoreInner → A * StoreInner)
  (k : ∀ T (Tr : Transport T), A → @Srv T unit) s :
  one_answer ref (fun T Tr => k T Tr (f s).1) (f s).2 →
  one_answer ref (fun T Tr => io_bind (on_store f) (k T Tr)) s.
Proof.
  intros (resp & s' & H1 & H2). exists resp, s'. split; [|done]. intros T Tr t.
  rewrite <- H1. unfold io_bind, on_store. by destruct (f s).
Qed.

Lemma clock_slices c : (length c = 8)%nat →
  slice_to c 4 = Some (take 4 c) ∧ slice_from c 4 = Some (drop 4 c).
Proof.
  intros Hc. unfold slice_to, slice_from, blen. rewrite Hc. done.
Qed.

Lemma handle_clock_answers ref payload s :
  u16 ref → wf_bytes payload → store_wf s →
  one_answer ref (fun T Tr => handle_clock_user_data ref payload) s.
Proof.
  intros Hr Hp Hs. unfold handle_clock_user_data. destruct (_ =? 2).
  - assert (answers ref (S7Header_encode (ack_header ref 0 0 0 0)))
      by (apply answers_ack_nil; unwidth; lia).
    case_ltb; [|by eexists _, s].
    assert (slice payload 12 20 = Some (take 8 (drop 12 payload))) as ->.
    { unfold slice. replace (blen payload <? 20) with false by lia. done. }
    eexists _, (set_clock (take 8 (drop 12 payload)) s). split; [done|]. split; [done|].
    apply (run_op_wf (OpSetClock (take 8 (drop 12 payload))) s); [|done].
    cbn. rewrite length_take, length_drop. unfold blen in *.
    split; [lia|]. by apply Forall_take, Forall_drop.
  - pose proof (proj1 (proj2 Hs)) as Hc. destruct (clock_slices _ Hc) as [E1 E2].
    eexists _, s. split; [|split; [|exact Hs]].
    + intros T Tr t. unfold io_bind, on_store, get_clock. rewrite E1, E2. done.
    + eexists _, _. rewrite S7Header_decode_encode; [split_and!; [done|done|by right]|].
      repeat split; cbn; try done; unwidth; lia.
Qed.

Lemma handle_szl_answers ref payload s :
  u16 ref → store_wf s → one_answer ref (fun T Tr => handle_szl_user_data ref payload) s.
Proof.
  intros Hr Hs. unfold handle_szl_user_data. case_ltb.
  - assert (slice_to payload 12 = Some (take 12 payload)) as ->.
    { unfold slice_to. by replace (blen payload <? 12) with false by lia. }
    apply (one_answer_send ref _ s); [|done].
    apply answers_ack; try done; try apply as_u16_u16; unwidth; lia.
  - apply (one_answer_send ref _ s); [|done].
    apply answers_ack; try done; try apply as_u16_u16; unwidth; lia.
Qed.

Lemma dispatch_job_answers ref payload s :
  u16 ref → wf_bytes payload → store_wf s → payload ≠ [] →
  one_answer ref (fun T Tr => dispatch_job ref payload) s.
Proof.
  intros Hr Hp Hs Hne. unfold dispatch_job. destruct payload as [|func payload0]; [done|].
  set (payload := func :: payload0) in *.
  assert (∀ f n d s', store_wf s' →
    one_answer ref (fun T Tr => send_ack_data ref f n d) s') as Hdata.
  { intros. apply one_answer_send; [|done].
    apply answers_ack; try done; try apply as_u16_u16; unwidth; lia. }
  assert (∀ s', store_wf s' → one_answer ref (fun T Tr => send_error_response ref 129 4) s')
    as Herr.
  { intros. apply one_answer_send; [|done]. apply answers_ack_nil; unwidth; lia. }
  destruct (func =? FUNC_READ_VAR).
  { pose proof (ReadVarRequest_decode_total payload).
    apply (one_answer_store ref (handle_read_var payload)
             (fun T Tr => answer_var ref FUNC_READ_VAR)).
    unfold handle_read_var.
    destruct (ReadVarRequest_decode payload) as [[req ?]| |]; [|by apply Herr|done].
    pose proof (read_items_loop_wf (read_items req) s Hs).
    destruct (read_items_loop (read_items req) s) as [ds s']. by apply Hdata. }
  destruct (func =? FUNC_WRITE_VAR).
  { pose proof (WriteVarRequest_decode_total payload).
    apply (one_answer_store ref (handle_write_var payload)
             (fun T Tr => answer_var ref FUNC_WRITE_VAR)).
    unfold handle_write_var.
    destruct (WriteVarRequest_decode payload) as [[req ?]| |] eqn:E; [|by apply Herr|done].
    apply WriteVarRequest_decode_typed in E as [E _]; [|done].
    apply (Hdata _ _ _ (foldl write_item s (write_items req))). by apply write_items_wf. }
  case_bool_decide.
  { apply one_answer_send; [|done].
    apply answers_ack; try done; destruct (func =? 49); unwidth; lia. }
  case_bool_decide; [|by apply Herr].
  apply one_answer_send; [|done]. apply answers_ack_nil; unwidth; lia.
Qed.

Lemma dispatch_request_answers payload s :
  wf_bytes payload → store_wf s →
  one_answer (request_ref payload) (fun T Tr => dispatch_request payload) s.
Proof.
  intros Hp Hs. unfold dispatch_request, request_ref.
  pose proof (S7Header_decode_total payload).
  destruct (S7Header_decode payload) as [[h body]| |] eqn:E; [|..|done].
  2: { apply one_answer_send; [|done]. apply answers_ack_nil; unwidth; lia. }
  apply S7Header_decode_typed in E as [(Hr & _) Hb]; [|done].
  assert (one_answer (pdu_ref h) (fun T Tr => send_error_response (pdu_ref h) 129 4) s) as Herr.
  { apply one_answer_send; [|done]. apply answers_ack_nil; unwidth; lia. }
  destruct (Z.eqb_spec (blen body) 0); [exact Herr|].
  destruct (pdu_type h); try exact Herr.
  - apply dispatch_job_answers; try done. by intros ->.
  - destruct (_ && _).
    + unfold handle_user_data. destruct (_ =? 7);
        [by apply handle_clock_answers|by apply handle_szl_answers].
    + apply one_answer_send; [|done]. apply answers_ack_nil; unwidth; lia.
Qed.

(** ** Safety and termination of the loop *)
Lemma dispatch_turn_spec p s :
  wf_bytes (rx p) → store_wf s →
  ∃ c p' s',
    dispatch_turn (p, s) = (c, (p', s')) ∧ store_wf s' ∧ wf_bytes (rx p') ∧
    (c = inr tt ∧ blen (rx p') < blen (rx p) ∨ ∃ r, c = inl r ∧ r ≠ Panic).
Proof.
  intros Hp Hs. unfold dispatch_turn, on_transport at 1.
  pose proof (recv_cotp_data_safe p) as [Hn _].
  destruct (recv_cotp_data p) as [[payload|e|] p1] eqn:E; [|..|done].
  - apply recv_cotp_data_inv in E as (pre & E & Hpre & _).
    rewrite E in Hp |- *. wf_inv.
    destruct (dispatch_request_answers payload s) as (resp & s' & Hd & _ & Hs'); [done..|].
    rewrite (Hd Pipe _ p1). unfold on_transport.
    pose proof (send_cotp_data_safe resp p1) as [Hn' _].
    pose proof (send_cotp_data_rx resp p1) as Hrx.
    destruct (send_cotp_data resp p1) as [[[]|e|] p2]; cbn in *; [|..|done];
      eexists _, p2, s'; rewrite Hrx; (split_and!; [done|done|done|]).
    + left. split; [done|]. blen_lia.
    + right. by exists (Err e).
  - eexists _, p1, s. destruct (recv_cotp_data_reads p) as (_ & pre & Hrx).
    rewrite E in Hrx. cbn in Hrx. rewrite Hrx in Hp. wf_inv.
    split_and!; try done. right. by exists (Ok tt).
Qed.

(** C4: the server survives any peer: on every finite byte stream and from
    every well-formed store, the dispatch loop ends (after at most one turn
    per byte received), without a panic, and leaves the store well formed. *)
Theorem dispatch_loop_safe p s :
  wf_bytes (rx p) → store_wf s →
  ∃ r p' s', dispatch_loop (S (length (rx p))) (p, s) = Some (r, (p', s')) ∧
             r ≠ Panic ∧ store_wf s'.
Proof.
  intros Hp Hs. remember (length (rx p)) as n eqn:Hn.
  assert (Hle : (length (rx p) <= n)%nat) by lia. clear Hn.
  revert p s Hp Hs Hle. induction n as [|n IH]; intros p s Hp Hs Hle.
  all: destruct (dispatch_turn_spec p s Hp Hs) as (c & p' & s' & E & Hs' & Hp' & Ht).
  all: cbn [dispatch_loop]; rewrite E.
  all: destruct Ht as [[-> Hlt]|(r & -> & Hr)]; [|by eauto 10].
  - unfold blen in Hlt. lia.
  - apply IH; try done. unfold blen in Hlt. lia.
Qed.



Lemma dispatch_loop_safe_witness :
  ∃ r p' s', dispatch_loop 4 ({| rx := [3; 0; 0]; tx := [] |}, DataStore_new) =
             Some (r, (p', s')) ∧ r ≠ Panic ∧ store_wf s'.
Proof.
  apply (dispatch_loop_safe {| rx := [3; 0; 0]; tx := [] |} DataStore_new);
    [|apply DataStore_new_wf].
  repeat constructor; unwidth; lia.
Defined.

(** ** Read and write requests *)
Lemma dispatch_request_job {T} `{Transport T} h body st :
  S7Header_wf h → pdu_type h = Job → body ≠ [] →
  dispatch_request (S7Header_encode h ++ body) st = dispatch_job (pdu_ref h) body st.
Proof.
  intros Hh Hj Hb. unfold dispatch_request. rewrite S7Header_decode_encode by done.
  destruct (Z.eqb_spec (blen body) 0) as [E|_]; [by apply blen_0_nil in E|]. by rewrite Hj.
Qed.

Definition read_response (ref : Z) (m : Mem) (items : list AddressItem) : bytes :=
  let data := ReadVarResponse_encode {| resp_items := spec_read_item m <$> items |} in
  S7Header_encode (ack_header ref 2 (as_u16 (blen data)) 0 0) ++
  [FUNC_READ_VAR; as_u8 (Z.of_nat (length items))] ++ data.

Definition write_response (ref : Z) (items : list WriteItem) : bytes :=
  let n := length items in
  S7Header_encode (ack_header ref 2 (Z.of_nat n) 0 0) ++
  [FUNC_WRITE_VAR; as_u8 (Z.of_nat n)] ++ replicate n 0xFF.

Lemma dispatch_read h items s :
  S7Header_wf h → pdu_type h = Job →
  Forall AddressItem_addressable items → (length items <= 255)%nat →
  ∃ s', same_data s s' ∧
    ∀ T (Tr : Transport T) t,
      dispatch_request (S7Header_encode h ++ ReadVarRequest_encode {| read_items := items |})
        (t, s) =
      on_transport (send_cotp_data (read_response (pdu_ref h) (mem_of s) items)) (t, s').
Proof.
  intros Hh Hj Hi Hn.
  destruct (read_items_loop_spec items s) as [E1 E2];
    [eapply Forall_impl; [exact Hi|apply addressable_in_range]|].
  exists (read_items_loop items s).2. split; [done|]. intros T Tr t.
  rewrite dispatch_request_job by done. unfold dispatch_job.
  set (p := ReadVarRequest_encode {| read_items := items |}).
  change p with (FUNC_READ_VAR :: tail p) at 1. cbn [Z.eqb FUNC_READ_VAR Pos.eqb].
  unfold io_bind, on_store, handle_read_var. subst p.
  pose proof (ReadVarRequest_decode_encode {| read_items := items |} []) as Hd.
  rewrite app_nil_r in Hd. rewrite Hd; clear Hd;
    [|eapply Forall_impl; [exact Hi|apply AddressItem_addressable_wf]|done].
  cbn [read_items].
  assert (AddressItem_wire <$> items = items) as ->.
  { rewrite (list_fmap_ext _ id), list_fmap_id; [done|].
    intros k x Hx. by eapply AddressItem_wire_id, Forall_lookup_1. }
  destruct (read_items_loop items s) as [ds s']. cbn in E1. subst ds.
  unfold answer_var, send_ack_data, read_response. by rewrite length_fmap.
Qed.

Lemma dispatch_write h items s :
  S7Header_wf h → pdu_type h = Job →
  Forall (fun i => AddressItem_addressable (address i) ∧ blen (write_data i) < 8192) items →
  (length items <= 255)%nat →
  ∃ s', mem_eq (mem_of s') (foldl (spec_write_item (fun a => is_area_locked a s)) (mem_of s) items)
    ∧ (∀ a, is_area_locked a s' = is_area_locked a s) ∧ clock s' = clock s ∧
    ∀ T (Tr : Transport T) t,
      dispatch_request (S7Header_encode h ++ WriteVarRequest_encode {| write_items := items |})
        (t, s) =
      on_transport (send_cotp_data (write_response (pdu_ref h) items)) (t, s').
Proof.
  intros Hh Hj Hi Hn.
  destruct (write_items_spec items s) as (E1 & E2 & E3).
  { eapply Forall_impl; [exact Hi|]. intros i [(_ & _ & ? & _) ?]. lia. }
  exists (foldl write_item s items). split_and!; [done..|]. intros T Tr t.
  rewrite dispatch_request_job by done. unfold dispatch_job.
  set (p := WriteVarRequest_encode {| write_items := items |}).
  change p with (FUNC_WRITE_VAR :: tail p) at 1.
  cbn [Z.eqb FUNC_READ_VAR FUNC_WRITE_VAR Pos.eqb].
  unfold io_bind, on_store, handle_write_var. subst p.
  pose proof (WriteVarRequest_decode_encode {| write_items := items |} []) as Hd.
  rewrite app_nil_r in Hd. rewrite Hd; clear Hd; [| |done].
  2: { eapply Forall_impl; [exact Hi|]. intros i [? ?].
       split; [by apply AddressItem_addressable_wf|done]. }
  cbn [write_items].
  assert (WriteItem_wire <$> items = items) as ->.
  { rewrite (list_fmap_ext _ id), list_fmap_id; [done|].
    intros k x Hx. unfold WriteItem_wire. rewrite AddressItem_wire_id; [by destruct x|].
    by eapply (Forall_lookup_1 _ items k x Hi). }
  unfold answer_var, send_ack_data, write_response.
  rewrite (as_u8_small (Z.of_nat (length items))), Nat2Z.id by (unwidth; lia).
  by rewrite blen_replicate, as_u16_small by (unwidth; lia).
Qed.

(** One turn of the loop on a frame whose request is answered with [resp]. *)
Lemma dispatch_loop_frame fuel payload rest o s s' resp :
  7 + blen payload <= 65535 → 7 + blen resp <= 65535 →
  (∀ T (Tr : Transport T) t,
     dispatch_request payload (t, s) = on_transport (send_cotp_data resp) (t, s')) →
  dispatch_loop (S fuel) ({| rx := data_frame payload ++ rest; tx := o |}, s) =
  dispatch_loop fuel ({| rx := rest; tx := o ++ data_frame resp |}, s').
Proof.
  intros Hp Hr Hd. cbn [dispatch_loop]. unfold dispatch_turn, on_transport at 1.
  rewrite recv_cotp_data_frame by done. rewrite (Hd Pipe _). unfold on_transport.
  by rewrite send_cotp_data_ok.
Qed.

(** At the end of the input the loop returns [Ok]. *)
Lemma dispatch_loop_eof fuel o s :
  dispatch_loop (S fuel) ({| rx := []; tx := o |}, s) = Some (Ok tt, ({| rx := []; tx := o |}, s)).
Proof. reflexivity. Qed.

Lemma blen_DataItem_encode d :
  blen (DataItem_encode d) <= 5 + blen (item_data d).
Proof.
  unfold DataItem_encode. autorewrite with blen.
  destruct (negb _); autorewrite with blen; blen_pose; lia.
Qed.
Lemma blen_S7Header_encode h : blen (S7Header_encode h) <= 12.
Proof.
  unfold S7Header_encode. autorewrite with blen.
  destruct (error_class h), (error_code h); autorewrite with blen; lia.
Qed.

Lemma read_response_single ref m i :
  u16 (item_length i) →
  read_response ref m [i] =
    S7Header_encode (ack_header ref 2
      (as_u16 (blen (DataItem_encode (spec_read_item m i)))) 0 0) ++
    [0x04; 1] ++ DataItem_encode (spec_read_item m i).
Proof.
  intros. unfold read_response, ReadVarResponse_encode. cbn [resp_items fmap list_fmap concat].
  by rewrite app_nil_r.
Qed.

(** What one request writes, a later request of the same connection reads
    back: for every unlocked area, every byte address below 2^21 and every
    data of less than 8192 bytes, the server answers a write job and then a
    read job for the same item with the write acknowledged (code 0xFF) and
    exactly the written bytes returned, each under its own reference. *)
Theorem write_then_read_over_wire h1 h2 i d s :
  S7Header_wf h1 → S7Header_wf h2 → pdu_type h1 = Job → pdu_type h2 = Job →
  AddressItem_addressable i → item_length i = blen d → blen d < 8192 →
  is_area_locked (to_u8 (area i)) s = false →
  let write_job := S7Header_encode h1 ++
    WriteVarRequest_encode {| write_items := [ {| address := i; write_data := d |} ] |} in
  let read_job := S7Header_encode h2 ++ ReadVarRequest_encode {| read_items := [i] |} in
  let reply := DataItem_encode {| return_code := 0xFF; item_data := d |} in
  ∃ s', dispatch_loop 3 ({| rx := data_frame write_job ++ data_frame read_job; tx := [] |}, s) =
    Some (Ok tt,
      ({| rx := [];
          tx := data_frame (S7Header_encode (ack_header (pdu_ref h1) 2 1 0 0) ++ [0x05; 1; 0xFF]) ++
                data_frame (S7Header_encode (ack_header (pdu_ref h2) 2 (as_u16 (blen reply)) 0 0)
                            ++ [0x04; 1] ++ reply) |}, s')).
Proof.
  intros Hh1 Hh2 Hj1 Hj2 Hi Hlen Hd Hl write_job read_job reply. blen_pose.
  set (w := {| address := i; write_data := d |}) in *.
  destruct (dispatch_write h1 [w] s) as (s1 & Hm & Hlk & _ & Hw);
    [done|done|by apply Forall_singleton|cbn; lia|].
  destruct (dispatch_read h2 [i] s1) as (s2 & _ & Hr);
    [done|done|by apply Forall_singleton|cbn; lia|].
  assert (spec_read_item (mem_of s1) i = {| return_code := 255; item_data := d |}) as Hri.
  { unfold spec_read_item. f_equal. rewrite Hm. cbn [foldl]. unfold spec_write_item.
    subst w. cbn [address write_data]. rewrite Hl, Hlen. apply spec_read_write. }
  pose proof (blen_S7Header_encode h1). pose proof (blen_S7Header_encode h2).
  exists s2.
  rewrite (dispatch_loop_frame _ write_job _ _ s s1 (write_response (pdu_ref h1) [w])); [| | |exact Hw].
  2: { subst write_job. unfold WriteVarRequest_encode, WriteItem_data_encode.
       cbn [write_items fmap list_fmap concat address write_data w].
       rewrite !blen_app, blen_AddressItem_encode.
       autorewrite with blen. destruct (negb _); autorewrite with blen; blen_pose; lia. }
  2: { vm_compute. discriminate. }
  rewrite <- (app_nil_r (data_frame read_job)).
  rewrite (dispatch_loop_frame _ read_job _ _ s1 s2
             (read_response (pdu_ref h2) (mem_of s1) [i])); [| | |exact Hr].
  2: { subst read_job. unfold ReadVarRequest_encode. cbn [read_items fmap list_fmap concat].
       rewrite !blen_app, blen_AddressItem_encode. autorewrite with blen. lia. }
  2: { rewrite read_response_single by apply Hi. rewrite Hri.
       match goal with |- context [S7Header_encode ?h] =>
         pose proof (blen_S7Header_encode h) end.
       pose proof (blen_DataItem_encode {| return_code := 255; item_data := d |}) as Hdi.
       cbn [item_data] in Hdi. rewrite !blen_app. autorewrite with blen. lia. }
  rewrite dispatch_loop_eof, read_response_single, Hri by apply Hi. done.
Qed.

Lemma write_then_read_over_wire_witness :
  let h r := {| pdu_type := Job; reserved := 0; pdu_ref := r; param_len := 14; data_len := 0;
                error_class := None; error_code := None |} in
  let i := {| area := DataBlock; db_number := 1; start := 4; bit_offset := 0;
              item_length := 2; transport := Byte |} in
  ∃ s', dispatch_loop 3
    ({| rx := data_frame (S7Header_encode (h 2) ++ WriteVarRequest_encode
                {| write_items := [ {| address := i; write_data := [222; 173] |} ] |}) ++
              data_frame (S7Header_encode (h 3) ++ ReadVarRequest_encode {| read_items := [i] |});
        tx := [] |}, DataStore_new) =
    Some (Ok tt,
      ({| rx := [];
          tx := data_frame (S7Header_encode (ack_header 2 2 1 0 0) ++ [0x05; 1; 0xFF]) ++
                data_frame (S7Header_encode (ack_header 3 2 6 0 0) ++ [0x04; 1] ++
                            [0xFF; 4; 0; 16; 222; 173]) |}, s')).
Proof.
  intros h i. apply (write_then_read_over_wire (h 2) (h 3) i [222; 173] DataStore_new);
    try reflexivity.
  - apply S7Header_wf_job; unwidth; lia.
  - apply S7Header_wf_job; unwidth; lia.
  - unfold AddressItem_addressable; cbn; split_and!; unwidth; done || lia.
Defined.
