(* ===== verification/Vlq.v ===== *)
(** * Variable-length quantities (proto/s7commplus/vlq.rs) *)

From S2P Require Import Prelude Wire.
Local Open Scope Z_scope.

(** [while v > 0 { groups[n] = v & 0x7F; n += 1; v >>= 7 }]; the array has five
    places, enough for 32 bits ([vlq_groups_value]). *)
Fixpoint vlq_groups (places : nat) (v : Z) : list Z :=
  match places with
  | O => []
  | S n => if v =? 0 then [] else Z.land v 0x7F :: vlq_groups n (Z.shiftr v 7)
  end.

(** [for i in (0..n).rev() { put_u8(groups[i] | cont) }]. *)
Definition vlq_emit (groups : list Z) : bytes :=
  reverse (imap (fun i g => Z.lor g (if (0 <? i)%nat then 0x80 else 0x00)) groups).

Definition encode_vlq (value : Z) : bytes :=
  if value <? 0x80 then [as_u8 value] else vlq_emit (vlq_groups 5 value).

(** The decoding loop; [left] counts the bytes that may still be read. *)
Fixpoint vlq_loop (left : nat) (result : Z) : Rd Z :=
  let! n := remaining in
  if n =? 0 then rd_fail (BufferTooShort 1 0)
  else
    let! byte := get_u8 in
    let result := Z.lor (Z.shiftl result 7) (Z.land byte 0x7F) in
    if 4294967295 <? result then rd_fail (EncodingFailed "VLQ value exceeds u32")
    else if Z.land byte 0x80 =? 0 then rd_ret result
    else
      match left with
      | O => rd_fail (EncodingFailed "VLQ overflow: more than 5 bytes")
      | S left' => vlq_loop left' result
      end.

Definition decode_vlq : Rd Z := vlq_loop 4 0.

(** ** Digits in base 128 *)
Definition vlq_value (groups : list Z) : Z := foldr (fun g a => a * 128 + g) 0 groups.

Lemma vlq_groups_value places v :
  0 <= v < 128 ^ Z.of_nat places → vlq_value (vlq_groups places v) = v.
Proof.
  revert v. induction places as [|n IH]; intros v Hv; [cbn in *; lia|].
  cbn [vlq_groups]. destruct (Z.eqb_spec v 0) as [->|Hne]; [done|].
  cbn [vlq_value foldr]. rewrite land_127, shiftr_div by lia. change (2 ^ 7) with 128.
  rewrite Nat2Z.inj_succ, Z.pow_succ_r in Hv by lia.
  fold (vlq_value (vlq_groups n (v / 128))).
  rewrite IH by (split; [apply Z.div_pos; lia|apply Z.div_lt_upper_bound; lia]).
  Z.div_mod_to_equations. lia.
Qed.

Lemma vlq_groups_digits places v : Forall (fun g => 0 <= g < 128) (vlq_groups places v).
Proof.
  revert v. induction places as [|n IH]; intros v; cbn [vlq_groups]; [constructor|].
  destruct (v =? 0); constructor; [|apply IH]. rewrite land_127. by apply Z.mod_pos_bound.
Qed.

Lemma vlq_groups_length places v : (length (vlq_groups places v) <= places)%nat.
Proof.
  revert v. induction places as [|n IH]; intros v; cbn [vlq_groups]; [done|].
  destruct (v =? 0); cbn; [lia|]. specialize (IH (Z.shiftr v 7)). lia.
Qed.

Lemma lor_128 g : 0 <= g < 128 → Z.lor g 128 = g + 128.
Proof.
  intros Hg. change 128 with (Z.shiftl 1 7) at 1. rewrite Z.lor_comm.
  rewrite lor_shiftl_add by lia. lia.
Qed.

Lemma vlq_byte g : 0 <= g < 128 →
  Z.land (g + 128) 0x7F = g ∧ Z.land (g + 128) 0x80 = 128 ∧
  Z.land g 0x7F = g ∧ Z.land g 0x80 = 0.
Proof.
  intros Hg.
  enough ((Z.land (g + 128) 127 =? g) && (Z.land (g + 128) 128 =? 128) &&
          (Z.land g 127 =? g) && (Z.land g 128 =? 0) = true) by lia.
  revert g Hg. apply (Z_exhaust 128 (fun g => (Z.land (g + 128) 127 =? g) &&
    (Z.land (g + 128) 128 =? 128) && (Z.land g 127 =? g) && (Z.land g 128 =? 0))).
  vm_compute. reflexivity.
Qed.

(** An emitted number: the groups above the lowest with their continuation bit,
    then the lowest. *)
Lemma vlq_emit_cons g gs :
  Forall (fun g => 0 <= g < 128) (g :: gs) →
  vlq_emit (g :: gs) = ((fun x => x + 128) <$> reverse gs) ++ [g].
Proof.
  intros [Hg Hgs]%Forall_cons. unfold vlq_emit. cbn [imap]. rewrite reverse_cons.
  rewrite Z.lor_0_r. f_equal. rewrite fmap_reverse. f_equal.
  induction Hgs as [|x gs Hx _ IH]; [done|]. cbn. rewrite lor_128 by done. f_equal. done.
Qed.

Definition vlq_push (a g : Z) : Z := a * 128 + g.

Lemma vlq_value_reverse gs : foldl vlq_push 0 (reverse gs) = vlq_value gs.
Proof.
  induction gs as [|g gs IH]; [done|]. rewrite reverse_cons, foldl_app. cbn.
  unfold vlq_push at 1. by rewrite IH.
Qed.

Lemma vlq_push_le ds a : 0 <= a → Forall (fun g => 0 <= g < 128) ds → a <= foldl vlq_push a ds.
Proof.
  intros Ha Hds. revert a Ha. induction Hds as [|g ds Hg _ IH]; intros a Ha; [done|].
  cbn. etrans; [|apply IH]; unfold vlq_push; lia.
Qed.

Lemma vlq_loop_digits left ds d a rest :
  Forall (fun g => 0 <= g < 128) ds → 0 <= d < 128 → (length ds <= left)%nat → 0 <= a →
  foldl vlq_push a (ds ++ [d]) <= 4294967295 →
  vlq_loop left a (((fun x => x + 128) <$> ds) ++ d :: rest) =
  Ok (foldl vlq_push a (ds ++ [d]), rest).
Proof.
  intros Hds Hd. revert left a. induction Hds as [|g ds Hg Hds IH]; intros left a Hl Ha Hmax.
  - cbn [fmap list_fmap app foldl] in *. destruct left; cbn [vlq_loop]; rd_step.
    all: destruct (Z.eqb_spec (blen (d :: rest)) 0); [blen_lia|]; rd_step.
    all: destruct (vlq_byte d Hd) as (_ & _ & -> & ->).
    all: rewrite lor_shiftl_add by lia; fold (vlq_push a d).
    all: change (a * 2 ^ 7 + d) with (vlq_push a d).
    all: case_ltb; [lia|done].
  - destruct left as [|left]; [cbn in Hl; lia|]. cbn [fmap list_fmap app foldl vlq_loop] in *.
    rd_step. match goal with |- context [blen ?x =? 0] =>
      destruct (Z.eqb_spec (blen x) 0); [blen_lia|] end. rd_step.
    destruct (vlq_byte g Hg) as (-> & -> & _ & _).
    rewrite lor_shiftl_add by lia. change (a * 2 ^ 7 + g) with (vlq_push a g).
    assert (vlq_push a g <= foldl vlq_push (vlq_push a g) (ds ++ [d])).
    { apply vlq_push_le; [unfold vlq_push; lia|].
      apply Forall_app. split; [done|by apply Forall_singleton]. }
    case_ltb; [lia|]. cbn [Z.eqb].
    apply IH; [cbn in Hl; lia|unfold vlq_push; lia|done].
Qed.

Lemma decode_encode_vlq v rest :
  u32 v → decode_vlq (encode_vlq v ++ rest) = Ok (v, rest) ∧ (1 <= length (encode_vlq v) <= 5)%nat.
Proof.
  intros Hv. unfold encode_vlq, decode_vlq. case_ltb.
  - split; [|cbn; lia]. rewrite as_u8_small by (unwidth; lia).
    apply (vlq_loop_digits 4 [] v 0 rest); cbn; unfold vlq_push; unwidth; try lia. constructor.
  - pose proof (vlq_groups_value 5 v ltac:(cbn; unwidth; lia)) as Hval.
    pose proof (vlq_groups_digits 5 v) as Hdig. pose proof (vlq_groups_length 5 v) as Hlen.
    destruct (vlq_groups 5 v) as [|g gs] eqn:E; [cbn in Hval; lia|].
    rewrite vlq_emit_cons by done. apply Forall_cons in Hdig as [Hg Hgs]. cbn in Hlen.
    pose proof (vlq_value_reverse (g :: gs)) as Hrev. rewrite reverse_cons, Hval in Hrev. split.
    + rewrite <- (assoc_L (++)). cbn [app].
      rewrite (vlq_loop_digits 4 (reverse gs) g 0 rest); [by rewrite Hrev|..].
      * by apply Forall_reverse.
      * done.
      * rewrite length_reverse. lia.
      * lia.
      * rewrite Hrev. unwidth. lia.
    + rewrite length_app, length_fmap, length_reverse. cbn. lia.
Qed.

Lemma decode_vlq_total : rd_total decode_vlq.
Proof.
  unfold decode_vlq. generalize 0 as a. generalize 4%nat as n.
  induction n as [|n IH]; intros a [|x b]; cbn [vlq_loop].
  1, 3: rd_step; done.
  all: rd_step; destruct (_ =? 0) eqn:E; [done|]; rd_step; case_ltb; [done|];
    case_ltb; [done|].
  - done.
  - apply IH.
Qed.

Lemma vlq_loop_typed left a : 0 <= a → rd_typed u32 (vlq_loop left a).
Proof.
  revert a. induction left as [|left IH]; intros a Ha; cbn [vlq_loop].
  all: rd_typed_step; destruct (_ =? 0); [apply rd_typed_fail|]; rd_typed_step.
  all: assert (0 <= Z.lor (Z.shiftl a 7) (Z.land a1 127)) as Hr
    by (apply Z.lor_nonneg; split; [by apply Z.shiftl_nonneg|apply Z.land_nonneg; lia]).
  all: case_ltb; [apply rd_typed_fail|]; case_ltb; [apply rd_typed_ret; unwidth; lia|].
  - apply rd_typed_fail.
  - by apply IH.
Qed.

(** A 32-bit number survives its variable-length encoding, which takes at
    most five bytes, whatever bytes follow it; the decoder never panics and
    never returns a number above 32 bits. *)
Theorem vlq_roundtrip v rest :
  u32 v →
  decode_vlq (encode_vlq v ++ rest) = Ok (v, rest) ∧ (1 <= length (encode_vlq v) <= 5)%nat ∧
  rd_total decode_vlq ∧ rd_typed u32 decode_vlq.
Proof.
  intros Hv. destruct (decode_encode_vlq v rest Hv).
  split_and!; [done|lia|lia|apply decode_vlq_total|by apply vlq_loop_typed].
Qed.

Lemma vlq_roundtrip_witness :
  encode_vlq 300 = [0x82; 0x2C] ∧ decode_vlq (encode_vlq 300 ++ [9]) = Ok (300, [9]).
Proof.
  split; [reflexivity|]. apply (vlq_roundtrip 300 [9]). unwidth. lia.
Defined.
