(* ===== verification/PlusWire.v ===== *)
(** * S7CommPlus messages (proto/s7commplus: data.rs, frame.rs, integrity.rs,
    session.rs, multivar.rs)

    HMAC-SHA256 comes from the [hmac] and [sha2] crates: it is the parameter
    [hmac] of the integrity functions. *)

From S2P Require Import Prelude Wire Vlq.
Local Open Scope Z_scope.

(** ** data.rs *)
Definition FIXED_LEN : Z := 14.

Record DataArea := {
  opcode : Z;
  function_code : Z;
  seqnum : Z;
  session_id : Z;
  transport_flags : Z;
  da_payload : bytes;
}.

Definition DataArea_encode (d : DataArea) : bytes :=
  [opcode d] ++ be16 0 ++ be16 (function_code d) ++ be16 0 ++ be16 (seqnum d) ++
  be32 (session_id d) ++ [transport_flags d] ++ da_payload d.

Definition DataArea_decode : Rd DataArea :=
  let! _ := need FIXED_LEN in
  let! op := get_u8 in
  let! _ := advance 2 in
  let! fc := get_u16 in
  let! _ := advance 2 in
  let! seq := get_u16 in
  let! sid := get_u32 in
  let! flags := get_u8 in
  let! n := remaining in
  let! payload := split_to n in
  rd_ret {| opcode := op; function_code := fc; seqnum := seq; session_id := sid;
            transport_flags := flags; da_payload := payload |}.

(** ** frame.rs *)
Definition PLUS_MAGIC : Z := 0x72.
Definition HEADER_LEN : Z := 4.

Inductive Version := V1 | V2 | V3 | KeepAlive.
#[export] Instance Version_eq_dec : EqDecision Version.
Proof. solve_decision. Defined.

Definition Version_as_u8 (v : Version) : Z :=
  match v with V1 => 0x01 | V2 => 0x02 | V3 => 0x03 | KeepAlive => 0xFF end.

Definition Version_try_from (v : Z) : res ProtoError Version :=
  match v with
  | 0x01 => Ok V1
  | 0x02 => Ok V2
  | 0x03 => Ok V3
  | 0xFF => Ok KeepAlive
  | other => Err (InvalidVersion other)
  end.

#[export] Instance Version_U8Enum : U8Enum Version.
Proof.
  refine {| to_u8 := Version_as_u8; try_from_u8 := Version_try_from |}.
  - intros []; unwidth; cbn; lia.
  - by intros [].
  - intros v t. unfold Version_try_from.
    repeat (case_match; try discriminate; try (by intros [= <-])).
  - intros v. unfold Version_try_from. by repeat case_match.
Defined.

Record S7PlusFrame := { version : Version; frame_data : bytes }.

Definition S7PlusFrame_encode (f : S7PlusFrame) : res ProtoError bytes :=
  let data_len := blen (frame_data f) in
  if 65535 <? data_len then
    Err (EncodingFailed ("data too long: " +:+ pretty data_len +:+ " bytes (max 65535)"))
  else
    let version_byte := Version_as_u8 (version f) in
    Ok ([PLUS_MAGIC] ++ [version_byte] ++ be16 (as_u16 data_len) ++ frame_data f ++
        [PLUS_MAGIC] ++ [version_byte] ++ be16 (as_u16 data_len)).

Definition S7PlusFrame_decode : Rd S7PlusFrame :=
  let! _ := need HEADER_LEN in
  let! h_magic := get_u8 in
  if negb (h_magic =? PLUS_MAGIC) then rd_fail (InvalidMagic PLUS_MAGIC h_magic)
  else
    let! h_version := get_u8 in
    let! v := rd_lift (Version_try_from h_version) in
    let! data_len := get_u16 in
    let! _ := need data_len in
    let! data := split_to data_len in
    let! _ := need HEADER_LEN in
    let! t_magic := get_u8 in
    let! t_version := get_u8 in
    let! t_data_len := get_u16 in
    if negb (t_magic =? PLUS_MAGIC) then rd_fail (InvalidMagic PLUS_MAGIC t_magic)
    else if negb (t_version =? h_version) || negb (t_data_len =? data_len) then
      rd_fail IntegrityFailure
    else rd_ret {| version := v; frame_data := data |}.

(** ** session.rs *)
Definition FC_CREATE_OBJECT : Z := 0x04CA.
Definition FC_DELETE_OBJECT : Z := 0x04D4.
Definition FC_GET_MULTI_VAR : Z := 0x054C.
Definition FC_SET_MULTI_VAR : Z := 0x0542.
Definition FC_INIT_SSL : Z := 0x05B3.
Definition OPCODE_REQUEST : Z := 0x31.
Definition OPCODE_RESPONSE : Z := 0x32.

Definition plus_request (fc seq sid : Z) (payload : bytes) : DataArea :=
  {| opcode := OPCODE_REQUEST; function_code := fc; seqnum := seq; session_id := sid;
     transport_flags := 0; da_payload := payload |}.

Definition CreateObjectRequest_encode (seq : Z) : bytes :=
  DataArea_encode (plus_request FC_CREATE_OBJECT seq 0 (replicate 64 0)).

(** The session id and the raw payload. *)
Definition CreateObjectResponse_decode : Rd (Z * bytes) :=
  let! da := DataArea_decode in
  rd_ret (session_id da, da_payload da).

(** ** multivar.rs *)
Record VarSpec := { vs_crc : Z; vs_lid : Z }.
Record VarResult := { vr_return_code : Z; vr_value : bytes }.
Record SetVarItem := { sv_crc : Z; sv_lid : Z; sv_value : bytes }.

Definition GetMultiVarRequest_encode (seq sid : Z) (items : list VarSpec) : bytes :=
  DataArea_encode (plus_request FC_GET_MULTI_VAR seq sid
    ([as_u8 (Z.of_nat (length items))] ++
     concat ((fun i => be32 (vs_crc i) ++ be32 (vs_lid i)) <$> items))).

Definition VarResult_decode : Rd VarResult :=
  let! _ := need 3 in
  let! rc := get_u8 in
  let! data_len := get_u16 in
  let! _ := need data_len in
  let! value := split_to data_len in
  rd_ret {| vr_return_code := rc; vr_value := value |}.

Definition GetMultiVarResponse_decode (item_count : nat) : Rd (list VarResult) :=
  let! da := DataArea_decode in
  rd_lift (match rd_repeat item_count VarResult_decode (da_payload da) with
           | Ok (items, _) => Ok items
           | Err e => Err e
           | Panic => Panic
           end).

Definition GetVarRequest_encode (seq sid crc lid : Z) : bytes :=
  GetMultiVarRequest_encode seq sid [ {| vs_crc := crc; vs_lid := lid |} ].

Definition GetVarResponse_decode : Rd VarResult :=
  let! items := GetMultiVarResponse_decode 1 in
  match items with
  | [] => rd_fail (BufferTooShort 3 0)
  | i :: _ => rd_ret i
  end.

Definition SetMultiVarRequest_encode (seq sid : Z) (items : list SetVarItem) : bytes :=
  DataArea_encode (plus_request FC_SET_MULTI_VAR seq sid
    ([as_u8 (Z.of_nat (length items))] ++
     concat ((fun i => be32 (sv_crc i) ++ be32 (sv_lid i) ++
                       be16 (as_u16 (blen (sv_value i))) ++ sv_value i) <$> items))).

Definition SetVarRequest_encode (seq sid crc lid : Z) (value : bytes) : bytes :=
  SetMultiVarRequest_encode seq sid [ {| sv_crc := crc; sv_lid := lid; sv_value := value |} ].

(** ** integrity.rs *)
Definition DIGEST_MARKER : Z := 0x20.
Definition DIGEST_LEN : Z := 32.

Section Integrity.
(** [hmac key data]: HMAC-SHA256. *)
Variable hmac : bytes → bytes → bytes.

Definition compute_digest (data key : bytes) : bytes := hmac key data.

(** The buffer after the call. *)
Definition append_integrity_v1v2 (buf key : bytes) (integrity_id : Z) : bytes :=
  buf ++ encode_vlq integrity_id ++ [DIGEST_MARKER] ++ compute_digest buf key.

Definition decode_integrity_tail : Rd (Z * bytes) :=
  let! id := decode_vlq in
  let! n := remaining in
  if n =? 0 then rd_fail (InvalidMagic DIGEST_MARKER 0x00)
  else
    let! m := peek 0 in
    if negb (m =? DIGEST_MARKER) then rd_fail (InvalidMagic DIGEST_MARKER m)
    else
      let! _ := advance 1 in
      let! _ := need DIGEST_LEN in
      let! digest := split_to DIGEST_LEN in
      rd_ret (id, digest).

(** The body of the loop: [None] is [continue]. *)
Definition verify_width (frame key : bytes) (vlq_len : nat) : option (res ProtoError Z) :=
  let tail_len := (vlq_len + 1 + 32)%nat in
  if (length frame <? tail_len)%nat then None
  else
    let data_end := (length frame - tail_len)%nat in
    let tail := drop data_end frame in
    match tail !! vlq_len with
    | None => Some Panic
    | Some m =>
        if negb (m =? DIGEST_MARKER) then None
        else
          let expected := compute_digest (take data_end frame) key in
          if bool_decide (drop (S vlq_len) tail = expected) then
            Some (match decode_vlq (take vlq_len tail) with
                  | Ok (id, _) => Ok id
                  | Err e => Err e
                  | Panic => Panic
                  end)
          else None
    end.

(** [for vlq_len in 1..=5]. *)
Fixpoint verify_loop (frame key : bytes) (widths : list nat) : res ProtoError Z :=
  match widths with
  | [] => Err IntegrityFailure
  | w :: widths' =>
      match verify_width frame key w with
      | Some r => r
      | None => verify_loop frame key widths'
      end
  end.

Definition verify_v1v2 (frame key : bytes) : res ProtoError Z :=
  verify_loop frame key [1; 2; 3; 4; 5]%nat.
End Integrity.

(** ** Data areas and frames *)
Definition DataArea_wf (d : DataArea) : Prop :=
  u8 (opcode d) ∧ u16 (function_code d) ∧ u16 (seqnum d) ∧ u32 (session_id d) ∧
  u8 (transport_flags d).

Lemma DataArea_decode_encode d :
  DataArea_wf d → DataArea_decode (DataArea_encode d) = Ok (d, []).
Proof.
  destruct d as [o f q i t p]. intros (Ho & Hf & Hq & Hi & Ht). cbn in *.
  unfold DataArea_decode, DataArea_encode, FIXED_LEN. cbn [opcode function_code seqnum session_id
    transport_flags da_payload be16 be32 app].
  do 10 rd_step. rewrite !of_be16_split, of_be32_split by done.
  by rewrite to_nat_blen, firstn_all, drop_all.
Qed.

Lemma DataArea_decode_total : rd_total DataArea_decode.
Proof.
  intros b. unfold DataArea_decode, FIXED_LEN. rd_total_step.
  do 14 (destruct b as [|? b]; [exfalso; blen_lia|]). rd_total_solve.
Qed.

Lemma S7PlusFrame_decode_total : rd_total S7PlusFrame_decode.
Proof.
  intros b. unfold S7PlusFrame_decode, HEADER_LEN.
  do 3 rd_total_step. destruct (negb _); [done|]. rd_total_step. rd_total_step.
  destruct (Version_try_from z0) eqn:Ev; 
    [|done|by destruct (@try_from_u8_total Version Version_U8Enum z0 Ev)].
  do 6 rd_total_step. generalize (drop (Z.to_nat (of_be16 z1 z2)) b) as r. intros r.
  rd_total_solve.
Qed.

Lemma S7PlusFrame_decode_frame f rest :
  blen (frame_data f) <= 65535 →
  let hdr := [PLUS_MAGIC; Version_as_u8 (version f)] ++ be16 (blen (frame_data f)) in
  S7PlusFrame_decode (hdr ++ frame_data f ++ hdr ++ rest) = Ok (f, rest).
Proof.
  destruct f as [v d]. cbn [version frame_data]. intros Hl.
  pose proof (blen_nonneg d).
  unfold S7PlusFrame_decode, HEADER_LEN, PLUS_MAGIC. cbn [be16 app].
  do 2 rd_step. cbn [Z.eqb Pos.eqb negb]. rd_step.
  change (Version_try_from (Version_as_u8 v)) with (try_from_u8 (to_u8 v)).
  rewrite try_from_to_u8. do 2 rd_step. rewrite of_be16_split by (unwidth; lia).
  do 6 rd_step. rewrite of_be16_split by (unwidth; lia). cbn [Z.eqb Pos.eqb negb].
  by rewrite !Z.eqb_refl.
Qed.

Lemma S7PlusFrame_encode_ok f :
  blen (frame_data f) <= 65535 →
  S7PlusFrame_encode f =
    Ok ([PLUS_MAGIC; Version_as_u8 (version f)] ++ be16 (blen (frame_data f)) ++ frame_data f ++
        [PLUS_MAGIC; Version_as_u8 (version f)] ++ be16 (blen (frame_data f))).
Proof.
  intros. unfold S7PlusFrame_encode. case_ltb; [lia|].
  by rewrite as_u16_small by (unwidth; blen_lia).
Qed.

(** The S7CommPlus frame decoder accepts exactly the encodings: it
    returns a frame and the bytes left over if and only if the input is that
    frame's encoding (header, data, matching trailer) followed by those bytes;
    every other input is an error, never a panic. *)
Theorem S7PlusFrame_exact b f rest :
  wf_bytes b →
  (S7PlusFrame_decode b = Ok (f, rest) ↔
   ∃ enc, S7PlusFrame_encode f = Ok enc ∧ b = enc ++ rest) ∧
  S7PlusFrame_decode b ≠ Panic.
Proof.
  intros Hb. split; [|apply S7PlusFrame_decode_total]. split.
  - unfold S7PlusFrame_decode, HEADER_LEN. do 3 rd_inv_step.
    destruct (negb _) eqn:Em; [discriminate|]. do 2 rd_inv_step.
    destruct (Version_try_from z0) as [v| |] eqn:Ev; [|discriminate..].
    do 6 rd_inv_step. intros H. set (n := of_be16 z1 z2) in *.
    assert (wf_bytes (drop (Z.to_nat n) b)) as Hr by (wf_inv; by apply Forall_drop).
    rewrite <- (take_drop (Z.to_nat n) b). revert H Hr.
    generalize (drop (Z.to_nat n) b) as r. intros r H Hr. revert H.
    rd_inv. rename E into Em', E0 into Et. intros [= <- <-].
    wf_inv. pose proof (@try_from_u8_sound Version Version_U8Enum z0 v Ev) as Ev'.
    assert (blen (take (Z.to_nat n) b) = n) as Hn.
    { pose proof (of_be16_u16 z1 z2 ltac:(done) ltac:(done)) as Hu. rewrite blen_take.
      subst n. unwidth. lia. }
    pose proof (of_be16_u16 z1 z2 ltac:(done) ltac:(done)) as Hu.
    rewrite S7PlusFrame_encode_ok by (cbn [frame_data]; unwidth; lia).
    eexists. split; [reflexivity|]. cbn [version frame_data]. rewrite Hn.
    change (Version_as_u8 v) with (to_u8 v). rewrite Ev'.
    subst n. rewrite be16_of_be16 by done. unfold PLUS_MAGIC in *.
    apply negb_false_iff, Z.eqb_eq in Em, Em'. apply orb_false_iff in Et as [Et1 Et2].
    apply negb_false_iff, Z.eqb_eq in Et1, Et2.
    assert (be16 (of_be16 z5 z6) = be16 (of_be16 z1 z2)) as Hbe by congruence.
    rewrite !be16_of_be16 in Hbe by done. injection Hbe as -> ->. subst.
    cbn [app]. by rewrite <- (assoc_L (++)).
  - intros (enc & He & ->).
    assert (blen (frame_data f) <= 65535).
    { unfold S7PlusFrame_encode in He. revert He. case_ltb; [done|lia]. }
    rewrite S7PlusFrame_encode_ok in He by done.
    assert (enc = [PLUS_MAGIC; Version_as_u8 (version f)] ++ be16 (blen (frame_data f)) ++
      frame_data f ++ [PLUS_MAGIC; Version_as_u8 (version f)] ++ be16 (blen (frame_data f)))
      as -> by congruence.
    rewrite <- (S7PlusFrame_decode_frame f rest) by done. f_equal.
    by rewrite <- !(assoc_L (++)).
Qed.

Lemma S7PlusFrame_exact_witness :
  S7PlusFrame_decode [0x72; 2; 0; 1; 9; 0x72; 2; 0; 1; 5] =
  Ok ({| version := V2; frame_data := [9] |}, [5]).
Proof.
  apply S7PlusFrame_exact.
  - repeat constructor; unwidth; lia.
  - eexists. split; [reflexivity|reflexivity].
Defined.

(** ** Integrity *)
Section IntegrityProofs.
Context (hmac : bytes → bytes → bytes).

(** The block found at width [w] of a frame [data ++ vlq ++ [0x20] ++ digest]
    whose number has [w] bytes or more. *)
Lemma verify_width_frame data vlq digest key w :
  length digest = 32%nat → (w <= length vlq)%nat →
  let frame := data ++ vlq ++ [DIGEST_MARKER] ++ digest in
  let j := (length vlq - w)%nat in
  verify_width hmac frame key w =
  if bool_decide (digest = hmac key (data ++ take j vlq))
  then Some (match decode_vlq (drop j vlq) with
             | Ok (id, _) => Ok id | Err e => Err e | Panic => Panic end)
  else None.
Proof.
  intros Hd Hw frame j. unfold verify_width, compute_digest.
  assert (length frame = (length data + length vlq + 33)%nat) as Hlen
    by (subst frame; rewrite !length_app; cbn; lia).
  rewrite Hlen. destruct (Nat.ltb_spec (length data + length vlq + 33) (w + 1 + 32)); [lia|].
  replace (length data + length vlq + 33 - (w + 1 + 32))%nat with (length data + j)%nat by lia.
  assert (take (length data + j) frame = data ++ take j vlq) as ->.
  { subst frame. rewrite take_app_add. rewrite take_app_le by lia. done. }
  assert (drop (length data + j) frame = drop j vlq ++ [DIGEST_MARKER] ++ digest) as ->.
  { subst frame. rewrite <- drop_drop, drop_app_length. by rewrite drop_app_le by lia. }
  assert (length (drop j vlq) = w) as Hdw by (rewrite length_drop; lia).
  cbn [app]. rewrite <- Hdw, list_lookup_middle by done. rewrite Z.eqb_refl. cbn [negb].
  change (S (length (drop j vlq))) with (1 + length (drop j vlq))%nat.
  rewrite Nat.add_comm, <- drop_drop, drop_app_length, take_app_length. cbn [app drop].
  done.
Qed.

Lemma verify_loop_skip frame key ws ws' :
  (∀ w, w ∈ ws → verify_width hmac frame key w = None) →
  verify_loop hmac frame key (ws ++ ws') = verify_loop hmac frame key ws'.
Proof.
  induction ws as [|w ws IH]; intros H; [done|]. cbn. rewrite H by set_solver.
  apply IH. set_solver.
Qed.

(** A sealed buffer is accepted with its integrity id: verifying what
    [append_integrity_v1v2] produced returns the id, for every buffer, key and
    32-bit id, provided the MAC is 32 bytes long and does not collide on the
    (at most four) extensions of the buffer by leading bytes of the encoded
    id. *)
Theorem integrity_accepts_sealed buf key id :
  (∀ k d, length (hmac k d) = 32%nat) →
  (∀ j, (0 < j < length (encode_vlq id))%nat →
        hmac key (buf ++ take j (encode_vlq id)) ≠ hmac key buf) →
  u32 id →
  verify_v1v2 hmac (append_integrity_v1v2 hmac buf key id) key = Ok id.
Proof.
  intros H32 Hcoll Hid. destruct (decode_encode_vlq id [] Hid) as [Hdec Hlen].
  rewrite app_nil_r in Hdec. set (v := encode_vlq id) in *.
  unfold verify_v1v2, append_integrity_v1v2. fold v. unfold compute_digest.
  set (frame := buf ++ v ++ [DIGEST_MARKER] ++ hmac key buf).
  assert (∀ w, (1 <= w <= length v)%nat → verify_width hmac frame key w =
    if bool_decide (w = length v) then Some (Ok id) else None) as Hw.
  { intros w Hw. subst frame. rewrite verify_width_frame by (done || lia).
    case_bool_decide as E1; case_bool_decide as E2; try done.
    - subst w. by rewrite Nat.sub_diag, drop_0, Hdec.
    - exfalso. apply (Hcoll (length v - w)%nat); [lia|done].
    - exfalso. apply E1. subst w. by rewrite Nat.sub_diag, take_0, app_nil_r. }
  assert (seq 1 5 = seq 1 (length v - 1) ++ [length v] ++ seq (S (length v)) (5 - length v))
    as Hseq by (destruct (length v) as [|[|[|[|[|[|?]]]]]]; cbn in *; lia || done).
  change [1; 2; 3; 4; 5]%nat with (seq 1 5). rewrite Hseq, verify_loop_skip.
  - cbn [app verify_loop]. rewrite Hw by lia. by rewrite bool_decide_eq_true_2.
  - intros w Hin%elem_of_seq. rewrite Hw by lia. by rewrite bool_decide_eq_false_2 by lia.
Qed.

(** C28: a frame is accepted only if it carries a valid digest: if
    verification returns an id, the frame is some data, a field of one to five
    bytes that starts with that id as an encoded number (bytes may follow it
    in the field), the marker, and exactly the MAC of the data under the key. *)
Theorem integrity_sound frame key id :
  (∀ k d, length (hmac k d) = 32%nat) →
  verify_v1v2 hmac frame key = Ok id →
  ∃ data vlq rest, frame = data ++ vlq ++ [DIGEST_MARKER] ++ hmac key data ∧
    (1 <= length vlq <= 5)%nat ∧ decode_vlq vlq = Ok (id, rest).
Proof.
  intros H32 Hv.
  assert (∃ w, (1 <= w <= 5)%nat ∧ verify_width hmac frame key w = Some (Ok id))
    as (w & Hw & Hw').
  { revert Hv. unfold verify_v1v2. cbn [verify_loop].
    repeat match goal with |- context [verify_width hmac frame key ?w] =>
      destruct (verify_width hmac frame key w) as [[?|?|]|] eqn:?;
        [intros [= <-]; exists w; split; [lia|done]|done|done|] end. done. }
  unfold verify_width, compute_digest in Hw'. revert Hw'.
  destruct (Nat.ltb_spec (length frame) (w + 1 + 32)); [done|].
  set (e := (length frame - (w + 1 + 32))%nat).
  destruct (drop e frame !! w) as [m|] eqn:Em; [|done].
  destruct (Z.eqb_spec m DIGEST_MARKER) as [->|]; cbn [negb]; [|done].
  case_bool_decide as Ed; [|done].
  destruct (decode_vlq (take w (drop e frame))) as [[id' rest]| |] eqn:Edec; [|done..].
  intros [= ->]. exists (take e frame), (take w (drop e frame)), rest.
  split_and!; [|rewrite length_take, length_drop; lia..|done].
  rewrite <- Ed. rewrite <- (take_drop e frame) at 1. f_equal.
  symmetry. by apply take_drop_middle.
Qed.
End IntegrityProofs.

(** A digest that separates strings of different length. *)
Definition length_digest (key data : bytes) : bytes := replicate 32 (blen data mod 256).

Lemma integrity_accepts_sealed_witness :
  verify_v1v2 length_digest (append_integrity_v1v2 length_digest [1; 2; 3] [7] 300) [7] = Ok 300.
Proof.
  apply (integrity_accepts_sealed length_digest [1; 2; 3] [7] 300).
  - intros k d. apply length_replicate.
  - intros j Hj. change (length (encode_vlq 300)) with 2%nat in Hj.
    assert (j = 1)%nat as -> by lia. vm_compute. discriminate.
  - unwidth. lia.
Defined.

Lemma integrity_sound_witness :
  ∃ data vlq rest,
    append_integrity_v1v2 length_digest [1; 2; 3] [7] 5 =
      data ++ vlq ++ [DIGEST_MARKER] ++ length_digest [7] data ∧
    (1 <= length vlq <= 5)%nat ∧ decode_vlq vlq = Ok (5, rest).
Proof.
  apply (integrity_sound length_digest).
  - intros k d. apply length_replicate.
  - vm_compute. reflexivity.
Defined.
