(* ===== verification/Types.v ===== *)
(** * Blocks, checksums and passwords (snap7-client, types.rs) *)

From S2P Require Import Prelude Wire.
Local Open Scope Z_scope.

(** [BlockType as u8]. *)
Inductive BlockType := OB | DB | SDB | FC | SFC | FB | SFB.
Definition BlockType_as_u8 (t : BlockType) : Z :=
  match t with
  | OB => 0x38 | DB => 0x41 | SDB => 0x42 | FC => 0x43 | SFC => 0x44 | FB => 0x45 | SFB => 0x46
  end.

Definition block_type_name (bt : Z) : string :=
  match bt with
  | 0x38 => "OB" | 0x41 => "DB" | 0x42 => "SDB" | 0x43 => "FC" | 0x44 => "SFC" | 0x45 => "FB"
  | 0x46 => "SFB" | 0x47 => "UDT" | _ => "??"
  end.

Record BlockData := {
  block_type : Z;
  block_number : Z;
  format : Z;
  total_length : Z;
  flags : Z;
  crc1 : Z;
  crc2 : Z;
  payload : bytes;
}.

(** Strings as the bytes [str::as_bytes] gives. *)
Record BlockAttributes := {
  at_author : option bytes;
  at_family : option bytes;
  at_name : option bytes;
  at_version : option Z;
  at_flags : option Z;
}.

(** ** Serialisation *)
Definition BlockData_from_bytes (data : bytes) : option BlockData :=
  match data with
  | d0 :: d1 :: d2 :: d3 :: d4 :: d5 :: d6 :: d7 :: d8 :: d9 :: d10 :: d11 :: d12 :: d13 ::
    d14 :: d15 :: _ :: _ :: _ :: _ :: rest =>
      Some {| block_type := of_be16 d0 d1; block_number := of_be16 d2 d3;
              format := of_be16 d4 d5; total_length := of_be32 d6 d7 d8 d9;
              flags := of_be16 d10 d11; crc1 := of_be16 d12 d13; crc2 := of_be16 d14 d15;
              payload := rest |}
  | _ => None
  end.

Definition BlockData_to_bytes (b : BlockData) : bytes :=
  be16 (block_type b) ++ be16 (block_number b) ++ be16 (format b) ++ be32 (total_length b) ++
  be16 (flags b) ++ be16 (crc1 b) ++ be16 (crc2 b) ++ [0; 0; 0; 0] ++ payload b.

(** [(size_bytes as usize + 1) & !1]. *)
Definition round_up_even (n : Z) : Z := (n + 1) / 2 * 2.

Definition BlockData_new_db (db_number size_bytes : Z) : BlockData :=
  let size := round_up_even size_bytes in
  let payload := be16 (as_u16 size) ++ replicate (Z.to_nat size) 0 in
  {| block_type := BlockType_as_u8 DB; block_number := db_number; format := 0x0001;
     total_length := as_u32 (20 + blen payload); flags := 0; crc1 := 0; crc2 := 0;
     payload := payload |}.

(** ** CRC-32 *)
Definition CRC_POLY : Z := 0xEDB88320.

(** One turn of the bit loop, eight turns for a byte, the byte loop. *)
Definition crc_bit (crc : Z) : Z :=
  if negb (Z.land crc 1 =? 0) then Z.lxor (Z.shiftr crc 1) CRC_POLY else Z.shiftr crc 1.
Definition crc_byte (crc byte : Z) : Z := Nat.iter 8 crc_bit (Z.lxor crc byte).
Definition crc32_ieee (data : bytes) : Z := Z.lxor (foldl crc_byte 0xFFFFFFFF data) 0xFFFFFFFF.

Definition BlockData_crc32 (b : BlockData) : Z := crc32_ieee (BlockData_to_bytes b).
Definition BlockData_type_name (b : BlockData) : string := block_type_name (as_u8 (block_type b)).

(** ** Attributes *)

(** [write_padded(&mut dst[i..i + n], s)]. *)
Definition write_padded (i n : nat) (s : bytes) (dst : bytes) : bytes :=
  list_inserts i (take n s ++ replicate (n - length s) 32) dst.

Definition BlockData_set_attributes (attrs : BlockAttributes) (b : BlockData) : BlockData :=
  let b :=
    match at_flags attrs with
    | Some f => {| block_type := block_type b; block_number := block_number b;
                   format := format b; total_length := total_length b; flags := f;
                   crc1 := crc1 b; crc2 := crc2 b; payload := payload b |}
    | None => b
    end in
  let plen := length (payload b) in
  if (plen <? 48)%nat then b
  else
    let footer := drop (plen - 48) (payload b) in
    let footer := match at_author attrs with Some s => write_padded 8 8 s footer | None => footer end in
    let footer := match at_family attrs with Some s => write_padded 16 8 s footer | None => footer end in
    let footer := match at_name attrs with Some s => write_padded 24 8 s footer | None => footer end in
    let footer := match at_version attrs with Some v => <[32%nat := v]> footer | None => footer end in
    {| block_type := block_type b; block_number := block_number b; format := format b;
       total_length := total_length b; flags := flags b; crc1 := crc1 b; crc2 := crc2 b;
       payload := take (plen - 48) (payload b) ++ footer |}.

(** ** Passwords *)
Definition encrypt_byte (b : Z) : Z :=
  Z.lxor (Z.lor (as_u8 (Z.shiftl b 4)) (Z.shiftr b 4)) 0x55.

Definition padded_password (password : bytes) : bytes :=
  take 8 password ++ replicate (8 - length password) 0x20.

Definition encrypt_password (password : bytes) : bytes :=
  encrypt_byte <$> padded_password password.

(** ** Serialisation lemmas *)
Definition BlockData_wf (b : BlockData) : Prop :=
  u16 (block_type b) ∧ u16 (block_number b) ∧ u16 (format b) ∧ u32 (total_length b) ∧
  u16 (flags b) ∧ u16 (crc1 b) ∧ u16 (crc2 b).

Lemma BlockData_from_to b : BlockData_wf b → BlockData_from_bytes (BlockData_to_bytes b) = Some b.
Proof.
  destruct b. intros (? & ? & ? & ? & ? & ? & ?). cbn in *.
  by rewrite !of_be16_split, of_be32_split.
Qed.

Lemma blen_BlockData_to_bytes b : blen (BlockData_to_bytes b) = 20 + blen (payload b).
Proof. unfold BlockData_to_bytes. blen_lia. Qed.

(** A block survives serialisation, and parsing then serialising a block
    reproduces its bytes except that the four reserved header bytes become
    zero; fewer than 20 bytes are rejected. *)
Theorem BlockData_roundtrip :
  (∀ b, BlockData_wf b → BlockData_from_bytes (BlockData_to_bytes b) = Some b) ∧
  (∀ d, wf_bytes d →
     match BlockData_from_bytes d with
     | Some b => 20 <= blen d ∧ BlockData_to_bytes b = take 16 d ++ [0; 0; 0; 0] ++ drop 20 d
     | None => blen d < 20
     end).
Proof.
  split; [apply BlockData_from_to|]. intros d Hd. unfold BlockData_from_bytes.
  do 20 (destruct d as [|? d]; [autorewrite with blen; lia|]).
  wf_inv. split; [blen_lia|]. unfold BlockData_to_bytes. cbn [block_type block_number format
    total_length flags crc1 crc2 payload].
  by rewrite !be16_of_be16, be32_of_be32.
Qed.

(** ** The checksum *)
Definition crc_range (c : Z) : Prop := 0 <= c < 2 ^ 32.

Lemma testbit_above n c i : 0 <= c < 2 ^ n → n <= i → 0 <= n → Z.testbit c i = false.
Proof.
  intros Hc Hi Hn. rewrite <- (Z.mod_small c (2 ^ n)) by done.
  by rewrite Z.mod_pow2_bits_high by lia.
Qed.

Lemma crc_bit_range c : crc_range c → crc_range (crc_bit c).
Proof.
  unfold crc_range, crc_bit. intros Hc. rewrite shiftr_div by lia.
  assert (0 <= c / 2 ^ 1 < 2 ^ 32) by (Z.div_mod_to_equations; lia).
  destruct (negb _); [|done]. apply lxor_range; [lia|done|]. unfold CRC_POLY. lia.
Qed.

(** The bit shifted out comes back as the top bit. *)
Lemma crc_bit_top c : crc_range c → Z.testbit (crc_bit c) 31 = Z.odd c.
Proof.
  unfold crc_range, crc_bit. intros Hc.
  assert (Z.testbit (Z.shiftr c 1) 31 = false) as Hs
    by (rewrite Z.shiftr_spec by lia; by apply (testbit_above 32)).
  rewrite land_1, Zmod_odd. destruct (Z.odd c); cbn [Z.eqb negb]; [|done].
  by rewrite Z.lxor_spec, Hs.
Qed.

Lemma crc_bit_inj c c' : crc_range c → crc_range c' → crc_bit c = crc_bit c' → c = c'.
Proof.
  intros Hc Hc' E.
  assert (Z.odd c = Z.odd c') as Ho by (by rewrite <- !crc_bit_top, E).
  assert (Z.shiftr c 1 = Z.shiftr c' 1) as Es.
  { unfold crc_bit in E. revert E. rewrite !land_1, !Zmod_odd, Ho.
    destruct (Z.odd c'); cbn [Z.eqb negb]; [|done]. intros E.
    apply (f_equal (fun x => Z.lxor x CRC_POLY)) in E.
    by rewrite !Z.lxor_assoc, Z.lxor_nilpotent, !Z.lxor_0_r in E. }
  rewrite !shiftr_div in Es by lia. change (2 ^ 1) with 2 in Es.
  pose proof (Zmod_odd c) as M1. pose proof (Zmod_odd c') as M2. rewrite Ho in M1.
  rewrite (Z.div_mod c 2), (Z.div_mod c' 2) by lia. congruence.
Qed.

Lemma crc_bits_range n c : crc_range c → crc_range (Nat.iter n crc_bit c).
Proof. intros. induction n as [|n IH]; [done|]. cbn. by apply crc_bit_range. Qed.
Lemma crc_bits_inj n c c' :
  crc_range c → crc_range c' → Nat.iter n crc_bit c = Nat.iter n crc_bit c' → c = c'.
Proof.
  intros Hc Hc'. induction n as [|n IH]; [done|]. cbn. intros E.
  apply IH, crc_bit_inj; [by apply crc_bits_range..|done].
Qed.

Lemma lxor_inj_l a b c : Z.lxor a b = Z.lxor a c → b = c.
Proof.
  intros E. apply (f_equal (Z.lxor a)) in E.
  by rewrite <- !Z.lxor_assoc, Z.lxor_nilpotent, !Z.lxor_0_l in E.
Qed.

Lemma crc_lxor_byte_range c b : crc_range c → u8 b → crc_range (Z.lxor c b).
Proof. intros. apply lxor_range; [lia|done|]. unwidth. lia. Qed.
Lemma crc_byte_range c b : crc_range c → u8 b → crc_range (crc_byte c b).
Proof. intros. by apply crc_bits_range, crc_lxor_byte_range. Qed.

Lemma crc_fold_range data c : wf_bytes data → crc_range c → crc_range (foldl crc_byte c data).
Proof.
  intros Hd. revert c. induction Hd as [|b data Hb _ IH]; intros c Hc; [done|].
  by apply IH, crc_byte_range.
Qed.

Lemma crc_fold_inj data c c' :
  wf_bytes data → crc_range c → crc_range c' →
  foldl crc_byte c data = foldl crc_byte c' data → c = c'.
Proof.
  intros Hd. revert c c'. induction Hd as [|b data Hb _ IH]; intros c c' Hc Hc' E; [done|].
  apply IH in E; [|by apply crc_byte_range..].
  apply crc_bits_inj in E; [|by apply crc_lxor_byte_range..].
  rewrite (Z.lxor_comm c), (Z.lxor_comm c') in E. by apply lxor_inj_l in E.
Qed.

(** The block checksum detects every change of one byte: two byte strings
    that differ in exactly one position have different CRC-32 values; and it
    is the IEEE CRC-32 (its value on the standard check string is
    0xCBF43926). *)
Theorem crc32_detects_byte_change a x y b :
  wf_bytes (a ++ x :: b) → u8 y → x ≠ y →
  crc32_ieee (a ++ x :: b) ≠ crc32_ieee (a ++ y :: b) ∧
  crc32_ieee [49; 50; 51; 52; 53; 54; 55; 56; 57] = 0xCBF43926.
Proof.
  intros Hw Hy Hne. split; [|vm_compute; reflexivity]. unfold crc32_ieee. intros E.
  wf_inv. set (s := foldl crc_byte 4294967295 a).
  assert (crc_range s) as Hs by (apply crc_fold_range; [done|unfold crc_range; lia]).
  rewrite !(Z.lxor_comm _ 4294967295) in E. apply lxor_inj_l in E.
  rewrite !foldl_app in E. cbn [foldl] in E. fold s in E.
  apply crc_fold_inj in E; [|done|by apply crc_byte_range..].
  apply crc_bits_inj in E; [|by apply crc_lxor_byte_range..].
  by apply lxor_inj_l in E.
Qed.

Lemma crc32_detects_byte_change_witness :
  crc32_ieee [1; 2; 3] ≠ crc32_ieee [1; 7; 3].
Proof.
  apply (crc32_detects_byte_change [1] 2 7 [3]); [|unwidth; lia|lia].
  repeat constructor; unwidth; lia.
Defined.

(** ** Passwords, new blocks and attributes *)
Lemma encrypt_byte_involutive b : u8 b → encrypt_byte (encrypt_byte b) = b.
Proof.
  intros Hb. apply Z.eqb_eq. revert b Hb.
  apply (Z_exhaust 256 (fun b => encrypt_byte (encrypt_byte b) =? b)). vm_compute. reflexivity.
Qed.

(** Obfuscating twice gives the password back, padded to eight bytes. *)
Lemma encrypt_password_involutive pw :
  wf_bytes pw →
  length (encrypt_password pw) = 8%nat ∧ encrypt_byte <$> encrypt_password pw = padded_password pw.
Proof.
  intros Hpw. unfold encrypt_password. split.
  - rewrite length_fmap. unfold padded_password. rewrite length_app, length_take,
      length_replicate. lia.
  - rewrite <- list_fmap_compose. rewrite (list_fmap_ext _ id), list_fmap_id; [done|].
    intros i x Hx. apply encrypt_byte_involutive.
    assert (wf_bytes (padded_password pw)) as Hw.
    { apply Forall_app. split; [by apply Forall_take|]. apply Forall_replicate. unwidth. lia. }
    by eapply (Forall_lookup_1 _ _ _ _ Hw).
Qed.

Lemma round_up_even_range n : 0 <= n → n <= round_up_even n <= n + 1.
Proof. unfold round_up_even. intros. Z.div_mod_to_equations; lia. Qed.

(** A new data block announces its own length. *)
Lemma new_db_length db size :
  u16 size →
  total_length (BlockData_new_db db size) = blen (BlockData_to_bytes (BlockData_new_db db size)) ∧
  blen (payload (BlockData_new_db db size)) = 2 + round_up_even size.
Proof.
  intros Hs. pose proof (round_up_even_range size) as Hr. rewrite blen_BlockData_to_bytes. cbn.
  unwidth. autorewrite with blen. rewrite Z.mod_small by lia. lia.
Qed.

Lemma length_write_padded i n s dst : length (write_padded i n s dst) = length dst.
Proof. apply length_inserts. Qed.

(** Attributes never move a block's bytes: everything before the footer and
    the length stay as they are. *)
Lemma set_attributes_frame attrs b :
  let b' := BlockData_set_attributes attrs b in
  length (payload b') = length (payload b) ∧
  take (length (payload b) - 48) (payload b') = take (length (payload b) - 48) (payload b).
Proof.
  unfold BlockData_set_attributes.
  destruct (at_flags attrs); cbn [payload]; destruct (Nat.ltb_spec (length (payload b)) 48);
    cbn [payload]; try done.
  all: assert (∀ f : bytes, length f = 48%nat →
      length (take (length (payload b) - 48) (payload b) ++ f) = length (payload b) ∧
      take (length (payload b) - 48) (take (length (payload b) - 48) (payload b) ++ f) =
      take (length (payload b) - 48) (payload b)) as Hf
    by (intros f Hl; split;
        [rewrite length_app, length_take; lia
        |rewrite take_app_le, take_take by (rewrite length_take; lia); f_equal; lia]).
  all: apply Hf; destruct (at_author attrs), (at_family attrs), (at_name attrs), (at_version attrs);
    rewrite ?length_insert, ?length_write_padded, ?length_drop; lia.
Qed.
