(* ===== verification/Connection.v ===== *)
(** * Client side of the handshake (snap7-client, connection.rs) *)

From S2P Require Import Prelude Wire Io Tpkt Cotp S7Header Negotiate ServerHandshake.
Local Open Scope Z_scope.

Module Client.
(** snap7-client's [Error].  The duration inside [Timeout] is the client's
    own setting and is not kept. *)
Inductive Error :=
| Proto (e : ProtoError)
| Io (e : IoError)
| PlcError (code : Z) (message : string)
| Timeout
| NegotiationFailed
| ConnectionRefused
| UnexpectedResponse.
End Client.

(** [ConnectParams], less the timeouts. *)
Record ConnectParams := { cp_rack : Z; cp_slot : Z; cp_pdu_size : Z }.

(** [ConnectParams::default()]. *)
Definition ConnectParams_default : ConnectParams :=
  {| cp_rack := 0; cp_slot := 1; cp_pdu_size := 480 |}.

Record Connection := { pdu_size : Z }.

Section Connect.
Context {T : Type} `{Transport T}.

Definition send_cotp (pdu : CotpPdu) : IO T Client.Error unit :=
  let tpkt := {| tpkt_payload := CotpPdu_encode pdu |} in
  let* buf := io_lift (res_map_err Client.Proto (TpktFrame_encode tpkt)) in
  io_map_err Client.Io (write_all buf).

Definition client_send_cotp_data (payload : bytes) : IO T Client.Error unit :=
  send_cotp (Data 0 true payload).

(** [total - 4] underflows on a length field below 4: the subtraction (or the
    allocation of the wrapped size) panics. *)
Definition recv_cotp : IO T Client.Error CotpPdu :=
  let* header := io_map_err Client.Io (read_exact 4) in
  match header with
  | [_; _; h2; h3] =>
      let total := of_be16 h2 h3 in
      if total <? 4 then io_lift Panic
      else
        let* payload := io_map_err Client.Io (read_exact (total - 4)) in
        io_lift (res_map_err Client.Proto
                   (match CotpPdu_decode payload with
                    | Ok (pdu, _) => Ok pdu
                    | Err e => Err e
                    | Panic => Panic
                    end))
  | _ => io_lift Panic
  end.

Definition client_recv_cotp_data : IO T Client.Error bytes :=
  let* pdu := recv_cotp in
  match pdu with
  | Data _ _ payload => io_ret payload
  | _ => io_fail Client.UnexpectedResponse
  end.

(** Steps 1 to 3 of [connect] and step 4, which the peer's answers separate. *)
Definition connect_send_request (params : ConnectParams) : IO T Client.Error unit :=
  send_cotp (ConnectRequest 0x0000 0x0001 (cp_rack params) (cp_slot params)).

Definition connect_negotiate (params : ConnectParams) : IO T Client.Error unit :=
  let* cc := recv_cotp in
  match cc with
  | ConnectConfirm _ _ =>
      let neg_req :=
        {| req_max_amq_calling := 1; req_max_amq_called := 1;
           req_pdu_length := cp_pdu_size params |} in
      let header :=
        {| pdu_type := Job; reserved := 0; pdu_ref := 1; param_len := 8; data_len := 0;
           error_class := None; error_code := None |} in
      client_send_cotp_data (S7Header_encode header ++ NegotiateRequest_encode neg_req)
  | _ => io_fail Client.NegotiationFailed
  end.

Definition connect_finish : IO T Client.Error Connection :=
  let* payload := client_recv_cotp_data in
  let* (resp_header, b) := io_lift (res_map_err Client.Proto (S7Header_decode payload)) in
  if negb (bool_decide (pdu_type resp_header = AckData)) then io_fail Client.NegotiationFailed
  else
    let* _ :=
      match error_class resp_header, error_code resp_header with
      | Some ec, Some ecd =>
          if negb (ec =? 0) || negb (ecd =? 0) then
            io_fail (Client.PlcError (Z.lor (Z.shiftl ec 8) ecd) "negotiate error")
          else io_ret tt
      | _, _ => io_ret tt
      end in
    let* (neg_resp, _) := io_lift (res_map_err Client.Proto (NegotiateResponse_decode b)) in
    io_ret {| pdu_size := resp_pdu_length neg_resp |}.

Definition connect (params : ConnectParams) : IO T Client.Error Connection :=
  let* _ := connect_send_request params in
  let* _ := connect_negotiate params in
  connect_finish.
End Connect.

(** ** Frames on a pipe *)
Lemma send_cotp_ok pdu p :
  4 + blen (CotpPdu_encode pdu) <= 65535 →
  send_cotp pdu p = (Ok tt, {| rx := rx p; tx := tx p ++ tpkt_frame (CotpPdu_encode pdu) |}).
Proof.
  intros Hl. unfold send_cotp, io_lift, io_bind. by rewrite TpktFrame_encode_ok by done.
Qed.

Lemma recv_cotp_frame body rest o :
  4 + blen body <= 65535 →
  recv_cotp {| rx := tpkt_frame body ++ rest; tx := o |} =
  (res_map_err Client.Proto (match CotpPdu_decode body with
                             | Ok (pdu, _) => Ok pdu | Err e => Err e | Panic => Panic end),
   {| rx := rest; tx := o |}).
Proof.
  intros Hl. unfold recv_cotp. assert (Hu : u16 (4 + blen body)) by (unwidth; blen_lia).
  rewrite tpkt_frame_split.
  rewrite (io_bind_ok _ _ _ _ _ (io_map_err_ok _ _ _ _ _
    (pipe_read_app 4 (3 :: 0 :: be16 (4 + blen body)) (body ++ rest) o eq_refl))).
  cbn [be16]. rewrite of_be16_split by done. case_ltb; [blen_lia|].
  rewrite (io_bind_ok _ _ _ body {| rx := rest; tx := o |}); [done|].
  apply io_map_err_ok, pipe_read_app. lia.
Qed.

Lemma client_send_cotp_data_ok payload p :
  7 + blen payload <= 65535 →
  client_send_cotp_data payload p =
  (Ok tt, {| rx := rx p; tx := tx p ++ data_frame payload |}).
Proof.
  intros Hl. unfold client_send_cotp_data. rewrite send_cotp_ok; [done|].
  cbn [CotpPdu_encode app]. blen_lia.
Qed.

Lemma client_recv_cotp_data_frame payload rest o :
  7 + blen payload <= 65535 →
  client_recv_cotp_data {| rx := data_frame payload ++ rest; tx := o |} =
  (Ok payload, {| rx := rest; tx := o |}).
Proof.
  intros Hl. unfold client_recv_cotp_data, data_frame.
  rewrite (io_bind_ok _ _ _ (Data 0 true payload) {| rx := rest; tx := o |}); [done|].
  rewrite recv_cotp_frame by blen_lia. by rewrite CotpPdu_decode_dt.
Qed.

Definition ConnectParams_wf (params : ConnectParams) : Prop :=
  u8 (cp_rack params) ∧ u8 (cp_slot params) ∧ u16 (cp_pdu_size params).

(** The last step, on any transport that delivers the server's answer. *)
Lemma connect_finish_ok {T} `{Transport T} (t t' : T) n :
  NegotiateResponse_wf n → client_recv_cotp_data t = (Ok (negotiate_ack 1 n), t') →
  connect_finish t = (Ok {| pdu_size := resp_pdu_length n |}, t').
Proof.
  intros Hn Ht. unfold connect_finish. rewrite (io_bind_ok _ _ _ _ _ Ht).
  unfold io_lift at 1, io_bind at 1, negotiate_ack.
  rewrite S7Header_decode_encode by (apply S7Header_wf_ack; unwidth; lia).
  cbn [res_map_err pdu_type error_class error_code]. rewrite bool_decide_eq_true_2 by done.
  cbn [negb Z.eqb orb]. unfold io_ret at 1, io_bind at 1, io_lift, io_bind.
  rewrite <- (app_nil_r (NegotiateResponse_encode n)).
  by rewrite NegotiateResponse_decode_encode.
Qed.

Lemma connect_run params n rest o :
  NegotiateResponse_wf n →
  connect params
    {| rx := tpkt_frame (CotpPdu_encode (ConnectConfirm 1 1)) ++
             data_frame (negotiate_ack 1 n) ++ rest; tx := o |} =
  (Ok {| pdu_size := resp_pdu_length n |},
   {| rx := rest;
      tx := o ++ tpkt_frame (CotpPdu_encode (ConnectRequest 0 1 (cp_rack params) (cp_slot params)))
              ++ data_frame (negotiate_job 1 {| req_max_amq_calling := 1; req_max_amq_called := 1;
                                                req_pdu_length := cp_pdu_size params |}) |}).
Proof.
  intros Hn. unfold connect.
  rewrite (io_bind_ok _ _ _ _ _ (send_cotp_ok
    (ConnectRequest 0 1 (cp_rack params) (cp_slot params)) _ ltac:(vm_compute; discriminate))).
  cbn [rx tx]. unfold connect_negotiate.
  set (q := {| req_max_amq_calling := 1; req_max_amq_called := 1;
               req_pdu_length := cp_pdu_size params |}).
  pose proof (recv_cotp_frame (CotpPdu_encode (ConnectConfirm 1 1))) as Hcc.
  rewrite CotpPdu_decode_encode in Hcc by (cbn; unwidth; lia).
  erewrite io_bind_ok; [|erewrite io_bind_ok by (apply Hcc; vm_compute; discriminate)].
  2: { cbn [CotpPdu_wire].
       match goal with |- client_send_cotp_data ?x _ = _ => change x with (negotiate_job 1 q) end.
       apply client_send_cotp_data_ok. vm_compute. discriminate. }
  cbn [rx tx]. rewrite (connect_finish_ok _ _ n Hn
    (client_recv_cotp_data_frame (negotiate_ack 1 n) _ _ ltac:(vm_compute; discriminate))).
  by rewrite <- (assoc_L (++)).
Qed.

(** C9: client and server agree on the PDU size: when each side's input is
    what the other side sends, both handshakes succeed, consume all of it, and
    end with the same PDU size, the smaller of the client's wish and 480. *)
Theorem handshake_agreement params :
  ConnectParams_wf params →
  ∃ from_client from_server,
    connect params {| rx := from_server; tx := [] |} =
      (Ok {| pdu_size := Z.min (cp_pdu_size params) 480 |}, {| rx := []; tx := from_client |}) ∧
    server_handshake {| rx := from_client; tx := [] |} =
      (Ok (Z.min (cp_pdu_size params) 480), {| rx := []; tx := from_server |}).
Proof.
  intros (Hr & Hs & Hp).
  set (q := {| req_max_amq_calling := 1; req_max_amq_called := 1;
               req_pdu_length := cp_pdu_size params |}).
  pose proof (connect_run params (negotiated q) [] []) as Hc.
  pose proof (server_handshake_run 0 1 (cp_rack params) (cp_slot params) 1 q [] []) as Hh.
  rewrite !app_nil_r in Hc, Hh. cbn [app] in Hc, Hh.
  eexists _, _. split; [apply Hc|apply Hh].
  - unfold NegotiateResponse_wf. cbn. unwidth. lia.
  - cbn. unwidth. lia.
  - unwidth. lia.
  - unfold NegotiateRequest_wf. cbn. unwidth. lia.
Qed.

Lemma handshake_agreement_witness :
  ∃ from_client from_server,
    connect ConnectParams_default {| rx := from_server; tx := [] |} =
      (Ok {| pdu_size := 480 |}, {| rx := []; tx := from_client |}) ∧
    server_handshake {| rx := from_client; tx := [] |} =
      (Ok 480, {| rx := []; tx := from_server |}).
Proof.
  apply (handshake_agreement ConnectParams_default).
  unfold ConnectParams_wf. cbn. unwidth. lia.
Defined.

(** A peer that announces a frame shorter than its own header crashes the
    connecting client: a TPKT length below 4 makes the size computation of
    [recv_cotp] underflow. *)
Theorem short_frame_panics_connect params h0 h1 len rest :
  0 <= len < 4 →
  (connect params {| rx := h0 :: h1 :: be16 len ++ rest; tx := [] |}).1 = Panic.
Proof.
  intros Hlen. unfold connect.
  rewrite (io_bind_ok _ _ _ _ _ (send_cotp_ok
    (ConnectRequest 0 1 (cp_rack params) (cp_slot params)) _ ltac:(vm_compute; discriminate))).
  cbn [rx tx].
  assert (∀ o, (recv_cotp {| rx := h0 :: h1 :: be16 len ++ rest; tx := o |}).1 = Panic) as Hp.
  { intros o. unfold recv_cotp. cbn [be16 app].
    rewrite (io_bind_ok _ _ _ _ _ (io_map_err_ok _ _ _ _ _
      (pipe_read_app 4 [h0; h1; as_u8 (len / 256); as_u8 len] rest o eq_refl))).
    rewrite of_be16_split by (unwidth; lia). case_ltb; [done|lia]. }
  unfold connect_negotiate, io_bind. specialize (Hp ([] ++ tpkt_frame (CotpPdu_encode
    (ConnectRequest 0 1 (cp_rack params) (cp_slot params))))).
  destruct (recv_cotp _) as [[?|?|] ?]; by cbn in Hp.
Qed.

Lemma short_frame_panics_connect_witness :
  (connect ConnectParams_default {| rx := [3; 0; 0; 2]; tx := [] |}).1 = Panic.
Proof. apply (short_frame_panics_connect ConnectParams_default 3 0 2 []). lia. Defined.
