(* ===== verification/Tag.v ===== *)
(** * Tag addresses (snap7-client, tag.rs)

    [parse_tag] reads names such as DB170,REAL262, MX10.3 or T5.  Text is a
    list of Unicode scalar values.  [str::to_uppercase] maps each character on
    its own; its table for characters outside ASCII is a parameter.  The source
    searches the bytes of the text for a separator; it looks for three ASCII
    characters, so searching the characters finds the same place. *)

From S2P Require Import Prelude Wire Io S7Header Connection.
Local Open Scope Z_scope.

Abbreviation text := (list Z).

Record TagAddress := {
  tag_area : Area;
  tag_db_number : Z;
  byte_offset : Z;
  tag_bit_offset : Z;
  tag_transport : TransportSize;
  element_count : Z;
}.

(** ** What the parser uses of [str] *)
Definition is_ascii_digit (c : Z) : bool := (48 <=? c) && (c <=? 57).
Definition is_ascii_alphabetic (c : Z) : bool :=
  (65 <=? c) && (c <=? 90) || (97 <=? c) && (c <=? 122).
Definition ascii_uppercase (c : Z) : Z := if (97 <=? c) && (c <=? 122) then c - 32 else c.

(** [s.contains(c)] and [s.starts_with(f)]. *)
Definition contains (c : Z) (s : text) : bool := existsb (Z.eqb c) s.
Definition starts_with (f : Z → bool) (s : text) : bool :=
  match s with c :: _ => f c | [] => false end.

(** [s.strip_prefix(p)]. *)
Fixpoint strip_prefix (p s : text) : option text :=
  match p, s with
  | [], _ => Some s
  | a :: p, b :: s => if a =? b then strip_prefix p s else None
  | _ :: _, [] => None
  end.

(** [s.splitn(2, c)] and [s.split(c)]. *)
Fixpoint splitn2 (c : Z) (s : text) : list text :=
  match s with
  | [] => [[]]
  | x :: r => if x =? c then [[]; r] else
      match splitn2 c r with h :: t => (x :: h) :: t | [] => [] end
  end.
Fixpoint split (c : Z) (s : text) : list text :=
  match s with
  | [] => [[]]
  | x :: r => if x =? c then [] :: split c r else
      match split c r with h :: t => (x :: h) :: t | [] => [] end
  end.

(** [s.parse()] for an unsigned type with the given largest value: decimal
    digits after an optional plus sign. *)
Fixpoint parse_digits (max acc : Z) (s : text) : option Z :=
  match s with
  | [] => Some acc
  | c :: r =>
      if is_ascii_digit c then
        let v := acc * 10 + (c - 48) in
        if max <? v then None else parse_digits max v r
      else None
  end.
Definition parse_uint (max : Z) (s : text) : option Z :=
  match s with
  | [] => None
  | c :: r =>
      if c =? 43 then match r with [] => None | _ :: _ => parse_digits max 0 r end
      else parse_digits max 0 s
  end.
Definition parse_u8 : text → option Z := parse_uint 255.
Definition parse_u16 : text → option Z := parse_uint 65535.
Definition parse_u32 : text → option Z := parse_uint 4294967295.

(** The UTF-8 bytes of a text, as error messages hold them. *)
Definition utf8 (c : Z) : bytes :=
  if c <? 128 then [c]
  else if c <? 2048 then [192 + c / 64; 128 + c mod 64]
  else if c <? 65536 then [224 + c / 4096; 128 + c / 64 mod 64; 128 + c mod 64]
  else [240 + c / 262144; 128 + c / 4096 mod 64; 128 + c / 64 mod 64; 128 + c mod 64].
Definition message_of (s : text) : string :=
  foldr (fun b m => String (Ascii.ascii_of_N (Z.to_N b)) m) EmptyString (s ≫= utf8).

(** [.map_err(|_| Error::PlcError { code: 0, message: format!(prefix, tag) })]. *)
Definition tag_error {A} (prefix : string) (tag : text) (suffix : string) : res Client.Error A :=
  Err (Client.PlcError 0 (prefix +:+ message_of tag +:+ suffix)).
Definition or_error {A} (prefix : string) (tag : text) (o : option A) : res Client.Error A :=
  match o with Some a => Ok a | None => tag_error prefix tag "" end.

(** ** The parser *)

(** The position of the dot in the first digit-dot-letter window. *)
Fixpoint find_sep (s : text) : option nat :=
  match s with
  | a :: ((b :: c :: _) as r) =>
      if is_ascii_digit a && (b =? 46) && is_ascii_alphabetic c then Some 1%nat
      else S <$> find_sep r
  | _ => None
  end.
Definition normalized (tag : text) : text :=
  if contains 44 tag then tag
  else match find_sep tag with
       | Some pos => <[pos := 44]> tag
       | None => tag
       end.

Definition parse_typed_offset (type_part tag : text) : res Client.Error (TransportSize * Z) :=
  match strip_prefix (str_bytes "REAL") type_part with
  | Some rest => Ok (Real, default 0 (parse_u32 rest))
  | None =>
  match strip_prefix (str_bytes "DWORD") type_part with
  | Some rest => Ok (DWord, default 0 (parse_u32 rest))
  | None =>
  match strip_prefix (str_bytes "DINT") type_part with
  | Some rest => Ok (DInt, default 0 (parse_u32 rest))
  | None =>
  match strip_prefix (str_bytes "WORD") type_part with
  | Some rest => Ok (Word, default 0 (parse_u32 rest))
  | None =>
  match strip_prefix (str_bytes "INT") type_part with
  | Some rest => Ok (Int, default 0 (parse_u32 rest))
  | None =>
  match strip_prefix (str_bytes "BYTE") type_part with
  | Some rest => Ok (Byte, default 0 (parse_u32 rest))
  | None => tag_error "unsupported type in tag: " tag ""
  end end end end end end.

(** A byte.bit address: the part that [parse_tag] and [parse_marker_tag] share
    up to the wording of their errors. *)
Definition parse_bit_address (place : string) (byte_part bit_part tag : text)
    (area : Area) (db_number : Z) : res Client.Error TagAddress :=
  let? byte_offset := or_error ("invalid byte offset in " +:+ place +:+ ": ") tag
                        (parse_u32 byte_part) in
  let? bit_offset := or_error ("invalid bit offset in " +:+ place +:+ ": ") tag
                       (parse_u8 bit_part) in
  if 7 <? bit_offset then tag_error "bit offset must be 0-7: " tag ""
  else Ok {| tag_area := area; tag_db_number := db_number; byte_offset := byte_offset;
             tag_bit_offset := bit_offset; tag_transport := Bit; element_count := 1 |}.

Definition parse_marker_tag (area_part _type_part tag : text) : res Client.Error TagAddress :=
  let rest := default [] (strip_prefix (str_bytes "M") area_part) in
  let '(is_bit, offset_str) :=
    match strip_prefix (str_bytes "X") rest with
    | Some r => (true, r)
    | None => (starts_with is_ascii_digit rest, rest)
    end in
  if is_bit : bool then
    match split 46 offset_str with
    | [byte_part; bit_part] => parse_bit_address "marker tag" byte_part bit_part tag Marker 0
    | _ => tag_error "invalid marker bit tag (expected M<byte>.<bit>): " tag ""
    end
  else
    let? (transport, offset_str) :=
      match strip_prefix (str_bytes "B") rest with
      | Some r => Ok (Byte, r)
      | None =>
      match strip_prefix (str_bytes "W") rest with
      | Some r => Ok (Word, r)
      | None =>
      match strip_prefix (str_bytes "D") rest with
      | Some r => Ok (DWord, r)
      | None => tag_error "unsupported marker type in tag: " tag
                  " (use MB/MW/MD/MX or M<byte>.<bit>)"
      end end end in
    let? byte_offset := or_error "invalid offset in marker tag: " tag (parse_u32 offset_str) in
    Ok {| tag_area := Marker; tag_db_number := 0; byte_offset := byte_offset;
          tag_bit_offset := 0; tag_transport := transport; element_count := 1 |}.

(** A timer or counter: [what] names it in the error, [ts] is its transport. *)
Definition parse_element_tag (what prefix : string) (a : Area) (ts : TransportSize)
    (upper tag : text) : res Client.Error TagAddress :=
  let idx_str := default [] (strip_prefix (str_bytes prefix) upper) in
  let? index := or_error ("invalid " +:+ what +:+ " index in tag: ") tag (parse_u32 idx_str) in
  Ok {| tag_area := a; tag_db_number := 0; byte_offset := index; tag_bit_offset := 0;
        tag_transport := ts; element_count := 1 |}.

(** [upper.starts_with(p) && !upper.starts_with(q) && !upper.contains(',')]. *)
Definition single_part (p q : string) (upper : text) : bool :=
  bool_decide (is_Some (strip_prefix (str_bytes p) upper)) &&
  negb (bool_decide (is_Some (strip_prefix (str_bytes q) upper))) &&
  negb (contains 44 upper).

(** The data block part of [parse_tag], on the two uppercased parts. *)
Definition parse_db_tag (area_part type_part tag : text) : res Client.Error TagAddress :=
  let? db_number :=
    match strip_prefix (str_bytes "DB") area_part with
    | Some rest => or_error "invalid DB number in tag: " tag (parse_u16 rest)
    | None => tag_error "unsupported area in tag: " tag ""
    end in
  let typed :=
    let? (transport, byte_offset) := parse_typed_offset type_part tag in
    Ok {| tag_area := DataBlock; tag_db_number := db_number; byte_offset := byte_offset;
          tag_bit_offset := 0; tag_transport := transport; element_count := 1 |} in
  if starts_with is_ascii_digit type_part then
    match split 46 type_part with
    | [byte_part; bit_part] => parse_bit_address "tag" byte_part bit_part tag DataBlock db_number
    | _ => typed
    end
  else typed.

Section Tag.
(** Uppercase of a character outside ASCII. *)
Variable upper_other : Z → text.

Definition char_to_uppercase (c : Z) : text :=
  if c <? 128 then [ascii_uppercase c] else upper_other c.
Definition to_uppercase (s : text) : text := s ≫= char_to_uppercase.

Definition parse_tag (tag : text) : res Client.Error TagAddress :=
  let upper := to_uppercase tag in
  if single_part "T" "TM" upper then parse_element_tag "timer" "T" ATimer TTimer upper tag
  else if single_part "C" "CT" upper then
    parse_element_tag "counter" "C" ACounter TCounter upper tag
  else if single_part "M" "MK" upper then parse_marker_tag upper [] tag
  else
    match splitn2 44 (normalized tag) with
    | [part0; part1] => parse_db_tag (to_uppercase part0) (to_uppercase part1) tag
    | _ => tag_error "invalid tag: " tag ""
    end.
End Tag.

(** ** The language of tags

    The grammar on uppercase text, independent of the parser. *)
Definition digit (c : Z) : Prop := 48 <= c <= 57.
Definition dec_value (ds : text) : Z := foldl (fun v c => v * 10 + (c - 48)) 0 ds.
(** A number as [str::parse] reads it: digits after an optional plus sign. *)
Definition numeral (max : Z) (s : text) (n : Z) : Prop :=
  ∃ ds, (s = ds ∨ s = 43 :: ds) ∧ ds ≠ [] ∧ Forall digit ds ∧ dec_value ds = n ∧ n <= max.
(** The offset of a typed tag: a number, or anything else for offset 0. *)
Definition lenient_offset (s : text) (n : Z) : Prop :=
  numeral 4294967295 s n ∨ (∀ m, ¬ numeral 4294967295 s m) ∧ n = 0.

Definition typed_keywords : list (text * TransportSize) :=
  [(str_bytes "REAL", Real); (str_bytes "DWORD", DWord); (str_bytes "DINT", DInt);
   (str_bytes "WORD", Word); (str_bytes "INT", Int); (str_bytes "BYTE", Byte)].
Definition marker_letters : list (text * TransportSize) :=
  [(str_bytes "B", Byte); (str_bytes "W", Word); (str_bytes "D", DWord)].

Definition mk_tag (a : Area) (db off bit : Z) (ts : TransportSize) : TagAddress :=
  {| tag_area := a; tag_db_number := db; byte_offset := off; tag_bit_offset := bit;
     tag_transport := ts; element_count := 1 |}.

Inductive tag_syntax : text → TagAddress → Prop :=
| syn_timer s n :
    numeral 4294967295 s n → tag_syntax (str_bytes "T" ++ s) (mk_tag ATimer 0 n 0 TTimer)
| syn_counter s n :
    numeral 4294967295 s n → tag_syntax (str_bytes "C" ++ s) (mk_tag ACounter 0 n 0 TCounter)
| syn_marker_bit x s b n k :
    x = str_bytes "X" ∨ x = [] ∧ starts_with is_ascii_digit s = true →
    numeral 4294967295 s n → numeral 255 b k → k <= 7 →
    tag_syntax (str_bytes "M" ++ x ++ s ++ str_bytes "." ++ b) (mk_tag Marker 0 n k Bit)
| syn_marker_typed l ts s n :
    (l, ts) ∈ marker_letters → numeral 4294967295 s n →
    tag_syntax (str_bytes "M" ++ l ++ s) (mk_tag Marker 0 n 0 ts)
| syn_db_bit db d s b n k :
    numeral 65535 db d → starts_with is_ascii_digit s = true →
    numeral 4294967295 s n → numeral 255 b k → k <= 7 →
    tag_syntax (str_bytes "DB" ++ db ++ str_bytes "," ++ s ++ str_bytes "." ++ b)
      (mk_tag DataBlock d n k Bit)
| syn_db_typed db d sep kw ts os n :
    numeral 65535 db d → sep = str_bytes "," ∨ sep = str_bytes "." ∧ 44 ∉ os →
    (kw, ts) ∈ typed_keywords → lenient_offset os n →
    tag_syntax (str_bytes "DB" ++ db ++ sep ++ kw ++ os) (mk_tag DataBlock d n 0 ts).

(** *** Numbers *)
Lemma is_ascii_digit_spec c : is_ascii_digit c = true ↔ digit c.
Proof. unfold is_ascii_digit, digit. lia. Qed.

Lemma dec_fold_ge ds v : Forall digit ds → 0 <= v →
  v <= foldl (fun v c => v * 10 + (c - 48)) v ds.
Proof.
  intros Hd. revert v. induction Hd as [|c ds Hc Hd IH]; intros v Hv; cbn; [lia|].
  unfold digit in Hc. specialize (IH (v * 10 + (c - 48)) ltac:(lia)). lia.
Qed.

Lemma parse_digits_spec max ds v n : 0 <= v <= max →
  parse_digits max v ds = Some n ↔
  Forall digit ds ∧ foldl (fun v c => v * 10 + (c - 48)) v ds = n ∧ n <= max.
Proof.
  revert v. induction ds as [|c ds IH]; intros v Hv; cbn.
  - split; [intros [= <-]; repeat split; [constructor|lia]|intros (_ & -> & _); done].
  - rewrite Forall_cons, <- is_ascii_digit_spec.
    destruct (is_ascii_digit c) eqn:Ec; [|split; [done|by intros ((? & ?) & _)]].
    apply is_ascii_digit_spec in Ec as Hc. unfold digit in Hc.
    case_ltb; [|rewrite IH by lia; tauto].
    split; [done|]. intros ((_ & Hd) & Hn & Hm).
    pose proof (dec_fold_ge ds (v * 10 + (c - 48)) Hd). lia.
Qed.

Lemma parse_uint_spec max s n : 0 <= max → parse_uint max s = Some n ↔ numeral max s n.
Proof.
  intros Hmax. unfold parse_uint.
  assert (∀ c r, c ≠ 43 → parse_digits max 0 (c :: r) = Some n ↔ numeral max (c :: r) n) as Hd.
  { intros c r Hc. rewrite parse_digits_spec by lia. unfold numeral, dec_value. split.
    - intros (? & ? & ?). by exists (c :: r); split_and!; auto.
    - intros (ds & [<-| [= ??]] & ? & ? & ? & ?); naive_solver. }
  destruct s as [|c r].
  { split; [done|]. intros (ds & [<-|?] & ? & _); done. }
  destruct (decide (c = 43)) as [->|Hc].
  - cbn [Z.eqb Pos.eqb]. unfold numeral. destruct r as [|c' r]; [split; [done|]|].
    + intros (ds & [<-| [= <-]] & ? & Hf & _); [|done].
      apply Forall_cons in Hf as [Hf _]. unfold digit in Hf. lia.
    + rewrite parse_digits_spec by lia. unfold dec_value. split.
      * intros (? & ? & ?). exists (c' :: r). split_and!; auto.
      * intros (ds & [<-| [= <-]] & ? & Hf & ? & ?); [|by auto].
        apply Forall_cons in Hf as [Hf _]. unfold digit in Hf. lia.
  - case_ltb; [done|]. by apply Hd.
Qed.

Lemma lenient_offset_spec s n : default 0 (parse_u32 s) = n ↔ lenient_offset s n.
Proof.
  unfold lenient_offset, parse_u32. destruct (parse_uint 4294967295 s) as [m|] eqn:E; cbn.
  - apply parse_uint_spec in E as Hm; [|lia]. split; [intros ->; auto|].
    intros [Hn|[Hn _]]; [|by destruct (Hn m)]. apply parse_uint_spec in Hn; [|lia]. congruence.
  - assert (∀ m, ¬ numeral 4294967295 s m) as Hno.
    { intros m Hm%parse_uint_spec; [congruence|lia]. }
    split; [intros <-; auto|]. intros [Hn|[_ ->]]; [by destruct (Hno n)|done].
Qed.

Definition numeral_char (c : Z) : Prop := c = 43 ∨ digit c.
Lemma numeral_chars max s n : numeral max s n → Forall numeral_char s ∧ ∃ s' c, s = s' ++ [c] ∧ digit c.
Proof.
  intros (ds & Hs & Hne & Hd & _). unfold numeral_char.
  assert (Forall (fun c => c = 43 ∨ digit c) ds) by (eapply Forall_impl; [exact Hd|]; auto).
  destruct ds as [|c ds _] using rev_ind; [done|]. apply Forall_app in Hd as [_ Hc].
  apply Forall_cons in Hc as [Hc _].
  destruct Hs as [->| ->]; (split; [by repeat constructor|]).
  - by exists ds, c.
  - by exists (43 :: ds), c.
Qed.
Lemma numeral_not_in max s n c : numeral max s n → ¬ numeral_char c → c ∉ s.
Proof.
  intros [Hf _]%numeral_chars Hc Hin. apply Hc. by eapply Forall_forall in Hf.
Qed.
Ltac not_numeral_char := unfold numeral_char, digit; lia.

(** *** Prefixes and separators *)
Lemma strip_prefix_app p s : strip_prefix p (p ++ s) = Some s.
Proof. induction p as [|c p IH]; [by destruct s|]. cbn. by rewrite Z.eqb_refl. Qed.
Lemma strip_prefix_inv p s r : strip_prefix p s = Some r → s = p ++ r.
Proof.
  revert s. induction p as [|c p IH]; intros s; cbn; [by intros [= ->]|].
  destruct s as [|b s]; [done|]. case_ltb; [subst|done]. by intros ->%IH.
Qed.

Lemma contains_spec c s : contains c s = true ↔ c ∈ s.
Proof.
  unfold contains. rewrite existsb_exists. split.
  - intros (x & Hx & ->%Z.eqb_eq). by apply list_elem_of_In.
  - intros Hx%list_elem_of_In. exists c. by rewrite Z.eqb_refl.
Qed.
Lemma contains_false c s : contains c s = false ↔ c ∉ s.
Proof. rewrite <- contains_spec. destruct (contains c s); naive_solver. Qed.

Lemma splitn2_absent c s : c ∉ s → splitn2 c s = [s].
Proof.
  induction s as [|x s IH]; [done|]. rewrite not_elem_of_cons. intros [Hx Hs]. cbn.
  case_ltb; [congruence|]. by rewrite IH.
Qed.
Lemma splitn2_app c a b : c ∉ a → splitn2 c (a ++ c :: b) = [a; b].
Proof.
  induction a as [|x a IH]; cbn; [by rewrite Z.eqb_refl|].
  rewrite not_elem_of_cons. intros [Hx Ha]. case_ltb; [congruence|]. by rewrite IH.
Qed.
Lemma splitn2_inv c s a b : splitn2 c s = [a; b] → s = a ++ c :: b ∧ c ∉ a.
Proof.
  destruct (decide (c ∈ s)) as [Hin|]; [|by rewrite splitn2_absent].
  apply list_elem_of_split_l in Hin as (l1 & l2 & -> & Hl).
  rewrite splitn2_app by done. by intros [= -> ->].
Qed.

Lemma split_absent c s : c ∉ s → split c s = [s].
Proof.
  induction s as [|x s IH]; [done|]. rewrite not_elem_of_cons. intros [Hx Hs]. cbn.
  case_ltb; [congruence|]. by rewrite IH.
Qed.
Lemma split_app c a b : c ∉ a → split c (a ++ c :: b) = a :: split c b.
Proof.
  induction a as [|x a IH]; cbn; [by rewrite Z.eqb_refl|].
  rewrite not_elem_of_cons. intros [Hx Ha]. case_ltb; [congruence|]. by rewrite IH.
Qed.
Lemma split_nonempty c s : split c s ≠ [].
Proof.
  induction s as [|x s IH]; [done|]. cbn. case_ltb; [done|]. by destruct (split c s).
Qed.
Lemma split_inv c s a b : split c s = [a; b] → s = a ++ c :: b ∧ (c ∉ a) ∧ (c ∉ b).
Proof.
  destruct (decide (c ∈ s)) as [Hin|]; [|by rewrite split_absent].
  apply list_elem_of_split_l in Hin as (l1 & l2 & -> & Hl). rewrite split_app by done.
  destruct (decide (c ∈ l2)) as [Hin|].
  - apply list_elem_of_split_l in Hin as (l3 & l4 & -> & Hl'). rewrite split_app by done.
    intros [= _ _ H]. by destruct (split_nonempty c l4).
  - rewrite (split_absent c l2) by done. by intros [= -> ->].
Qed.
Lemma split_numerals m1 m2 a b n k :
  numeral m1 a n → numeral m2 b k → split 46 (a ++ 46 :: b) = [a; b].
Proof.
  intros Ha Hb. rewrite split_app, split_absent; [done|..];
    eapply numeral_not_in; try done; not_numeral_char.
Qed.

Lemma find_sep_window a b c s :
  find_sep (a :: b :: c :: s) =
  if is_ascii_digit a && (b =? 46) && is_ascii_alphabetic c then Some 1%nat
  else S <$> find_sep (b :: c :: s).
Proof. reflexivity. Qed.
Lemma find_sep_skip a b c s :
  b ≠ 46 → find_sep (a :: b :: c :: s) = S <$> find_sep (b :: c :: s).
Proof.
  intros Hb. rewrite find_sep_window. replace (b =? 46) with false by lia.
  by rewrite andb_false_r.
Qed.
Lemma find_sep_app q c r :
  46 ∉ q → digit c → starts_with is_ascii_alphabetic r = true →
  find_sep (q ++ c :: 46 :: r) = Some (S (length q)).
Proof.
  intros Hq Hc Hr. destruct r as [|d r]; [done|]. cbn in Hr.
  induction q as [|x q IH].
  { cbn [app]. rewrite find_sep_window. apply is_ascii_digit_spec in Hc as ->. by rewrite Hr. }
  apply not_elem_of_cons in Hq as [Hx Hq]. specialize (IH Hq).
  destruct q as [|y q]; cbn [app length] in *.
  - rewrite find_sep_skip by (unfold digit in Hc; lia). by rewrite IH.
  - apply not_elem_of_cons in Hq as [Hy Hq].
    destruct q as [|z q]; cbn [app] in *; rewrite find_sep_skip by done; by rewrite IH.
Qed.
Lemma find_sep_inv s pos : find_sep s = Some pos →
  ∃ q r, s = q ++ 46 :: r ∧ pos = length q ∧ starts_with is_ascii_alphabetic r = true.
Proof.
  revert pos. induction s as [|a s IH]; intros pos; [done|].
  destruct s as [|b [|c s]]; [done..|]. rewrite find_sep_window.
  destruct (is_ascii_digit a && (b =? 46) && is_ascii_alphabetic c) eqn:E.
  - intros [= <-]. apply andb_prop in E as [[_ ->%Z.eqb_eq]%andb_prop Hc].
    by exists [a], (c :: s).
  - intros Hp. apply fmap_Some in Hp as (p & Hp & ->).
    destruct (IH p Hp) as (q & r & Hs & -> & Hr). exists (a :: q), r.
    split_and!; [|done..]. cbn. by rewrite Hs.
Qed.

(** Where the parser splits a text into its area and its type. *)
Lemma split_tag_inv s a b :
  splitn2 44 (normalized s) = [a; b] →
  s = a ++ 44 :: b ∨ s = a ++ 46 :: b ∧ (44 ∉ b) ∧ starts_with is_ascii_alphabetic b = true.
Proof.
  unfold normalized. destruct (contains 44 s) eqn:Ec.
  { intros [-> _]%splitn2_inv. by left. }
  apply contains_false in Ec. destruct (find_sep s) as [pos|] eqn:Ef.
  - apply find_sep_inv in Ef as (q & r & -> & -> & Hr).
    rewrite insert_app_r_alt, Nat.sub_diag by lia. cbn.
    rewrite not_elem_of_app, not_elem_of_cons in Ec. destruct Ec as (Hq & _ & Hr').
    rewrite splitn2_app by done. intros [= -> ->]. auto.
  - by rewrite splitn2_absent.
Qed.

(** *** The pieces of the parser against the grammar *)
Lemma or_error_ok {A} prefix tag (o : option A) a : or_error prefix tag o = Ok a ↔ o = Some a.
Proof. destruct o; cbn; naive_solver. Qed.
Lemma res_bind_ok {E A B} (m : res E A) (k : A → res E B) b :
  res_bind m k = Ok b ↔ ∃ a, m = Ok a ∧ k a = Ok b.
Proof.
  destruct m as [a| |]; cbn; [split; [by exists a|by intros (? & [= ->] & ?)]|..];
    (split; [done|by intros (? & ? & _)]).
Qed.

Lemma parse_bit_address_ok place s b tag ar db a :
  parse_bit_address place s b tag ar db = Ok a ↔
  ∃ n k, numeral 4294967295 s n ∧ numeral 255 b k ∧ k <= 7 ∧ a = mk_tag ar db n k Bit.
Proof.
  unfold parse_bit_address. rewrite res_bind_ok. setoid_rewrite res_bind_ok.
  setoid_rewrite or_error_ok. unfold parse_u32, parse_u8.
  setoid_rewrite parse_uint_spec; [|lia..]. split.
  - intros (n & Hn & k & Hk & H). revert H. case_ltb; [done|]. intros [= <-]. by exists n, k.
  - intros (n & k & Hn & Hk & Hle & ->). exists n. split; [done|]. exists k. split; [done|].
    case_ltb; [lia|done].
Qed.

Lemma parse_typed_offset_ok s tag ts n :
  parse_typed_offset s tag = Ok (ts, n) ↔
  ∃ kw os, (kw, ts) ∈ typed_keywords ∧ s = kw ++ os ∧ lenient_offset os n.
Proof.
  setoid_rewrite <- lenient_offset_spec. unfold parse_typed_offset, typed_keywords. split.
  - do 6 (destruct (strip_prefix _ s) as [os|] eqn:E;
      [apply strip_prefix_inv in E; intros [= <- <-]; eexists _, os;
       split; [|split; [exact E|done]]; rewrite !elem_of_cons; tauto|clear E]). done.
  - intros (kw & os & Hin & -> & <-).
    repeat (apply elem_of_cons in Hin as [[= -> ->]|Hin]; [reflexivity|]).
    by apply elem_of_nil in Hin.
Qed.

Lemma keyword_not_digit kw ts os :
  (kw, ts) ∈ typed_keywords → starts_with is_ascii_digit (kw ++ os) = false.
Proof.
  unfold typed_keywords. rewrite !elem_of_cons, elem_of_nil.
  intros [[= -> _]|[[= -> _]|[[= -> _]|[[= -> _]|[[= -> _]|[[= -> _]|[]]]]]]]; reflexivity.
Qed.
Lemma keyword_alphabetic kw ts os :
  (kw, ts) ∈ typed_keywords →
  starts_with is_ascii_alphabetic (kw ++ os) = true ∧ (44 ∉ kw).
Proof.
  unfold typed_keywords. rewrite !elem_of_cons, elem_of_nil.
  intros [[= -> _]|[[= -> _]|[[= -> _]|[[= -> _]|[[= -> _]|[[= -> _]|[]]]]]]];
    (split; [reflexivity|by apply contains_false]).
Qed.

Definition DB_area (s : text) (d : Z) : Prop :=
  ∃ db, s = str_bytes "DB" ++ db ∧ numeral 65535 db d.

Lemma parse_db_tag_ok p t tag a :
  parse_db_tag p t tag = Ok a ↔
  ∃ d, DB_area p d ∧
    ((∃ s b n k, t = s ++ 46 :: b ∧ starts_with is_ascii_digit s = true ∧
        numeral 4294967295 s n ∧ numeral 255 b k ∧ k <= 7 ∧ a = mk_tag DataBlock d n k Bit) ∨
     (∃ kw ts os n, (kw, ts) ∈ typed_keywords ∧ t = kw ++ os ∧ lenient_offset os n ∧
        a = mk_tag DataBlock d n 0 ts)).
Proof.
  unfold parse_db_tag. rewrite res_bind_ok.
  assert (∀ d, (let? (transport, byte_offset) := parse_typed_offset t tag in
                Ok (mk_tag DataBlock d byte_offset 0 transport)) = Ok a ↔
    ∃ kw ts os n, (kw, ts) ∈ typed_keywords ∧ t = kw ++ os ∧ lenient_offset os n ∧
        a = mk_tag DataBlock d n 0 ts) as Htyped.
  { intros d. rewrite res_bind_ok. split.
    - intros ([ts n] & (kw & os & H)%parse_typed_offset_ok & [= <-]). exists kw, ts, os, n. tauto.
    - intros (kw & ts & os & n & H1 & H2 & H3 & ->). exists (ts, n). split; [|done].
      apply parse_typed_offset_ok. eauto. }
  assert (∀ d, (match strip_prefix (str_bytes "DB") p with
    | Some rest => or_error "invalid DB number in tag: " tag (parse_u16 rest)
    | None => tag_error "unsupported area in tag: " tag ""
    end = Ok d) ↔ DB_area p d) as Harea.
  { intros d. unfold DB_area. split.
    - destruct (strip_prefix (str_bytes "DB") p) as [r|] eqn:E; [|done].
      apply strip_prefix_inv in E. intros H%or_error_ok%parse_uint_spec; [|lia]. eauto.
    - intros (db & -> & H). rewrite strip_prefix_app. apply or_error_ok, parse_uint_spec; [lia|done]. }
  setoid_rewrite Harea. apply exist_proper. intros d. f_equiv. fold (mk_tag DataBlock d).
  specialize (Htyped d). unfold mk_tag in Htyped at 1. rewrite <- Htyped. split.
  - destruct (starts_with is_ascii_digit t) eqn:Et; [|by right].
    destruct (split 46 t) as [|s [|b [|? ?]]] eqn:Es; [by right..| |by right].
    apply split_inv in Es as (-> & _). intros (n & k & H)%parse_bit_address_ok. left.
    exists s, b, n, k. split; [done|]. split; [|done]. by destruct s.
  - intros [(s & b & n & k & -> & Hs & Hn & Hk & Hle & ->)|H].
    + replace (starts_with is_ascii_digit (s ++ 46 :: b)) with true by by destruct s.
      erewrite split_numerals by done. apply parse_bit_address_ok. eauto 10.
    + pose proof H as (kw & ts & os & n & Hin & -> & _)%Htyped.
      by rewrite (keyword_not_digit kw ts os Hin).
Qed.

Lemma strip_X_digit s :
  starts_with is_ascii_digit s = true → strip_prefix (str_bytes "X") s = None.
Proof.
  destruct s as [|c s]; [done|]. intros Hc%is_ascii_digit_spec. unfold digit in Hc.
  change (strip_prefix (str_bytes "X") (c :: s)) with (if 88 =? c then Some s else None).
  case_ltb; [lia|done].
Qed.

Definition marker_bit_form (rest : text) (a : TagAddress) : Prop :=
  ∃ x s b n k, rest = x ++ s ++ 46 :: b ∧
    (x = str_bytes "X" ∨ x = [] ∧ starts_with is_ascii_digit s = true) ∧
    numeral 4294967295 s n ∧ numeral 255 b k ∧ k <= 7 ∧ a = mk_tag Marker 0 n k Bit.
Definition marker_typed_form (rest : text) (a : TagAddress) : Prop :=
  ∃ l ts s n, (l, ts) ∈ marker_letters ∧ rest = l ++ s ∧ numeral 4294967295 s n ∧
    a = mk_tag Marker 0 n 0 ts.

Lemma marker_bit_ok x s tag a :
  (x = str_bytes "X" ∨ x = [] ∧ starts_with is_ascii_digit s = true) →
  match split 46 s with
  | [byte_part; bit_part] => parse_bit_address "marker tag" byte_part bit_part tag Marker 0
  | _ => tag_error "invalid marker bit tag (expected M<byte>.<bit>): " tag ""
  end = Ok a ↔ ∃ s' b n k, s = s' ++ 46 :: b ∧
    (x = str_bytes "X" ∨ x = [] ∧ starts_with is_ascii_digit s' = true) ∧
    numeral 4294967295 s' n ∧ numeral 255 b k ∧ k <= 7 ∧ a = mk_tag Marker 0 n k Bit.
Proof.
  intros Hx. split.
  - destruct (split 46 s) as [|s' [|b [|? ?]]] eqn:Es; [done..| |done].
    apply split_inv in Es as (-> & _). intros (n & k & H)%parse_bit_address_ok.
    exists s', b, n, k. split; [done|]. split; [|done].
    destruct Hx as [?|[? Hs]]; [by left|right]. split; [done|]. by destruct s'.
  - intros (s' & b & n & k & -> & _ & Hn & Hk & Hle & ->).
    erewrite split_numerals by done. apply parse_bit_address_ok. eauto 10.
Qed.

Lemma parse_marker_tag_bit rest ty tag a :
  marker_bit_form rest a → parse_marker_tag (str_bytes "M" ++ rest) ty tag = Ok a.
Proof.
  intros (x & s & b & n & k & -> & Hx & H). unfold parse_marker_tag.
  rewrite strip_prefix_app. cbn [from_option id]. destruct Hx as [->|[-> Hs]].
  - rewrite strip_prefix_app. apply (marker_bit_ok (str_bytes "X")); [by left|].
    exists s, b, n, k. tauto.
  - assert (starts_with is_ascii_digit (s ++ 46 :: b) = true) as Hs' by by destruct s.
    cbn [app]. rewrite strip_X_digit, Hs' by done.
    apply (marker_bit_ok []); [by right|]. exists s, b, n, k. tauto.
Qed.
Lemma parse_marker_tag_typed rest ty tag a :
  marker_typed_form rest a → parse_marker_tag (str_bytes "M" ++ rest) ty tag = Ok a.
Proof.
  intros (l & ts & s & n & Hin & -> & Hn & ->). unfold parse_marker_tag.
  rewrite strip_prefix_app. cbn [from_option id].
  apply parse_uint_spec in Hn; [|lia].
  revert Hin. unfold marker_letters. rewrite !elem_of_cons, elem_of_nil.
  intros [[= -> ->]|[[= -> ->]|[[= -> ->]|[]]]]; lazy -[parse_uint message_of]; by rewrite Hn.
Qed.
Lemma parse_marker_tag_inv rest ty tag a :
  parse_marker_tag (str_bytes "M" ++ rest) ty tag = Ok a →
  marker_bit_form rest a ∨ marker_typed_form rest a.
Proof.
  unfold parse_marker_tag. rewrite strip_prefix_app. cbn [from_option id].
  destruct (strip_prefix (str_bytes "X") rest) as [r|] eqn:Ex.
  { apply strip_prefix_inv in Ex as ->. intros H%(marker_bit_ok (str_bytes "X")); [|by left].
    destruct H as (s & b & n & k & -> & H). left. exists (str_bytes "X"), s, b, n, k. tauto. }
  destruct (starts_with is_ascii_digit rest) eqn:Ed.
  { intros H%(marker_bit_ok []); [|by right].
    destruct H as (s & b & n & k & -> & H). left. exists [], s, b, n, k. tauto. }
  intros ([ts r] & Hl & H)%res_bind_ok. apply res_bind_ok in H as (n & Hn%or_error_ok & [= <-]).
  apply parse_uint_spec in Hn; [|lia]. right. revert Hl. clear Ex Ed.
  do 3 (destruct (strip_prefix _ rest) as [r'|] eqn:E;
    [apply strip_prefix_inv in E as ->; intros [= <- <-]; eexists _, _, _, n;
     split; [|split; [reflexivity|done]]; unfold marker_letters; rewrite !elem_of_cons; tauto
    |clear E]). done.
Qed.

(** *** The parser on uppercase text *)
Definition parse_upper (upper tag : text) : res Client.Error TagAddress :=
  if single_part "T" "TM" upper then parse_element_tag "timer" "T" ATimer TTimer upper tag
  else if single_part "C" "CT" upper then
    parse_element_tag "counter" "C" ACounter TCounter upper tag
  else if single_part "M" "MK" upper then parse_marker_tag upper [] tag
  else
    match splitn2 44 (normalized upper) with
    | [part0; part1] => parse_db_tag part0 part1 tag
    | _ => tag_error "invalid tag: " tag ""
    end.

Lemma single_part_inv p q s :
  single_part p q s = true → ∃ rest, s = str_bytes p ++ rest.
Proof.
  unfold single_part. intros [[H%bool_decide_eq_true _]%andb_prop _]%andb_prop.
  destruct H as [rest H%strip_prefix_inv]. eauto.
Qed.
Lemma single_part_intro p q rest :
  strip_prefix (str_bytes q) (str_bytes p ++ rest) = None → contains 44 (str_bytes p ++ rest) = false →
  single_part p q (str_bytes p ++ rest) = true.
Proof. intros Hq Hc. unfold single_part. by rewrite strip_prefix_app, Hq, Hc. Qed.
(** A text with another first letter. *)
Lemma single_part_other p q c s d rest :
  str_bytes p = [c] → s = d :: rest → c ≠ d → single_part p q s = false.
Proof.
  intros Hp -> Hc. unfold single_part. rewrite Hp. cbn.
  by replace (c =? d) with false by lia.
Qed.

Lemma parse_element_tag_ok what p ar ts s tag a :
  parse_element_tag what p ar ts (str_bytes p ++ s) tag = Ok a ↔
  ∃ n, numeral 4294967295 s n ∧ a = mk_tag ar 0 n 0 ts.
Proof.
  unfold parse_element_tag. rewrite strip_prefix_app. cbn [from_option id].
  rewrite res_bind_ok. setoid_rewrite or_error_ok. unfold parse_u32.
  setoid_rewrite parse_uint_spec; [|lia]. unfold mk_tag.
  split; [intros (n & ? & [= <-])|intros (n & ? & ->)]; by exists n.
Qed.

Lemma numeral_no_comma max s n : numeral max s n → contains 44 s = false.
Proof. intros H. apply contains_false. eapply numeral_not_in; [done|]. not_numeral_char. Qed.
Lemma contains_app c s t : contains c (s ++ t) = contains c s || contains c t.
Proof. apply existsb_app. Qed.
Lemma numeral_strip max s n c d q :
  numeral max s n → ¬ numeral_char d → strip_prefix (c :: d :: q) (c :: s) = None.
Proof.
  intros [Hf _]%numeral_chars Hd. cbn. rewrite Z.eqb_refl.
  destruct Hf as [|x s Hx _]; [done|]. case_ltb; [congruence|done].
Qed.

Lemma parse_upper_db p t tag a :
  splitn2 44 (normalized (str_bytes "DB" ++ p)) = [str_bytes "DB" ++ t.1; t.2] →
  parse_upper (str_bytes "DB" ++ p) tag = Ok a ↔ parse_db_tag (str_bytes "DB" ++ t.1) t.2 tag = Ok a.
Proof.
  intros Hs. unfold parse_upper. rewrite Hs.
  rewrite (single_part_other "T" "TM" 84 _ 68 (66 :: p)) by done.
  rewrite (single_part_other "C" "CT" 67 _ 68 (66 :: p)) by done.
  by rewrite (single_part_other "M" "MK" 77 _ 68 (66 :: p)) by done.
Qed.

Lemma split_db_comma db d t :
  numeral 65535 db d →
  splitn2 44 (normalized (str_bytes "DB" ++ db ++ 44 :: t)) = [str_bytes "DB" ++ db; t].
Proof.
  intros Hdb. unfold normalized. rewrite !contains_app. cbn [contains existsb]. rewrite Z.eqb_refl.
  cbn [orb]. rewrite !orb_true_r, (assoc_L (++)). apply splitn2_app, contains_false.
  rewrite contains_app. by rewrite (numeral_no_comma _ _ _ Hdb).
Qed.
Lemma split_db_dot db d t :
  numeral 65535 db d → (44 ∉ t) → starts_with is_ascii_alphabetic t = true →
  splitn2 44 (normalized (str_bytes "DB" ++ db ++ 46 :: t)) = [str_bytes "DB" ++ db; t].
Proof.
  intros Hdb Ht Ha. apply contains_false in Ht.
  assert (44 ∉ str_bytes "DB" ++ db) as Hno.
  { apply contains_false. rewrite contains_app. by rewrite (numeral_no_comma _ _ _ Hdb). }
  unfold normalized. rewrite !contains_app. cbn [contains existsb].
  rewrite (numeral_no_comma _ _ _ Hdb). fold (contains 44 t). rewrite Ht.
  change (contains 44 (str_bytes "DB") || (false || ((44 =? 46) || false))) with false.
  cbn [negb]. pose proof (numeral_chars _ _ _ Hdb) as (Hf & s & c & -> & Hc).
  apply Forall_app in Hf as [Hf _].
  replace (str_bytes "DB" ++ (s ++ [c]) ++ 46 :: t) with ((str_bytes "DB" ++ s) ++ c :: 46 :: t)
    by by rewrite <- !(assoc_L (++)).
  rewrite find_sep_app; [|apply contains_false; rewrite contains_app|done..].
  2:{ apply orb_false_iff. split; [done|]. apply contains_false. intros Hin.
      eapply Forall_forall in Hf; [|exact Hin]. revert Hf. not_numeral_char. }
  replace ((str_bytes "DB" ++ s) ++ c :: 46 :: t) with ((str_bytes "DB" ++ s ++ [c]) ++ 46 :: t)
    by by rewrite <- !(assoc_L (++)).
  rewrite insert_app_r_alt by (rewrite !length_app; cbn; lia).
  replace (_ - _)%nat with 0%nat by (rewrite !length_app; cbn; lia).
  by apply splitn2_app.
Qed.

Lemma parse_upper_complete s tag a : tag_syntax s a → parse_upper s tag = Ok a.
Proof.
  destruct 1 as [s n Hn|s n Hn|x s b n k Hx Hn Hk Hle|l ts s n Hl Hn|db d s b n k Hdb Hs Hn Hk Hle
                |db d sep kw ts os n Hdb Hsep Hkw Hos]; unfold parse_upper.
  - rewrite single_part_intro; [apply parse_element_tag_ok; eauto|..].
    + apply (numeral_strip _ _ _ 84 77 [] Hn). not_numeral_char.
    + by rewrite contains_app, (numeral_no_comma _ _ _ Hn).
  - rewrite (single_part_other "T" "TM" 84 _ 67 s) by done.
    rewrite single_part_intro; [apply parse_element_tag_ok; eauto|..].
    + apply (numeral_strip _ _ _ 67 84 [] Hn). not_numeral_char.
    + by rewrite contains_app, (numeral_no_comma _ _ _ Hn).
  - set (rest := x ++ s ++ str_bytes "." ++ b).
    rewrite (single_part_other "T" "TM" 84 _ 77 rest), (single_part_other "C" "CT" 67 _ 77 rest) by done.
    rewrite single_part_intro; [|destruct Hx as [->|[-> Hs]]; [done|]|].
    + apply parse_marker_tag_bit. exists x, s, b, n, k. subst rest. tauto.
    + subst rest. destruct s as [|c s]; [done|]. cbn in Hs. apply is_ascii_digit_spec in Hs.
      change (strip_prefix (str_bytes "MK") _) with
        (if 75 =? c then Some (s ++ str_bytes "." ++ b) else None).
      unfold digit in Hs. case_ltb; [lia|done].
    + subst rest. rewrite !contains_app, (numeral_no_comma _ _ _ Hn), (numeral_no_comma _ _ _ Hk).
      by destruct Hx as [->|[-> _]].
  - rewrite (single_part_other "T" "TM" 84 _ 77 (l ++ s)), (single_part_other "C" "CT" 67 _ 77 (l ++ s))
      by done.
    assert (strip_prefix (str_bytes "MK") (str_bytes "M" ++ l ++ s) = None ∧ contains 44 l = false)
      as [Hmk Hc].
    { revert Hl. unfold marker_letters. rewrite !elem_of_cons, elem_of_nil.
      by intros [[= -> _]|[[= -> _]|[[= -> _]|[]]]]. }
    rewrite single_part_intro; [|done|].
    + apply parse_marker_tag_typed. by exists l, ts, s, n.
    + by rewrite !contains_app, Hc, (numeral_no_comma _ _ _ Hn).
  - apply (parse_upper_db _ (db, s ++ 46 :: b)); [by eapply split_db_comma|].
    apply parse_db_tag_ok. exists d. split; [by exists db|]. left. by exists s, b, n, k.
  - destruct (keyword_alphabetic _ _ os Hkw) as [Ha Hkc].
    apply (parse_upper_db _ (db, kw ++ os)).
    + destruct Hsep as [->|[-> Hos']]; [by eapply split_db_comma|].
      eapply split_db_dot; [done| |done]. cbn [snd]. by rewrite not_elem_of_app.
    + apply parse_db_tag_ok. exists d. split; [by exists db|]. right. by exists kw, ts, os, n.
Qed.

Lemma parse_upper_sound s tag a : parse_upper s tag = Ok a → tag_syntax s a.
Proof.
  unfold parse_upper.
  destruct (single_part "T" "TM" s) eqn:ET.
  { apply single_part_inv in ET as [rest ->].
    intros (n & Hn & ->)%parse_element_tag_ok. by constructor. }
  destruct (single_part "C" "CT" s) eqn:EC.
  { apply single_part_inv in EC as [rest ->].
    intros (n & Hn & ->)%parse_element_tag_ok. by constructor. }
  destruct (single_part "M" "MK" s) eqn:EM.
  { apply single_part_inv in EM as [rest ->]. intros [H|H]%parse_marker_tag_inv.
    - destruct H as (x & r & b & n & k & -> & Hx & Hn & Hk & Hle & ->). by constructor.
    - destruct H as (l & ts & r & n & Hl & -> & Hn & ->). by constructor. }
  destruct (splitn2 44 (normalized s)) as [|p [|t [|? ?]]] eqn:Es; [done..| |done].
  intros (d & (db & -> & Hdb) & H)%parse_db_tag_ok.
  apply split_tag_inv in Es as [->|(-> & Ht & Ha)]; rewrite <- (assoc_L (++));
    (destruct H as [(r & b & n & k & -> & Hr & Hn & Hk & Hle & ->)
                   |(kw & ts & os & n & Hkw & -> & Hos & ->)]).
  - by constructor.
  - apply (syn_db_typed db d (str_bytes ",")); auto.
  - exfalso. destruct r as [|c r]; [done|]. cbn in Hr, Ha. apply is_ascii_digit_spec in Hr.
    unfold is_ascii_alphabetic, digit in *. lia.
  - apply (syn_db_typed db d (str_bytes ".")); auto. right. split; [done|].
    rewrite not_elem_of_app in Ht. tauto.
Qed.

(** *** Letter case *)
Definition ascii (s : text) : Prop := Forall (fun c => 0 <= c < 128) s.

Lemma ascii_uppercase_eqb x c : c < 65 → (ascii_uppercase x =? c) = (x =? c).
Proof. unfold ascii_uppercase. intros. destruct (_ && _) eqn:E; lia. Qed.
Lemma is_ascii_digit_upper c : is_ascii_digit (ascii_uppercase c) = is_ascii_digit c.
Proof. unfold is_ascii_digit, ascii_uppercase. destruct ((97 <=? c) && (c <=? 122)) eqn:E; lia. Qed.
Lemma is_ascii_alphabetic_upper c :
  is_ascii_alphabetic (ascii_uppercase c) = is_ascii_alphabetic c.
Proof.
  unfold is_ascii_alphabetic, ascii_uppercase.
  destruct ((97 <=? c) && (c <=? 122)) eqn:E; lia.
Qed.
Lemma contains_upper (s : text) : contains 44 (ascii_uppercase <$> s) = contains 44 s.
Proof.
  induction s as [|x s IH]; [done|].
  change ((44 =? ascii_uppercase x) || contains 44 (ascii_uppercase <$> s) =
          (44 =? x) || contains 44 s).
  by rewrite IH, !(Z.eqb_sym 44), ascii_uppercase_eqb by lia.
Qed.
Lemma find_sep_upper (s : text) : find_sep (ascii_uppercase <$> s) = find_sep s.
Proof.
  induction s as [|a s IH]; [done|]. destruct s as [|b [|c s]]; [done..|].
  change (ascii_uppercase <$> a :: b :: c :: s) with
    (ascii_uppercase a :: ascii_uppercase b :: ascii_uppercase c :: (ascii_uppercase <$> s)).
  rewrite !find_sep_window, is_ascii_digit_upper, is_ascii_alphabetic_upper, ascii_uppercase_eqb
    by lia. by rewrite <- IH.
Qed.
Lemma normalized_upper (s : text) : normalized (ascii_uppercase <$> s) = ascii_uppercase <$> normalized s.
Proof.
  unfold normalized. rewrite contains_upper, find_sep_upper.
  destruct (contains 44 s); [done|]. destruct (find_sep s); [|done].
  by rewrite list_fmap_insert.
Qed.
Lemma splitn2_upper (s : text) :
  splitn2 44 (ascii_uppercase <$> s) = (fun p : text => ascii_uppercase <$> p) <$> splitn2 44 s.
Proof.
  induction s as [|x s IH]; [done|]. rewrite fmap_cons. cbn [splitn2].
  rewrite ascii_uppercase_eqb by lia. case_ltb; [done|]. rewrite IH.
  by destruct (splitn2 44 s).
Qed.
Lemma ascii_normalized s : ascii s → ascii (normalized s).
Proof.
  intros Hs. unfold normalized. destruct (contains 44 s); [done|].
  destruct (find_sep s); [|done]. apply Forall_insert; [done|lia].
Qed.

Lemma numeral_range max s n : numeral max s n → 0 <= n <= max.
Proof.
  intros (ds & _ & _ & Hd & <- & Hle). split; [|done].
  by apply (dec_fold_ge ds 0 Hd).
Qed.
Lemma tag_syntax_range s a : tag_syntax s a →
  u16 (tag_db_number a) ∧ u32 (byte_offset a) ∧ 0 <= tag_bit_offset a <= 7 ∧ element_count a = 1.
Proof.
  destruct 1 as [| | | | |db d sep kw ts os n Hdb _ _ [Hn|[_ ->]]];
    repeat match goal with H : numeral _ _ _ |- _ => apply numeral_range in H end;
    cbn; unwidth; lia.
Qed.

Lemma uppercase_numeral max s n : numeral max s n → ascii_uppercase <$> s = s.
Proof.
  intros [Hf _]%numeral_chars. induction Hf as [|c s Hc _ IH]; [done|].
  rewrite fmap_cons, IH. f_equal. unfold ascii_uppercase. unfold numeral_char, digit in Hc.
  by replace ((97 <=? c) && (c <=? 122)) with false by lia.
Qed.
Lemma ascii_numeral max s n : numeral max s n → ascii s.
Proof.
  intros [Hf _]%numeral_chars. eapply Forall_impl; [exact Hf|].
  unfold numeral_char, digit. intros. lia.
Qed.

Section TagProofs.
Context (upper_other : Z → text).

Lemma to_uppercase_ascii s : ascii s → to_uppercase upper_other s = ascii_uppercase <$> s.
Proof.
  induction 1 as [|c s Hc Hs IH]; [done|]. cbn. unfold char_to_uppercase.
  replace (c <? 128) with true by lia. cbn. f_equal. apply IH.
Qed.
Lemma parse_tag_upper s :
  ascii s → parse_tag upper_other s = parse_upper (to_uppercase upper_other s) s.
Proof.
  intros Hs. unfold parse_tag, parse_upper. do 3 (destruct (single_part _ _ _); [done|]).
  rewrite to_uppercase_ascii, normalized_upper, splitn2_upper by done.
  apply ascii_normalized in Hs.
  destruct (splitn2 44 (normalized s)) as [|p [|t [|? ?]]] eqn:E; [done..| |done].
  apply splitn2_inv in E as [E _]. rewrite E in Hs. apply Forall_app in Hs as [Hp Ht].
  apply Forall_cons in Ht as [_ Ht]. cbn. by rewrite !to_uppercase_ascii.
Qed.

(** C21: [parse_tag] accepts exactly the tag language, in any letter case: an
    ASCII text is parsed to an address if and only if its uppercase form is a
    timer T<n>, a counter C<n>, a marker M<n>.<b>, MX<n>.<b>, MB<n>, MW<n> or
    MD<n>, or a data block tag DB<n>,<n>.<b>, DB<n>,<type><n> or
    DB<n>.<type><n> denoting that address; block numbers then fit 16 bits,
    offsets 32 bits and bit numbers are at most 7. *)
Theorem parse_tag_exact s a :
  ascii s →
  (parse_tag upper_other s = Ok a ↔ tag_syntax (to_uppercase upper_other s) a) ∧
  (parse_tag upper_other s = Ok a →
   u16 (tag_db_number a) ∧ u32 (byte_offset a) ∧ 0 <= tag_bit_offset a <= 7 ∧ element_count a = 1).
Proof.
  intros Hs. rewrite parse_tag_upper by done. split.
  { split; [apply parse_upper_sound|apply parse_upper_complete]. }
  intros H%parse_upper_sound. by apply tag_syntax_range in H.
Qed.
End TagProofs.

Lemma parse_tag_exact_witness :
  ascii (str_bytes "db70.Real262") ∧
  parse_tag (fun _ => []) (str_bytes "db70.Real262") = Ok (mk_tag DataBlock 70 262 0 Real).
Proof.
  split; [repeat constructor; by vm_compute|].
  apply (parse_tag_exact (fun _ => []) (str_bytes "db70.Real262")); [repeat constructor; by vm_compute|].
  apply (syn_db_typed (str_bytes "70") 70 (str_bytes ".") (str_bytes "REAL") Real (str_bytes "262")).
  - by apply parse_uint_spec.
  - right. split; [done|]. by apply contains_false.
  - apply elem_of_cons. by left.
  - left. by apply parse_uint_spec.
Defined.

(** An unreadable offset is not reported: whatever follows the type of a
    data block tag, if it is not a 32-bit number the tag is still accepted and
    addresses offset 0. *)
Theorem garbage_offset_accepted upper_other db d os :
  ascii (db ++ os) → numeral 65535 db d → (∀ n, ¬ numeral 4294967295 (ascii_uppercase <$> os) n) →
  parse_tag upper_other (str_bytes "DB" ++ db ++ str_bytes ",REAL" ++ os) =
    Ok (mk_tag DataBlock d 0 0 Real).
Proof.
  intros Hs Hdb Hno. apply Forall_app in Hs as [Hs1 Hs2].
  assert (ascii (str_bytes "DB" ++ db ++ str_bytes ",REAL" ++ os)) as Ha.
  { repeat (apply Forall_app; split); try done; repeat constructor; by vm_compute. }
  rewrite parse_tag_upper, to_uppercase_ascii by done. apply parse_upper_complete.
  rewrite !fmap_app, (uppercase_numeral 65535 db d Hdb).
  apply (syn_db_typed db d (str_bytes ",") (str_bytes "REAL")); auto; [|by right].
  apply elem_of_cons. by left.
Qed.

Lemma garbage_offset_accepted_witness :
  parse_tag (fun _ => []) (str_bytes "DB" ++ str_bytes "1" ++ str_bytes ",REAL" ++ str_bytes "4x") =
    Ok (mk_tag DataBlock 1 0 0 Real).
Proof.
  apply garbage_offset_accepted.
  - repeat constructor; by vm_compute.
  - by apply parse_uint_spec.
  - intros n Hn. apply parse_uint_spec in Hn; [|lia]. revert Hn. vm_compute. discriminate.
Defined.
