(* ===== verification/Text.v ===== *)
(** * Text as the command line tool reads and prints it

    Numbers in decimal and hexadecimal, padded or not, signed numbers, and the
    pieces of [str] that the tool uses; with the lemmas that reading a printed
    number gives the number back. *)

From S2P Require Import Prelude Wire Io S7Header Connection Tag.
Local Open Scope Z_scope.

(** ** Printing *)

(** [w] decimal digits of [n]. *)
Fixpoint dec_fixed (w : nat) (n : Z) : text :=
  match w with
  | O => []
  | S w => dec_fixed w (n / 10) ++ [48 + n mod 10]
  end.
(** The number of digits of [n], for a number of at most [fuel] digits. *)
Fixpoint dec_width (fuel : nat) (n : Z) : nat :=
  match fuel with
  | O => 1
  | S fuel => if n <? 10 then 1 else S (dec_width fuel (n / 10))
  end.
(** [{:0w}] of an unsigned number of at most 64 bits; [{}] is [{:00}]. *)
Definition format_dec (w : nat) (n : Z) : text := dec_fixed (Nat.max w (dec_width 19 n)) n.
(** [{}] of a signed number. *)
Definition format_signed (n : Z) : text :=
  if n <? 0 then 45 :: format_dec 0 (- n) else format_dec 0 n.

(** [{:02X}] and the other widths of upper case hexadecimal. *)
Definition hex_char (d : Z) : Z := if d <? 10 then 48 + d else 55 + d.
Fixpoint hex_fixed (w : nat) (n : Z) : text :=
  match w with
  | O => []
  | S w => hex_fixed w (n / 16) ++ [hex_char (n mod 16)]
  end.

(** [.join(sep)]. *)
Fixpoint join (sep : text) (l : list text) : text :=
  match l with
  | [] => []
  | [x] => x
  | x :: r => x ++ sep ++ join sep r
  end.

(** [data.iter().map(|b| format!("{:02X}", b)).collect::<Vec<_>>().join(" ")] *)
Definition hex_bytes (data : bytes) : text := join [32] (hex_fixed 2 <$> data).

(** ** Reading *)

(** [s.parse()] for a signed type: decimal digits after an optional sign. *)
Definition parse_int (min max : Z) (s : text) : option Z :=
  match s with
  | [] => None
  | c :: r =>
      if c =? 45 then
        match r with [] => None | _ :: _ => Z.opp <$> parse_digits (- min) 0 r end
      else parse_uint max s
  end.

(** [from_str_radix(s, 16)] for an unsigned type. *)
Definition hex_value (c : Z) : option Z :=
  if (48 <=? c) && (c <=? 57) then Some (c - 48)
  else if (65 <=? c) && (c <=? 70) then Some (c - 55)
  else if (97 <=? c) && (c <=? 102) then Some (c - 87)
  else None.
Fixpoint parse_hex_digits (max acc : Z) (s : text) : option Z :=
  match s with
  | [] => Some acc
  | c :: r =>
      match hex_value c with
      | Some d => let v := acc * 16 + d in if max <? v then None else parse_hex_digits max v r
      | None => None
      end
  end.
Definition parse_hex (max : Z) (s : text) : option Z :=
  match s with
  | [] => None
  | c :: r =>
      if c =? 43 then match r with [] => None | _ :: _ => parse_hex_digits max 0 r end
      else parse_hex_digits max 0 s
  end.

(** ** Pieces of [str] *)
Definition is_whitespace (c : Z) : bool :=
  ((9 <=? c) && (c <=? 13)) || (c =? 32) || (c =? 0x85) || (c =? 0xA0) || (c =? 0x1680) ||
  ((0x2000 <=? c) && (c <=? 0x200A)) || (c =? 0x2028) || (c =? 0x2029) || (c =? 0x202F) ||
  (c =? 0x205F) || (c =? 0x3000).
Fixpoint trim_start (s : text) : text :=
  match s with
  | [] => []
  | c :: r => if is_whitespace c then trim_start r else s
  end.
Definition trim (s : text) : text := reverse (trim_start (reverse (trim_start s))).
Definition strip_suffix (p s : text) : option text := reverse <$> strip_prefix (reverse p) (reverse s).
(** [s.replace(a, b)] for characters. *)
Definition replace_char (a b : Z) (s : text) : text := (fun c => if c =? a then b else c) <$> s.
(** [s.split_at(n)]: [n] counts bytes; [None] is the panic when it falls inside
    a character or beyond the end. *)
Fixpoint split_at (n : Z) (s : text) : option (text * text) :=
  if n =? 0 then Some ([], s)
  else
    match s with
    | [] => None
    | c :: r =>
        let k := blen (utf8 c) in
        if n <? k then None
        else match split_at (n - k) r with Some (a, b) => Some (c :: a, b) | None => None end
    end.
(** [s.len()]. *)
Definition str_len (s : text) : Z := blen (s ≫= utf8).

(** [s.contains(p)] and what follows the first occurrence of [p]. *)
Fixpoint find_after (p s : text) : option text :=
  match strip_prefix p s with
  | Some r => Some r
  | None => match s with [] => None | _ :: s => find_after p s end
  end.
Definition contains_str (p : string) (s : text) : bool :=
  bool_decide (is_Some (find_after (str_bytes p) s)).
Definition starts_with_str (p : string) (s : text) : bool :=
  bool_decide (is_Some (strip_prefix (str_bytes p) s)).

(** [iter().take_while(f)] with what it leaves. *)
Fixpoint span (f : Z → bool) (s : text) : text * text :=
  match s with
  | [] => ([], [])
  | c :: r => if f c then let '(a, b) := span f r in (c :: a, b) else ([], s)
  end.

(** [String::from_utf8_lossy]: a sequence that is not UTF-8 becomes U+FFFD, one
    for each longest beginning of a character. *)
Definition within (lo hi b : Z) : bool := (lo <=? b) && (b <=? hi).
Definition continuation : Z → bool := within 0x80 0xBF.
Fixpoint from_utf8_lossy (b : bytes) : text :=
  match b with
  | [] => []
  | b0 :: r0 =>
      if b0 <? 0x80 then b0 :: from_utf8_lossy r0
      else if within 0xC2 0xDF b0 then
        match r0 with
        | b1 :: r1 =>
            if continuation b1 then (b0 - 0xC0) * 64 + (b1 - 0x80) :: from_utf8_lossy r1
            else 0xFFFD :: from_utf8_lossy r0
        | [] => [0xFFFD]
        end
      else if within 0xE0 0xEF b0 then
        match r0 with
        | b1 :: r1 =>
            if within (if b0 =? 0xE0 then 0xA0 else 0x80) (if b0 =? 0xED then 0x9F else 0xBF) b1 then
              match r1 with
              | b2 :: r2 =>
                  if continuation b2 then
                    (b0 - 0xE0) * 4096 + (b1 - 0x80) * 64 + (b2 - 0x80) :: from_utf8_lossy r2
                  else 0xFFFD :: from_utf8_lossy r1
              | [] => [0xFFFD]
              end
            else 0xFFFD :: from_utf8_lossy r0
        | [] => [0xFFFD]
        end
      else if within 0xF0 0xF4 b0 then
        match r0 with
        | b1 :: r1 =>
            if within (if b0 =? 0xF0 then 0x90 else 0x80) (if b0 =? 0xF4 then 0x8F else 0xBF) b1 then
              match r1 with
              | b2 :: r2 =>
                  if continuation b2 then
                    match r2 with
                    | b3 :: r3 =>
                        if continuation b3 then
                          (b0 - 0xF0) * 262144 + (b1 - 0x80) * 4096 + (b2 - 0x80) * 64 + (b3 - 0x80)
                          :: from_utf8_lossy r3
                        else 0xFFFD :: from_utf8_lossy r2
                    | [] => [0xFFFD]
                    end
                  else 0xFFFD :: from_utf8_lossy r1
              | [] => [0xFFFD]
              end
            else 0xFFFD :: from_utf8_lossy r0
        | [] => [0xFFFD]
        end
      else 0xFFFD :: from_utf8_lossy r0
  end.

(** ** Round trips *)
Lemma dec_fixed_spec w n :
  0 <= n < 10 ^ Z.of_nat w →
  Forall digit (dec_fixed w n) ∧ dec_value (dec_fixed w n) = n ∧ length (dec_fixed w n) = w.
Proof.
  revert n. induction w as [|w IH]; intros n Hn.
  { change (10 ^ Z.of_nat 0) with 1 in Hn. cbn. split_and!; [constructor|lia|done]. }
  rewrite Nat2Z.inj_succ, Z.pow_succ_r in Hn by lia.
  destruct (IH (n / 10)) as (Hd & Hv & Hl); [Z.div_mod_to_equations; lia|].
  cbn [dec_fixed]. split_and!.
  - apply Forall_app. split; [done|]. apply Forall_singleton. unfold digit. Z.div_mod_to_equations; lia.
  - unfold dec_value in *. rewrite foldl_app. cbn [foldl]. rewrite Hv. Z.div_mod_to_equations; lia.
  - rewrite length_app, Hl. cbn. lia.
Qed.

Lemma dec_width_spec fuel n :
  0 <= n < 10 ^ Z.of_nat (S fuel) → n < 10 ^ Z.of_nat (dec_width fuel n) ∧ (1 <= dec_width fuel n)%nat.
Proof.
  revert n. induction fuel as [|fuel IH]; intros n Hn; cbn [dec_width].
  { change (Z.of_nat 1) with 1 in *. lia. }
  case_ltb; [change (Z.of_nat 1) with 1; lia|].
  rewrite Nat2Z.inj_succ, Z.pow_succ_r in Hn by lia.
  destruct (IH (n / 10)) as [H1 H2]; [Z.div_mod_to_equations; lia|].
  rewrite Nat2Z.inj_succ, Z.pow_succ_r by lia. split; [Z.div_mod_to_equations; lia|lia].
Qed.

Lemma format_dec_spec w n :
  0 <= n < 10 ^ 20 →
  Forall digit (format_dec w n) ∧ dec_value (format_dec w n) = n ∧ format_dec w n ≠ [] ∧
  (w <= length (format_dec w n))%nat.
Proof.
  intros Hn. unfold format_dec.
  destruct (dec_width_spec 19 n) as [H1 H2]; [change (Z.of_nat 20) with 20; lia|].
  destruct (dec_fixed_spec (Nat.max w (dec_width 19 n)) n) as (Hd & Hv & Hl).
  { split; [lia|]. eapply Z.lt_le_trans; [exact H1|]. apply Z.pow_le_mono_r; lia. }
  split_and!; try done; [|lia]. intros E. rewrite E in Hl. cbn [length] in Hl. lia.
Qed.

Lemma format_dec_numeral max w n :
  0 <= n <= max → n < 10 ^ 20 → numeral max (format_dec w n) n.
Proof.
  intros Hn Hl. destruct (format_dec_spec w n) as (Hd & Hv & Hne & _); [lia|].
  exists (format_dec w n). split_and!; auto; lia.
Qed.

Lemma parse_uint_format max w n :
  0 <= n <= max → n < 10 ^ 20 → parse_uint max (format_dec w n) = Some n.
Proof. intros. apply parse_uint_spec; [lia|]. by apply format_dec_numeral. Qed.

Lemma parse_digits_format max w n :
  0 <= n <= max → n < 10 ^ 20 → parse_digits max 0 (format_dec w n) = Some n.
Proof.
  intros Hn Hl. apply parse_digits_spec; [lia|].
  destruct (format_dec_spec w n) as (Hd & Hv & _); [lia|]. split_and!; [done|exact Hv|lia].
Qed.

Lemma parse_int_format min max n :
  min <= n <= max → min <= 0 <= max → - min < 10 ^ 20 → max < 10 ^ 20 →
  parse_int min max (format_signed n) = Some n.
Proof.
  intros Hn Hm Hmin Hmax. unfold format_signed. case_ltb.
  - cbn [parse_int Z.eqb Pos.eqb].
    destruct (format_dec_spec 0 (- n)) as (_ & _ & Hne & _); [lia|].
    destruct (format_dec 0 (- n)) as [|c r] eqn:E; [done|].
    rewrite <- E, parse_digits_format by lia. cbn. f_equal. lia.
  - pose proof (parse_uint_format max 0 n ltac:(lia) ltac:(lia)) as Hp.
    destruct (format_dec_spec 0 n) as (Hd & _ & Hne & _); [lia|].
    destruct (format_dec 0 n) as [|c r]; [done|]. cbn [parse_int].
    apply Forall_cons in Hd as [Hc _]. unfold digit in Hc.
    destruct (Z.eqb_spec c 45); [lia|done].
Qed.

Lemma digits_not_in c s : Forall digit s → ¬ digit c → c ∉ s.
Proof. intros Hs Hc Hin. rewrite Forall_forall in Hs. by apply Hc, Hs. Qed.

(** *** UTF-8 *)
Definition scalar (c : Z) : Prop := 0 <= c < 0xD800 ∨ 0xE000 <= c < 0x110000.

Ltac utf8_tests :=
  repeat match goal with
  | |- context [if ?x then _ else _] =>
      let E := fresh "E" in destruct x eqn:E; unfold continuation, within in E; cbv zeta in E;
      try (exfalso; repeat case_match; Z.div_mod_to_equations; lia)
  end.

Lemma from_utf8_lossy_char c b :
  scalar c → from_utf8_lossy (utf8 c ++ b) = c :: from_utf8_lossy b.
Proof.
  intros Hc. unfold utf8, scalar in *.
  destruct (Z.ltb_spec c 128); [cbn; utf8_tests; done|].
  destruct (Z.ltb_spec c 2048); [cbn [from_utf8_lossy app]; utf8_tests; f_equal; Z.div_mod_to_equations; lia|].
  destruct (Z.ltb_spec c 65536);
    cbn [from_utf8_lossy app]; utf8_tests; f_equal; Z.div_mod_to_equations; lia.
Qed.

(** Decoding what was encoded gives the text back. *)
Lemma from_utf8_lossy_utf8 s : Forall scalar s → from_utf8_lossy (s ≫= utf8) = s.
Proof.
  induction 1 as [|c s Hc _ IH]; [done|]. cbn [mbind list_bind].
  by rewrite from_utf8_lossy_char, IH.
Qed.
