(* ===== verification/PlusClient.v ===== *)
(** * The S7CommPlus client (snap7-client, plus_connection.rs and
    plus_client.rs)

    A client method holds the lock on its [PlusInner] for its whole duration,
    so it is a function on that state. *)

From S2P Require Import Prelude Wire Io Tpkt ServerHandshake Connection PlusWire.
Local Open Scope Z_scope.

Record PlusConnection := { pc_session_id : Z; pc_seqnum : Z; pc_version : Version }.
Record PlusInner (T : Type) := { pi_transport : T; pi_conn : PlusConnection }.
Arguments pi_transport {T}. Arguments pi_conn {T}.

Record DbVarSpec := { dv_db : Z; dv_offset : Z; dv_length : Z }.

Definition db_lid (db byte_offset : Z) : Z * Z :=
  let crc := 0x48 in
  let lid := Z.lor (Z.lor 0x84000000 (as_u32 (Z.shiftl db 12))) (Z.land byte_offset 0xFFF) in
  (crc, lid).

Section PlusClient.
Context {T : Type} `{Transport T}.

Definition send_plus (v : Version) (data : bytes) : IO T Client.Error unit :=
  let* fb := io_lift (res_map_err Client.Proto
                        (S7PlusFrame_encode {| version := v; frame_data := data |})) in
  let* tb := io_lift (res_map_err Client.Proto (TpktFrame_encode {| tpkt_payload := fb |})) in
  io_map_err Client.Io (write_all tb).

(** Read a TPKT frame and decode the S7CommPlus frame in it. *)
Definition recv_plus_frame : IO T Client.Error S7PlusFrame :=
  let* hdr := io_map_err Client.Io (read_exact 4) in
  match hdr with
  | [_; _; h2; h3] =>
      let total := of_be16 h2 h3 in
      let* payload := io_map_err Client.Io (read_exact (saturating_sub total 4)) in
      io_lift (res_map_err Client.Proto
                 (match S7PlusFrame_decode payload with
                  | Ok (frame, _) => Ok frame
                  | Err e => Err e
                  | Panic => Panic
                  end))
  | _ => io_lift Panic
  end.
Definition recv_plus_data : IO T Client.Error bytes :=
  let* frame := recv_plus_frame in
  io_ret (frame_data frame).

Definition plus_connect : IO T Client.Error PlusConnection :=
  let* _ := send_plus V1 (CreateObjectRequest_encode 1) in
  let* s7plus_frame := recv_plus_frame in
  let* (sid, _) := io_lift (res_map_err Client.Proto
                     (match CreateObjectResponse_decode (frame_data s7plus_frame) with
                      | Ok (r, _) => Ok r
                      | Err e => Err e
                      | Panic => Panic
                      end)) in
  io_ret {| pc_session_id := sid; pc_seqnum := 2; pc_version := version s7plus_frame |}.

(** ** Methods of [S7PlusClient] *)
Definition Pl (A : Type) : Type := IO (PlusInner T) Client.Error A.

(** Run on [inner.transport]. *)
Definition on_plus_transport {A} (m : IO T Client.Error A) : Pl A := fun i =>
  let '(r, t) := m (pi_transport i) in (r, {| pi_transport := t; pi_conn := pi_conn i |}).

(** The current sequence number; the connection moves to the next one. *)
Definition take_seqnum : Pl Z := fun i =>
  let c := pi_conn i in
  (Ok (pc_seqnum c),
   {| pi_transport := pi_transport i;
      pi_conn := {| pc_session_id := pc_session_id c; pc_seqnum := as_u16 (pc_seqnum c + 1);
                    pc_version := pc_version c |} |}).
Definition get_conn : Pl PlusConnection := fun i => (Ok (pi_conn i), i).

(** Send a data area built from the sequence number and the session id, and
    receive the data of the answer. *)
Definition plus_exchange (da : Z → Z → bytes) : Pl bytes :=
  let* seq := take_seqnum in
  let* conn := get_conn in
  let* _ := on_plus_transport (send_plus (pc_version conn) (da seq (pc_session_id conn))) in
  on_plus_transport recv_plus_data.

Definition spec_of (s : DbVarSpec) : VarSpec :=
  let '(crc, lid) := db_lid (dv_db s) (dv_offset s) in {| vs_crc := crc; vs_lid := lid |}.
Definition set_item_of (s : DbVarSpec) (v : bytes) : SetVarItem :=
  let '(crc, lid) := db_lid (dv_db s) (dv_offset s) in
  {| sv_crc := crc; sv_lid := lid; sv_value := v |}.
Definition cut_value (item : VarResult) (spec : DbVarSpec) : bytes :=
  if dv_length spec <=? blen (vr_value item)
  then take (Z.to_nat (dv_length spec)) (vr_value item) else vr_value item.

Definition S7PlusClient_read_multi_vars (specs : list DbVarSpec) : Pl (list bytes) :=
  match specs with
  | [] => io_ret []
  | _ :: _ =>
      let* data := plus_exchange (fun seq sid =>
        GetMultiVarRequest_encode seq sid (spec_of <$> specs)) in
      let* items := io_lift (res_map_err Client.Proto
        (match GetMultiVarResponse_decode (length specs) data with
         | Ok (items, _) => Ok items
         | Err e => Err e
         | Panic => Panic
         end)) in
      io_ret (zip_with cut_value items specs)
  end.

Definition S7PlusClient_write_multi_vars (specs : list DbVarSpec) (values : list bytes) : Pl unit :=
  match specs with
  | [] => io_ret tt
  | _ :: _ =>
      let* _ := plus_exchange (fun seq sid =>
        SetMultiVarRequest_encode seq sid (zip_with set_item_of specs values)) in
      io_ret tt
  end.

Definition S7PlusClient_db_read (db start length : Z) : Pl bytes :=
  let* r := S7PlusClient_read_multi_vars
              [ {| dv_db := db; dv_offset := start; dv_length := length |} ] in
  io_ret (default [] (head r)).
Definition S7PlusClient_db_write (db start : Z) (data : bytes) : Pl unit :=
  S7PlusClient_write_multi_vars
    [ {| dv_db := db; dv_offset := start; dv_length := as_u16 (blen data) |} ] [data].

Definition S7PlusClient_send_keepalive : Pl unit :=
  on_plus_transport (send_plus KeepAlive []).

Definition S7PlusClient_delete_object : Pl unit :=
  let* _ := plus_exchange (fun seq sid =>
    DataArea_encode (plus_request FC_DELETE_OBJECT seq sid [])) in
  io_ret tt.
End PlusClient.

(** ** Frames on the wire *)
Definition plus_wire (v : Version) (d : bytes) : bytes :=
  [PLUS_MAGIC; Version_as_u8 v] ++ be16 (blen d) ++ d ++
  [PLUS_MAGIC; Version_as_u8 v] ++ be16 (blen d).
Definition plus_packet (v : Version) (d : bytes) : bytes := tpkt_frame (plus_wire v d).

Lemma blen_plus_wire v d : blen (plus_wire v d) = 8 + blen d.
Proof. unfold plus_wire. blen_lia. Qed.
#[export] Hint Rewrite blen_plus_wire : blen.

Lemma send_plus_ok v d p :
  12 + blen d <= 65535 →
  send_plus v d p = (Ok tt, {| rx := rx p; tx := tx p ++ plus_packet v d |}).
Proof.
  intros Hl. unfold send_plus, io_lift, io_bind. rewrite S7PlusFrame_encode_ok by (cbn; lia).
  cbn [res_map_err version frame_data]. fold (plus_wire v d).
  rewrite TpktFrame_encode_ok by (cbn [tpkt_payload]; blen_lia). done.
Qed.

Lemma recv_plus_frame_ok v d rest o :
  12 + blen d <= 65535 →
  recv_plus_frame {| rx := plus_packet v d ++ rest; tx := o |} =
  (Ok {| version := v; frame_data := d |}, {| rx := rest; tx := o |}).
Proof.
  intros Hl. unfold recv_plus_frame, plus_packet. rewrite tpkt_frame_split.
  assert (Hu : u16 (4 + blen (plus_wire v d))) by (unwidth; blen_lia).
  rewrite (io_bind_ok _ _ _ _ _ (io_map_err_ok _ _ _ _ _
    (pipe_read_app 4 (3 :: 0 :: be16 (4 + blen (plus_wire v d))) _ o eq_refl))).
  cbn [be16]. rewrite of_be16_split by done.
  rewrite (io_bind_ok _ _ _ (plus_wire v d) {| rx := rest; tx := o |}).
  2:{ apply io_map_err_ok, pipe_read_app. unfold saturating_sub. blen_lia. }
  unfold io_lift. pose proof (S7PlusFrame_decode_frame {| version := v; frame_data := d |} []) as Hd.
  cbn [version frame_data] in Hd. rewrite app_nil_r, <- (assoc_L (++)) in Hd.
  fold (plus_wire v d) in Hd. by rewrite Hd by lia.
Qed.

(** An answer: a data area of any function code and sequence number. *)
Definition plus_reply (fc seq sid flags : Z) (payload : bytes) : bytes :=
  DataArea_encode {| opcode := OPCODE_RESPONSE; function_code := fc; seqnum := seq;
                     session_id := sid; transport_flags := flags; da_payload := payload |}.
Lemma plus_reply_decode fc seq sid flags payload :
  u16 fc → u16 seq → u32 sid → u8 flags →
  DataArea_decode (plus_reply fc seq sid flags payload) =
  Ok ({| opcode := OPCODE_RESPONSE; function_code := fc; seqnum := seq;
         session_id := sid; transport_flags := flags; da_payload := payload |}, []).
Proof.
  intros. apply DataArea_decode_encode. unfold DataArea_wf, OPCODE_RESPONSE. cbn. by split_and!.
Qed.
Lemma blen_DataArea_encode d : blen (DataArea_encode d) = 14 + blen (da_payload d).
Proof. unfold DataArea_encode. blen_lia. Qed.

Definition VarResult_encode (r : VarResult) : bytes :=
  [vr_return_code r] ++ be16 (blen (vr_value r)) ++ vr_value r.
Lemma VarResult_decode_encode r rest :
  blen (vr_value r) <= 65535 → VarResult_decode (VarResult_encode r ++ rest) = Ok (r, rest).
Proof.
  destruct r as [rc v]. cbn [vr_value]. intros Hl. pose proof (blen_nonneg v).
  unfold VarResult_decode, VarResult_encode. cbn [vr_value vr_return_code be16 app].
  do 3 rd_step. rewrite of_be16_split by (unwidth; lia). by do 2 rd_step.
Qed.

Lemma GetMultiVarResponse_decode_reply fc seq sid flags results :
  u16 fc → u16 seq → u32 sid → u8 flags → Forall (fun r => blen (vr_value r) <= 65535) results →
  GetMultiVarResponse_decode (length results)
    (plus_reply fc seq sid flags (concat (VarResult_encode <$> results))) = Ok (results, []).
Proof.
  intros Hf Hq Hi Ht Hr. unfold GetMultiVarResponse_decode.
  rewrite (rd_bind_ok _ _ _ _ _ (plus_reply_decode _ _ _ _ _ Hf Hq Hi Ht)).
  cbn [da_payload]. pose proof (rd_repeat_fmap VarResult_decode VarResult_encode id results []) as H.
  rewrite app_nil_r, list_fmap_id in H. rewrite H; [done|].
  intros x r Hx. apply VarResult_decode_encode. by eapply Forall_forall in Hr.
Qed.

Lemma plus_exchange_ok da conn p v d rest :
  rx p = plus_packet v d ++ rest → 12 + blen d <= 65535 →
  12 + blen (da (pc_seqnum conn) (pc_session_id conn)) <= 65535 →
  plus_exchange da {| pi_transport := p; pi_conn := conn |} =
  (Ok d, {| pi_transport := {| rx := rest;
              tx := tx p ++ plus_packet (pc_version conn) (da (pc_seqnum conn) (pc_session_id conn)) |};
            pi_conn := {| pc_session_id := pc_session_id conn;
                          pc_seqnum := as_u16 (pc_seqnum conn + 1); pc_version := pc_version conn |} |}).
Proof.
  intros Hrx Hd Hda. destruct conn as [sid seq ver]. unfold plus_exchange, io_bind at 1.
  cbn [take_seqnum pi_conn pc_seqnum pc_session_id pc_version pi_transport] in *.
  unfold io_bind at 1. cbn [get_conn pi_conn]. unfold io_bind at 1, on_plus_transport at 1.
  cbn [pi_transport pi_conn pc_version pc_session_id]. rewrite send_plus_ok by done. cbn.
  unfold on_plus_transport, recv_plus_data. cbn [pi_transport pi_conn]. rewrite Hrx.
  rewrite (io_bind_ok _ _ _ _ _ (recv_plus_frame_ok _ _ _ _ Hd)). done.
Qed.

Lemma cut_value_take r s : cut_value r s = take (Z.to_nat (dv_length s)) (vr_value r).
Proof.
  unfold cut_value. case_ltb; [done|]. symmetry. apply take_ge. unfold blen in *. lia.
Qed.

(** ** Safety *)
Lemma VarResult_decode_total : rd_total VarResult_decode.
Proof. intros b. unfold VarResult_decode. rd_total_solve. Qed.
Lemma GetMultiVarResponse_decode_total n : rd_total (GetMultiVarResponse_decode n).
Proof.
  apply rd_total_bind; [apply DataArea_decode_total|]. intros da b. unfold rd_lift.
  pose proof (rd_total_repeat n _ VarResult_decode_total (da_payload da)) as H.
  by destruct (rd_repeat n VarResult_decode (da_payload da)) as [[? ?]| |].
Qed.
Lemma CreateObjectResponse_decode_total : rd_total CreateObjectResponse_decode.
Proof. apply rd_total_bind; [apply DataArea_decode_total|by intros da b]. Qed.
Lemma S7PlusFrame_encode_total f : S7PlusFrame_encode f ≠ Panic.
Proof. unfold S7PlusFrame_encode. by case_ltb. Qed.

(** The value of a decoder run on a whole buffer. *)
Lemma rd_value_total {A} (m : Rd A) b :
  rd_total m → match m b with Ok (a, _) => Ok a | Err e => Err e | Panic => Panic end ≠ Panic.
Proof. intros H. specialize (H b). by destruct (m b) as [[? ?]| |]. Qed.

Lemma send_plus_safe v d : io_safe (send_plus v d).
Proof.
  apply io_safe_bind; [apply io_safe_lift, res_map_err_total, S7PlusFrame_encode_total|intros fb].
  apply io_safe_bind; [apply io_safe_lift, res_map_err_total, TpktFrame_encode_total|intros tb].
  auto with wire.
Qed.
Lemma recv_plus_frame_safe : io_safe recv_plus_frame.
Proof.
  apply io_safe_read_bind; [lia|]. intros hdr Hh. unfold blen in Hh.
  destruct hdr as [|? [|? [|? [|? [|? ?]]]]]; try (cbn in Hh; lia).
  apply io_safe_read_bind; [unfold saturating_sub; lia|]. intros payload _.
  apply io_safe_lift, res_map_err_total, rd_value_total, S7PlusFrame_decode_total.
Qed.
Lemma plus_connect_safe : io_safe plus_connect.
Proof.
  apply io_safe_bind; [apply send_plus_safe|intros _].
  apply io_safe_bind; [apply recv_plus_frame_safe|intros f].
  apply io_safe_bind; [|intros [sid ?]; apply io_safe_ret].
  apply io_safe_lift, res_map_err_total, rd_value_total, CreateObjectResponse_decode_total.
Qed.

(** Methods that never panic, whatever the peer sends. *)
Definition pl_safe {A} (m : @Pl Pipe A) : Prop := ∀ i, (m i).1 ≠ Panic.
Lemma pl_safe_bind {A B} (m : @Pl Pipe A) (k : A → @Pl Pipe B) :
  pl_safe m → (∀ a, pl_safe (k a)) → pl_safe (io_bind m k).
Proof.
  intros Hm Hk i. specialize (Hm i). unfold io_bind.
  destruct (m i) as [[a|e|] t]; [apply Hk|done|done].
Qed.
Lemma pl_safe_transport {A} (m : IO Pipe Client.Error A) : io_safe m → pl_safe (on_plus_transport m).
Proof.
  intros Hm i. destruct (Hm (pi_transport i)) as [H _]. unfold on_plus_transport.
  by destruct (m (pi_transport i)).
Qed.
Lemma pl_safe_lift {A} (r : res Client.Error A) : r ≠ Panic → pl_safe (io_lift r).
Proof. by intros H i. Qed.
Lemma plus_exchange_safe da : pl_safe (plus_exchange da).
Proof.
  apply pl_safe_bind; [done|intros seq]. apply pl_safe_bind; [done|intros conn].
  apply pl_safe_bind; [apply pl_safe_transport, send_plus_safe|intros _].
  apply pl_safe_transport. apply io_safe_bind; [apply recv_plus_frame_safe|]. intros f.
  apply io_safe_ret.
Qed.

(** C26: no peer can crash the S7CommPlus client: on every byte stream the
    session set-up, multi-variable reads and writes, keep-alive and session
    end return a value or an error and never panic. *)
Theorem plus_client_no_panic p i specs values :
  (plus_connect p).1 ≠ Panic ∧
  (S7PlusClient_read_multi_vars (T := Pipe) specs i).1 ≠ Panic ∧
  (S7PlusClient_write_multi_vars (T := Pipe) specs values i).1 ≠ Panic ∧
  (S7PlusClient_send_keepalive (T := Pipe) i).1 ≠ Panic ∧
  (S7PlusClient_delete_object (T := Pipe) i).1 ≠ Panic.
Proof.
  split_and!.
  - apply plus_connect_safe.
  - revert i. fold (pl_safe (S7PlusClient_read_multi_vars specs)).
    destruct specs as [|s specs]; [done|]. apply pl_safe_bind; [apply plus_exchange_safe|]. intros data.
    apply pl_safe_bind; [|done]. apply pl_safe_lift, res_map_err_total, rd_value_total,
      GetMultiVarResponse_decode_total.
  - revert i. fold (pl_safe (S7PlusClient_write_multi_vars specs values)).
    destruct specs as [|s specs]; [done|]. by apply pl_safe_bind; [apply plus_exchange_safe|].
  - by apply pl_safe_transport, send_plus_safe.
  - revert i. fold (pl_safe S7PlusClient_delete_object).
    by apply pl_safe_bind; [apply plus_exchange_safe|].
Qed.

(** ** Sessions *)
Lemma blen_concat_const {A} (f : A → bytes) k l :
  (∀ x, blen (f x) = k) → blen (concat (f <$> l)) = k * Z.of_nat (length l).
Proof.
  intros Hf. induction l as [|x l IH]; [cbn; rewrite blen_nil; lia|].
  cbn. rewrite blen_app, Hf. change (list_fmap _ _ f l) with (f <$> l). rewrite IH. lia.
Qed.
Lemma blen_GetMultiVarRequest seq sid items :
  blen (GetMultiVarRequest_encode seq sid items) = 15 + 8 * Z.of_nat (length items).
Proof.
  unfold GetMultiVarRequest_encode. rewrite blen_DataArea_encode. cbn [plus_request da_payload].
  rewrite blen_app, (blen_concat_const _ 8) by (intros; blen_lia).
  change (blen [_]) with 1. lia.
Qed.

Lemma blen_CreateObject : 12 + blen (CreateObjectRequest_encode 1) <= 65535.
Proof. unfold CreateObjectRequest_encode. rewrite blen_DataArea_encode. cbn. blen_lia. Qed.

(** A set-up answered with any reply of the format. *)
Lemma plus_connect_ok fc q sid fl pay v rest :
  u16 fc → u16 q → u32 sid → u8 fl → 12 + blen (plus_reply fc q sid fl pay) <= 65535 →
  plus_connect {| rx := plus_packet v (plus_reply fc q sid fl pay) ++ rest; tx := [] |} =
  (Ok {| pc_session_id := sid; pc_seqnum := 2; pc_version := v |},
   {| rx := rest; tx := plus_packet V1 (CreateObjectRequest_encode 1) |}).
Proof.
  intros Hf Hq Hs Ht Hl.
  unfold plus_connect. rewrite (io_bind_ok _ _ _ _ _ (send_plus_ok V1 _ _ blen_CreateObject)).
  cbn [rx tx app]. rewrite (io_bind_ok _ _ _ _ _ (recv_plus_frame_ok _ _ _ _ Hl)).
  cbn [frame_data version]. unfold CreateObjectResponse_decode.
  rewrite (rd_bind_ok _ _ _ _ _ (plus_reply_decode _ _ _ _ _ Hf Hq Hs Ht)). done.
Qed.



Lemma land_4095 z : Z.land z 0xFFF = z mod 4096.
Proof. apply (land_mask_mod z 12). lia. Qed.
Lemma db_lid_value db off :
  0 <= db < 16384 →
  Z.lor (Z.lor 0x84000000 (as_u32 (Z.shiftl db 12))) (Z.land off 0xFFF) =
  0x84000000 + db * 4096 + off mod 4096.
Proof.
  intros Hdb. rewrite land_4095, Z.shiftl_mul_pow2 by lia.
  rewrite as_u32_small by (unwidth; lia). pose proof (Z.mod_pos_bound off 4096).
  change 0x84000000 with (Z.shiftl 33 26). rewrite lor_shiftl_add by lia.
  replace (33 * 2 ^ 26 + db * 2 ^ 12) with (Z.shiftl (33 * 2 ^ 14 + db) 12)
    by (rewrite Z.shiftl_mul_pow2; lia).
  rewrite lor_shiftl_add by lia. change (Z.shiftl 33 26) with 2214592512. lia.
Qed.

(** Data block variables are addressed apart only within limits: below
    block 16384 and offset 4096 different variables get different addresses,
    but offsets are reduced modulo 4096 and bit 14 of the block number is
    lost, so the address of offset 4096 is that of offset 0 and block 16384 is
    block 0. *)
Theorem db_lid_aliasing db off db' off' :
  (0 <= db < 16384 → 0 <= db' < 16384 → 0 <= off < 4096 → 0 <= off' < 4096 →
   db_lid db off = db_lid db' off' → db = db' ∧ off = off') ∧
  db_lid db (off + 4096) = db_lid db off ∧
  (0 <= db < 16384 → db_lid (db + 16384) off = db_lid db off).
Proof.
  split_and!.
  - intros Hd Hd' Ho Ho' [= H]. unfold db_lid in H. rewrite !db_lid_value in H by done.
    Z.div_mod_to_equations. lia.
  - unfold db_lid. rewrite !land_4095. f_equal. f_equal. Z.div_mod_to_equations. lia.
  - intros Hd. unfold db_lid. f_equal. f_equal. rewrite !Z.shiftl_mul_pow2 by lia.
    rewrite !as_u32_small by (unwidth; lia).
    replace ((db + 16384) * 2 ^ 12) with (Z.lor (Z.shiftl 1 26) (db * 2 ^ 12)).
    + by rewrite Z.lor_assoc.
    + rewrite lor_shiftl_add by lia. lia.
Qed.
