(* ===== verification/Client.v ===== *)
(** * The S7 client: requests and variable access (snap7-client, client.rs)

    Every public method locks the client's [Inner] for its whole duration, so a
    method is a function on that state.  The wall clock is not modelled: the
    state keeps whether a job is being timed, not since when, and a read that
    the request timer cuts off is one the transport answers with [TimedOut]. *)

From S2P Require Import Prelude Wire Io Tpkt Cotp S7Header ReadVar WriteVar Connection.
Local Open Scope Z_scope.

Record MultiReadItem := {
  mr_area : Area;
  mr_db_number : Z;
  mr_start : Z;
  mr_length : Z;
  mr_transport : TransportSize;
}.

Definition MultiReadItem_db (db start length : Z) : MultiReadItem :=
  {| mr_area := DataBlock; mr_db_number := db; mr_start := start; mr_length := length;
     mr_transport := Byte |}.

Record MultiWriteItem := {
  mw_area : Area;
  mw_db_number : Z;
  mw_start : Z;
  mw_data : bytes;
}.

Definition MultiWriteItem_db (db start : Z) (data : bytes) : MultiWriteItem :=
  {| mw_area := DataBlock; mw_db_number := db; mw_start := start; mw_data := data |}.

Record Inner (T : Type) := {
  inner_transport : T;
  connection : Connection;
  inner_pdu_ref : Z;
  connected : bool;
  job_start : bool;
}.
Arguments inner_transport {T}. Arguments connection {T}. Arguments inner_pdu_ref {T}.
Arguments connected {T}. Arguments job_start {T}.

(** ** Error reporting *)

(** [{:02X}]. *)
Definition hex_digit (d : Z) : string :=
  match d with
  | 0 => "0" | 1 => "1" | 2 => "2" | 3 => "3" | 4 => "4" | 5 => "5" | 6 => "6" | 7 => "7"
  | 8 => "8" | 9 => "9" | 10 => "A" | 11 => "B" | 12 => "C" | 13 => "D" | 14 => "E" | _ => "F"
  end.
Definition hex2 (v : Z) : string := hex_digit (v / 16) +:+ hex_digit (v mod 16).

Definition s7_error_description (ec ecd : Z) : string :=
  match ec, ecd with
  | 0x81, 0x04 => "function not supported or access denied by PLC"
  | 0x81, 0x01 => "reserved by HW or SW function not available"
  | 0x82, 0x04 => "PLC is in STOP mode, function not possible"
  | 0x05, 0x01 => "invalid block type number"
  | 0xD2, 0x01 => "object already exists, download rejected"
  | 0xD2, 0x02 => "object does not exist, upload failed"
  | 0xD6, 0x01 => "password protection violation"
  | 0xD6, 0x05 => "insufficient privilege for this operation"
  | _, _ => "unknown error"
  end.

Definition check_plc_error (header : S7Header) (context : string) : res Client.Error unit :=
  match error_class header, error_code header with
  | Some ec, Some ecd =>
      if negb (ec =? 0) || negb (ecd =? 0) then
        Err (Client.PlcError (Z.lor (Z.shiftl ec 8) ecd)
               (context +:+ ": " +:+ s7_error_description ec ecd +:+
                " (error_class=0x" +:+ hex2 ec +:+ ", error_code=0x" +:+ hex2 ecd +:+ ")"))
      else Ok tt
  | _, _ => Ok tt
  end.

(** [.await.map_err(|_| Error::Timeout(timeout)).and_then(|r| r.map_err(Error::Io))] *)
Definition timed_error (e : IoError) : Client.Error :=
  match e with
  | TimedOut => Client.Timeout
  | e => Client.Io e
  end.

Section Client.
Context {T : Type} `{Transport T}.

Definition Cl (A : Type) : Type := IO (Inner T) Client.Error A.

Definition set_transport (i : Inner T) (t : T) : Inner T :=
  {| inner_transport := t; connection := connection i; inner_pdu_ref := inner_pdu_ref i;
     connected := connected i; job_start := job_start i |}.
Definition set_pdu_ref (i : Inner T) (r : Z) : Inner T :=
  {| inner_transport := inner_transport i; connection := connection i; inner_pdu_ref := r;
     connected := connected i; job_start := job_start i |}.
Definition set_connected (i : Inner T) (c : bool) : Inner T :=
  {| inner_transport := inner_transport i; connection := connection i;
     inner_pdu_ref := inner_pdu_ref i; connected := c; job_start := job_start i |}.
Definition set_job_start (i : Inner T) (j : bool) : Inner T :=
  {| inner_transport := inner_transport i; connection := connection i;
     inner_pdu_ref := inner_pdu_ref i; connected := connected i; job_start := j |}.

(** [S7Client::from_transport]. *)
Definition from_transport (t : T) (params : ConnectParams) : res Client.Error (Inner T) * T :=
  match connect params t with
  | (Ok c, t') => (Ok {| inner_transport := t'; connection := c; inner_pdu_ref := 1;
                         connected := true; job_start := false |}, t')
  | (Err e, t') => (Err e, t')
  | (Panic, t') => (Panic, t')
  end.

Definition next_pdu_ref : Cl Z := fun i =>
  let r := as_u16 (inner_pdu_ref i + 1) in (Ok r, set_pdu_ref i r).

Definition request_header (param_len data_len pdu_ref : Z) (t : PduType) : S7Header :=
  {| pdu_type := t; reserved := 0; pdu_ref := pdu_ref; param_len := param_len;
     data_len := data_len; error_class := None; error_code := None |}.

(** The S7 payload of a request. *)
Definition request_payload (param_buf data_buf : bytes) (pdu_ref : Z) (t : PduType) : bytes :=
  S7Header_encode (request_header (as_u16 (blen param_buf)) (as_u16 (blen data_buf)) pdu_ref t)
  ++ param_buf ++ data_buf.

Definition send_s7 (param_buf data_buf : bytes) (pdu_ref : Z) (t : PduType) : Cl unit := fun i =>
  let dt := Data 0 true (request_payload param_buf data_buf pdu_ref t) in
  match TpktFrame_encode {| tpkt_payload := CotpPdu_encode dt |} with
  | Ok tb =>
      let i := set_job_start i true in
      let '(r, t') := write_all tb (inner_transport i) in
      (res_map_err Client.Io r, set_transport i t')
  | Err e => (Err (Client.Proto e), i)
  | Panic => (Panic, i)
  end.

(** A read under the request timer; any failure marks the client as
    disconnected. *)
Definition read_timed (n : Z) : Cl bytes := fun i =>
  match read_exact n (inner_transport i) with
  | (Ok b, t) => (Ok b, set_transport i t)
  | (Err e, t) => (Err (timed_error e), set_connected (set_transport i t) false)
  | (Panic, t) => (Panic, set_transport i t)
  end.

Definition recv_s7 : Cl (S7Header * bytes) :=
  let* tpkt_hdr := read_timed 4 in
  match tpkt_hdr with
  | [_; _; h2; h3] =>
      let total := of_be16 h2 h3 in
      if total <? 4 then io_fail Client.UnexpectedResponse
      else
        let* b := read_timed (total - 4) in
        match b with
        | _li :: cotp_code :: _nr :: b =>
            if negb (cotp_code =? 0xF0) then io_fail Client.UnexpectedResponse
            else
              let* (header, b) := io_lift (res_map_err Client.Proto (S7Header_decode b)) in
              let* _ := (fun i => (Ok tt, set_job_start i false)) in
              io_ret (header, b)
        | _ => io_fail Client.UnexpectedResponse
        end
  | _ => io_lift Panic
  end.

(** [next_pdu_ref], [send_s7], [recv_s7]: the exchange every method starts
    with. *)
Definition exchange (param_buf data_buf : bytes) (t : PduType) : Cl (S7Header * bytes) :=
  let* pdu_ref := next_pdu_ref in
  let* _ := send_s7 param_buf data_buf pdu_ref t in
  recv_s7.

(** [if body.remaining() >= 2 { body.advance(2) }] *)
Definition skip_echo (body : bytes) : bytes :=
  if 2 <=? blen body then drop 2 body else body.
(** [if body.has_remaining() { body.advance(2) }]: a single byte panics. *)
Definition skip_echo_unchecked (body : bytes) : res Client.Error bytes :=
  match body with
  | [] => Ok []
  | [_] => Panic
  | _ :: _ :: b => Ok b
  end.

(** ** Single reads and writes *)
Definition read_one (context : string) (item : AddressItem) : Cl bytes :=
  let* (header, body) :=
    exchange (ReadVarRequest_encode {| read_items := [item] |}) [] Job in
  let* _ := io_lift (check_plc_error header context) in
  let* (resp, _) :=
    io_lift (res_map_err Client.Proto (ReadVarResponse_decode 1 (skip_echo body))) in
  match resp_items resp with
  | [] => io_fail Client.UnexpectedResponse
  | it :: _ =>
      if negb (return_code it =? 0xFF) then
        io_fail (Client.PlcError (return_code it) "item error")
      else io_ret (item_data it)
  end.

Definition S7Client_db_read (db start length : Z) : Cl bytes :=
  read_one "db_read"
    {| area := DataBlock; db_number := db; start := start; bit_offset := 0;
       item_length := length; transport := Byte |}.

Definition S7Client_read_area (a : Area) (db_number start element_count : Z)
  (t : TransportSize) : Cl bytes :=
  read_one "read_area"
    {| area := a; db_number := db_number; start := start; bit_offset := 0;
       item_length := element_count; transport := t |}.

Definition write_one (context msg : string) (item : AddressItem) (data : bytes) : Cl unit :=
  let* (header, body) :=
    exchange (WriteVarRequest_encode
                {| write_items := [ {| address := item; write_data := data |} ] |}) [] Job in
  let* _ := io_lift (check_plc_error header context) in
  let* body := io_lift (skip_echo_unchecked body) in
  let* (resp, _) := io_lift (res_map_err Client.Proto (WriteVarResponse_decode 1 body)) in
  match return_codes resp with
  | [] => io_lift Panic
  | code :: _ =>
      if negb (code =? 0xFF) then io_fail (Client.PlcError code msg) else io_ret tt
  end.

Definition S7Client_db_write (db start : Z) (data : bytes) : Cl unit :=
  write_one "db_write" "write error"
    {| area := DataBlock; db_number := db; start := start; bit_offset := 0;
       item_length := as_u16 (blen data); transport := Byte |} data.

Definition S7Client_write_area (a : Area) (db_number start : Z) (t : TransportSize)
  (data : bytes) : Cl unit :=
  write_one "write_area" "write_area error"
    {| area := a; db_number := db_number; start := start; bit_offset := 0;
       item_length := as_u16 (blen data); transport := t |} data.

(** ** Batched reads and writes *)

(** The inner [while]: how many of the items not yet requested go into the
    next batch, given the number and the sizes already taken. *)
Fixpoint read_batch (max_req max_resp n req_used resp_used : Z) (items : list MultiReadItem)
  : nat :=
  match items with
  | [] => 0%nat
  | item :: items' =>
      if n <? 20 then
        let item_resp_size := 4 + mr_length item + mr_length item mod 2 in
        if (0 <? n) && ((max_req <? req_used + 12) || (max_resp <? resp_used + item_resp_size))
        then 0%nat
        else S (read_batch max_req max_resp (n + 1) (req_used + 12)
                  (resp_used + item_resp_size) items')
      else 0%nat
  end.

Definition read_address (item : MultiReadItem) : AddressItem :=
  {| area := mr_area item; db_number := mr_db_number item; start := mr_start item;
     bit_offset := 0; item_length := mr_length item; transport := Byte |}.

(** [for (i, item) in resp.items.into_iter().enumerate() { ...;
    results[batch_start + i] = item.data }]; the response holds one item per
    item of the batch, so the index is in range. *)
Fixpoint store_results (k : nat) (items : list DataItem) (results : list bytes)
  : res Client.Error (list bytes) :=
  match items with
  | [] => Ok results
  | it :: items' =>
      if negb (return_code it =? 0xFF) then
        Err (Client.PlcError (return_code it) ("item " +:+ pretty k +:+ " error"))
      else store_results (S k) items' (<[k := item_data it]> results)
  end.

(** The outer [while]: [batch_start] items are done, [items] are left. *)
Fixpoint read_multi_loop (fuel : nat) (max_payload : Z) (batch_start : nat)
  (items : list MultiReadItem) (results : list bytes) : Cl (list bytes) :=
  match fuel, items with
  | _, [] => io_ret results
  | O, _ => io_lift Panic
  | S fuel', _ =>
      let n := read_batch max_payload max_payload 0 0 0 items in
      let batch := take n items in
      let* (header, body) :=
        exchange (ReadVarRequest_encode {| read_items := read_address <$> batch |}) [] Job in
      let* _ := io_lift (check_plc_error header "read_multi_vars") in
      let* (resp, _) :=
        io_lift (res_map_err Client.Proto
                   (ReadVarResponse_decode (length batch) (skip_echo body))) in
      let* results := io_lift (store_results batch_start (resp_items resp) results) in
      read_multi_loop fuel' max_payload (batch_start + n) (drop n items) results
  end.

(** Every batch takes one item at least, so as many turns as items suffice. *)
Definition S7Client_read_multi_vars (items : list MultiReadItem) : Cl (list bytes) := fun i =>
  match items with
  | [] => (Ok [], i)
  | _ =>
      let max_payload := saturating_sub (pdu_size (connection i)) 12 in
      read_multi_loop (length items) max_payload 0 items (replicate (length items) []) i
  end.

Fixpoint write_batch (max_payload n used : Z) (items : list MultiWriteItem) : nat :=
  match items with
  | [] => 0%nat
  | item :: items' =>
      if n <? 20 then
        let data_len := blen (mw_data item) in
        let item_size := 12 + 4 + data_len + data_len mod 2 in
        if (0 <? n) && (max_payload <? used + item_size) then 0%nat
        else S (write_batch max_payload (n + 1) (used + item_size) items')
      else 0%nat
  end.

Definition write_address (item : MultiWriteItem) : WriteItem :=
  {| address := {| area := mw_area item; db_number := mw_db_number item;
                   start := mw_start item; bit_offset := 0;
                   item_length := as_u16 (blen (mw_data item)); transport := Byte |};
     write_data := mw_data item |}.

Fixpoint check_codes (k : nat) (codes : list Z) : res Client.Error unit :=
  match codes with
  | [] => Ok tt
  | code :: codes' =>
      if negb (code =? 0xFF) then
        Err (Client.PlcError code ("item " +:+ pretty k +:+ " write error"))
      else check_codes (S k) codes'
  end.

Fixpoint write_multi_loop (fuel : nat) (max_payload : Z) (batch_start : nat)
  (items : list MultiWriteItem) : Cl unit :=
  match fuel, items with
  | _, [] => io_ret tt
  | O, _ => io_lift Panic
  | S fuel', _ =>
      let n := write_batch max_payload 0 0 items in
      let batch := take n items in
      let* (header, body) :=
        exchange (WriteVarRequest_encode {| write_items := write_address <$> batch |}) [] Job in
      let* _ := io_lift (check_plc_error header "write_multi_vars") in
      let* (resp, _) :=
        io_lift (res_map_err Client.Proto
                   (WriteVarResponse_decode (length batch) (skip_echo body))) in
      let* _ := io_lift (check_codes batch_start (return_codes resp)) in
      write_multi_loop fuel' max_payload (batch_start + n) (drop n items)
  end.

Definition S7Client_write_multi_vars (items : list MultiWriteItem) : Cl unit := fun i =>
  match items with
  | [] => (Ok tt, i)
  | _ =>
      let max_payload := saturating_sub (pdu_size (connection i)) 12 in
      write_multi_loop (length items) max_payload 0 items i
  end.

(** ** Convenience wrappers *)

(** [results.swap_remove(0)] *)
Definition swap_remove_0 (results : list bytes) : res Client.Error bytes :=
  match results with
  | [] => Panic
  | r :: _ => Ok r
  end.

Definition S7Client_ab_read (a : Area) (db_number start length : Z) : Cl bytes :=
  let* results := S7Client_read_multi_vars
    [ {| mr_area := a; mr_db_number := db_number; mr_start := start; mr_length := length;
         mr_transport := Byte |} ] in
  io_lift (swap_remove_0 results).

Definition S7Client_ab_write (a : Area) (db_number start : Z) (data : bytes) : Cl unit :=
  S7Client_write_multi_vars
    [ {| mw_area := a; mw_db_number := db_number; mw_start := start; mw_data := data |} ].

Definition S7Client_mb_read (start length : Z) : Cl bytes := S7Client_ab_read Marker 0 start length.
Definition S7Client_mb_write (start : Z) (data : bytes) : Cl unit :=
  S7Client_ab_write Marker 0 start data.
Definition S7Client_eb_read (start length : Z) : Cl bytes :=
  S7Client_ab_read ProcessInput 0 start length.
Definition S7Client_eb_write (start : Z) (data : bytes) : Cl unit :=
  S7Client_ab_write ProcessInput 0 start data.
Definition S7Client_ib_read (start length : Z) : Cl bytes :=
  S7Client_ab_read ProcessOutput 0 start length.
Definition S7Client_ib_write (start : Z) (data : bytes) : Cl unit :=
  S7Client_ab_write ProcessOutput 0 start data.

Definition S7Client_tm_read (start amount : Z) : Cl bytes :=
  let* results := S7Client_read_multi_vars
    [ {| mr_area := ATimer; mr_db_number := 0; mr_start := start; mr_length := amount;
         mr_transport := TTimer |} ] in
  io_lift (swap_remove_0 results).
Definition S7Client_tm_write (start : Z) (data : bytes) : Cl unit :=
  S7Client_write_multi_vars
    [ {| mw_area := ATimer; mw_db_number := 0; mw_start := start; mw_data := data |} ].
Definition S7Client_ct_read (start amount : Z) : Cl bytes :=
  let* results := S7Client_read_multi_vars
    [ {| mr_area := ACounter; mr_db_number := 0; mr_start := start; mr_length := amount;
         mr_transport := TCounter |} ] in
  io_lift (swap_remove_0 results).
Definition S7Client_ct_write (start : Z) (data : bytes) : Cl unit :=
  S7Client_write_multi_vars
    [ {| mw_area := ACounter; mw_db_number := 0; mw_start := start; mw_data := data |} ].

(** ** Forcing *)
Definition S7Client_force_bit (a : Area) (byte_addr bit : Z) (value : bool) : Cl unit :=
  let bit := Z.land bit 0x07 in
  let* current := S7Client_read_area a 0 (as_u32 (byte_addr * 8)) 1 Byte in
  let byte_val := match current with [] => 0 | b :: _ => b end in
  let byte_val :=
    if value then Z.lor byte_val (as_u8 (Z.shiftl 1 bit))
    else Z.land byte_val (255 - as_u8 (Z.shiftl 1 bit)) in
  S7Client_write_area a 0 (as_u32 (byte_addr * 8)) Byte [byte_val].

Definition S7Client_force_byte (a : Area) (byte_addr value : Z) : Cl unit :=
  S7Client_write_area a 0 (as_u32 (byte_addr * 8)) Byte [value].

Definition S7Client_force_cancel_byte (a : Area) (byte_addr : Z) : Cl unit :=
  S7Client_write_area a 0 (as_u32 (byte_addr * 8)) Byte [0x00].
End Client.
Arguments Cl : clear implicits.
