(* ===== verification/Loopback.v ===== *)
(** * The client against the server

    [Link] is the transport of a client connected to a simulated PLC: what the
    client writes is served by the server's dispatch loop on the PLC's store,
    and what the loop sends is what the client reads next.  Running the client
    on it is running both ends of the stack. *)

From S2P Require Import Prelude Wire Io Tpkt Cotp S7Header Negotiate ReadVar WriteVar Clock Szl Store.
From S2P Require Import ServerHandshake Dispatch Connection Client.
Local Open Scope Z_scope.

(** How far the server's side of the connection has come: it has heard some
    bytes of the handshake and sent the given number of bytes, or it serves
    requests. *)
Inductive Peer := Greeting (heard : bytes) (said : nat) | Serving.

Record Link := { link_rx : bytes; link_store : StoreInner; link_peer : Peer }.

(** Until the handshake is over, the server's answer to more bytes is what
    [server_handshake] sends on all it has heard, less what it has sent before:
    it waits where its input ends. *)
#[export] Instance Link_transport : Transport Link := {|
  read_exact n l :=
    if blen (link_rx l) <? n
    then (Err UnexpectedEof, {| link_rx := []; link_store := link_store l; link_peer := link_peer l |})
    else (Ok (take (Z.to_nat n) (link_rx l)),
          {| link_rx := drop (Z.to_nat n) (link_rx l); link_store := link_store l;
             link_peer := link_peer l |});
  write_all b l :=
    match link_peer l with
    | Serving =>
        match dispatch_loop (S (length b)) ({| rx := b; tx := [] |}, link_store l) with
        | Some (_, (p, s)) =>
            (Ok tt, {| link_rx := link_rx l ++ tx p; link_store := s; link_peer := Serving |})
        | None => (Err BrokenPipe, l)
        end
    | Greeting heard said =>
        match server_handshake {| rx := heard ++ b; tx := [] |} with
        | (Ok _, p) =>
            match dispatch_loop (S (length (rx p))) ({| rx := rx p; tx := [] |}, link_store l) with
            | Some (_, (p', s)) =>
                (Ok tt, {| link_rx := link_rx l ++ drop said (tx p) ++ tx p'; link_store := s;
                           link_peer := Serving |})
            | None => (Err BrokenPipe, l)
            end
        | (_, p) =>
            (Ok tt, {| link_rx := link_rx l ++ drop said (tx p); link_store := link_store l;
                       link_peer := Greeting (heard ++ b) (length (tx p)) |})
        end
    end;
|}.

(** A client on such a link with [q] received and not yet read; an idle client
    has read everything. *)
Definition queued (q : bytes) (c : Connection) (r : Z) (k : bool) (s : StoreInner) : Inner Link :=
  {| inner_transport := {| link_rx := q; link_store := s; link_peer := Serving |}; connection := c;
     inner_pdu_ref := r; connected := true; job_start := k |}.
Definition linked (c : Connection) (r : Z) (s : StoreInner) : Inner Link :=
  queued [] c r false s.

Lemma link_read_app n a b s pr :
  n = blen a →
  read_exact n {| link_rx := a ++ b; link_store := s; link_peer := pr |} =
  (Ok a, {| link_rx := b; link_store := s; link_peer := pr |}).
Proof.
  intros ->. cbn. case_ltb; [blen_lia|].
  by rewrite to_nat_blen, take_app_length, drop_app_length.
Qed.

(** ** Connecting *)
Definition dial (s : StoreInner) : Link :=
  {| link_rx := []; link_store := s; link_peer := Greeting [] 0 |}.

Lemma recv_cotp_link body rest s pr :
  4 + blen body <= 65535 →
  recv_cotp {| link_rx := tpkt_frame body ++ rest; link_store := s; link_peer := pr |} =
  (res_map_err Client.Proto (match CotpPdu_decode body with
                             | Ok (pdu, _) => Ok pdu | Err e => Err e | Panic => Panic end),
   {| link_rx := rest; link_store := s; link_peer := pr |}).
Proof.
  intros Hl. unfold recv_cotp. assert (Hu : u16 (4 + blen body)) by (unwidth; blen_lia).
  rewrite tpkt_frame_split.
  rewrite (io_bind_ok _ _ _ _ _ (io_map_err_ok _ _ _ _ _
    (link_read_app 4 (3 :: 0 :: be16 (4 + blen body)) (body ++ rest) s pr eq_refl))).
  cbn [be16]. rewrite of_be16_split by done. case_ltb; [blen_lia|].
  rewrite (io_bind_ok _ _ _ body {| link_rx := rest; link_store := s; link_peer := pr |}); [done|].
  apply io_map_err_ok, link_read_app. lia.
Qed.

(** The server answers the connection request and waits for more. *)
Lemma server_handshake_waits rack slot :
  u8 rack → u8 slot →
  server_handshake {| rx := tpkt_frame (CotpPdu_encode (ConnectRequest 0 1 rack slot)); tx := [] |} =
  (Err (Server.Io UnexpectedEof),
   {| rx := []; tx := tpkt_frame (CotpPdu_encode (ConnectConfirm 1 1)) |}).
Proof.
  intros Hr Hs. unfold server_handshake.
  pose proof (recv_tpkt_cotp_frame (CotpPdu_encode (ConnectRequest 0 1 rack slot)) [] []
                ltac:(vm_compute; discriminate)) as H1.
  rewrite app_nil_r, CotpPdu_decode_encode in H1 by (cbn; unwidth; lia).
  rewrite (io_bind_ok _ _ _ _ _ H1). cbn [CotpPdu_wire].
  by rewrite (io_bind_ok _ _ _ _ _ (send_tpkt_cotp_ok (ConnectConfirm 1 1) _
                ltac:(vm_compute; discriminate))).
Qed.

(** Connecting to a simulated PLC: the client and the server run their
    handshakes against each other, and the server is ready to serve. *)
Lemma connect_link params s :
  ConnectParams_wf params →
  connect params (dial s) =
  (Ok {| pdu_size := Z.min (cp_pdu_size params) 480 |},
   {| link_rx := []; link_store := s; link_peer := Serving |}).
Proof.
  intros (Hr & Hs & Hp).
  set (q := {| req_max_amq_calling := 1; req_max_amq_called := 1;
               req_pdu_length := cp_pdu_size params |}).
  set (cr := tpkt_frame (CotpPdu_encode (ConnectRequest 0 1 (cp_rack params) (cp_slot params)))).
  set (cc := tpkt_frame (CotpPdu_encode (ConnectConfirm 1 1))).
  assert (connect_send_request params (dial s) =
    (Ok tt, {| link_rx := cc ++ []; link_store := s; link_peer := Greeting cr (length cc) |})) as E1.
  { unfold connect_send_request, send_cotp, io_lift, io_bind.
    rewrite TpktFrame_encode_ok by (vm_compute; discriminate).
    cbn [res_map_err]. unfold io_map_err, dial. cbn [write_all Link_transport link_peer link_store link_rx].
    match goal with |- context [server_handshake {| rx := ?x; tx := [] |}] => change x with cr end.
    subst cr. by rewrite server_handshake_waits. }
  assert (connect_negotiate params
      {| link_rx := cc ++ []; link_store := s; link_peer := Greeting cr (length cc) |} =
    (Ok tt, {| link_rx := data_frame (negotiate_ack 1 (negotiated q)) ++ []; link_store := s;
               link_peer := Serving |})) as E2.
  { unfold connect_negotiate. subst cc. erewrite io_bind_ok.
    2: { rewrite recv_cotp_link by (vm_compute; discriminate).
         rewrite CotpPdu_decode_encode by (cbn; unwidth; lia). reflexivity. }
    cbn [CotpPdu_wire]. unfold client_send_cotp_data, send_cotp, io_lift, io_bind.
    rewrite TpktFrame_encode_ok by (vm_compute; discriminate).
    cbn [res_map_err]. unfold io_map_err. cbn [write_all Link_transport link_peer link_store link_rx].
    match goal with |- context [server_handshake {| rx := cr ++ ?x; tx := [] |}] =>
      change x with (data_frame (negotiate_job 1 q)) end.
    pose proof (server_handshake_run 0 1 (cp_rack params) (cp_slot params) 1 q [] []) as Hh.
    fold cr in Hh. rewrite app_nil_r in Hh. rewrite Hh.
    - cbn [rx tx app length]. rewrite dispatch_loop_eof. cbn [tx].
      by rewrite drop_app_length.
    - cbn. unwidth. lia.
    - unwidth. lia.
    - unfold NegotiateRequest_wf. cbn. unwidth. lia. }
  unfold connect. rewrite (io_bind_ok _ _ _ _ _ E1), (io_bind_ok _ _ _ _ _ E2).
  apply (connect_finish_ok _ _ (negotiated q)); [unfold NegotiateResponse_wf; cbn; unwidth; lia|].
  unfold client_recv_cotp_data.
  rewrite (io_bind_ok _ _ _ (Data 0 true (negotiate_ack 1 (negotiated q)))
             {| link_rx := []; link_store := s; link_peer := Serving |}); [done|].
  unfold data_frame. rewrite recv_cotp_link by (vm_compute; discriminate). by rewrite CotpPdu_decode_dt.
Qed.

(** ** One exchange *)
Lemma link_write q payload resp s s' :
  7 + blen payload <= 65535 → 7 + blen resp <= 65535 →
  (∀ T (Tr : Transport T) t,
     dispatch_request payload (t, s) = on_transport (send_cotp_data resp) (t, s')) →
  write_all (data_frame payload) {| link_rx := q; link_store := s; link_peer := Serving |} =
  (Ok tt, {| link_rx := q ++ data_frame resp; link_store := s'; link_peer := Serving |}).
Proof.
  intros Hp Hr Hd. cbn [write_all Link_transport link_store link_rx link_peer].
  destruct (length (data_frame payload)) as [|n] eqn:Hn; [done|].
  rewrite <- (app_nil_r (data_frame payload)).
  rewrite (dispatch_loop_frame _ payload [] [] s s' resp) by done.
  by rewrite dispatch_loop_eof.
Qed.

Lemma read_timed_link n a b c r k s :
  n = blen a → read_timed n (queued (a ++ b) c r k s) = (Ok a, queued b c r k s).
Proof. intros Hn. unfold read_timed, queued. cbn [inner_transport]. by rewrite link_read_app. Qed.

Lemma recv_s7_link resp rest h body c r s k :
  7 + blen resp <= 65535 → S7Header_decode resp = Ok (h, body) →
  recv_s7 (queued (data_frame resp ++ rest) c r k s) = (Ok (h, body), queued rest c r false s).
Proof.
  intros Hl Hd. unfold recv_s7, data_frame. blen_pose. rewrite tpkt_frame_split.
  erewrite io_bind_ok by (apply read_timed_link; reflexivity).
  cbn [be16]. rewrite of_be16_split by (unwidth; blen_lia). case_ltb; [blen_lia|].
  erewrite io_bind_ok by (apply read_timed_link; lia). cbn [Z.eqb Pos.eqb negb].
  unfold io_lift, io_bind at 1. rewrite Hd. cbn [res_map_err]. done.
Qed.

(** An exchange returns the first response in the queue; on an idle client that
    is the response to its own request. *)
Lemma exchange_queued q param data t c r s resp s' first rest h body :
  7 + blen (request_payload param data (as_u16 (r + 1)) t) <= 65535 →
  7 + blen resp <= 65535 → 7 + blen first <= 65535 →
  (∀ T (Tr : Transport T) tr,
     dispatch_request (request_payload param data (as_u16 (r + 1)) t) (tr, s) =
     on_transport (send_cotp_data resp) (tr, s')) →
  q ++ data_frame resp = data_frame first ++ rest →
  S7Header_decode first = Ok (h, body) →
  exchange param data t (queued q c r false s) =
  (Ok (h, body), queued rest c (as_u16 (r + 1)) false s').
Proof.
  intros Hp Hr Hf Hd Hq Hh. unfold exchange, next_pdu_ref, io_bind at 1.
  cbv zeta. change (inner_pdu_ref (queued q c r false s)) with r.
  erewrite io_bind_ok; [by apply (recv_s7_link first)|].
  unfold send_s7. set (P := request_payload param data (as_u16 (r + 1)) t) in *.
  rewrite TpktFrame_encode_ok
    by (cbn [tpkt_payload CotpPdu_encode app]; rewrite !blen_cons; lia).
  cbn [set_job_start set_pdu_ref queued inner_transport tpkt_payload].
  match goal with |- context [write_all ?x _] => change x with (data_frame P) end.
  rewrite (link_write q _ resp s s') by done. by rewrite Hq.
Qed.

Lemma exchange_linked param data t c r s resp s' h body :
  7 + blen (request_payload param data (as_u16 (r + 1)) t) <= 65535 →
  7 + blen resp <= 65535 →
  (∀ T (Tr : Transport T) tr,
     dispatch_request (request_payload param data (as_u16 (r + 1)) t) (tr, s) =
     on_transport (send_cotp_data resp) (tr, s')) →
  S7Header_decode resp = Ok (h, body) →
  exchange param data t (linked c r s) = (Ok (h, body), linked c (as_u16 (r + 1)) s').
Proof.
  intros Hp Hr Hd Hh. eapply (exchange_queued [] _ _ _ _ _ _ resp s' resp []); try done.
  by rewrite app_nil_r.
Qed.

(** ** Variable access *)
Lemma request_header_wf pl dl r : u16 r → S7Header_wf (request_header (as_u16 pl) (as_u16 dl) r Job).
Proof. intros. apply S7Header_wf_job; [done|apply as_u16_u16..]. Qed.

Lemma blen_concat_fmap {A} (f : A → bytes) (n : Z) (l : list A) :
  (∀ x, blen (f x) = n) → blen (concat (f <$> l)) = n * Z.of_nat (length l).
Proof.
  intros Hf. induction l as [|x l IH]; cbn [fmap list_fmap concat length]; [blen_lia|].
  rewrite blen_app, Hf, IH. lia.
Qed.

Lemma blen_request_payload param data r t :
  blen (request_payload param data r t) = 10 + blen param + blen data.
Proof. unfold request_payload, S7Header_encode. cbn [request_header error_class error_code]. blen_lia. Qed.

Lemma blen_ack_header r pl dl ec ecd : blen (S7Header_encode (ack_header r pl dl ec ecd)) = 12.
Proof. reflexivity. Qed.

Lemma read_response_fits r m items :
  blen (ReadVarResponse_encode {| resp_items := spec_read_item m <$> items |}) <= 65514 →
  7 + blen (read_response r m items) <= 65535.
Proof.
  intros. unfold read_response. rewrite !blen_app, blen_ack_header, !blen_cons, blen_nil. lia.
Qed.

Lemma read_exchange_linked items c r s :
  Forall AddressItem_addressable items → (length items <= 255)%nat →
  blen (ReadVarResponse_encode {| resp_items := spec_read_item (mem_of s) <$> items |}) <= 65514 →
  ∃ s' dl, same_data s s' ∧
    exchange (ReadVarRequest_encode {| read_items := items |}) [] Job (linked c r s) =
    (Ok (ack_header (as_u16 (r + 1)) 2 dl 0 0,
         [FUNC_READ_VAR; as_u8 (Z.of_nat (length items))] ++
         ReadVarResponse_encode {| resp_items := spec_read_item (mem_of s) <$> items |}),
     linked c (as_u16 (r + 1)) s').
Proof.
  intros Hi Hn Hlen. set (r' := as_u16 (r + 1)).
  assert (u16 r') as Hr by apply as_u16_u16.
  set (pb := ReadVarRequest_encode {| read_items := items |}).
  destruct (dispatch_read (request_header (as_u16 (blen pb)) (as_u16 (blen [])) r' Job) items s)
    as (s' & Hs & Hd); [by apply request_header_wf|done..|].
  exists s'. eexists. split; [done|].
  eapply (exchange_linked pb [] Job c r s (read_response r' (mem_of s) items) s').
  - rewrite blen_request_payload. subst pb. unfold ReadVarRequest_encode. cbn [read_items].
    rewrite !blen_app, (blen_concat_fmap _ 12) by done. autorewrite with blen. lia.
  - by apply read_response_fits.
  - intros T Tr tr. unfold request_payload. rewrite app_nil_r. apply Hd.
  - unfold read_response. apply S7Header_decode_encode, ack_header_wf;
      [done|..|unwidth; lia|unwidth; lia]; [unwidth; lia|apply as_u16_u16].
Qed.

Lemma write_exchange_linked items c r s :
  Forall (fun i => AddressItem_addressable (address i) ∧ blen (write_data i) < 8192) items →
  (length items <= 255)%nat →
  blen (WriteVarRequest_encode {| write_items := items |}) <= 65500 →
  ∃ s', mem_eq (mem_of s') (foldl (spec_write_item (fun a => is_area_locked a s)) (mem_of s) items)
    ∧ (∀ a, is_area_locked a s' = is_area_locked a s) ∧ clock s' = clock s ∧
    exchange (WriteVarRequest_encode {| write_items := items |}) [] Job (linked c r s) =
    (Ok (ack_header (as_u16 (r + 1)) 2 (Z.of_nat (length items)) 0 0,
         [FUNC_WRITE_VAR; as_u8 (Z.of_nat (length items))] ++ replicate (length items) 0xFF),
     linked c (as_u16 (r + 1)) s').
Proof.
  intros Hi Hn Hlen. set (r' := as_u16 (r + 1)).
  assert (u16 r') as Hr by apply as_u16_u16.
  set (pb := WriteVarRequest_encode {| write_items := items |}) in *.
  destruct (dispatch_write (request_header (as_u16 (blen pb)) (as_u16 (blen [])) r' Job) items s)
    as (s' & Hm & Hl & Hc & Hd); [by apply request_header_wf|done..|].
  exists s'. split_and!; [done..|].
  eapply (exchange_linked pb [] Job c r s (write_response r' items) s').
  - rewrite blen_request_payload. autorewrite with blen. lia.
  - unfold write_response. rewrite !blen_app, blen_ack_header. autorewrite with blen. lia.
  - intros T Tr tr. unfold request_payload. rewrite app_nil_r. apply Hd.
  - unfold write_response. apply S7Header_decode_encode, ack_header_wf; try done; unwidth; lia.
Qed.

Lemma check_plc_error_ack r pl dl context :
  check_plc_error (ack_header r pl dl 0 0) context = Ok tt.
Proof. reflexivity. Qed.

Lemma skip_echo_cons a b l : skip_echo (a :: b :: l) = l.
Proof. unfold skip_echo. case_ltb; [done|blen_lia]. Qed.

(** The data item of one element fits in a frame. *)
Lemma single_item_fits m i :
  0 <= item_length i < 8192 →
  blen (ReadVarResponse_encode {| resp_items := spec_read_item m <$> [i] |}) <= 65514.
Proof.
  intros. unfold ReadVarResponse_encode. cbn [fmap list_fmap resp_items concat].
  rewrite app_nil_r. pose proof (blen_DataItem_encode (spec_read_item m i)) as Hl.
  unfold spec_read_item at 2 in Hl. cbn [item_data] in Hl. rewrite length_spec_read in Hl. lia.
Qed.

Lemma spec_read_item_wf m i : item_length i < 8192 → DataItem_wf (spec_read_item m i).
Proof. intros. unfold DataItem_wf. cbn. rewrite length_spec_read. lia. Qed.

Lemma read_one_linked context i c r s :
  AddressItem_addressable i → item_length i < 8192 →
  ∃ s', same_data s s' ∧
    read_one context i (linked c r s) =
    (Ok (spec_read (to_u8 (area i)) (db_number i) (start i) (item_length i) (mem_of s)),
     linked c (as_u16 (r + 1)) s').
Proof.
  intros Hi Hl. assert (0 <= item_length i) by (destruct Hi as (_ & [? _] & _); lia).
  destruct (read_exchange_linked [i] c r s) as (s' & dl & Hs & He);
    [by apply Forall_singleton|cbn; lia|by apply single_item_fits|].
  exists s'. split; [done|]. unfold read_one. rewrite (io_bind_ok _ _ _ _ _ He).
  cbn [length app]. rewrite check_plc_error_ack, skip_echo_cons.
  unfold io_lift, io_bind.
  pose proof (ReadVarResponse_decode_encode
                {| resp_items := spec_read_item (mem_of s) <$> [i] |} []) as Hd.
  rewrite app_nil_r in Hd. cbn [resp_items fmap list_fmap length] in Hd.
  cbn [fmap list_fmap]. rewrite Hd by (apply Forall_singleton; by apply spec_read_item_wf).
  done.
Qed.

Lemma write_one_linked context msg i d c r s :
  AddressItem_addressable i → blen d < 8192 →
  ∃ s', mem_eq (mem_of s') (spec_write_item (fun a => is_area_locked a s) (mem_of s)
                              {| address := i; write_data := d |})
    ∧ (∀ a, is_area_locked a s' = is_area_locked a s) ∧ clock s' = clock s ∧
    write_one context msg i d (linked c r s) = (Ok tt, linked c (as_u16 (r + 1)) s').
Proof.
  intros Hi Hd.
  destruct (write_exchange_linked [ {| address := i; write_data := d |} ] c r s)
    as (s' & Hm & Hl & Hc & He).
  - by apply Forall_singleton.
  - cbn; lia.
  - unfold WriteVarRequest_encode, WriteItem_data_encode.
    cbn [write_items fmap list_fmap concat address write_data].
    rewrite !app_nil_r, !blen_app, blen_AddressItem_encode.
    destruct (negb _); autorewrite with blen; blen_pose; lia.
  - exists s'. split_and!; [done..|]. unfold write_one. rewrite (io_bind_ok _ _ _ _ _ He).
    cbn [length app]. rewrite check_plc_error_ack. done.
Qed.

(** ** Data blocks *)
Definition db_item (db start len : Z) : AddressItem :=
  {| area := DataBlock; db_number := db; start := start; bit_offset := 0; item_length := len;
     transport := Byte |}.

Lemma db_item_addressable db start len :
  u16 db → u16 len → 0 <= start < 2097152 → AddressItem_addressable (db_item db start len).
Proof. intros. unfold AddressItem_addressable. cbn. split_and!; try done; lia. Qed.

Lemma db_write_linked db start d c r s :
  u16 db → 0 <= start < 2097152 → blen d < 8192 → is_area_locked 0x84 s = false →
  ∃ s', S7Client_db_write db start d (linked c r s) = (Ok tt, linked c (as_u16 (r + 1)) s') ∧
        mem_eq (mem_of s') (spec_write 0x84 db start d (mem_of s)) ∧
        ∀ a, is_area_locked a s' = is_area_locked a s.
Proof.
  intros Hdb Hst Hd Hl. blen_pose. assert (u16 (blen d)) by (unwidth; lia).
  destruct (write_one_linked "db_write" "write error" (db_item db start (blen d)) d c r s)
    as (s' & Hm & Hk & _ & Hw); [by apply db_item_addressable|done|].
  unfold spec_write_item in Hm. cbn [address write_data db_item area db_number] in Hm.
  change (to_u8 DataBlock) with 132 in Hm. rewrite Hl in Hm. exists s'. split; [|done].
  unfold S7Client_db_write. by rewrite as_u16_small.
Qed.
Lemma db_read_linked db start len c r s :
  u16 db → 0 <= start < 2097152 → 0 <= len < 8192 →
  ∃ s', S7Client_db_read db start len (linked c r s) =
          (Ok (spec_read 0x84 db start len (mem_of s)), linked c (as_u16 (r + 1)) s') ∧
        same_data s s'.
Proof.
  intros Hdb Hst Hl.
  destruct (read_one_linked "db_read" (db_item db start len) c r s) as (s' & Hs & Hr);
    [apply db_item_addressable; [done|unwidth; lia|done]|cbn; lia|].
  by exists s'.
Qed.

(** C1: the whole stack moves data: on a client connected to the simulated
    PLC, a [db_write] of less than 8192 bytes to an unlocked data block below
    offset 2^21 succeeds, changes exactly the addressed range of the PLC's
    memory, and a following [db_read] of the same range returns the bytes that
    were written. *)
Theorem db_write_read_end_to_end c r s db start d :
  u16 db → 0 <= start < 2097152 → blen d < 8192 → is_area_locked 0x84 s = false →
  ∃ s1 s2,
    S7Client_db_write db start d (linked c r s) = (Ok tt, linked c (as_u16 (r + 1)) s1) ∧
    mem_eq (mem_of s1) (spec_write 0x84 db start d (mem_of s)) ∧
    S7Client_db_read db start (blen d) (linked c (as_u16 (r + 1)) s1) =
      (Ok d, linked c (as_u16 (as_u16 (r + 1) + 1)) s2) ∧
    mem_of s2 = mem_of s1.
Proof.
  intros Hdb Hst Hd Hl. blen_pose.
  destruct (db_write_linked db start d c r s) as (s1 & Hw & Hm & _); [done..|].
  destruct (db_read_linked db start (blen d) c (as_u16 (r + 1)) s1) as (s2 & Hr & Hm2 & _);
    [done|done|lia|].
  exists s1, s2. split_and!; [done|done| |done].
  rewrite Hr. do 2 f_equal. rewrite Hm. apply spec_read_write.
Qed.

Lemma db_write_read_end_to_end_witness :
  ∃ s1 s2,
    S7Client_db_write 1 4 [222; 173] (linked {| pdu_size := 480 |} 1 DataStore_new) =
      (Ok tt, linked {| pdu_size := 480 |} 2 s1) ∧
    mem_eq (mem_of s1) (spec_write 0x84 1 4 [222; 173] (mem_of DataStore_new)) ∧
    S7Client_db_read 1 4 2 (linked {| pdu_size := 480 |} 2 s1) =
      (Ok [222; 173], linked {| pdu_size := 480 |} 3 s2) ∧
    mem_of s2 = mem_of s1.
Proof.
  apply (db_write_read_end_to_end {| pdu_size := 480 |} 1 DataStore_new 1 4 [222; 173]);
    try done; unwidth; lia.
Defined.

(** Responses are not matched to requests: if a response is still queued
    when a request is sent (as after a request that timed out), the request is
    answered with the queued response, whatever its reference, and its own
    response stays in the queue for the next request. *)
Theorem stale_response_accepted c r s db start len ref dl d :
  u16 db → u16 ref → u16 dl → 0 <= start < 2097152 → 0 <= len < 8192 → blen d < 8192 →
  let stale := S7Header_encode (ack_header ref 2 dl 0 0) ++ [0x04; 1] ++
               DataItem_encode {| return_code := 0xFF; item_data := d |} in
  let own := read_response (as_u16 (r + 1)) (mem_of s) [db_item db start len] in
  ∃ s', S7Client_db_read db start len (queued (data_frame stale) c r false s) =
        (Ok d, queued (data_frame own) c (as_u16 (r + 1)) false s').
Proof.
  intros Hdb Href Hdl Hst Hlen Hd stale own. set (r' := as_u16 (r + 1)) in *.
  assert (u16 r') as Hr by apply as_u16_u16.
  assert (AddressItem_addressable (db_item db start len)) as Ha
    by (apply db_item_addressable; [done|unwidth; lia|done]).
  set (pb := ReadVarRequest_encode {| read_items := [db_item db start len] |}).
  destruct (dispatch_read (request_header (as_u16 (blen pb)) (as_u16 (blen [])) r' Job)
              [db_item db start len] s) as (s' & _ & Hdis);
    [by apply request_header_wf|done|by apply Forall_singleton|cbn; lia|].
  exists s'. unfold S7Client_db_read, read_one. fold (db_item db start len). fold pb.
  assert (exchange pb [] Job (queued (data_frame stale) c r false s) =
    (Ok (ack_header ref 2 dl 0 0, [0x04; 1] ++
         DataItem_encode {| return_code := 0xFF; item_data := d |}),
     queued (data_frame own) c r' false s')) as He.
  { apply (exchange_queued _ _ _ _ _ _ _ own s' stale (data_frame own)).
    - rewrite blen_request_payload. vm_compute. discriminate.
    - apply read_response_fits. by apply single_item_fits.
    - subst stale. rewrite !blen_app, blen_ack_header.
      pose proof (blen_DataItem_encode {| return_code := 0xFF; item_data := d |}) as H.
      cbn [item_data] in H. autorewrite with blen. lia.
    - intros T Tr tr. unfold request_payload. rewrite app_nil_r. apply Hdis.
    - done.
    - apply S7Header_decode_encode, ack_header_wf; try done; unwidth; lia. }
  rewrite (io_bind_ok _ _ _ _ _ He). cbn [app]. rewrite check_plc_error_ack, skip_echo_cons.
  unfold io_lift, io_bind.
  pose proof (ReadVarResponse_decode_encode
    {| resp_items := [ {| return_code := 0xFF; item_data := d |} ] |} []) as Hdec.
  rewrite app_nil_r in Hdec. cbn [resp_items length] in Hdec.
  unfold ReadVarResponse_encode in Hdec. cbn [resp_items fmap list_fmap concat] in Hdec.
  rewrite app_nil_r in Hdec. by rewrite Hdec by (by apply Forall_singleton).
Qed.

Lemma stale_response_accepted_witness :
  let stale := S7Header_encode (ack_header 7 2 5 0 0) ++ [0x04; 1] ++
               DataItem_encode {| return_code := 0xFF; item_data := [42] |} in
  let own := read_response 9 (mem_of DataStore_new) [db_item 1 0 1] in
  ∃ s', S7Client_db_read 1 0 1 (queued (data_frame stale) {| pdu_size := 480 |} 8 false
                                  DataStore_new) =
        (Ok [42], queued (data_frame own) {| pdu_size := 480 |} 9 false s').
Proof.
  apply (stale_response_accepted {| pdu_size := 480 |} 8 DataStore_new 1 0 1 7 5 [42]);
    try done; unwidth; lia.
Defined.
