(* ===== verification/Batching.v ===== *)
(** * Batched variable access (client.rs, [read_multi_vars], [write_multi_vars])

    The batch loops of the client: how a batch is cut, that a batch never
    exceeds the limits it is cut for, and that the batches together move every
    item, in order, when the client is connected to the simulated PLC. *)

From S2P Require Import Prelude Wire Io Tpkt Cotp S7Header ReadVar WriteVar Store ServerHandshake.
From S2P Require Import Dispatch Connection Client Loopback.
Local Open Scope Z_scope.

(** ** Sizes on the wire *)
Definition read_item_size (i : MultiReadItem) : Z := 4 + mr_length i + mr_length i mod 2.
Definition write_item_size (i : MultiWriteItem) : Z :=
  16 + blen (mw_data i) + blen (mw_data i) mod 2.

Definition sum_sizes {A} (f : A → Z) (l : list A) : Z := foldr (fun x a => f x + a) 0 l.

Lemma blen_DataItem_encode_eq d :
  blen (DataItem_encode d) = 4 + blen (item_data d) + blen (item_data d) mod 2.
Proof.
  unfold DataItem_encode, is_even. autorewrite with blen.
  case_ltb; cbn [negb]; autorewrite with blen; Z.div_mod_to_equations; lia.
Qed.

Lemma blen_read_response_data m items :
  Forall (fun i => 0 <= mr_length i) items →
  blen (ReadVarResponse_encode {| resp_items := spec_read_item m <$> (read_address <$> items) |}) =
  sum_sizes read_item_size items.
Proof.
  unfold ReadVarResponse_encode. cbn [resp_items].
  induction 1 as [|i items Hi _ IH]; [done|]. rewrite !fmap_cons. cbn [concat].
  rewrite blen_app, blen_DataItem_encode_eq, IH.
  cbn [sum_sizes foldr spec_read_item item_data read_address item_length].
  by rewrite length_spec_read, Z.max_r.
Qed.

Lemma blen_write_request items :
  blen (WriteVarRequest_encode {| write_items := write_address <$> items |}) =
  2 + sum_sizes write_item_size items.
Proof.
  unfold WriteVarRequest_encode. cbn [write_items]. rewrite !blen_app.
  induction items as [|i items IH]; [done|].
  rewrite !fmap_cons. cbn [concat sum_sizes foldr].
  rewrite !blen_app, blen_AddressItem_encode. autorewrite with blen in *.
  assert (blen (WriteItem_data_encode (write_address i)) =
          4 + blen (mw_data i) + blen (mw_data i) mod 2) as ->.
  { unfold WriteItem_data_encode, is_even. cbn [write_address write_data].
    autorewrite with blen. case_ltb; cbn [negb]; autorewrite with blen;
      Z.div_mod_to_equations; lia. }
  unfold write_item_size at 1. unfold sum_sizes in IH. lia.
Qed.

(** ** Cutting a batch *)
Lemma read_batch_le mp mr n u v items :
  0 <= n → (read_batch mp mr n u v items <= length items)%nat ∧
  Z.of_nat (read_batch mp mr n u v items) <= Z.max 0 (20 - n).
Proof.
  revert n u v. induction items as [|i items IH]; intros n u v Hn; cbn [read_batch length]; [lia|].
  case_ltb; [|lia]. destruct (_ && _); [lia|].
  destruct (IH (n + 1) (u + 12) (v + (4 + mr_length i + mr_length i mod 2))); lia.
Qed.

Lemma read_batch_fits mp mr n u v items :
  0 < n → u <= mp → v <= mr →
  let k := read_batch mp mr n u v items in
  u + 12 * Z.of_nat k <= mp ∧ v + sum_sizes read_item_size (take k items) <= mr.
Proof.
  revert n u v. induction items as [|i items IH]; intros n u v Hn Hu Hv; cbn [read_batch].
  { cbn. lia. }
  case_ltb; [|cbn; lia]. destruct (_ && _) eqn:E; [cbn; lia|].
  apply andb_false_iff in E as [E|E]; [lia|]. apply orb_false_iff in E as [E1 E2].
  destruct (IH (n + 1) (u + 12) (v + (4 + mr_length i + mr_length i mod 2))) as [H1 H2]; [lia..|].
  cbv zeta. cbn [take sum_sizes foldr]. unfold sum_sizes in H2. unfold read_item_size at 1. lia.
Qed.

(** A batch takes between one and twenty items; with more than one item it
    stays within both budgets. *)
Lemma read_batch_spec mp items :
  items ≠ [] → Forall (fun i => 0 <= mr_length i) items →
  let k := read_batch mp mp 0 0 0 items in
  (1 <= k <= length items)%nat ∧ (k <= 20)%nat ∧
  (k = 1%nat ∨ 12 * Z.of_nat k <= mp ∧ sum_sizes read_item_size (take k items) <= mp).
Proof.
  intros Hne Hpos k. destruct items as [|i items]; [done|].
  destruct (read_batch_le mp mp 0 0 0 (i :: items) ltac:(lia)) as [H1 H2].
  assert (k = S (read_batch mp mp 1 12 (read_item_size i) items)) as Hk by done.
  split; [lia|]. split; [lia|].
  destruct (decide (12 <= mp ∧ read_item_size i <= mp)) as [[Hu Hv]|Hn].
  - right. pose proof (read_batch_fits mp mp 1 12 (read_item_size i) items ltac:(lia) Hu Hv) as H.
    cbv zeta in H. rewrite Hk. cbn [take sum_sizes foldr]. unfold sum_sizes in H. lia.
  - left. rewrite Hk. f_equal. destruct items as [|j items]; [done|]. cbn [read_batch].
    apply Forall_cons in Hpos as [Hi [Hj _]%Forall_cons].
    pose proof (Z.mod_pos_bound (mr_length j) 2 ltac:(lia)).
    match goal with |- context [if ?c then 0%nat else _] => replace c with true; [done|] end.
    unfold read_item_size in *. lia.
Qed.

Lemma write_batch_le mp n u items :
  0 <= n → (write_batch mp n u items <= length items)%nat ∧
  Z.of_nat (write_batch mp n u items) <= Z.max 0 (20 - n).
Proof.
  revert n u. induction items as [|i items IH]; intros n u Hn; cbn [write_batch length]; [lia|].
  case_ltb; [|lia]. destruct (_ && _); [lia|].
  destruct (IH (n + 1) (u + (12 + 4 + blen (mw_data i) + blen (mw_data i) mod 2))); lia.
Qed.

Lemma write_batch_fits mp n u items :
  0 < n → u <= mp →
  let k := write_batch mp n u items in
  u + sum_sizes write_item_size (take k items) <= mp.
Proof.
  revert n u. induction items as [|i items IH]; intros n u Hn Hu; cbn [write_batch].
  { cbn. lia. }
  case_ltb; [|cbn; lia]. destruct (_ && _) eqn:E; [cbn; lia|].
  pose proof (IH (n + 1) (u + (12 + 4 + blen (mw_data i) + blen (mw_data i) mod 2))) as H1.
  cbv zeta in *. cbn [take sum_sizes foldr]. unfold sum_sizes in H1.
  unfold write_item_size at 1. lia.
Qed.

Lemma write_batch_spec mp items :
  items ≠ [] →
  let k := write_batch mp 0 0 items in
  (1 <= k <= length items)%nat ∧ (k <= 20)%nat ∧
  (k = 1%nat ∨ sum_sizes write_item_size (take k items) <= mp).
Proof.
  intros Hne k. destruct items as [|i items]; [done|].
  destruct (write_batch_le mp 0 0 (i :: items) ltac:(lia)) as [H1 H2].
  assert (k = S (write_batch mp 1 (write_item_size i) items)) as Hk by done.
  split; [lia|]. split; [lia|].
  destruct (decide (write_item_size i <= mp)) as [Hu|Hn].
  - right. pose proof (write_batch_fits mp 1 (write_item_size i) items ltac:(lia) Hu) as H.
    cbv zeta in H. rewrite Hk. cbn [take sum_sizes foldr]. unfold sum_sizes in H. lia.
  - left. rewrite Hk. f_equal. destruct items as [|j items]; [done|]. cbn [write_batch].
    pose proof (Z.mod_pos_bound (blen (mw_data j)) 2 ltac:(lia)). blen_pose.
    match goal with |- context [if ?c then 0%nat else _] => replace c with true; [done|] end.
    unfold write_item_size in *. lia.
Qed.

(** C35: batches respect the protocol limits: a batch of [read_multi_vars] is
    not empty, holds at most 20 items and, unless it is a single item, its
    request fits the negotiated PDU size; the server's response exceeds it by
    at most 2 bytes.  A batch of [write_multi_vars] is cut the same way and its
    request fits the PDU size. *)
Theorem batches_within_pdu P r items witems :
  12 <= P → items ≠ [] → Forall (fun i => 0 <= mr_length i) items → witems ≠ [] →
  let mp := saturating_sub P 12 in
  let batch := take (read_batch mp mp 0 0 0 items) items in
  let wbatch := take (write_batch mp 0 0 witems) witems in
  (1 <= length batch <= 20)%nat ∧ (1 <= length wbatch <= 20)%nat ∧
  (length batch = 1%nat ∨
   blen (request_payload (ReadVarRequest_encode {| read_items := read_address <$> batch |}) []
           r Job) <= P ∧
   ∀ m, blen (read_response r m (read_address <$> batch)) <= P + 2) ∧
  (length wbatch = 1%nat ∨
   blen (request_payload (WriteVarRequest_encode {| write_items := write_address <$> wbatch |}) []
           r Job) <= P).
Proof.
  intros HP Hne Hpos Hwne mp batch wbatch.
  assert (mp = P - 12) as Hmp by (unfold mp, saturating_sub; lia).
  subst batch wbatch. rewrite Hmp. clear mp Hmp.
  destruct (read_batch_spec (P - 12) items Hne Hpos) as (H1 & H2 & H3).
  destruct (write_batch_spec (P - 12) witems Hwne) as (W1 & W2 & W3).
  set (k := read_batch _ _ _ _ _ _) in *. set (w := write_batch _ _ _ _) in *.
  rewrite !length_take. split; [lia|]. split; [lia|]. split.
  - destruct H3 as [H3|[H3 H4]]; [left; lia|right]. split.
    + rewrite blen_request_payload. unfold ReadVarRequest_encode. cbn [read_items].
      rewrite !blen_app, (blen_concat_fmap _ 12), length_fmap, length_take by done.
      autorewrite with blen. lia.
    + intros m. unfold read_response. rewrite !blen_app, blen_ack_header,
        blen_read_response_data by (by apply Forall_take).
      autorewrite with blen. lia.
  - destruct W3 as [W3|W3]; [left; lia|right].
    rewrite blen_request_payload, blen_write_request. autorewrite with blen. lia.
Qed.

Lemma batches_within_pdu_witness :
  let items := replicate 25 (MultiReadItem_db 1 0 10) in
  let batch := take (read_batch 468 468 0 0 0 items) items in
  (1 <= length batch <= 20)%nat.
Proof.
  intros items batch.
  apply (batches_within_pdu 480 1 items [MultiWriteItem_db 1 0 [1]]);
    [lia|done|by apply Forall_replicate|done].
Defined.

(** The response budget forgets that an acknowledgement header is two
    bytes longer than a request header: with a PDU size of 480 the client puts
    two 230-byte items into one batch, and the response to it is 482 bytes
    long. *)
Theorem read_batch_response_overruns_pdu r m :
  let items := [MultiReadItem_db 1 0 230; MultiReadItem_db 1 230 230] in
  read_batch (saturating_sub 480 12) (saturating_sub 480 12) 0 0 0 items = 2%nat ∧
  blen (read_response r m (read_address <$> items)) = 482.
Proof.
  intros items. split; [reflexivity|]. unfold read_response.
  rewrite !blen_app, blen_ack_header, blen_read_response_data; [reflexivity|].
  by repeat (constructor; [cbn; lia|]).
Qed.

(** ** Reading and writing everything *)
Definition read_item_ok (i : MultiReadItem) : Prop :=
  u16 (mr_db_number i) ∧ 0 <= mr_start i < 2097152 ∧ 0 <= mr_length i < 8192.

Definition spec_multi_read (m : Mem) (i : MultiReadItem) : bytes :=
  spec_read (to_u8 (mr_area i)) (mr_db_number i) (mr_start i) (mr_length i) m.

Lemma read_address_addressable i : read_item_ok i → AddressItem_addressable (read_address i).
Proof.
  intros (? & ? & ?). unfold AddressItem_addressable. cbn.
  split_and!; try done; unwidth; lia.
Qed.

Lemma read_batch_response_fits mp m items :
  items ≠ [] → Forall read_item_ok items → mp <= 65514 →
  blen (ReadVarResponse_encode {| resp_items := spec_read_item m <$>
          (read_address <$> take (read_batch mp mp 0 0 0 items) items) |}) <= 65514.
Proof.
  intros Hne Hok Hmp.
  assert (Forall (fun i => 0 <= mr_length i) items) as Hpos
    by (eapply Forall_impl; [exact Hok|]; intros i (_ & _ & ? & _); done).
  rewrite blen_read_response_data by (by apply Forall_take).
  destruct (read_batch_spec mp items Hne Hpos) as (H1 & H2 & [-> |[_ H3]]); [|lia].
  destruct items as [|i items]; [done|]. apply Forall_cons in Hok as [(_ & _ & Hl) _].
  pose proof (Z.mod_pos_bound (mr_length i) 2 ltac:(lia)).
  cbn [take sum_sizes foldr]. unfold read_item_size. rewrite take_0. cbn. lia.
Qed.

Lemma store_results_ok done_ ds n :
  Forall (fun d => return_code d = 0xFF) ds →
  store_results (length done_) ds (done_ ++ replicate (length ds + n) []) =
  Ok (done_ ++ (item_data <$> ds) ++ replicate n []).
Proof.
  intros Hds. revert done_. induction Hds as [|d ds Hd Hds IH]; intros done_; [done|].
  cbn [store_results length Nat.add replicate]. rewrite Hd. cbn [Z.eqb Pos.eqb negb].
  rewrite (cons_middle _ done_).
  rewrite <- (Nat.add_0_r (length done_)) at 2. rewrite insert_app_r. cbn [insert list_insert app].
  specialize (IH (done_ ++ [item_data d])). rewrite length_app, Nat.add_1_r in IH.
  rewrite <- !(assoc_L (++)) in IH. cbn [app] in IH. rewrite IH. done.
Qed.

Lemma read_multi_loop_step {T} `{Transport T} fuel mp k items results :
  items ≠ [] →
  read_multi_loop (S fuel) mp k items results =
  (let n := read_batch mp mp 0 0 0 items in
   let batch := take n items in
   let* (header, body) :=
     exchange (ReadVarRequest_encode {| read_items := read_address <$> batch |}) [] Job in
   let* _ := io_lift (check_plc_error header "read_multi_vars") in
   let* (resp, _) :=
     io_lift (res_map_err Client.Proto
                (ReadVarResponse_decode (length batch) (skip_echo body))) in
   let* results := io_lift (store_results k (resp_items resp) results) in
   read_multi_loop fuel mp (k + n) (drop n items) results).
Proof. by destruct items. Qed.

(** One batch: the items requested are the next ones of the result. *)
Lemma read_multi_turn_linked fuel mp items done_ c r s :
  items ≠ [] → mp <= 65514 → Forall read_item_ok items →
  let k := read_batch mp mp 0 0 0 items in
  (0 < k <= length items)%nat ∧ length (take k items) = k ∧
  ∃ s', mem_of s' = mem_of s ∧
    read_multi_loop (S fuel) mp (length done_) items (done_ ++ replicate (length items) [])
      (linked c r s) =
    read_multi_loop fuel mp (length done_ + k) (drop k items)
      (done_ ++ (spec_multi_read (mem_of s) <$> take k items) ++
       replicate (length (drop k items)) []) (linked c (as_u16 (r + 1)) s').
Proof.
  intros Hne Hmp Hok k.
  assert (Forall (fun i => 0 <= mr_length i) items) as Hpos
    by (eapply Forall_impl; [exact Hok|]; intros i (_ & _ & ? & _); done).
  destruct (read_batch_spec mp items Hne Hpos) as (Hk1 & Hk2 & _).
  pose proof (read_batch_response_fits mp (mem_of s) items Hne Hok Hmp) as Hfit. fold k in Hk1, Hk2, Hfit.
  assert (length (take k items) = k) as Hlk by (rewrite length_take; lia).
  assert (Forall AddressItem_addressable (read_address <$> take k items)) as Haddr.
  { apply Forall_fmap, Forall_take. eapply Forall_impl; [exact Hok|].
    apply read_address_addressable. }
  destruct (read_exchange_linked (read_address <$> take k items) c r s)
    as (s1 & dl & (Hm & _) & He); [done|rewrite length_fmap; lia|done|].
  split; [lia|]. split; [done|]. exists s1. split; [done|].
  rewrite read_multi_loop_step by done. cbv zeta. fold k.
  rewrite (io_bind_ok _ _ _ _ _ He). cbn [app].
  rewrite check_plc_error_ack, skip_echo_cons. unfold io_lift at 1, io_bind at 1.
  pose proof (ReadVarResponse_decode_encode
    {| resp_items := spec_read_item (mem_of s) <$> (read_address <$> take k items) |} []) as Hd.
  rewrite app_nil_r in Hd. cbn [resp_items] in Hd. rewrite !length_fmap in Hd.
  unfold io_lift at 1, io_bind at 1. rewrite Hd; clear Hd.
  2: { apply Forall_fmap, Forall_fmap, Forall_take. eapply Forall_impl; [exact Hok|].
       intros i (_ & _ & ?). apply spec_read_item_wf. cbn. lia. }
  cbn [res_map_err resp_items]. unfold io_lift at 1, io_bind at 1.
  pose proof (store_results_ok done_
    (spec_read_item (mem_of s) <$> (read_address <$> take k items)) (length (drop k items))) as Hst.
  rewrite !length_fmap, <- length_app, take_drop in Hst.
  rewrite Hst by (apply Forall_fmap, Forall_fmap, Forall_true; done).
  by rewrite <- !list_fmap_compose.
Qed.

Lemma read_multi_loop_linked fuel mp items done_ c r s :
  (length items <= fuel)%nat → mp <= 65514 → Forall read_item_ok items →
  ∃ r' s', mem_of s' = mem_of s ∧
    read_multi_loop fuel mp (length done_) items (done_ ++ replicate (length items) [])
      (linked c r s) =
    (Ok (done_ ++ (spec_multi_read (mem_of s) <$> items)), linked c r' s').
Proof.
  intros Hf Hmp. revert items done_ r s Hf. induction fuel as [|fuel IH];
    intros items done_ r s Hf Hok.
  { destruct items; cbn in Hf; [|lia]. exists r, s. cbn. by rewrite !app_nil_r. }
  destruct (decide (items = [])) as [->|Hne];
    [exists r, s; cbn; by rewrite !app_nil_r|].
  destruct (read_multi_turn_linked fuel mp items done_ c r s Hne Hmp Hok) as (Hk & Hlk & s1 & Hm & ->).
  set (k := read_batch mp mp 0 0 0 items) in *.
  destruct (IH (drop k items) (done_ ++ (spec_multi_read (mem_of s) <$> take k items))
              (as_u16 (r + 1)) s1) as (r' & s' & Hm' & IH');
    [rewrite length_drop; lia|by apply Forall_drop|].
  exists r', s'. split; [congruence|].
  rewrite length_app, length_fmap, Hlk, <- (assoc_L (++)) in IH'. rewrite IH'.
  rewrite Hm, <- (assoc_L (++)), <- fmap_app, take_drop. done.
Qed.

(** C7: [read_multi_vars] returns every item, in input order, whatever the
    number of batches: for any list of items below offset 2^21 with less than
    8192 bytes each, on a client connected to the simulated PLC with a PDU size
    of at most 65526, the result is one byte string per item, the content of the
    PLC's memory at that item. *)
Theorem read_multi_vars_end_to_end items c r s :
  Forall read_item_ok items → 0 <= pdu_size c <= 65526 →
  ∃ r' s', mem_of s' = mem_of s ∧
    S7Client_read_multi_vars items (linked c r s) =
    (Ok (spec_multi_read (mem_of s) <$> items), linked c r' s').
Proof.
  intros Hok Hp.
  assert (∀ mp, mp <= 65514 → ∃ r' s', mem_of s' = mem_of s ∧
    read_multi_loop (length items) mp 0 items (replicate (length items) []) (linked c r s) =
    (Ok (spec_multi_read (mem_of s) <$> items), linked c r' s')) as H.
  { intros mp Hmp. by apply (read_multi_loop_linked _ mp items [] c r s). }
  destruct items as [|i items]; [by exists r, s|].
  apply (H (saturating_sub (pdu_size c) 12)). unfold saturating_sub. lia.
Qed.

Lemma read_multi_vars_end_to_end_witness :
  let items := replicate 45 (MultiReadItem_db 1 0 2) in
  ∃ r' s', mem_of s' = mem_of DataStore_new ∧
    S7Client_read_multi_vars items (linked {| pdu_size := 240 |} 1 DataStore_new) =
    (Ok (spec_multi_read (mem_of DataStore_new) <$> items), linked {| pdu_size := 240 |} r' s').
Proof.
  intros items. apply (read_multi_vars_end_to_end items {| pdu_size := 240 |} 1 DataStore_new).
  - apply Forall_replicate. unfold read_item_ok. cbn. unwidth. lia.
  - cbn. lia.
Defined.

Definition write_item_ok (i : MultiWriteItem) : Prop :=
  u16 (mw_db_number i) ∧ 0 <= mw_start i < 2097152 ∧ blen (mw_data i) < 8192.

(** What a list of writes does to the memory: the items one after the other,
    those of locked areas skipped. *)
Definition spec_multi_write (locked : Z → bool) (m : Mem) (i : MultiWriteItem) : Mem :=
  if locked (to_u8 (mw_area i)) then m
  else spec_write (to_u8 (mw_area i)) (mw_db_number i) (mw_start i) (mw_data i) m.

#[export] Instance spec_multi_write_proper locked :
  Proper (mem_eq ==> eq ==> mem_eq) (spec_multi_write locked).
Proof. intros m m' Hm i ? <-. unfold spec_multi_write. destruct (locked _); by rewrite Hm. Qed.

Lemma foldl_mem_proper {A} (f : Mem → A → Mem) l m m' :
  Proper (mem_eq ==> eq ==> mem_eq) f → mem_eq m m' → mem_eq (foldl f m l) (foldl f m' l).
Proof.
  intros Hf. revert m m'. induction l as [|x l IH]; intros m m' Hm; cbn; [done|].
  apply IH. by apply Hf.
Qed.

Lemma foldl_write_address locked items m :
  foldl (spec_write_item locked) m (write_address <$> items) =
  foldl (spec_multi_write locked) m items.
Proof. revert m. induction items as [|i items IH]; intros m; [done|]. cbn. by rewrite <- IH. Qed.

Lemma write_address_ok i :
  write_item_ok i →
  AddressItem_addressable (address (write_address i)) ∧
  blen (write_data (write_address i)) < 8192.
Proof.
  intros (Hd & Hs & Hl). split; [|done]. unfold AddressItem_addressable. cbn.
  split_and!; try done; try lia; apply as_u16_u16.
Qed.

Lemma check_codes_ok k n : check_codes k (replicate n 0xFF) = Ok tt.
Proof. revert k. induction n as [|n IH]; intros k; [done|]. apply IH. Qed.

Lemma write_multi_loop_step {T} `{Transport T} fuel mp k items :
  items ≠ [] →
  write_multi_loop (S fuel) mp k items =
  (let n := write_batch mp 0 0 items in
   let batch := take n items in
   let* (header, body) :=
     exchange (WriteVarRequest_encode {| write_items := write_address <$> batch |}) [] Job in
   let* _ := io_lift (check_plc_error header "write_multi_vars") in
   let* (resp, _) :=
     io_lift (res_map_err Client.Proto
                (WriteVarResponse_decode (length batch) (skip_echo body))) in
   let* _ := io_lift (check_codes k (return_codes resp)) in
   write_multi_loop fuel mp (k + n) (drop n items)).
Proof. by destruct items. Qed.

Lemma write_batch_request_fits mp items :
  items ≠ [] → Forall write_item_ok items → mp <= 65498 →
  blen (WriteVarRequest_encode
          {| write_items := write_address <$> take (write_batch mp 0 0 items) items |}) <= 65500.
Proof.
  intros Hne Hok Hmp. rewrite blen_write_request.
  destruct (write_batch_spec mp items Hne) as (_ & _ & [-> |H]); [|lia].
  destruct items as [|i items]; [done|]. apply Forall_cons in Hok as [(_ & _ & Hl) _].
  pose proof (Z.mod_pos_bound (blen (mw_data i)) 2 ltac:(lia)).
  cbn [take sum_sizes foldr]. unfold write_item_size. rewrite take_0. cbn. lia.
Qed.

Lemma write_multi_loop_linked fuel mp k items c r s :
  (length items <= fuel)%nat → mp <= 65498 → Forall write_item_ok items →
  ∃ r' s',
    mem_eq (mem_of s') (foldl (spec_multi_write (fun a => is_area_locked a s)) (mem_of s) items) ∧
    write_multi_loop fuel mp k items (linked c r s) = (Ok tt, linked c r' s').
Proof.
  intros Hf Hmp. revert k items r s Hf. induction fuel as [|fuel IH];
    intros k items r s Hf Hok.
  { destruct items; cbn in Hf; [|lia]. by exists r, s. }
  destruct (decide (items = [])) as [->|Hne]; [by exists r, s|].
  destruct (write_batch_spec mp items Hne) as (Hk1 & Hk2 & _).
  pose proof (write_batch_request_fits mp items Hne Hok Hmp) as Hfit.
  rewrite write_multi_loop_step by done. cbv zeta. set (n := write_batch mp 0 0 items) in *.
  assert (length (take n items) = n) as Hln by (rewrite length_take; lia).
  destruct (write_exchange_linked (write_address <$> take n items) c r s)
    as (s1 & Hm & Hlk & _ & He).
  { apply Forall_fmap, Forall_take. eapply Forall_impl; [exact Hok|]. apply write_address_ok. }
  { rewrite length_fmap. lia. }
  { done. }
  destruct (IH (k + n)%nat (drop n items) (as_u16 (r + 1)) s1) as (r' & s' & Hm' & IH');
    [rewrite length_drop; lia|by apply Forall_drop|].
  exists r', s'. split.
  - rewrite Hm'. rewrite <- (take_drop n items) at 2. rewrite foldl_app.
    transitivity (foldl (spec_multi_write (fun a => is_area_locked a s)) (mem_of s1) (drop n items)).
    + generalize (drop n items) as l. generalize (mem_of s1) as m. intros m l. revert m.
      induction l as [|x l IHl]; intros m; cbn; [done|].
      unfold spec_multi_write at 2 4. rewrite Hlk. apply IHl.
    + apply foldl_mem_proper; [apply spec_multi_write_proper|].
      by rewrite Hm, foldl_write_address.
  - rewrite (io_bind_ok _ _ _ _ _ He). cbn [app]. rewrite check_plc_error_ack, skip_echo_cons.
    unfold io_lift at 1, io_bind at 1. rewrite length_fmap.
    pose proof (WriteVarResponse_decode_codes (replicate (length (take n items)) 0xFF) []) as Hd.
    rewrite app_nil_r, length_replicate in Hd.
    unfold io_lift at 1, io_bind at 1. rewrite Hd. cbn [res_map_err return_codes].
    unfold io_lift at 1, io_bind at 1. rewrite check_codes_ok. exact IH'.
Qed.

(** C8: [write_multi_vars] performs every write, in input order, whatever the
    number of batches: for any list of items below offset 2^21 with less than
    8192 bytes each, on a client connected to the simulated PLC with a PDU size
    of at most 65510, it succeeds and leaves the memory as the listed writes
    leave it one after the other; items of locked areas are skipped by the PLC
    and still reported as written. *)
Theorem write_multi_vars_end_to_end items c r s :
  Forall write_item_ok items → 0 <= pdu_size c <= 65510 →
  ∃ r' s',
    mem_eq (mem_of s') (foldl (spec_multi_write (fun a => is_area_locked a s)) (mem_of s) items) ∧
    S7Client_write_multi_vars items (linked c r s) = (Ok tt, linked c r' s').
Proof.
  intros Hok Hp. destruct items as [|i items]; [by exists r, s|].
  apply (write_multi_loop_linked _ (saturating_sub (pdu_size c) 12) 0 (i :: items) c r s);
    [done|unfold saturating_sub; lia|done].
Qed.

Lemma write_multi_vars_end_to_end_witness :
  let items := [MultiWriteItem_db 1 0 [1; 2; 3]; MultiWriteItem_db 1 2 [9]] in
  ∃ r' s',
    mem_eq (mem_of s') (foldl (spec_multi_write (fun a => is_area_locked a DataStore_new))
                          (mem_of DataStore_new) items) ∧
    S7Client_write_multi_vars items (linked {| pdu_size := 240 |} 1 DataStore_new) =
    (Ok tt, linked {| pdu_size := 240 |} r' s').
Proof.
  intros items. apply (write_multi_vars_end_to_end items {| pdu_size := 240 |} 1 DataStore_new).
  - repeat (constructor; [unfold write_item_ok, u16; cbn [mw_db_number mw_start mw_data
      MultiWriteItem_db]; autorewrite with blen; lia|]). constructor.
  - cbn. lia.
Defined.
