(* ===== verification/ClientServices.v ===== *)
(** * Services of the S7 client: SZL queries, clock, control (client.rs) *)

From S2P Require Import Prelude Wire Io Tpkt Cotp S7Header Clock Szl Connection Client.
Local Open Scope Z_scope.

Inductive PlcStatus := StatusUnknown | StatusStop | StatusRun.
#[export] Instance PlcStatus_eq_dec : EqDecision PlcStatus.
Proof. solve_decision. Defined.

Record CpInfo := {
  max_pdu_len : Z;
  max_connections : Z;
  max_mpi_rate : Z;
  max_bus_rate : Z;
}.

Record Protection := {
  scheme_szl : Z;
  scheme_module : Z;
  scheme_bus : Z;
  level : Z;
  password_set : bool;
}.

Record BlockListEntry := { bl_block_type : Z; bl_count : Z }.
Record BlockList := { total_count : Z; bl_entries : list BlockListEntry }.

(** ** System time to date: the arithmetic of [set_clock_to_now] *)
Definition is_leap (year : Z) : bool :=
  ((year mod 4 =? 0) && negb (year mod 100 =? 0)) || (year mod 400 =? 0).
Definition days_in_year (year : Z) : Z := if is_leap year then 366 else 365.

(** [loop { if d < days_in_year { break } d -= days_in_year; year += 1 }]; a
    year has at least 365 days, so [d / 365] turns are enough. *)
Fixpoint year_loop (fuel : nat) (year d : Z) : Z * Z :=
  match fuel with
  | O => (year, d)
  | S fuel' =>
      if d <? days_in_year year then (year, d)
      else year_loop fuel' (year + 1) (d - days_in_year year)
  end.

Definition days_per_month (leap : bool) : list Z :=
  [31; if leap then 29 else 28; 31; 30; 31; 30; 31; 31; 30; 31; 30; 31].

(** [for &dpm in &days_per_month { if d < dpm { break } d -= dpm; month += 1 }] *)
Fixpoint month_loop (dpms : list Z) (month d : Z) : Z * Z :=
  match dpms with
  | [] => (month, d)
  | dpm :: dpms' => if d <? dpm then (month, d) else month_loop dpms' (month + 1) (d - dpm)
  end.

Definition date_of_secs (secs : Z) : PlcDateTime :=
  let s := secs mod 60 in
  let m := (secs / 60) mod 60 in
  let h := (secs / 3600) mod 24 in
  let days := secs / 86400 in
  let '(year, d) := year_loop (S (Z.to_nat (days / 365))) 1970 days in
  let '(month, d) := month_loop (days_per_month (is_leap year)) 1 d in
  {| year := year; month := month; day := as_u8 (d + 1); hour := as_u8 h; minute := as_u8 m;
     second := as_u8 s; millisecond := 0; weekday := 0 |}.

(** ** SZL entry headers *)
Definition skip_szl_entry_header (data : bytes) : bytes :=
  match data with
  | d0 :: d1 :: rest => if (d0 =? 0) && (0 <? d1) && (d1 <=? 200) then rest else data
  | _ => data
  end.

(** [while b.remaining() >= 2 { push(b.get_u16()) }] *)
Fixpoint u16s (b : bytes) : list Z :=
  match b with
  | x :: y :: b' => of_be16 x y :: u16s b'
  | _ => []
  end.

(** [for _ in 0..entry_count { if b.remaining() < entry_len { break }
      ids.push(b.get_u16()); b.advance(entry_len - 2) }], with [2 <= entry_len]. *)
Fixpoint szl_ids (entry_count : nat) (entry_len : Z) (b : bytes) : list Z :=
  match entry_count with
  | O => []
  | S n =>
      if blen b <? entry_len then []
      else
        match b with
        | x :: y :: _ => of_be16 x y :: szl_ids n entry_len (drop (Z.to_nat entry_len) b)
        | _ => []
        end
  end.

(** ASCII letters folded to upper case, and [eq_ignore_ascii_case]. *)
Definition ascii_upper (c : Z) : Z := if (97 <=? c) && (c <=? 122) then c - 32 else c.
Definition eq_ignore_ascii_case (a b : bytes) : bool :=
  bool_decide (ascii_upper <$> a = ascii_upper <$> b).

Section Services.
Context {T : Type} `{Transport T}.

(** ** SZL *)
Definition read_szl_payload (id index : Z) : @Cl T bytes :=
  let req := {| szl_id := id; szl_index := index |} in
  let* (header, body) :=
    exchange (SzlRequest_encode_params req) (SzlRequest_encode_data req) UserData in
  if blen body <? param_len header then io_fail Client.UnexpectedResponse
  else
    match drop (Z.to_nat (param_len header)) body with
    | return_code :: _transport :: _l1 :: _l2 :: rest =>
        io_ret (if negb (return_code =? 0xFF) then [] else rest)
    | _ => io_ret []
    end.

Definition S7Client_read_szl (id index : Z) : @Cl T SzlResponse :=
  let* payload := read_szl_payload id index in
  let* (resp, _) := io_lift (res_map_err Client.Proto (SzlResponse_decode payload)) in
  io_ret resp.

Definition S7Client_read_force_list : @Cl T bytes := read_szl_payload 0x0025 0x0000.

Definition S7Client_read_szl_list : @Cl T (list Z) :=
  let* payload := read_szl_payload 0x0000 0x0000 in
  match payload with
  | [] => io_ret []
  | _ :: _ :: _ :: _ :: e0 :: e1 :: c0 :: c1 :: b =>
      let entry_len := of_be16 e0 e1 in
      let entry_count := of_be16 c0 c1 in
      if entry_len <? 2 then io_fail Client.UnexpectedResponse
      else io_ret (szl_ids (Z.to_nat entry_count) entry_len b)
  | _ => io_fail Client.UnexpectedResponse
  end.

Definition S7Client_get_plc_status : @Cl T PlcStatus :=
  let* payload := read_szl_payload 0x0424 0x0000 in
  if blen payload <? 12 then io_ret StatusUnknown
  else
    match payload !! 11%nat with
    | None => io_lift Panic
    | Some status_byte =>
        io_ret (match status_byte with
                | 0x00 => StatusUnknown
                | 0x04 => StatusStop
                | 0x08 => StatusRun
                | 0x03 => StatusStop
                | _ => StatusStop
                end)
    end.

(** The guard asks for entries of 12 bytes, the entry is read as 14 bytes. *)
Definition S7Client_get_cp_info : @Cl T CpInfo :=
  let none := {| max_pdu_len := 0; max_connections := 0; max_mpi_rate := 0; max_bus_rate := 0 |} in
  let* payload := read_szl_payload 0x0131 0x0001 in
  match payload with
  | s0 :: s1 :: _ :: _ :: e0 :: e1 :: c0 :: c1 :: b =>
      let szl_id := of_be16 s0 s1 in
      let entry_len := of_be16 e0 e1 in
      let entry_count := of_be16 c0 c1 in
      if (szl_id =? 0x0131) && (12 <=? entry_len) && (1 <=? entry_count) &&
         (entry_len <=? blen b) then
        match b with
        | _ :: _ :: p0 :: p1 :: n0 :: n1 :: m0 :: m1 :: m2 :: m3 :: r0 :: r1 :: r2 :: r3 :: _ =>
            io_ret {| max_pdu_len := of_be16 p0 p1; max_connections := of_be16 n0 n1;
                      max_mpi_rate := of_be32 m0 m1 m2 m3;
                      max_bus_rate := of_be32 r0 r1 r2 r3 |}
        | _ => io_lift Panic
        end
      else io_ret none
  | _ => io_ret none
  end.

Definition S7Client_read_module_list : @Cl T (list Z) :=
  let* payload := read_szl_payload 0x00A0 0x0000 in
  if blen payload <? 6 then io_ret []
  else io_ret (u16s (skip_szl_entry_header (drop 6 payload))).

(** The eight bytes of the password field spell [PASSWORD] when one is set;
    trimming can only shorten them, so the test is on all eight bytes. *)
Definition S7Client_get_protection : @Cl T Protection :=
  let* payload := read_szl_payload 0x0032 0x0004 in
  if blen payload <? 14 then io_fail Client.UnexpectedResponse
  else
    match skip_szl_entry_header (drop 6 payload) with
    | a0 :: a1 :: b0 :: b1 :: c0 :: c1 :: l0 :: l1 :: b =>
        io_ret {| scheme_szl := of_be16 a0 a1; scheme_module := of_be16 b0 b1;
                  scheme_bus := of_be16 c0 c1; level := of_be16 l0 l1;
                  password_set := (8 <=? blen b) &&
                    eq_ignore_ascii_case (take 8 b) (str_bytes "PASSWORD") |}
    | _ => io_lift Panic
    end.

(** ** Clock *)
Definition S7Client_read_clock : @Cl T PlcDateTime :=
  let* (header, body) :=
    exchange [0x00; 0x01; 0x12; 0x04; 0x11; 0x47; 0x01; 0x00] [] UserData in
  let total := param_len header + data_len header in
  if (blen body <? total) || (total <? 8) then io_fail Client.UnexpectedResponse
  else
    let* (dt, _) := io_lift (res_map_err Client.Proto
      (PlcDateTime_decode (drop (Z.to_nat (total - 8)) body))) in
    io_ret dt.

Definition S7Client_set_clock (dt : PlcDateTime) : @Cl T unit :=
  let* (header, _) :=
    exchange [0x00; 0x01; 0x12; 0x04; 0x11; 0x47; 0x02; 0x00]
      ([0xFF; 0x09; 0x00; 0x08] ++ PlcDateTime_encode dt) UserData in
  io_lift (check_plc_error header "set_clock").

(** [secs] is the host's Unix time. *)
Definition S7Client_set_clock_to_now (secs : Z) : @Cl T unit :=
  S7Client_set_clock (date_of_secs secs).

(** ** Control *)
(** An exchange whose response only reports success. *)
Definition command (context : string) (param data : bytes) (t : PduType) : @Cl T unit :=
  let* (header, _) := exchange param data t in
  io_lift (check_plc_error header context).

Definition S7Client_copy_ram_to_rom : @Cl T unit :=
  command "copy_ram_to_rom" [0x00; 0x01; 0x12; 0x04; 0x43; 0x44; 0x01; 0x00] [] UserData.
Definition S7Client_compress : @Cl T unit :=
  command "compress" [0x00; 0x01; 0x12; 0x04; 0x42; 0x44; 0x01; 0x00] [] UserData.

Definition pi_service (service : string) : @Cl T unit :=
  let name := str_bytes service in
  command service ([0x28] ++ [0x00] ++ [0x00] ++ be16 (as_u16 (blen name)) ++ name) [] Job.
Definition S7Client_memory_reset : @Cl T unit := pi_service "_MRES".
Definition S7Client_overall_reset : @Cl T unit := pi_service "_OVERALL_RESET".

Definition simple_control (func : Z) : @Cl T unit := command "plc_control" [func; 0x00] [] Job.
Definition S7Client_plc_stop : @Cl T unit := simple_control 0x29.
Definition S7Client_plc_hot_start : @Cl T unit := simple_control 0x28.
Definition S7Client_plc_cold_start : @Cl T unit := simple_control 0x2A.

Definition S7Client_clear_session_password : @Cl T unit :=
  command "clear_session_password" [0x11; 0x00] [] Job.

Definition S7Client_delete_block (block_type block_number : Z) : @Cl T unit :=
  command "delete_block" ([0x1F; 0x00; block_type; 0x00] ++ be16 block_number) [] Job.

(** ** Block lists *)
Fixpoint block_entries (n : nat) (b : bytes) : option (list BlockListEntry) :=
  match n with
  | O => Some []
  | S n' =>
      match b with
      | _ :: t :: c0 :: c1 :: b' =>
          l ← block_entries n' b';
          Some ({| bl_block_type := t; bl_count := of_be16 c0 c1 |} :: l)
      | _ => None
      end
  end.

Definition S7Client_list_blocks : @Cl T BlockList :=
  let none := {| total_count := 0; bl_entries := [] |} in
  let* (header, body) :=
    exchange [0x00; 0x01; 0x12; 0x04; 0x11; 0x43; 0x01; 0x00] [0x0A; 0x00; 0x00; 0x00] UserData in
  if blen body <? param_len header then io_fail Client.UnexpectedResponse
  else
    match drop (Z.to_nat (param_len header)) body with
    | _ :: _ :: l0 :: l1 :: b =>
        if (of_be16 l0 l1 <? 28) || (blen b <? 28) then io_ret none
        else
          match block_entries 7 b with
          | Some entries =>
              io_ret {| total_count := foldr Z.add 0 (bl_count <$> entries);
                        bl_entries := entries |}
          | None => io_lift Panic
          end
    | _ => io_ret none
    end.
End Services.

(** ** The date arithmetic against the calendar *)

(** Days from 1970-01-01 to January 1st of [y], in closed form. *)
Definition days_before_year (y : Z) : Z :=
  365 * (y - 1970) + ((y - 1) / 4 - (y - 1) / 100 + (y - 1) / 400 - 477).

Definition days_before_month (leap : bool) (m : Z) : Z :=
  foldr Z.add 0 (take (Z.to_nat (m - 1)) (days_per_month leap)).

(** The Unix time of a date. *)
Definition secs_of_date (d : PlcDateTime) : Z :=
  ((days_before_year (year d) + days_before_month (is_leap (year d)) (month d) + (day d - 1)) * 24
   + hour d) * 3600 + minute d * 60 + second d.

Definition valid_date (d : PlcDateTime) : Prop :=
  1 <= month d <= 12 ∧
  (∃ dim, days_per_month (is_leap (year d)) !! Z.to_nat (month d - 1) = Some dim ∧
          1 <= day d <= dim) ∧
  0 <= hour d < 24 ∧ 0 <= minute d < 60 ∧ 0 <= second d < 60.

Lemma days_before_year_succ y : days_before_year (y + 1) = days_before_year y + days_in_year y.
Proof.
  unfold days_before_year, days_in_year, is_leap. replace (y + 1 - 1) with y by lia.
  destruct (Z.eqb_spec (y mod 4) 0), (Z.eqb_spec (y mod 100) 0), (Z.eqb_spec (y mod 400) 0);
    cbn [negb andb orb]; Z.div_mod_to_equations; lia.
Qed.

Lemma days_in_year_range y : 365 <= days_in_year y <= 366.
Proof. unfold days_in_year. destruct (is_leap y); lia. Qed.

Lemma year_loop_spec fuel y d :
  0 <= d < 365 * Z.of_nat fuel →
  let '(y', d') := year_loop fuel y d in
  days_before_year y' + d' = days_before_year y + d ∧ 0 <= d' < days_in_year y' ∧
  y <= y' <= y + d / 365.
Proof.
  revert y d. induction fuel as [|fuel IH]; intros y d Hd; [lia|]. cbn [year_loop].
  pose proof (days_in_year_range y). case_ltb.
  - split; [done|]. split; [lia|]. Z.div_mod_to_equations; lia.
  - specialize (IH (y + 1) (d - days_in_year y) ltac:(lia)).
    destruct (year_loop fuel (y + 1) (d - days_in_year y)) as [y' d'].
    rewrite days_before_year_succ in IH. destruct IH as (H1 & H2 & H3 & H4).
    split_and!; try lia. Z.div_mod_to_equations; lia.
Qed.

Lemma month_loop_spec l m d :
  0 <= d < foldr Z.add 0 l → Forall (fun x => 0 <= x) l →
  let '(m', d') := month_loop l m d in
  m <= m' ∧ (∃ dim, l !! Z.to_nat (m' - m) = Some dim ∧ 0 <= d' < dim) ∧
  foldr Z.add 0 (take (Z.to_nat (m' - m)) l) + d' = d.
Proof.
  intros Hd Hl. revert m d Hd. induction Hl as [|x l Hx Hl IH]; intros m d Hd; cbn in Hd; [lia|].
  cbn [month_loop]. case_ltb.
  - rewrite Z.sub_diag. change (Z.to_nat 0) with 0%nat. cbn. split_and!; [lia|exists x; split; [done|lia]|lia].
  - specialize (IH (m + 1) (d - x) ltac:(lia)).
    destruct (month_loop l (m + 1) (d - x)) as [m' d']. destruct IH as (H1 & H2 & H3).
    replace (Z.to_nat (m' - m)) with (S (Z.to_nat (m' - (m + 1)))) by lia.
    cbn. split_and!; [lia|done|lia].
Qed.

Lemma sum_days_per_month leap :
  foldr Z.add 0 (days_per_month leap) = if leap then 366 else 365.
Proof. by destruct leap. Qed.

Lemma days_per_month_range leap : Forall (fun x => 0 <= x <= 31) (days_per_month leap).
Proof. destruct leap; repeat (constructor; [lia|]); constructor. Qed.

Lemma date_of_secs_spec secs :
  0 <= secs < 2 ^ 40 →
  let d := date_of_secs secs in
  valid_date d ∧ secs_of_date d = secs ∧ u16 (year d) ∧ millisecond d = 0 ∧ weekday d = 0.
Proof.
  intros Hs d. subst d. unfold date_of_secs.
  set (days := secs / 86400).
  assert (0 <= days < 12725830) by (subst days; Z.div_mod_to_equations; lia).
  pose proof (year_loop_spec (S (Z.to_nat (days / 365))) 1970 days
                ltac:(Z.div_mod_to_equations; lia)) as Hy.
  destruct (year_loop _ 1970 days) as [y dy]. destruct Hy as (Hy1 & Hy2 & Hy3).
  pose proof (days_per_month_range (is_leap y)) as Hr.
  pose proof (month_loop_spec (days_per_month (is_leap y)) 1 dy) as Hm.
  rewrite sum_days_per_month in Hm. specialize (Hm Hy2 ltac:(eapply Forall_impl; [exact Hr|];
    intros; cbn in *; lia)).
  destruct (month_loop _ 1 dy) as [mo dm]. destruct Hm as (Hm1 & (dim & Hdim & Hdm) & Hm3).
  pose proof (Forall_lookup_1 _ _ _ _ Hr Hdim) as Hdim31. cbn in Hdim31.
  assert (mo <= 12) by (apply lookup_lt_Some in Hdim; cbn in Hdim; lia).
  assert (0 <= secs mod 60 < 60 ∧ 0 <= secs / 60 mod 60 < 60 ∧ 0 <= secs / 3600 mod 24 < 24)
    as (H1 & H2 & H3) by (repeat split; apply Z.mod_pos_bound; lia).
  unfold valid_date, secs_of_date, days_before_month.
  cbn [year month day hour minute second millisecond weekday].
  rewrite !as_u8_small by (unwidth; lia). split_and!; try lia; try done.
  - exists dim. split; [done|lia].
  - change (days_before_year 1970) with 0 in Hy1. unfold days in *.
    Z.div_mod_to_equations; lia.
  - unwidth. Z.div_mod_to_equations; lia.
Qed.

(** The date that [set_clock_to_now] sends is the calendar date of the
    host time: for every Unix time below 2^40 the computed fields form a valid
    Gregorian date (leap years included) whose Unix time is the one given, and
    the year still fits its 16 bits. *)
Theorem date_of_secs_correct secs :
  0 <= secs < 2 ^ 40 →
  let d := date_of_secs secs in
  valid_date d ∧ secs_of_date d = secs ∧ u16 (year d) ∧ millisecond d = 0 ∧ weekday d = 0.
Proof. apply date_of_secs_spec. Qed.

Lemma date_of_secs_correct_witness :
  let d := {| year := 2024; month := 2; day := 29; hour := 12; minute := 30; second := 15;
              millisecond := 0; weekday := 0 |} in
  date_of_secs 1709209815 = d ∧ secs_of_date (date_of_secs 1709209815) = 1709209815.
Proof.
  split; [vm_compute; reflexivity|]. apply (date_of_secs_correct 1709209815). lia.
Defined.
