(* ===== verification/ServiceLoop.v ===== *)
(** * Clock, status and control services against the simulated PLC *)

From S2P Require Import Prelude Wire Io Tpkt Cotp S7Header Clock Szl Store ServerHandshake.
From S2P Require Import Dispatch Connection Client Loopback ClientServices.
Local Open Scope Z_scope.

Lemma userdata_header_wf pl dl r :
  u16 r → S7Header_wf (request_header (as_u16 pl) (as_u16 dl) r UserData).
Proof. intros. repeat split; cbn; try done; try apply as_u16_u16; unwidth; lia. Qed.

Lemma dispatch_userdata {T} `{Transport T} param data r st :
  u16 r → 0 < blen (param ++ data) →
  dispatch_request (request_payload param data r UserData) st =
  (if (5 <=? blen (param ++ data)) && (byte_or_0 (param ++ data) 4 =? 0x11)
   then handle_user_data r (param ++ data) st else send_simple_ack r st).
Proof.
  intros Hr Hl. unfold dispatch_request, request_payload.
  rewrite S7Header_decode_encode by (by apply userdata_header_wf). cbv zeta beta iota.
  destruct (Z.eqb_spec (blen (param ++ data)) 0); [lia|]. cbn [pdu_type request_header pdu_ref].
  by destruct (_ && _).
Qed.

(** ** Clock *)
Lemma set_clock_linked dt c r s :
  S7Client_set_clock dt (linked c r s) =
  (Ok tt, linked c (as_u16 (r + 1)) (set_clock (PlcDateTime_encode dt) s)).
Proof.
  set (r' := as_u16 (r + 1)). assert (u16 r') as Hr by apply as_u16_u16.
  unfold S7Client_set_clock.
  erewrite io_bind_ok.
  2: { eapply (exchange_linked _ _ UserData c r s (S7Header_encode (ack_header r' 0 0 0 0))
                 (set_clock (PlcDateTime_encode dt) s)).
       - rewrite blen_request_payload. vm_compute. discriminate.
       - vm_compute. discriminate.
       - intros T Tr tr. rewrite dispatch_userdata by done. reflexivity.
       - rewrite <- (app_nil_r (S7Header_encode _)). apply S7Header_decode_encode, ack_header_wf;
           try done; unwidth; lia. }
  reflexivity.
Qed.

Lemma read_clock_linked c r s :
  (length (clock s) = 8)%nat →
  S7Client_read_clock (linked c r s) =
  (match PlcDateTime_decode (clock s) with
   | Ok (dt, _) => Ok dt
   | Err e => Err (Client.Proto e)
   | Panic => Panic
   end, linked c (as_u16 (r + 1)) s).
Proof.
  intros Hc. set (r' := as_u16 (r + 1)). assert (u16 r') as Hr by apply as_u16_u16.
  unfold S7Client_read_clock.
  set (h := {| pdu_type := UserData; reserved := 0; pdu_ref := r'; param_len := 12; data_len := 4;
               error_class := None; error_code := None |}).
  assert (exchange [0x00; 0x01; 0x12; 0x04; 0x11; 0x47; 0x01; 0x00] [] UserData (linked c r s) =
    (Ok (h, [0x00; 0x01; 0x12; 0x08; 0x12; 0x87; 0x01; 0x00] ++ clock s), linked c r' s)) as He.
  { eapply (exchange_linked _ _ UserData c r s
      (S7Header_encode h ++ [0x00; 0x01; 0x12; 0x08; 0x12; 0x87; 0x01; 0x00] ++ clock s) s).
    - rewrite blen_request_payload. vm_compute. discriminate.
    - rewrite !blen_app. change (blen (S7Header_encode h)) with 10. unfold blen. rewrite Hc.
      vm_compute. discriminate.
    - intros T Tr tr. rewrite dispatch_userdata by done.
      destruct (clock_slices _ Hc) as [E1 E2].
      transitivity
        ((let* clock := on_store (fun s => (get_clock s, s)) in
          match slice_to clock 4, slice_from clock 4 with
          | Some hi, Some lo =>
              on_transport (send_cotp_data
                (S7Header_encode h ++ [0; 1; 18; 8; 18; 135; 1; 0] ++ hi ++ lo))
          | _, _ => io_lift Panic
          end) (tr, s)); [reflexivity|].
      unfold io_bind, on_store, get_clock. cbv beta iota. rewrite E1, E2.
      by rewrite take_drop.
    - apply S7Header_decode_encode. repeat split; cbn; try done; unwidth; lia. }
  assert (blen ([0; 1; 18; 8; 18; 135; 1; 0] ++ clock s) = 16) as Hb
    by (rewrite blen_app; unfold blen; by rewrite Hc).
  rewrite (io_bind_ok _ _ _ _ _ He). cbv zeta. cbn [param_len data_len h]. rewrite Hb.
  change ((16 <? 12 + 4) || (12 + 4 <? 8)) with false.
  change (drop (Z.to_nat (12 + 4 - 8)) ([0; 1; 18; 8; 18; 135; 1; 0] ++ clock s)) with (clock s).
  unfold io_bind, io_lift.
  by destruct (PlcDateTime_decode (clock s)) as [[? ?]| |].
Qed.

(** C36: the clock set by a client is the clock the PLC reports: on a client
    connected to the simulated PLC, [set_clock] succeeds for every date-time,
    and a following [read_clock] returns it unchanged when its year is between
    1990 and 2089 (with fields of at most two, milliseconds three, digits). *)
Theorem clock_end_to_end dt c r s :
  PlcDateTime_wf dt →
  ∃ s', S7Client_set_clock dt (linked c r s) = (Ok tt, linked c (as_u16 (r + 1)) s') ∧
        S7Client_read_clock (linked c (as_u16 (r + 1)) s') =
          (Ok dt, linked c (as_u16 (as_u16 (r + 1) + 1)) s') ∧
        mem_of s' = mem_of s.
Proof.
  intros Hdt. exists (set_clock (PlcDateTime_encode dt) s).
  split; [apply set_clock_linked|]. split; [|done].
  rewrite read_clock_linked by done.
  change (clock (set_clock (PlcDateTime_encode dt) s)) with (PlcDateTime_encode dt).
  pose proof (PlcDateTime_decode_encode dt [] Hdt) as Hd. rewrite app_nil_r in Hd.
  by rewrite Hd.
Qed.

Lemma clock_end_to_end_witness :
  let dt := {| year := 2026; month := 5; day := 17; hour := 8; minute := 30; second := 0;
               millisecond := 125; weekday := 1 |} in
  ∃ s', S7Client_set_clock dt (linked {| pdu_size := 480 |} 1 DataStore_new) =
          (Ok tt, linked {| pdu_size := 480 |} 2 s') ∧
        S7Client_read_clock (linked {| pdu_size := 480 |} 2 s') =
          (Ok dt, linked {| pdu_size := 480 |} 3 s') ∧
        mem_of s' = mem_of DataStore_new.
Proof.
  intros dt. apply (clock_end_to_end dt {| pdu_size := 480 |} 1 DataStore_new).
  unfold PlcDateTime_wf. cbn. lia.
Defined.

(** ** System status lists *)
Lemma blen_szl_block i x l e : blen (szl_block i x l e) = 8 + blen e.
Proof. unfold szl_block. blen_lia. Qed.

Lemma blen_build_szl_response id : 8 <= blen (build_szl_response id) <= 246.
Proof.
  unfold build_szl_response.
  repeat match goal with |- context [match ?x with _ => _ end] => destruct x end;
    rewrite blen_szl_block; vm_compute; split; discriminate.
Qed.

Lemma read_szl_payload_linked id index c r s :
  u16 id →
  read_szl_payload id index (linked c r s) =
  (Ok (build_szl_response id), linked c (as_u16 (r + 1)) s).
Proof.
  intros Hid. set (r' := as_u16 (r + 1)). assert (u16 r') as Hr by apply as_u16_u16.
  pose proof (blen_build_szl_response id) as Hb.
  assert (as_u16 (blen (build_szl_response id)) = blen (build_szl_response id)) as Hdl
    by (apply as_u16_small; unwidth; lia).
  set (echo := [0x00; 0x01; 0x12; 0x04; 0x11; 0x44; 0x01; 0x00; 0xFF; 0x09; 0x00; 0x04]).
  set (h := ack_header r' 12 (blen (build_szl_response id)) 0 0).
  set (body := echo ++ [0xFF] ++ [0x04] ++ be16 (blen (build_szl_response id)) ++
               build_szl_response id).
  unfold read_szl_payload.
  assert (exchange (SzlRequest_encode_params {| szl_id := id; szl_index := index |})
            (SzlRequest_encode_data {| szl_id := id; szl_index := index |}) UserData (linked c r s)
          = (Ok (h, body), linked c r' s)) as He.
  { eapply (exchange_linked _ _ UserData c r s (S7Header_encode h ++ body) s).
    - rewrite blen_request_payload. vm_compute. discriminate.
    - rewrite blen_app. change (blen (S7Header_encode h)) with 12.
      subst body echo. autorewrite with blen. lia.
    - intros T Tr tr. rewrite dispatch_userdata by done.
      transitivity (handle_szl_user_data r'
        (echo ++ be16 id ++ be16 index) (tr, s)); [reflexivity|].
      unfold handle_szl_user_data. cbv zeta.
      change (14 <=? blen (echo ++ be16 id ++ be16 index)) with true. cbv iota.
      change (byte_or_0 (echo ++ be16 id ++ be16 index) 12) with (as_u8 (id / 256)).
      change (byte_or_0 (echo ++ be16 id ++ be16 index) 13) with (as_u8 id).
      rewrite of_be16_split, Hdl by done. reflexivity.
    - apply S7Header_decode_encode, ack_header_wf; try done; unwidth; lia. }
  rewrite (io_bind_ok _ _ _ _ _ He). cbn [param_len h ack_header].
  assert ((blen body <? 12) = false) as -> by (subst body echo; autorewrite with blen; lia).
  reflexivity.
Qed.

(** What the simulated PLC reports about itself through the client: it is
    in RUN, its communication processor offers PDUs of 480 bytes and 32
    connections, and every SZL query is answered with the block built for its
    id; the store is not touched. *)
Theorem szl_end_to_end id index c r s :
  u16 id →
  read_szl_payload id index (linked c r s) =
    (Ok (build_szl_response id), linked c (as_u16 (r + 1)) s) ∧
  S7Client_get_plc_status (linked c r s) = (Ok StatusRun, linked c (as_u16 (r + 1)) s) ∧
  S7Client_get_cp_info (linked c r s) =
    (Ok {| max_pdu_len := 480; max_connections := 32; max_mpi_rate := 187500;
           max_bus_rate := 25000 |}, linked c (as_u16 (r + 1)) s).
Proof.
  intros Hid. split; [by apply read_szl_payload_linked|]. split.
  - unfold S7Client_get_plc_status.
    by rewrite (io_bind_ok _ _ _ _ _ (read_szl_payload_linked 0x0424 0 c r s
                                        ltac:(unwidth; lia))).
  - unfold S7Client_get_cp_info.
    by rewrite (io_bind_ok _ _ _ _ _ (read_szl_payload_linked 0x0131 1 c r s
                                        ltac:(unwidth; lia))).
Qed.

Lemma szl_end_to_end_witness :
  S7Client_get_plc_status (linked {| pdu_size := 480 |} 1 DataStore_new) =
    (Ok StatusRun, linked {| pdu_size := 480 |} 2 DataStore_new).
Proof.
  apply (szl_end_to_end 0x11 0 {| pdu_size := 480 |} 1 DataStore_new). unwidth. lia.
Defined.

(** [get_protection] misreads the simulated PLC: the server means to
    report protection scheme 3 three times, but the client reads its fields one
    byte off the server's layout and returns 768 each time. *)
Theorem get_protection_misread c r s :
  S7Client_get_protection (linked c r s) =
    (Ok {| scheme_szl := 768; scheme_module := 768; scheme_bus := 768; level := 0;
           password_set := false |}, linked c (as_u16 (r + 1)) s).
Proof.
  unfold S7Client_get_protection.
  by rewrite (io_bind_ok _ _ _ _ _ (read_szl_payload_linked 0x0032 4 c r s
                                      ltac:(unwidth; lia))).
Qed.
