(* ===== verification/Blocks.v ===== *)
(** * Block transfer (snap7-client, client.rs: upload, download and the
    operations built on them)

    The transfer loops run as long as the PLC keeps answering; in the model a
    loop takes the number of turns it may make, and [None] is a loop that has
    not ended by then. *)

From Stdlib Require Import Sorted.
From S2P Require Import Prelude Wire Io Tpkt Cotp S7Header Types Connection Client ClientServices.
From S2P Require Import ServerHandshake Dispatch Loopback.
Local Open Scope Z_scope.

(** ** Programs with loops *)
Definition Loop (T E A : Type) : Type := T → option (res E A * T).
Definition loop_run {T E A} (m : IO T E A) : Loop T E A := fun t => Some (m t).
Definition loop_bind {T E A B} (m : Loop T E A) (k : A → Loop T E B) : Loop T E B := fun t =>
  match m t with
  | Some (Ok a, t') => k a t'
  | Some (Err e, t') => Some (Err e, t')
  | Some (Panic, t') => Some (Panic, t')
  | None => None
  end.
Declare Scope loop_scope.
Delimit Scope loop_scope with loop.
Notation "'let^' x ':=' m 'in' k" := (loop_bind m (fun x => k))
  (at level 10, x pattern, m at level 200, k at level 200,
   format "'[v' 'let^'  x  ':='  m  'in' '/' k ']'") : loop_scope.
#[local] Open Scope loop_scope.

(** [for x in l { .. }] collecting what each turn pushes. *)
Fixpoint loop_each {T E A B} (f : A → Loop T E (list B)) (l : list A) : Loop T E (list B) :=
  match l with
  | [] => loop_run (io_ret [])
  | x :: l' =>
      let^ ys := f x in
      let^ zs := loop_each f l' in
      loop_run (io_ret (ys ++ zs))
  end.

Inductive BlockCmpResult :=
| Match
| Mismatch (local_crc plc_crc : Z)
| OnlyLocal
| OnlyPlc.

(** ** Block lists *)
Fixpoint block_numbers (item_count : nat) (body : bytes) : list Z :=
  match item_count with
  | O => []
  | S n =>
      match body with
      | b0 :: b1 :: _ :: _ :: body' => of_be16 b0 b1 :: block_numbers n body'
      | _ => []
      end
  end.

(** [numbers.sort_unstable()] on numbers. *)
Fixpoint insert_sorted (x : Z) (l : list Z) : list Z :=
  match l with
  | [] => [x]
  | y :: l' => if x <=? y then x :: l else y :: insert_sorted x l'
  end.
Definition sort_unstable (l : list Z) : list Z := foldr insert_sorted [] l.

(** What one answer of the PLC says: the numbers in it, the sequence number to
    continue with, and whether the loop goes on. *)
Record ListTurn := { lt_numbers : list Z; lt_seq : Z; lt_more : bool }.

Definition list_answer (param_bytes body : bytes) : ListTurn :=
  let done := (10 <=? blen param_bytes) && bool_decide (param_bytes !! 8%nat = Some 0x00) in
  let seq := if 8 <=? blen param_bytes then default 0 (param_bytes !! 7%nat) else 0 in
  let break := {| lt_numbers := []; lt_seq := seq; lt_more := false |} in
  match body with
  | ret_val :: _tr_size :: l0 :: l1 :: body =>
      let data_len := of_be16 l0 l1 in
      if negb (ret_val =? 0xFF) || (data_len <? 4) || (blen body <? data_len) then break
      else
        let item_count := (data_len - 4) / 4 + 1 in
        {| lt_numbers := block_numbers (Z.to_nat item_count) body; lt_seq := seq;
           lt_more := negb done |}
  | _ => break
  end.

Section Blocks.
Context {T : Type} `{Transport T}.

Definition Bl (A : Type) : Type := Loop (Inner T) Client.Error A.

Definition list_turn (first : bool) (seq block_type : Z) : @Cl T ListTurn :=
  let '(param, data) :=
    if first then
      ([0x00; 0x01; 0x12; 0x04; 0x11; 0x43; 0x02; 0x00],
       [0xFF; 0x09; 0x00; 0x02; 0x30; block_type])
    else
      ([0x00; 0x01; 0x12; 0x08; 0x12; 0x43; 0x02; seq; 0x00; 0x00; 0x00; 0x00],
       [0x0A; 0x00; 0x00; 0x00]) in
  let* (header, body) := exchange param data UserData in
  if blen body <? param_len header then io_fail Client.UnexpectedResponse
  else io_ret (list_answer (take (Z.to_nat (param_len header)) body)
                 (drop (Z.to_nat (param_len header)) body)).

Fixpoint list_loop (fuel : nat) (first : bool) (seq block_type : Z) (numbers : list Z) : Bl (list Z) :=
  match fuel with
  | O => fun _ => None
  | S fuel' =>
      let^ t := loop_run (list_turn first seq block_type) in
      let numbers := numbers ++ lt_numbers t in
      if lt_more t then list_loop fuel' false (lt_seq t) block_type numbers
      else loop_run (io_ret numbers)
  end.

Definition S7Client_list_blocks_of_type (fuel : nat) (block_type : Z) : Bl (list Z) :=
  let^ numbers := list_loop fuel true 0x00 block_type [] in
  loop_run (io_ret (sort_unstable numbers)).

(** ** Upload *)

(** The start request: 0x1D for [upload], 0x1F for [full_upload].  The guard
    asks for 8 bytes, the answer is read as 10. *)
Definition upload_start (func : Z) (context : string) (block_type block_number : Z) : @Cl T Z :=
  let* (header, body) := exchange ([func; 0x00; block_type; 0x00] ++ be16 block_number) [] Job in
  let* _ := io_lift (check_plc_error header context) in
  if blen body <? 8 then io_fail Client.UnexpectedResponse
  else
    match skip_echo body with
    | i0 :: i1 :: i2 :: i3 :: _ :: _ :: _ :: _ :: _ => io_ret (of_be32 i0 i1 i2 i3)
    | _ => io_lift Panic
    end.

(** The first data answer may begin with a data header. *)
Definition skip_data_header (block_data dbody : bytes) : bytes :=
  match block_data, dbody with
  | [], d0 :: _ :: _ :: _ :: rest =>
      if (d0 =? 0xFF) || (d0 =? 0x00) then rest else dbody
  | _, _ => dbody
  end.

(** [inner.connection.pdu_size as usize - 50]. *)
Definition chunk_limit (pdu_size : Z) : Z := (pdu_size - 50) mod 2 ^ 64.

Definition upload_turn (func : Z) (context : string) (upload_id : Z) (block_data : bytes)
    : @Cl T (bytes * bool) :=
  let* (dheader, dbody) := exchange ([func; 0x01] ++ be32 upload_id) [] Job in
  let* _ := io_lift (check_plc_error dheader context) in
  match skip_echo dbody with
  | [] => io_ret (block_data, false)
  | dbody => fun i =>
      let chunk := skip_data_header block_data dbody in
      let block_data := block_data ++ chunk in
      if blen chunk <? chunk_limit (pdu_size (connection i)) then (Ok (block_data, false), i)
      else if 1024 * 1024 * 4 <? blen block_data then (Err Client.UnexpectedResponse, i)
      else (Ok (block_data, true), i)
  end.

Fixpoint upload_loop (fuel : nat) (func : Z) (context : string) (upload_id : Z)
    (block_data : bytes) : Bl bytes :=
  match fuel with
  | O => fun _ => None
  | S fuel' =>
      let^ (block_data, more) := loop_run (upload_turn func context upload_id block_data) in
      if more : bool then upload_loop fuel' func context upload_id block_data
      else loop_run (io_ret block_data)
  end.

Definition upload_with (fuel : nat) (func : Z) (context : string) (block_type block_number : Z)
    : Bl bytes :=
  let^ upload_id := loop_run (upload_start func (context +:+ "_start") block_type block_number) in
  let^ block_data := upload_loop fuel func (context +:+ "_data") upload_id [] in
  let^ _ := loop_run (command (context +:+ "_end") ([func; 0x02] ++ be32 upload_id) [] Job) in
  loop_run (io_ret block_data).

Definition S7Client_upload (fuel : nat) : Z → Z → Bl bytes := upload_with fuel 0x1D "upload".
Definition S7Client_full_upload (fuel : nat) : Z → Z → Bl bytes :=
  upload_with fuel 0x1F "full_upload".
Definition S7Client_db_get (fuel : nat) (db_number : Z) : Bl bytes :=
  S7Client_upload fuel 0x41 db_number.
Definition S7Client_get_pdu_length : @Cl T Z := fun i => (Ok (pdu_size (connection i)), i).

Definition S7Client_upload_all_blocks (fuel : nat) (block_types : list Z)
    : Bl (list (Z * Z * bytes)) :=
  loop_each (fun bt =>
    let^ numbers := S7Client_list_blocks_of_type fuel bt in
    loop_each (fun num =>
      let^ data := S7Client_full_upload fuel bt num in
      loop_run (io_ret [(bt, num, data)])) numbers) block_types.

(** ** Download *)
Definition download_start (block_type block_number total_len : Z) (first_chunk : bytes) : @Cl T Z :=
  let* (sheader, sbody) :=
    exchange ([0x1E; 0x00; block_type; 0x00] ++ be16 block_number ++ be32 total_len)
      first_chunk Job in
  let* _ := io_lift (check_plc_error sheader "download_start") in
  match skip_echo sbody with
  | i0 :: i1 :: i2 :: i3 :: _ => io_ret (of_be32 i0 i1 i2 i3)
  | _ => io_fail Client.UnexpectedResponse
  end.

(** [data] is what is left to send. *)
Fixpoint download_loop (fuel : nat) (download_id pdu_avail : Z) (data : bytes) : Bl unit :=
  match data with
  | [] => loop_run (io_ret tt)
  | _ :: _ =>
      match fuel with
      | O => fun _ => None
      | S fuel' =>
          let chunk := take (Z.to_nat pdu_avail) data in
          let^ _ := loop_run (command "download_data" ([0x1E; 0x01] ++ be32 download_id) chunk Job) in
          download_loop fuel' download_id pdu_avail (drop (Z.to_nat pdu_avail) data)
      end
  end.

Definition S7Client_download (fuel : nat) (block_type block_number : Z) (data : bytes) : Bl unit :=
  fun i =>
  let total_len := as_u32 (blen data) in
  let pdu_avail := saturating_sub (pdu_size (connection i)) 50 in
  (let^ download_id := loop_run (download_start block_type block_number total_len
                                   (take (Z.to_nat pdu_avail) data)) in
   let^ _ := download_loop fuel download_id pdu_avail (drop (Z.to_nat pdu_avail) data) in
   loop_run (command "download_end" ([0x1E; 0x02] ++ be32 download_id) [] Job)) i.

Definition S7Client_create_db (fuel : nat) (db_number size_bytes : Z)
    (attrs : option BlockAttributes) : Bl unit :=
  let block := BlockData_new_db db_number size_bytes in
  let block := match attrs with
               | Some a => BlockData_set_attributes a block
               | None => block
               end in
  S7Client_download fuel (BlockType_as_u8 DB) db_number (BlockData_to_bytes block).

(** ** Comparison *)
Definition local_crc_of (local_bytes : bytes) : option Z :=
  BlockData_crc32 <$> BlockData_from_bytes local_bytes.

(** [match self.full_upload(..).await { Ok(..) => .., Err(_) => .. }]. *)
Definition compare_one (fuel : nat) (entry : Z * Z * bytes)
    : Bl (list (Z * Z * BlockCmpResult)) :=
  let '(bt, bn, local_bytes) := entry in
  match local_crc_of local_bytes with
  | None => loop_run (io_ret [])
  | Some local_crc => fun i =>
      match S7Client_full_upload fuel bt bn i with
      | Some (Ok plc_bytes, i') =>
          let plc_crc := default 0 (local_crc_of plc_bytes) in
          let result := if local_crc =? plc_crc then Match else Mismatch local_crc plc_crc in
          Some (Ok [(bt, bn, result)], i')
      | Some (Err _, i') => Some (Ok [(bt, bn, OnlyLocal)], i')
      | Some (Panic, i') => Some (Panic, i')
      | None => None
      end
  end.

(** [local_map.contains_key]: a local block counts only if it parses. *)
Definition in_local_map (local : list (Z * Z * bytes)) (bt bn : Z) : bool :=
  existsb (fun '(t, n, b) =>
    (t =? bt) && (n =? bn) && bool_decide (is_Some (local_crc_of b))) local.

Definition S7Client_compare_blocks (fuel : nat) (local : list (Z * Z * bytes))
    (report_plc_only : bool) : Bl (list (Z * Z * BlockCmpResult)) :=
  let^ out := loop_each (compare_one fuel) local in
  let^ plc_only :=
    if report_plc_only then
      loop_each (fun bt =>
        let^ numbers := S7Client_list_blocks_of_type fuel bt in
        loop_run (io_ret ((fun num => (bt, num, OnlyPlc)) <$>
          filter (fun num => in_local_map local bt num = false) numbers)))
        [0x38; 0x41; 0x43; 0x45]
    else loop_run (io_ret []) in
  loop_run (io_ret (out ++ plc_only)).

(** ** Passwords *)
Definition S7Client_set_session_password (password : bytes) : @Cl T unit :=
  command "set_session_password" [0x12; 0x00] (encrypt_password password) Job.
End Blocks.

(** ** Running the client on a scripted peer *)
Lemma loop_bind_ok {T E A B} (m : Loop T E A) (k : A → Loop T E B) t a t' :
  m t = Some (Ok a, t') → loop_bind m k t = k a t'.
Proof. intros H. unfold loop_bind. by rewrite H. Qed.

(** A client whose peer is about to send [q] and has been sent [o]. *)
Definition piped (q o : bytes) (c : Connection) (r : Z) (k : bool) : Inner Pipe :=
  {| inner_transport := {| rx := q; tx := o |}; connection := c; inner_pdu_ref := r;
     connected := true; job_start := k |}.

Lemma read_timed_pipe n a b o c r k :
  n = blen a → read_timed n (piped (a ++ b) o c r k) = (Ok a, piped b o c r k).
Proof. intros Hn. unfold read_timed, piped. cbn [inner_transport]. by rewrite pipe_read_app. Qed.

Lemma recv_s7_pipe resp rest h body o c r k :
  7 + blen resp <= 65535 → S7Header_decode resp = Ok (h, body) →
  recv_s7 (piped (data_frame resp ++ rest) o c r k) = (Ok (h, body), piped rest o c r false).
Proof.
  intros Hl Hd. unfold recv_s7, data_frame. blen_pose. rewrite tpkt_frame_split.
  erewrite io_bind_ok by (apply read_timed_pipe; reflexivity).
  cbn [be16]. rewrite of_be16_split by (unwidth; blen_lia). case_ltb; [blen_lia|].
  erewrite io_bind_ok by (apply read_timed_pipe; lia). cbn [Z.eqb Pos.eqb negb].
  unfold io_lift, io_bind at 1. rewrite Hd. cbn [res_map_err]. done.
Qed.

Lemma exchange_pipe param data t resp rest h body o c r k :
  17 + blen param + blen data <= 65535 → 7 + blen resp <= 65535 →
  S7Header_decode resp = Ok (h, body) →
  exchange param data t (piped (data_frame resp ++ rest) o c r k) =
  (Ok (h, body), piped rest (o ++ data_frame (request_payload param data (as_u16 (r + 1)) t)) c
                   (as_u16 (r + 1)) false).
Proof.
  intros Hp Hr Hh. unfold exchange, next_pdu_ref, io_bind at 1.
  cbv zeta. change (inner_pdu_ref (piped (data_frame resp ++ rest) o c r k)) with r.
  erewrite io_bind_ok; [by apply (recv_s7_pipe resp)|].
  unfold send_s7. rewrite TpktFrame_encode_ok; [done|].
  cbn [tpkt_payload CotpPdu_encode app]. rewrite !blen_cons, blen_request_payload. lia.
Qed.

(** An acknowledgement without error. *)
Record PlcAck := { ack_ref : Z; ack_pl : Z; ack_dl : Z; ack_body : bytes }.
Definition ack_ok (a : PlcAck) : Prop :=
  u16 (ack_ref a) ∧ u16 (ack_pl a) ∧ u16 (ack_dl a) ∧ blen (ack_body a) <= 65516.
Definition ack_wire (a : PlcAck) : bytes :=
  data_frame (S7Header_encode (ack_header (ack_ref a) (ack_pl a) (ack_dl a) 0 0) ++ ack_body a).

Lemma exchange_ack param data t a rest o c r k :
  17 + blen param + blen data <= 65535 → ack_ok a →
  exchange param data t (piped (ack_wire a ++ rest) o c r k) =
  (Ok (ack_header (ack_ref a) (ack_pl a) (ack_dl a) 0 0, ack_body a),
   piped rest (o ++ data_frame (request_payload param data (as_u16 (r + 1)) t)) c
     (as_u16 (r + 1)) false).
Proof.
  intros Hp (H1 & H2 & H3 & H4). apply exchange_pipe; [done|rewrite blen_app, blen_ack_header; lia|].
  apply S7Header_decode_encode, ack_header_wf; try done; unwidth; lia.
Qed.
Lemma command_ack context param data t a rest o c r k :
  17 + blen param + blen data <= 65535 → ack_ok a →
  command context param data t (piped (ack_wire a ++ rest) o c r k) =
  (Ok tt, piped rest (o ++ data_frame (request_payload param data (as_u16 (r + 1)) t)) c
            (as_u16 (r + 1)) false).
Proof.
  intros Hp Ha. unfold command. erewrite io_bind_ok by by apply exchange_ack.
  unfold io_lift. by rewrite check_plc_error_ack.
Qed.

(** The frames of consecutive jobs, each with the next reference, and the
    reference the client has reached after them. *)
Fixpoint sent (jobs : list (bytes * bytes)) (r : Z) : bytes :=
  match jobs with
  | [] => []
  | (param, data) :: jobs' =>
      data_frame (request_payload param data (as_u16 (r + 1)) Job) ++ sent jobs' (as_u16 (r + 1))
  end.
Definition ref_after (n : nat) (r : Z) : Z := Nat.iter n (fun r => as_u16 (r + 1)) r.

Lemma ref_after_S n r : ref_after (S n) r = ref_after n (as_u16 (r + 1)).
Proof. unfold ref_after. by rewrite Nat.iter_succ_r. Qed.
Lemma sent_app jobs jobs' r :
  sent (jobs ++ jobs') r = sent jobs r ++ sent jobs' (ref_after (length jobs) r).
Proof.
  revert r. induction jobs as [|[param data] jobs IH]; intros r; [done|].
  cbn [app sent length]. by rewrite IH, ref_after_S, (assoc_L (++)).
Qed.

(** ** Download *)

(** A block cut into pieces of [n] bytes. *)
Fixpoint chunks_of (fuel n : nat) (data : bytes) : list bytes :=
  match data, fuel with
  | [], _ | _, O => []
  | _ :: _, S fuel' => take n data :: chunks_of fuel' n (drop n data)
  end.

Lemma chunks_of_spec fuel n data :
  (0 < n)%nat → (length data <= fuel)%nat →
  concat (chunks_of fuel n data) = data ∧
  Forall (fun ch => (0 < length ch <= n)%nat) (chunks_of fuel n data).
Proof.
  intros Hn. revert data. induction fuel as [|fuel IH]; intros data Hf.
  - by destruct data; [|cbn in Hf; lia].
  - destruct data as [|x data]; [done|]. cbn [chunks_of concat].
    destruct (IH (drop n (x :: data))) as [H1 H2]; [rewrite length_drop; cbn in *; lia|].
    rewrite H1, take_drop. split; [done|]. constructor; [|done].
    rewrite length_take. cbn in *. lia.
Qed.

Definition data_job (download_id : Z) (chunk : bytes) : bytes * bytes :=
  ([0x1E; 0x01] ++ be32 download_id, chunk).

Lemma download_loop_run fuel id n data acks rest o c r :
  0 < n <= 65485 → (length data <= fuel)%nat → Forall ack_ok acks →
  length acks = length (chunks_of fuel (Z.to_nat n) data) →
  download_loop fuel id n data (piped (concat (ack_wire <$> acks) ++ rest) o c r false) =
  Some (Ok tt, piped rest (o ++ sent (data_job id <$> chunks_of fuel (Z.to_nat n) data) r) c
                 (ref_after (length acks) r) false).
Proof.
  intros Hn. revert data acks o r. induction fuel as [|fuel IH]; intros data acks o r Hf Hacks Hlen.
  - destruct data; [|cbn in Hf; lia]. destruct acks; [|done]. cbn. by rewrite app_nil_r.
  - destruct data as [|x data]; [destruct acks; [|done]; cbn; by rewrite app_nil_r|].
    destruct Hacks as [|a acks Ha Hacks]; [done|]. injection Hlen as Hlen.
    cbn [download_loop fmap list_fmap concat chunks_of]. rewrite <- (assoc_L (++)).
    set (chunk := take (Z.to_nat n) (x :: data)).
    erewrite loop_bind_ok.
    2:{ unfold loop_run. rewrite command_ack; [done| |done]. unfold chunk. blen_lia. }
    rewrite IH; [|rewrite length_drop; cbn in *; lia|done|done].
    cbn [length sent data_job]. by rewrite ref_after_S, <- (assoc_L (++)).
Qed.

Lemma download_start_run bt bn total chunk a id e0 e1 more rest o c r k :
  27 + blen chunk <= 65535 → ack_ok a → u32 id → ack_body a = e0 :: e1 :: be32 id ++ more →
  download_start bt bn total chunk (piped (ack_wire a ++ rest) o c r k) =
  (Ok id, piped rest (o ++ sent [([0x1E; 0x00; bt; 0x00] ++ be16 bn ++ be32 total, chunk)] r) c
            (as_u16 (r + 1)) false).
Proof.
  intros Hc Ha Hid Hb. unfold download_start.
  erewrite io_bind_ok by (apply exchange_ack; [blen_lia|done]).
  unfold io_lift, io_bind. rewrite check_plc_error_ack, Hb. cbn [sent]. rewrite app_nil_r.
  unfold skip_echo. case_ltb; [|blen_lia]. cbn [drop be32 app].
  by rewrite of_be32_split.
Qed.

(** C18: a download delivers the whole block: for every 16-bit PDU size above
    50 the block is cut into pieces of 50 bytes less than a PDU, so that their
    jobs fit it, and when the PLC acknowledges them [download] succeeds, having sent the start job, one data
    job per piece and the end job, in order and under consecutive references;
    the pieces put together are the block. *)
Theorem download_complete bt bn data c :
  50 < pdu_size c <= 65535 →
  let n := Z.to_nat (pdu_size c - 50) in
  let first := take n data in
  let chunks := chunks_of (length data) n (drop n data) in
    first ++ concat chunks = data ∧
    Forall (fun ch => 20 + blen ch <= pdu_size c) (first :: chunks) ∧
    ∀ a0 acks aE id e0 e1 more rest r k,
      ack_ok a0 → Forall ack_ok acks → ack_ok aE → u32 id →
      ack_body a0 = e0 :: e1 :: be32 id ++ more → length acks = length chunks →
      S7Client_download (length data) bt bn data
        (piped (ack_wire a0 ++ concat (ack_wire <$> acks) ++ ack_wire aE ++ rest) [] c r k) =
      Some (Ok tt, piped rest
        (sent (([0x1E; 0x00; bt; 0x00] ++ be16 bn ++ be32 (as_u32 (blen data)), first) ::
               (data_job id <$> chunks) ++ [([0x1E; 0x02] ++ be32 id, [])]) r)
        c (ref_after (S (S (length chunks))) r) false).
Proof.
  intros Hc. set (n := pdu_size c - 50). intros n' first chunks. subst n' first chunks.
  destruct (chunks_of_spec (length data) (Z.to_nat n) (drop (Z.to_nat n) data)) as [Hcat Hall];
    [lia|rewrite length_drop; lia|].
  rewrite Hcat, take_drop. split; [done|]. split.
  { constructor; [rewrite blen_take; lia|]. eapply Forall_impl; [exact Hall|].
    intros ch Hch. cbn in Hch. unfold blen. lia. }
  intros a0 acks aE id e0 e1 more rest r k Ha0 Hacks HaE Hid Hb Hlen.
  unfold S7Client_download. cbn [connection piped].
  replace (saturating_sub (pdu_size c) 50) with n by (unfold saturating_sub; lia).
  fold (piped (ack_wire a0 ++ concat (ack_wire <$> acks) ++ ack_wire aE ++ rest) [] c r k).
  erewrite loop_bind_ok.
  2:{ unfold loop_run. erewrite download_start_run; [done| |done..|exact Hb]. rewrite blen_take; lia. }
  erewrite loop_bind_ok.
  2:{ apply download_loop_run; [lia|rewrite length_drop; lia|done|done]. }
  unfold loop_run. rewrite command_ack by done.
  rewrite (ref_after_S (S _)), <- Hlen. change (ref_after (S ?m) ?x) with (as_u16 (ref_after m x + 1)).
  do 3 f_equal. cbn [app sent]. rewrite sent_app, length_fmap, <- Hlen. cbn [sent].
  by rewrite !app_nil_r, <- !(assoc_L (++)).
Qed.

(** Three bytes in PDUs of 52: two in the start job, one in a data job. *)
Lemma download_complete_witness :
  let a body := {| ack_ref := 1; ack_pl := 2; ack_dl := 0; ack_body := body |} in
  S7Client_download 3 0x41 7 [1; 2; 3]
    (piped (ack_wire (a ([0x1E; 0] ++ be32 9)) ++ concat (ack_wire <$> [a [0x1E; 1]]) ++
            ack_wire (a [0x1E; 2]) ++ []) [] {| pdu_size := 52 |} 1 false) =
  Some (Ok tt, piped []
    (sent [([0x1E; 0x00; 0x41; 0x00] ++ be16 7 ++ be32 3, [1; 2]);
           ([0x1E; 0x01] ++ be32 9, [3]); ([0x1E; 0x02] ++ be32 9, [])] 1)
    {| pdu_size := 52 |} 4 false).
Proof.
  intros a. refine (proj2 (proj2 (download_complete 0x41 7 [1; 2; 3] {| pdu_size := 52 |} _))
    (a ([0x1E; 0] ++ be32 9)) [a [0x1E; 1]] (a [0x1E; 2]) 9 0x1E 0 [] [] 1 false _ _ _ _ _ _).
  - cbn. lia.
  - by vm_compute.
  - constructor; [by vm_compute|constructor].
  - by vm_compute.
  - unwidth. lia.
  - reflexivity.
  - reflexivity.
Defined.

(** ** Upload *)

(** The PLC's answer with one piece of the block; the first one carries a
    4-byte data header. *)
Definition data_answer (first : bool) (ch : bytes) (a : PlcAck) : Prop :=
  ack_ok a ∧ ∃ e0 e1,
    if first then ∃ h1 h2 h3, ack_body a = e0 :: e1 :: 0xFF :: h1 :: h2 :: h3 :: ch
    else ch ≠ [] ∧ ack_body a = e0 :: e1 :: ch.
Fixpoint answers_block (first : bool) (chunks : list bytes) (acks : list PlcAck) : Prop :=
  match chunks, acks with
  | [], [] => True
  | ch :: chunks', a :: acks' => data_answer first ch a ∧ answers_block false chunks' acks'
  | _, _ => False
  end.

Definition upload_job (func upload_id : Z) : bytes * bytes := ([func; 0x01] ++ be32 upload_id, []).

Lemma skip_echo_two e0 e1 d : skip_echo (e0 :: e1 :: d) = d.
Proof. unfold skip_echo. case_ltb; [done|blen_lia]. Qed.

Lemma upload_turn_run func context id acc first ch a rest o c r :
  first = bool_decide (acc = []) → data_answer first ch a →
  upload_turn func context id acc (piped (ack_wire a ++ rest) o c r false) =
  (let acc' := acc ++ ch in
   if blen ch <? chunk_limit (pdu_size c) then Ok (acc', false)
   else if 1024 * 1024 * 4 <? blen acc' then Err Client.UnexpectedResponse
   else Ok (acc', true),
   piped rest (o ++ sent [upload_job func id] r) c (as_u16 (r + 1)) false).
Proof.
  intros -> (Ha & e0 & e1 & Hb). unfold upload_turn.
  erewrite io_bind_ok by (apply exchange_ack; [blen_lia|done]).
  unfold io_lift, io_bind. rewrite check_plc_error_ack. cbn [sent upload_job]. rewrite app_nil_r.
  assert (∃ d, ack_body a = e0 :: e1 :: d ∧ d ≠ [] ∧ skip_data_header acc d = ch)
    as (d & -> & Hd & <-).
  { case_bool_decide as Hacc.
    - destruct Hb as (h1 & h2 & h3 & ->). subst acc. by eexists.
    - destruct Hb as [Hne ->]. exists ch. split_and!; [done..|]. by destruct acc. }
  rewrite skip_echo_two. destruct d as [|x d]; [done|]. cbv zeta. cbn [connection piped].
  by repeat case_ltb.
Qed.

Lemma upload_loop_run func context id acc first fulls last acks rest o c r :
  50 < pdu_size c <= 65535 → first = bool_decide (acc = []) →
  Forall (fun ch => pdu_size c - 50 <= blen ch) fulls → blen last < pdu_size c - 50 →
  blen (acc ++ concat fulls) <= 1024 * 1024 * 4 →
  answers_block first (fulls ++ [last]) acks →
  upload_loop (S (length fulls)) func context id acc
    (piped (concat (ack_wire <$> acks) ++ rest) o c r false) =
  Some (Ok (acc ++ concat (fulls ++ [last])),
        piped rest (o ++ sent (replicate (S (length fulls)) (upload_job func id)) r) c
          (ref_after (S (length fulls)) r) false).
Proof.
  intros Hc. assert (chunk_limit (pdu_size c) = pdu_size c - 50) as Hlim.
  { unfold chunk_limit. apply Z.mod_small. lia. }
  intros Hfirst Hfull. revert acc first acks o r Hfirst.
  induction Hfull as [|ch fulls Hch Hfull IH]; intros acc first acks o r Hfirst Hlast Hsize Hans;
    cbn [app answers_block] in Hans; (destruct acks as [|a acks]; [done|]);
    destruct Hans as [Ha Hans]; cbn [length fmap list_fmap concat]; rewrite <- (assoc_L (++)).
  - destruct acks as [|? ?]; [|done]. cbn [upload_loop fmap list_fmap concat app].
    erewrite loop_bind_ok.
    2:{ unfold loop_run. erewrite upload_turn_run by done. cbv zeta. rewrite Hlim.
        case_ltb; [done|lia]. }
    cbn [sent replicate]. by rewrite (app_nil_r last).
  - cbn [concat] in Hsize. rewrite (assoc_L (++)) in Hsize.
    change (upload_loop (S (S (length fulls)))) with (fun f cx i ac =>
      let^ (block_data, more) := loop_run (@upload_turn Pipe _ f cx i ac) in
      if more : bool then upload_loop (S (length fulls)) f cx i block_data
      else loop_run (io_ret block_data)).
    cbv beta. erewrite loop_bind_ok.
    2:{ unfold loop_run. erewrite upload_turn_run by done. cbv zeta. rewrite Hlim.
        case_ltb; [lia|]. case_ltb; [|done]. exfalso. blen_lia. }
    rewrite (IH (acc ++ ch) false); [..|done|done|done].
    + rewrite !ref_after_S. cbn [app concat replicate sent upload_job].
      by rewrite <- !(assoc_L (++)).
    + symmetry. apply bool_decide_eq_false. intros [-> ->]%app_eq_nil. rewrite blen_nil in Hch. lia.
Qed.

Lemma upload_start_run func context bt bn a id e0 e1 t0 t1 t2 t3 more rest o c r k :
  ack_ok a → u32 id → ack_body a = e0 :: e1 :: be32 id ++ t0 :: t1 :: t2 :: t3 :: more →
  upload_start func context bt bn (piped (ack_wire a ++ rest) o c r k) =
  (Ok id, piped rest (o ++ sent [([func; 0x00; bt; 0x00] ++ be16 bn, [])] r) c
            (as_u16 (r + 1)) false).
Proof.
  intros Ha Hid Hb. unfold upload_start.
  erewrite io_bind_ok by (apply exchange_ack; [blen_lia|done]).
  unfold io_lift, io_bind. rewrite check_plc_error_ack, Hb. cbn [sent]. rewrite app_nil_r.
  case_ltb; [exfalso; blen_lia|]. rewrite skip_echo_two. cbn [be32 app]. by rewrite of_be32_split.
Qed.

(** The jobs of a whole upload. *)
Definition upload_jobs (func bt bn id : Z) (n : nat) : list (bytes * bytes) :=
  ([func; 0x00; bt; 0x00] ++ be16 bn, []) :: replicate n (upload_job func id) ++
  [([func; 0x02] ++ be32 id, [])].

Lemma upload_with_run func context bt bn c a0 acks aE id e0 e1 t0 t1 t2 t3 more fulls last rest r k :
  50 < pdu_size c <= 65535 → ack_ok a0 → ack_ok aE → u32 id →
  ack_body a0 = e0 :: e1 :: be32 id ++ t0 :: t1 :: t2 :: t3 :: more →
  Forall (fun ch => pdu_size c - 50 <= blen ch) fulls → blen last < pdu_size c - 50 →
  blen (concat fulls) <= 1024 * 1024 * 4 → answers_block true (fulls ++ [last]) acks →
  upload_with (S (length fulls)) func context bt bn
    (piped (ack_wire a0 ++ concat (ack_wire <$> acks) ++ ack_wire aE ++ rest) [] c r k) =
  Some (Ok (concat (fulls ++ [last])),
        piped rest (sent (upload_jobs func bt bn id (S (length fulls))) r) c
          (ref_after (3 + length fulls) r) false).
Proof.
  intros Hc Ha0 HaE Hid Hb Hfull Hlast Hsize Hans. unfold upload_with.
  erewrite loop_bind_ok by (unfold loop_run; by erewrite upload_start_run).
  erewrite loop_bind_ok by by apply (upload_loop_run _ _ _ [] true).
  erewrite loop_bind_ok by (unfold loop_run; rewrite command_ack by (done || blen_lia); done).
  unfold loop_run, io_ret, upload_jobs. cbn [app sent]. rewrite sent_app, length_replicate.
  cbn [sent]. rewrite app_nil_r, <- !(assoc_L (++)). cbn [app Nat.add]. rewrite (ref_after_S (S (S _))).
  done.
Qed.

(** C19: an upload returns the whole block: when the PLC answers with full
    pieces (at least the PDU size less 50 bytes) up to a last shorter one, the
    first behind a 4-byte data header, at most 4 MiB of full pieces, and a start
    answer of 10 bytes at least, [upload] and [full_upload] ask for exactly as many pieces as there are and
    return them put together in order. *)
Theorem upload_complete bt bn c a0 acks aE id e0 e1 t0 t1 t2 t3 more fulls last rest r k :
  50 < pdu_size c <= 65535 → ack_ok a0 → ack_ok aE → u32 id →
  ack_body a0 = e0 :: e1 :: be32 id ++ t0 :: t1 :: t2 :: t3 :: more →
  Forall (fun ch => pdu_size c - 50 <= blen ch) fulls → blen last < pdu_size c - 50 →
  blen (concat fulls) <= 1024 * 1024 * 4 → answers_block true (fulls ++ [last]) acks →
  let client :=
    piped (ack_wire a0 ++ concat (ack_wire <$> acks) ++ ack_wire aE ++ rest) [] c r k in
  let final func := piped rest (sent (upload_jobs func bt bn id (S (length fulls))) r) c
                      (ref_after (3 + length fulls) r) false in
  S7Client_upload (S (length fulls)) bt bn client =
    Some (Ok (concat (fulls ++ [last])), final 0x1D) ∧
  S7Client_full_upload (S (length fulls)) bt bn client =
    Some (Ok (concat (fulls ++ [last])), final 0x1F).
Proof. intros. split; by eapply upload_with_run. Qed.

Lemma upload_complete_witness :
  let a body := {| ack_ref := 1; ack_pl := 2; ack_dl := 4; ack_body := body |} in
  ∃ i, S7Client_upload 2 0x41 7
    (piped (ack_wire (a ([0x1D; 0] ++ be32 5 ++ [0; 0; 0; 5])) ++
            concat (ack_wire <$> [a ([0x1D; 1; 0xFF; 4; 0; 32] ++ [1; 2; 3; 4]); a [0x1D; 1; 9]]) ++
            ack_wire (a [0x1D; 2]) ++ []) [] {| pdu_size := 54 |} 1 false) =
    Some (Ok [1; 2; 3; 4; 9], i).
Proof.
  intros a. eexists.
  apply (upload_complete 0x41 7 {| pdu_size := 54 |} (a ([0x1D; 0] ++ be32 5 ++ [0; 0; 0; 5]))
    [a ([0x1D; 1; 0xFF; 4; 0; 32] ++ [1; 2; 3; 4]); a [0x1D; 1; 9]] (a [0x1D; 2]) 5 0x1D 0 0 0 0 5 []
    [[1; 2; 3; 4]] [9] [] 1 false); try (cbn; unwidth; lia); try done.
  - repeat constructor. by vm_compute.
  - split; [split; [by vm_compute|]|split; [split; [by vm_compute|]|done]]; by repeat eexists.
Defined.

(** A start answer of 8 or 9 bytes crashes both uploads: the length check
    admits it, but reading the two numbers takes 10 bytes. *)
Theorem upload_short_start_panics fuel bt bn c a rest r k :
  ack_ok a → 8 <= blen (ack_body a) < 10 →
  (fst <$> S7Client_upload fuel bt bn (piped (ack_wire a ++ rest) [] c r k)) = Some Panic ∧
  (fst <$> S7Client_full_upload fuel bt bn (piped (ack_wire a ++ rest) [] c r k)) = Some Panic.
Proof.
  intros Ha Hb.
  assert (∀ func context, fst <$> upload_with fuel func context bt bn
            (piped (ack_wire a ++ rest) [] c r k) = Some Panic) as Hp; [|split; apply Hp].
  intros func context. unfold upload_with, loop_bind at 1, loop_run at 1, upload_start.
  erewrite io_bind_ok by (apply exchange_ack; [blen_lia|done]).
  unfold io_lift, io_bind. rewrite check_plc_error_ack. case_ltb; [lia|].
  destruct (ack_body a) as [|e0 [|e1 d]]; [exfalso; blen_lia..|]. rewrite skip_echo_two.
  do 8 (destruct d as [|? d]; [done|]). exfalso. blen_lia.
Qed.

Lemma upload_short_start_panics_witness :
  let a := {| ack_ref := 1; ack_pl := 2; ack_dl := 6; ack_body := [0x1D; 0; 0; 0; 0; 1; 0; 0] |} in
  (fst <$> S7Client_upload 1 0x41 7 (piped (ack_wire a ++ []) [] {| pdu_size := 480 |} 1 false)) =
    Some Panic.
Proof.
  intros a. apply (upload_short_start_panics 1 0x41 7 {| pdu_size := 480 |} a [] 1 false).
  - by vm_compute.
  - by vm_compute.
Defined.

(** ** Termination

    Listing the blocks of a type has no bound of its own: it goes on as long as
    the PLC says that there is more.  Every turn receives an answer, so that it
    ends when the peer has no more to send. *)
Definition unread (i : Inner Pipe) : nat := length (rx (inner_transport i)).

(** Programs that receive something whenever they succeed, and never unread. *)
Definition consumes {A} (m : @Cl Pipe A) : Prop :=
  ∀ i, (unread (m i).2 <= unread i)%nat ∧
       ∀ a i', m i = (Ok a, i') → (unread i' < unread i)%nat.
Definition keeps {A} (m : @Cl Pipe A) : Prop := ∀ i, (unread (m i).2 <= unread i)%nat.

Lemma consumes_keeps {A} (m : @Cl Pipe A) : consumes m → keeps m.
Proof. intros H i. apply H. Qed.
Lemma keeps_lift {A} (r : res Client.Error A) : keeps (io_lift r).
Proof. intros i. done. Qed.
Lemma keeps_bind {A B} (m : @Cl Pipe A) (k : A → @Cl Pipe B) :
  keeps m → (∀ a, keeps (k a)) → keeps (io_bind m k).
Proof.
  intros Hm Hk i. specialize (Hm i). unfold io_bind. destruct (m i) as [[a|e|] i1]; [|done..].
  specialize (Hk a i1). cbn in *. lia.
Qed.
Lemma consumes_bind_l {A B} (m : @Cl Pipe A) (k : A → @Cl Pipe B) :
  consumes m → (∀ a, keeps (k a)) → consumes (io_bind m k).
Proof.
  intros Hm Hk i. split; [by apply keeps_bind; [apply consumes_keeps|]|].
  intros b i' (a & i1 & H1 & H2)%io_bind_inv. apply Hm in H1.
  specialize (Hk a i1). rewrite H2 in Hk. cbn in Hk. lia.
Qed.
Lemma consumes_bind_r {A B} (m : @Cl Pipe A) (k : A → @Cl Pipe B) :
  keeps m → (∀ a, consumes (k a)) → consumes (io_bind m k).
Proof.
  intros Hm Hk i. split; [apply keeps_bind; [done|]; intros a; by apply consumes_keeps|].
  intros b i' (a & i1 & H1 & H2)%io_bind_inv. apply Hk in H2.
  specialize (Hm i). rewrite H1 in Hm. cbn in Hm. lia.
Qed.

Lemma keeps_read_timed n : keeps (read_timed n).
Proof.
  intros i. unfold read_timed. cbn. case_ltb; cbn; unfold unread; cbn; [lia|].
  rewrite length_drop. lia.
Qed.
Lemma consumes_read_timed n : 0 < n → consumes (read_timed n).
Proof.
  intros Hn i. split; [apply keeps_read_timed|]. intros b i'. unfold read_timed. cbn.
  case_ltb; cbn; [done|]. intros [= <- <-]. unfold unread. cbn. rewrite length_drop.
  unfold blen in *. lia.
Qed.
Lemma consumes_recv_s7 : consumes recv_s7.
Proof.
  apply consumes_bind_l; [by apply consumes_read_timed|]. intros hdr.
  destruct hdr as [|? [|? [|h2 [|h3 [|? ?]]]]]; try apply keeps_lift.
  cbv zeta. case_ltb; [apply keeps_lift|]. apply keeps_bind; [apply keeps_read_timed|]. intros b.
  destruct b as [|? [|code [|? b]]]; try apply keeps_lift.
  destruct (negb _); [apply keeps_lift|]. apply keeps_bind; [apply keeps_lift|]. intros [h b'].
  apply keeps_bind; [by intros i|]. intros _. apply keeps_lift.
Qed.
Lemma keeps_send_s7 param data r t : keeps (send_s7 param data r t).
Proof. intros i. unfold send_s7. by destruct (TpktFrame_encode _). Qed.
Lemma consumes_exchange param data t : consumes (exchange param data t).
Proof.
  apply consumes_bind_r; [by intros i|]. intros r.
  apply consumes_bind_r; [apply keeps_send_s7|]. intros _. apply consumes_recv_s7.
Qed.
Lemma consumes_list_turn first seq bt : consumes (list_turn first seq bt).
Proof.
  unfold list_turn. destruct (if first then _ else _) as [param data].
  apply consumes_bind_l; [apply consumes_exchange|]. intros [h b].
  case_ltb; apply keeps_lift.
Qed.
(** It needs no more turns than there are bytes. *)
Lemma list_loop_ends fuel first seq bt numbers i :
  (unread i < fuel)%nat → list_loop fuel first seq bt numbers i ≠ None.
Proof.
  revert first seq numbers i. induction fuel as [|fuel IH]; intros first seq numbers i Hf; [lia|].
  cbn [list_loop]. unfold loop_bind, loop_run.
  destruct (list_turn first seq bt i) as [[t|e|] i'] eqn:E; [|done..].
  apply consumes_list_turn in E. destruct (lt_more t); [|done]. apply IH. lia.
Qed.

(** A transfer ends by itself: whatever the peer sends and whatever the
    transport, each turn of an upload adds a piece of at least the chunk limit
    to a block of at most 4 MiB, or ends, and each turn of a download takes a
    piece off the data. *)
Section Transfers.
Context {T : Type} `{Transport T}.

Definition keeps_connection {A} (m : @Cl T A) : Prop := ∀ i, connection (m i).2 = connection i.
Lemma keeps_connection_lift {A} (r : res Client.Error A) : keeps_connection (io_lift r).
Proof. done. Qed.
Lemma keeps_connection_bind {A B} (m : @Cl T A) (k : A → @Cl T B) :
  keeps_connection m → (∀ a, keeps_connection (k a)) → keeps_connection (io_bind m k).
Proof.
  intros Hm Hk i. specialize (Hm i). unfold io_bind. destruct (m i) as [[a|e|] i1]; [|done..].
  by rewrite Hk.
Qed.
Lemma keeps_connection_read n : keeps_connection (read_timed n).
Proof. intros i. unfold read_timed. by destruct (read_exact n _) as [[]]. Qed.
Lemma keeps_connection_exchange param data t : keeps_connection (exchange param data t).
Proof.
  apply keeps_connection_bind; [done|]. intros r. apply keeps_connection_bind.
  { intros i. unfold send_s7. destruct (TpktFrame_encode _); [|done..]. cbv zeta. by destruct (write_all _ _). }
  intros _. apply keeps_connection_bind; [apply keeps_connection_read|]. intros hdr.
  destruct hdr as [|? [|? [|h2 [|h3 [|? ?]]]]]; try apply keeps_connection_lift.
  cbv zeta. case_ltb; [done|]. apply keeps_connection_bind; [apply keeps_connection_read|]. intros b.
  destruct b as [|? [|code [|? b]]]; try apply keeps_connection_lift.
  destruct (negb _); [done|]. apply keeps_connection_bind; [done|]. intros [h b']. by apply keeps_connection_bind.
Qed.
Lemma keeps_connection_command context param data t : keeps_connection (command context param data t).
Proof. apply keeps_connection_bind; [apply keeps_connection_exchange|]. by intros [h b]. Qed.

Lemma upload_turn_grows func context id acc i d i' :
  50 < pdu_size (connection i) <= 65535 → upload_turn func context id acc i = (Ok (d, true), i') →
  connection i' = connection i ∧
  blen acc + (pdu_size (connection i) - 50) <= blen d <= 4194304.
Proof.
  intros Hp (hb & i1 & H1 & H2)%io_bind_inv. destruct hb as [h b].
  pose proof (keeps_connection_exchange ([func; 0x01] ++ be32 id) [] Job i) as Hk.
  rewrite H1 in Hk. cbn in Hk. apply io_bind_inv in H2 as (u & i2 & H2 & H3). injection H2 as _ <-.
  destruct (skip_echo b) as [|x body]; [done|]. cbv zeta in H3. rewrite Hk in H3.
  assert (chunk_limit (pdu_size (connection i)) = pdu_size (connection i) - 50) as Hlim
    by (unfold chunk_limit; apply Z.mod_small; lia).
  rewrite Hlim in H3. destruct (_ <? _) eqn:E1 in H3; [done|]. destruct (_ <? _) eqn:E2 in H3; [done|].
  apply Z.ltb_ge in E1, E2. injection H3 as <- <-. split; [done|]. rewrite blen_app in *. lia.
Qed.

Lemma upload_loop_bounded fuel func context id acc i :
  50 < pdu_size (connection i) <= 65535 → blen acc <= 4194304 →
  (4194304 - blen acc) / (pdu_size (connection i) - 50) < Z.of_nat fuel →
  upload_loop fuel func context id acc i ≠ None.
Proof.
  revert acc i. induction fuel as [|fuel IH]; intros acc i Hp Ha Hf.
  { assert (0 <= (4194304 - blen acc) / (pdu_size (connection i) - 50)) by (apply Z.div_pos; lia). lia. }
  cbn [upload_loop]. unfold loop_bind, loop_run.
  destruct (upload_turn func context id acc i) as [[[d []]|e|] i'] eqn:E; [|done..].
  apply upload_turn_grows in E as [Hc Hd]; [|done]. apply IH; rewrite ?Hc; [done|lia|].
  assert ((4194304 - blen d) / (pdu_size (connection i) - 50) <=
          (4194304 - blen acc + (-1) * (pdu_size (connection i) - 50)) / (pdu_size (connection i) - 50))
    by (apply Z.div_le_mono; lia).
  rewrite Z.div_add in * by lia. lia.
Qed.

Lemma upload_with_bounded func context bt bn i :
  50 < pdu_size (connection i) <= 65535 →
  upload_with (S (Z.to_nat (4194304 / (pdu_size (connection i) - 50)))) func context bt bn i ≠ None.
Proof.
  intros Hp. unfold upload_with. unfold loop_bind, loop_run.
  assert (keeps_connection (upload_start func (context +:+ "_start") bt bn)) as Hk.
  { apply keeps_connection_bind; [apply keeps_connection_exchange|]. intros [h b].
    apply keeps_connection_bind; [done|]. intros _. case_ltb; [done|]. by repeat case_match. }
  specialize (Hk i). destruct (upload_start _ _ bt bn i) as [[id|e|] i1]; [|done..]. cbn in Hk.
  assert (upload_loop (S (Z.to_nat (4194304 / (pdu_size (connection i) - 50)))) func
            (context +:+ "_data") id [] i1 ≠ None) as Hl.
  { apply upload_loop_bounded; rewrite ?Hk, ?blen_nil; [done|lia|].
    rewrite Z.sub_0_r, Nat2Z.inj_succ, Z2Nat.id by (apply Z.div_pos; lia). lia. }
  destruct (upload_loop _ _ _ _ _ i1) as [[[d| |] i2]|]; [|done..].
  by destruct (command _ _ _ _ i2) as [[]].
Qed.

Lemma download_loop_bounded fuel id n data i :
  0 < n → blen data <= n * Z.of_nat fuel → download_loop fuel id n data i ≠ None.
Proof.
  intros Hn. revert data i. induction fuel as [|fuel IH]; intros data i Hf.
  { destruct data; [done|]. exfalso. blen_pose. blen_lia. }
  destruct data as [|x data]; [done|]. cbn [download_loop]. unfold loop_bind, loop_run.
  destruct (command _ _ _ _ i) as [[[]|e|] i']; [|done..]. apply IH. rewrite blen_drop. lia.
Qed.

(** C20: block transfers end whatever the PLC answers, on any transport: with
    a 16-bit PDU size above 50, an upload of either kind returns (a block, an
    error or a panic) within one turn more than the pieces of a PDU less 50
    bytes that 4 MiB hold, and a download within as many data jobs as its data
    holds such pieces. *)
Theorem transfers_terminate bt bn data (i : Inner T) :
  50 < pdu_size (connection i) <= 65535 →
  let n := pdu_size (connection i) - 50 in
  S7Client_upload (S (Z.to_nat (4194304 / n))) bt bn i ≠ None ∧
  S7Client_full_upload (S (Z.to_nat (4194304 / n))) bt bn i ≠ None ∧
  S7Client_download (Z.to_nat (blen data / n)) bt bn data i ≠ None.
Proof.
  intros Hp n. split; [by apply upload_with_bounded|]. split; [by apply upload_with_bounded|].
  unfold S7Client_download. cbv zeta.
  replace (saturating_sub (pdu_size (connection i)) 50) with n by (unfold saturating_sub; lia).
  unfold loop_bind, loop_run. destruct (download_start _ _ _ _ i) as [[id|e|] i1]; [|done..].
  assert (download_loop (Z.to_nat (blen data / n)) id n (drop (Z.to_nat n) data) i1 ≠ None) as Hl.
  { assert (0 < n) as Hn by lia. blen_pose. apply download_loop_bounded; [done|].
    assert (0 <= blen data / n) by (apply Z.div_pos; lia). rewrite blen_drop, !Z2Nat.id by lia.
    clearbody n. Z.div_mod_to_equations. nia. }
  by destruct (download_loop _ id n _ i1) as [[[]]|].
Qed.
End Transfers.

(** Peers that say nothing to an upload, and to a download after its start. *)
Lemma transfers_terminate_witness :
  S7Client_upload 65 0x41 7 (piped [] [] {| pdu_size := 65535 |} 1 false) ≠ None ∧
  S7Client_download 3 0x41 7 (replicate 7 0)
    (piped (ack_wire {| ack_ref := 1; ack_pl := 2; ack_dl := 4; ack_body := [0x1E; 0] ++ be32 9 |})
       [] {| pdu_size := 52 |} 1 false) ≠ None.
Proof.
  split.
  - apply (transfers_terminate 0x41 7 [] (piped [] [] {| pdu_size := 65535 |} 1 false)). cbn. lia.
  - apply (transfers_terminate 0x41 7 (replicate 7 0)
      (piped (ack_wire {| ack_ref := 1; ack_pl := 2; ack_dl := 4; ack_body := [0x1E; 0] ++ be32 9 |})
       [] {| pdu_size := 52 |} 1 false)). cbn. lia.
Defined.


(** ** Block lists are sorted *)
Lemma insert_sorted_perm x l : insert_sorted x l ≡ₚ x :: l.
Proof.
  induction l as [|y l IH]; [done|]. cbn. case_ltb; [done|]. rewrite IH. apply Permutation_swap.
Qed.
Lemma insert_sorted_sorted x l : Sorted Z.le l → Sorted Z.le (insert_sorted x l).
Proof.
  induction 1 as [|y l Hl IH Hy]; [by repeat constructor|]. cbn. case_ltb.
  - by repeat constructor.
  - constructor; [done|]. destruct l as [|z l]; cbn; [constructor; lia|].
    case_ltb; constructor; [lia|]. by inversion Hy.
Qed.
(** [list_blocks_of_type] returns the numbers it received in ascending order. *)
Lemma sort_unstable_spec l : Sorted Z.le (sort_unstable l) ∧ sort_unstable l ≡ₚ l.
Proof.
  induction l as [|x l [IH1 IH2]]; [done|]. cbn. split; [by apply insert_sorted_sorted|].
  by rewrite insert_sorted_perm, IH2.
Qed.

(** ** What a client gets out of bytes

    From an input of bytes, the methods of this file leave an input of bytes
    and return values that satisfy [P]. *)
Definition fed (i : Inner Pipe) : Prop := wf_bytes (rx (inner_transport i)).
Definition cl_typed {A} (P : A → Prop) (m : @Cl Pipe A) : Prop :=
  ∀ i, fed i → fed (m i).2 ∧ ∀ a, (m i).1 = Ok a → P a.
Definition bl_typed {A} (P : A → Prop) (m : @Bl Pipe A) : Prop :=
  ∀ i r i', fed i → m i = Some (r, i') → fed i' ∧ ∀ a, r = Ok a → P a.

Lemma cl_typed_lift {A} (P : A → Prop) (r : res Client.Error A) :
  (∀ a, r = Ok a → P a) → cl_typed P (io_lift r).
Proof. by intros HP i Hi. Qed.
Lemma cl_typed_bind {A B} (P : A → Prop) (Q : B → Prop) (m : @Cl Pipe A) (k : A → @Cl Pipe B) :
  cl_typed P m → (∀ a, P a → cl_typed Q (k a)) → cl_typed Q (io_bind m k).
Proof.
  intros Hm Hk i Hi. destruct (Hm i Hi) as [H1 H2]. unfold io_bind.
  destruct (m i) as [[a|e|] i1]; [|done..]. by apply Hk; [apply H2|].
Qed.
Lemma bl_typed_run {A} (P : A → Prop) (m : @Cl Pipe A) : cl_typed P m → bl_typed P (loop_run m).
Proof. intros Hm i r i' Hi [= E]. specialize (Hm i Hi). by rewrite E in Hm. Qed.
Lemma bl_typed_bind {A B} (P : A → Prop) (Q : B → Prop) (m : @Bl Pipe A) (k : A → @Bl Pipe B) :
  bl_typed P m → (∀ a, P a → bl_typed Q (k a)) → bl_typed Q (loop_bind m k).
Proof.
  intros Hm Hk i r i' Hi. unfold loop_bind. destruct (m i) as [[[a|e|] i1]|] eqn:E; [..|done];
    apply Hm in E as [H1 H2]; try done; [|by intros [= <- <-]..]. by apply Hk; [apply H2|].
Qed.

Lemma read_timed_typed n : cl_typed wf_bytes (read_timed n).
Proof.
  intros i Hi. unfold read_timed, fed in *. cbn. case_ltb; cbn; [done|].
  split; [by apply Forall_drop|]. intros a [= <-]. by apply Forall_take.
Qed.
Lemma exchange_typed param data t : cl_typed (fun hb => wf_bytes hb.2) (exchange param data t).
Proof.
  apply (cl_typed_bind (fun _ => True)); [by intros i Hi|]. intros r _.
  apply (cl_typed_bind (fun _ => True)).
  { intros i Hi. unfold send_s7. by destruct (TpktFrame_encode _). }
  intros _ _. eapply cl_typed_bind; [apply read_timed_typed|]. intros hdr _.
  destruct hdr as [|? [|? [|h2 [|h3 [|? ?]]]]]; try (by apply cl_typed_lift).
  cbv zeta. case_ltb; [by apply cl_typed_lift|]. eapply cl_typed_bind; [apply read_timed_typed|].
  intros b Hb. destruct b as [|? [|code [|? b]]]; try (by apply cl_typed_lift).
  destruct (negb _); [by apply cl_typed_lift|].
  apply (cl_typed_bind (fun hb => wf_bytes hb.2)).
  - apply cl_typed_lift. intros [h b'] E. wf_inv.
    destruct (S7Header_decode b) as [[h0 b0]| |] eqn:Ed; [|done..]. injection E as <- <-.
    by apply S7Header_decode_typed in Ed as [_ ?].
  - intros [h b'] Hb'. apply (cl_typed_bind (fun _ => True)); [by intros i Hi|].
    intros _ _. apply cl_typed_lift. by intros a [= <-].
Qed.
Lemma command_typed context param data t : cl_typed (fun _ => True) (command context param data t).
Proof. eapply cl_typed_bind; [apply exchange_typed|]. intros [h b] _. by apply cl_typed_lift. Qed.

Lemma block_numbers_typed n body : wf_bytes body → Forall u16 (block_numbers n body).
Proof.
  revert body. induction n as [|n IH]; intros body Hb; cbn; [constructor|].
  destruct body as [|b0 [|b1 [|? [|? body]]]]; try constructor; wf_inv; [by apply of_be16_u16|by apply IH].
Qed.
Lemma list_turn_typed first seq bt : cl_typed (fun t => Forall u16 (lt_numbers t)) (list_turn first seq bt).
Proof.
  unfold list_turn. destruct (if first then _ else _) as [param data].
  eapply cl_typed_bind; [apply exchange_typed|]. intros [h b] Hb. cbn in Hb.
  case_ltb; [by apply cl_typed_lift|]. apply cl_typed_lift. intros t [= <-].
  unfold list_answer. cbv zeta. set (body := drop _ b).
  assert (wf_bytes body) as Hbody by (by apply Forall_drop).
  destruct body as [|? [|? [|? [|? body]]]]; try constructor.
  case_match; [constructor|]. apply block_numbers_typed. by wf_inv.
Qed.
Lemma list_loop_typed fuel first seq bt numbers :
  Forall u16 numbers → bl_typed (Forall u16) (list_loop fuel first seq bt numbers).
Proof.
  revert first seq numbers. induction fuel as [|fuel IH]; intros first seq numbers Hn; cbn [list_loop]; [done|].
  eapply bl_typed_bind; [apply bl_typed_run, list_turn_typed|]. intros t Ht.
  assert (Forall u16 (numbers ++ lt_numbers t)) by (by apply Forall_app).
  destruct (lt_more t); [by apply IH|]. apply bl_typed_run, cl_typed_lift. by intros a [= <-].
Qed.
Lemma list_blocks_typed fuel bt : bl_typed (Forall u16) (S7Client_list_blocks_of_type fuel bt).
Proof.
  eapply bl_typed_bind; [by apply list_loop_typed|]. intros l Hl. apply bl_typed_run, cl_typed_lift.
  intros a [= <-]. by rewrite (proj2 (sort_unstable_spec l)).
Qed.

Lemma upload_with_typed fuel func context bt bn :
  bl_typed (fun _ => True) (upload_with fuel func context bt bn).
Proof.
  assert (cl_typed (fun _ => True) (upload_start func (context +:+ "_start") bt bn)) as Hs.
  { eapply cl_typed_bind; [apply exchange_typed|]. intros [h b] _.
    apply (cl_typed_bind (fun _ => True)); [by apply cl_typed_lift|]. intros _ _.
    case_ltb; [by apply cl_typed_lift|]. repeat case_match; by apply cl_typed_lift. }
  assert (∀ id acc, cl_typed (fun _ => True) (upload_turn func (context +:+ "_data") id acc)) as Ht.
  { intros id acc. eapply cl_typed_bind; [apply exchange_typed|]. intros [h b] _.
    apply (cl_typed_bind (fun _ => True)); [by apply cl_typed_lift|]. intros _ _.
    destruct (skip_echo b); [by apply cl_typed_lift|]. intros i Hi. cbv zeta. by repeat case_ltb. }
  eapply bl_typed_bind; [by apply bl_typed_run|]. intros id _. apply (bl_typed_bind (fun _ => True)).
  - generalize (@nil Z) as acc. induction fuel as [|fuel IH]; intros acc; cbn [upload_loop]; [done|].
    eapply bl_typed_bind; [by apply bl_typed_run|]. intros [d more] _.
    destruct more; [apply IH|]. by apply bl_typed_run, cl_typed_lift.
  - intros d _. eapply bl_typed_bind; [apply bl_typed_run, command_typed|]. intros _ _.
    by apply bl_typed_run, cl_typed_lift.
Qed.
