(* ===== verification/BlockInfo.v ===== *)
(** * Block information and filling data blocks (snap7-client, client.rs)

    [get_ag_block_info], [get_pg_block_info] and [db_fill] query the PLC;
    [parse_block_info] reads the same record out of the bytes of a block. *)

From S2P Require Import Prelude Wire Io Tpkt Cotp S7Header ReadVar WriteVar Szl Store.
From S2P Require Import ServerHandshake Dispatch Types Connection Tag Text Client Loopback.
From S2P Require Import ClientServices ServiceLoop.
Local Open Scope Z_scope.

Record BlockInfo := {
  bi_block_type : Z;
  bi_block_number : Z;
  bi_language : Z;
  bi_flags : Z;
  bi_size : Z;
  bi_size_ram : Z;
  bi_mc7_size : Z;
  bi_local_data : Z;
  bi_checksum : Z;
  bi_version : Z;
  bi_author : text;
  bi_family : text;
  bi_header : text;
  bi_date : text;
}.

(** [position(|&x| x == 0)], [from_utf8_lossy] of what comes before, [trim]. *)
Definition field_text (s : bytes) : text :=
  trim (from_utf8_lossy (span (fun x => negb (x =? 0)) s).1).

(** [{:04X}]. *)
Definition hex4 (v : Z) : string := hex2 (v / 256) +:+ hex2 (v mod 256).

(** The block number in five decimal digits. *)
Definition ascii_block_number (n : Z) : bytes :=
  [n / 10000 + 0x30; n mod 10000 / 1000 + 0x30; n mod 1000 / 100 + 0x30; n mod 100 / 10 + 0x30;
   n mod 10 + 0x30].

(** ** The online record *)

(** [read_str] of [get_block_info]. *)
Definition read_str (n : Z) : Rd text := fun b =>
  let k := Z.min n (blen b) in Ok (field_text (take (Z.to_nat k) b), drop (Z.to_nat k) b).

(** A getter that is skipped when fewer than [n] bytes are left. *)
Definition optional_field (n : Z) (m : Rd Z) : Rd Z :=
  let! have := remaining in if n <=? have then m else rd_ret 0.

Definition block_info_fields (block_number : Z) : Rd BlockInfo :=
  let! _cst_b := get_u8 in
  let! blk_type := get_u8 in
  let! _cst_w1 := get_u16 in
  let! _cst_w2 := get_u16 in
  let! _cst_pp := get_u16 in
  let! _unknown_1 := get_u8 in
  let! flags := get_u8 in
  let! language := get_u8 in
  let! _sub_blk := get_u8 in
  let! _blk_number := get_u16 in
  let! len_load_mem := get_u32 in
  let! _blk_sec := get_u32 in
  let! _code_ms := get_u32 in
  let! _code_dy := get_u16 in
  let! _intf_ms := get_u32 in
  let! _intf_dy := get_u16 in
  let! sbb_len := get_u16 in
  let! _add_len := get_u16 in
  let! local_data := get_u16 in
  let! mc7_size := get_u16 in
  let! author := read_str 8 in
  let! family := read_str 8 in
  let! header := read_str 8 in
  let! version := optional_field 1 get_u8 in
  let! _unk2 := optional_field 1 get_u8 in
  let! checksum := optional_field 2 get_u16 in
  rd_ret {| bi_block_type := blk_type; bi_block_number := block_number; bi_language := language;
            bi_flags := flags; bi_size := as_u16 (Z.min len_load_mem 0xFFFF);
            bi_size_ram := sbb_len; bi_mc7_size := mc7_size; bi_local_data := local_data;
            bi_checksum := checksum; bi_version := version; bi_author := author;
            bi_family := family; bi_header := header; bi_date := [] |}.

Definition block_info_of (block_number : Z) (payload : bytes) : res Client.Error BlockInfo :=
  if blen payload <? 40 then Err Client.UnexpectedResponse
  else res_map_err Client.Proto
         (match block_info_fields block_number payload with
          | Ok (info, _) => Ok info
          | Err e => Err e
          | Panic => Panic
          end).

Section BlockInfo.
Context {T : Type} `{Transport T}.

Definition block_info_query (_func block_type block_number : Z) : @Cl T bytes :=
  let* (header, body) :=
    exchange [0x00; 0x01; 0x12; 0x04; 0x11; 0x43; 0x03; 0x00]
      ([0xFF; 0x09; 0x00; 0x08; 0x30; block_type] ++ ascii_block_number block_number ++ [0x41])
      UserData in
  if blen body <? param_len header then io_fail Client.UnexpectedResponse
  else
    let params := take (Z.to_nat (param_len header)) body in
    let body := drop (Z.to_nat (param_len header)) body in
    let err_no :=
      if 12 <=? blen params then of_be16 (byte_or_0 params 10) (byte_or_0 params 11) else 0 in
    if negb (err_no =? 0) then
      io_fail (Client.PlcError err_no ("block info error: ErrNo=0x" +:+ hex4 err_no))
    else
      match body with
      | ret_val :: _tr_size :: _l1 :: _l2 :: rest =>
          if negb (ret_val =? 0xFF) then
            io_fail (Client.PlcError ret_val ("block info RetVal=0x" +:+ hex2 ret_val))
          else io_ret rest
      | _ => io_fail Client.UnexpectedResponse
      end.

Definition get_block_info (func block_type block_number : Z) : @Cl T BlockInfo :=
  let* payload := block_info_query func block_type block_number in
  io_lift (block_info_of block_number payload).
Definition S7Client_get_ag_block_info (block_type block_number : Z) : @Cl T BlockInfo :=
  get_block_info 0x13 block_type block_number.
Definition S7Client_get_pg_block_info (block_type block_number : Z) : @Cl T BlockInfo :=
  get_block_info 0x14 block_type block_number.

(** ** Filling a data block *)
Definition chunk_size : Z := 240.

(** [(0..size).step_by(chunk_size)]. *)
Definition fill_offsets (size : Z) : list Z :=
  (fun k => Z.of_nat k * chunk_size) <$> seq 0 (Z.to_nat ((size + chunk_size - 1) / chunk_size)).

Fixpoint fill_loop (db_number size value : Z) (offsets : list Z) : @Cl T unit :=
  match offsets with
  | [] => io_ret tt
  | offset :: offsets =>
      let end_ := Z.min (offset + chunk_size) size in
      let* _ := S7Client_db_write db_number offset (replicate (Z.to_nat (end_ - offset)) value) in
      fill_loop db_number size value offsets
  end.

Definition S7Client_db_fill (db_number value : Z) : @Cl T unit :=
  let* info := S7Client_get_ag_block_info 0x41 db_number in
  let size := bi_size info in
  if size =? 0 then
    io_fail (Client.PlcError 0 ("DB" +:+ message_of (format_dec 0 db_number) +:+ " has zero size"))
  else fill_loop db_number size value (fill_offsets size).
End BlockInfo.

(** ** The offline record *)
Definition u16_at (d : bytes) (i : nat) : Z := of_be16 (byte_or_0 d i) (byte_or_0 d (S i)).
Definition u32_at (d : bytes) (i : nat) : Z :=
  of_be32 (byte_or_0 d i) (byte_or_0 d (S i)) (byte_or_0 d (S (S i))) (byte_or_0 d (S (S (S i)))).
Definition HDR : Z := 36.
Definition FOOTER : Z := 48.

Definition parse_block_info (data : bytes) : res Client.Error BlockInfo :=
  if blen data <? HDR + FOOTER then Err Client.UnexpectedResponse
  else
    let load_size := u32_at data 8 in
    if negb (load_size =? blen data) then Err Client.UnexpectedResponse
    else
      let mc7_size := u16_at data 34 in
      if load_size <=? mc7_size + HDR then Err Client.UnexpectedResponse
      else
        let footer := drop (Z.to_nat (load_size - FOOTER)) data in
        let str i := field_text (take 8 (drop i footer)) in
        Ok {| bi_block_type := byte_or_0 data 5; bi_block_number := u16_at data 6;
              bi_language := byte_or_0 data 4; bi_flags := byte_or_0 data 3;
              bi_size := as_u16 (Z.min load_size 0xFFFF); bi_size_ram := u16_at data 28;
              bi_mc7_size := as_u16 mc7_size; bi_local_data := u16_at data 32;
              bi_checksum := u16_at footer 44; bi_version := 0; bi_author := str 20%nat;
              bi_family := str 28%nat; bi_header := str 36%nat; bi_date := [] |}.

(** * Correctness *)

(** ** Filling *)
Definition filled (db v n : Z) (m : Mem) : Mem :=
  spec_write 0x84 db 0 (replicate (Z.to_nat n) v) m.

Lemma filled_step db v n j m :
  0 <= n → 0 <= j →
  mem_eq (spec_write 0x84 db n (replicate (Z.to_nat j) v) (filled db v n m))
         (filled db v (n + j) m).
Proof.
  intros Hn Hj. unfold filled. rewrite Z2Nat.inj_add, replicate_add, <- spec_write_app by lia.
  unfold blen. rewrite length_replicate, Z2Nat.id by lia. done.
Qed.

Lemma fill_loop_linked db size v m0 c n : ∀ k r s,
  u16 db → size <= 0xFFFF → is_area_locked 0x84 s = false →
  (Z.of_nat (k + n) - 1) * chunk_size < size <= Z.of_nat (k + n) * chunk_size →
  mem_eq (mem_of s) (filled db v (Z.min (Z.of_nat k * chunk_size) size) m0) →
  ∃ r' s', fill_loop db size v ((fun k => Z.of_nat k * chunk_size) <$> seq k n) (linked c r s) =
           (Ok tt, linked c r' s') ∧ mem_eq (mem_of s') (filled db v size m0).
Proof.
  unfold chunk_size. induction n as [|n IH]; intros k r s Hdb Hs Hl Hn Hm.
  { exists r, s. split; [done|]. by rewrite Z.min_r in Hm by lia. }
  cbn [seq fmap list_fmap fill_loop]. unfold chunk_size.
  set (o := Z.of_nat k * 240) in *. set (j := Z.min (o + 240) size - o).
  assert (0 < j <= 240 ∧ 0 <= o) as Hj by (subst o j; lia).
  destruct (write_one_linked "db_write" "write error" (db_item db o j)
              (replicate (Z.to_nat j) v) c r s) as (s1 & Hm1 & Hl1 & _ & Hw).
  { apply db_item_addressable; [done|unwidth; lia|subst o; lia]. }
  { unfold blen. rewrite length_replicate. lia. }
  assert (S7Client_db_write db o (replicate (Z.to_nat j) v) (linked c r s) =
          (Ok tt, linked c (as_u16 (r + 1)) s1)) as Hw'.
  { unfold S7Client_db_write, blen. rewrite length_replicate, Z2Nat.id by lia.
    rewrite as_u16_small by (unwidth; lia). exact Hw. }
  rewrite (io_bind_ok _ _ _ _ _ Hw').
  apply (IH (S k)); [done|done|by rewrite Hl1|lia|].
  unfold spec_write_item in Hm1. cbn [address write_data db_item area db_number] in Hm1.
  change (to_u8 DataBlock) with 0x84 in Hm1. rewrite Hl in Hm1. rewrite Hm1, Hm.
  rewrite Z.min_l by (subst o; lia). change (start (db_item db o j)) with o.
  rewrite filled_step by lia. by replace (o + j) with (Z.min (Z.of_nat (S k) * 240) size) by lia.
Qed.

(** C34: [db_fill] fills the block: for a block of 1 to 65535 bytes in an
    unlocked data block area, its loop of 240-byte writes against the simulated
    PLC succeeds, sets every byte of the block to the value and changes nothing
    beyond its end or elsewhere. *)
Theorem db_fill_exact c r s db size v :
  u16 db → 0 < size <= 0xFFFF → is_area_locked 0x84 s = false →
  ∃ r' s', fill_loop db size v (fill_offsets size) (linked c r s) = (Ok tt, linked c r' s') ∧
    ∀ a d o, mem_of s' (a, d, o) =
      if bool_decide (a = 0x84 ∧ d = db ∧ 0 <= o < size) then v else mem_of s (a, d, o).
Proof.
  intros Hdb Hs Hl.
  destruct (fill_loop_linked db size v (mem_of s) c
              (Z.to_nat ((size + chunk_size - 1) / chunk_size)) 0 r s) as (r' & s' & He & Hm);
    [done|lia|done| | |].
  { unfold chunk_size. rewrite Nat.add_0_l, Z2Nat.id by (apply Z.div_pos; lia).
    pose proof (Z.div_mod (size + 240 - 1) 240 ltac:(lia)).
    pose proof (Z.mod_pos_bound (size + 240 - 1) 240 ltac:(lia)). lia. }
  { rewrite Z.min_l by (cbn; lia). intros [[a d] o].
    unfold filled, spec_write. case_bool_decide as E; [|done].
    unfold blen in E. rewrite length_replicate in E. lia. }
  exists r', s'. split; [exact He|]. intros a d o. rewrite (Hm (a, d, o)).
  unfold filled, spec_write, blen. rewrite length_replicate, Z2Nat.id, Z.add_0_l by lia.
  case_bool_decide as E; [|done]. by rewrite lookup_replicate_2 by lia.
Qed.

Lemma db_fill_exact_witness :
  ∃ r' s', fill_loop 7 500 0xAA (fill_offsets 500) (linked {| pdu_size := 480 |} 1 DataStore_new) =
      (Ok tt, linked {| pdu_size := 480 |} r' s') ∧
    ∀ a d o, mem_of s' (a, d, o) =
      if bool_decide (a = 0x84 ∧ d = 7 ∧ 0 <= o < 500) then 0xAA else mem_of DataStore_new (a, d, o).
Proof. apply db_fill_exact; [unwidth; lia|lia|done]. Defined.

(** ** The simulated PLC *)
Lemma block_info_query_linked func bt bn c r s :
  block_info_query func bt bn (linked c r s) =
  (Err (Client.PlcError 8 "block info error: ErrNo=0x0008"), linked c (as_u16 (r + 1)) s).
Proof.
  set (r' := as_u16 (r + 1)). assert (u16 r') as Hr by apply as_u16_u16.
  set (params := [0x00; 0x01; 0x12; 0x04; 0x11; 0x43; 0x03; 0x00]).
  set (data := [0xFF; 0x09; 0x00; 0x08; 0x30; bt] ++ ascii_block_number bn ++ [0x41]).
  set (szl := build_szl_response (of_be16 0x30 bt)).
  pose proof (blen_build_szl_response (of_be16 0x30 bt)) as Hb. fold szl in Hb.
  set (body := params ++ [0xFF; 0x09; 0x00; 0x08] ++ [0xFF] ++ [0x04] ++
               be16 (as_u16 (blen szl)) ++ szl).
  assert (exchange params data UserData (linked c r s) =
          (Ok (ack_header r' 12 (as_u16 (blen szl)) 0 0, body), linked c r' s)) as He.
  { eapply (exchange_linked _ _ UserData c r s
      (S7Header_encode (ack_header r' 12 (as_u16 (blen szl)) 0 0) ++ body) s).
    - rewrite blen_request_payload. subst params data. unfold ascii_block_number.
      autorewrite with blen. lia.
    - rewrite blen_app, blen_ack_header. subst body params. autorewrite with blen. lia.
    - intros T Tr tr. rewrite dispatch_userdata by done. reflexivity.
    - apply S7Header_decode_encode, ack_header_wf; try done; try apply as_u16_u16; unwidth; lia. }
  unfold block_info_query. rewrite (io_bind_ok _ _ _ _ _ He).
  assert ((blen body <? param_len (ack_header r' 12 (as_u16 (blen szl)) 0 0)) = false) as ->.
  { cbn [param_len ack_header]. subst body params. autorewrite with blen. lia. }
  reflexivity.
Qed.

(** The simulated PLC offers no block information: it takes the query for
    an SZL request and echoes its parameters, in which the client finds the
    error number 8; [get_ag_block_info], [get_pg_block_info] and with them
    [db_fill] fail, and the memory is not touched. *)
Theorem block_info_unsupported bt bn v c r s :
  let refused := Client.PlcError 8 "block info error: ErrNo=0x0008" in
  S7Client_get_ag_block_info bt bn (linked c r s) = (Err refused, linked c (as_u16 (r + 1)) s) ∧
  S7Client_get_pg_block_info bt bn (linked c r s) = (Err refused, linked c (as_u16 (r + 1)) s) ∧
  S7Client_db_fill bn v (linked c r s) = (Err refused, linked c (as_u16 (r + 1)) s).
Proof.
  cbv zeta. unfold S7Client_db_fill, S7Client_get_ag_block_info, S7Client_get_pg_block_info, get_block_info.
  by rewrite !(io_bind_err _ _ _ _ _ (block_info_query_linked _ _ _ _ _ _)),
    !(io_bind_err _ _ _ _ _ (io_bind_err _ _ _ _ _ (block_info_query_linked _ _ _ _ _ _))).
Qed.

(** ** Reading the records *)

Lemma read_str_eq d : read_str 8 d = Ok (field_text (take 8 d), drop 8 d).
Proof.
  unfold read_str. destruct (Z.min_spec 8 (blen d)) as [[? ->]|[? ->]]; [done|].
  rewrite to_nat_blen, firstn_all, drop_all, take_ge, drop_ge by (unfold blen in *; lia). done.
Qed.

Lemma optional_u8_ok d : ∃ v r, optional_field 1 get_u8 d = Ok (v, r).
Proof.
  destruct d as [|x d]; [by eexists _, _|]. exists x, d. unfold optional_field, rd_bind, remaining.
  destruct (Z.leb_spec 1 (blen (x :: d))); [done|blen_lia].
Qed.
Lemma optional_u16_ok d : ∃ v r, optional_field 2 get_u16 d = Ok (v, r).
Proof.
  unfold optional_field, rd_bind, remaining.
  destruct (Z.leb_spec 2 (blen d)); [|by eexists _, _].
  destruct d as [|x [|y d]]; try (autorewrite with blen in *; lia). by eexists _, _.
Qed.

(** The online block record: an answer of fewer than 40 bytes is refused, 42
    bytes and more are read field by field at the offsets of the record (texts
    cut at their first NUL and trimmed, a load memory size above 65535 reported
    as 65535), and an answer of 40 or 41 bytes, which the length check lets
    pass, panics. *)
Theorem block_info_of_cases bn d :
  wf_bytes d →
  (blen d < 40 → block_info_of bn d = Err Client.UnexpectedResponse) ∧
  (40 <= blen d < 42 → block_info_of bn d = Panic) ∧
  (42 <= blen d → ∃ version checksum,
     block_info_of bn d =
       Ok {| bi_block_type := byte_or_0 d 1; bi_block_number := bn; bi_language := byte_or_0 d 10;
             bi_flags := byte_or_0 d 9; bi_size := Z.min (u32_at d 14) 0xFFFF;
             bi_size_ram := u16_at d 34; bi_mc7_size := u16_at d 40; bi_local_data := u16_at d 38;
             bi_checksum := checksum; bi_version := version;
             bi_author := field_text (take 8 (drop 42 d));
             bi_family := field_text (take 8 (drop 50 d));
             bi_header := field_text (take 8 (drop 58 d)); bi_date := [] |} ∧
     (70 <= blen d → version = byte_or_0 d 66 ∧ checksum = u16_at d 68)).
Proof.
  intros Hwf. split_and!; intros Hl; unfold block_info_of; (case_ltb; [try done; lia|try lia]).
  - do 40 (destruct d as [|? d]; [exfalso; autorewrite with blen in Hl; lia|]).
    destruct d as [|? [|? ?]]; [done..|exfalso; autorewrite with blen in Hl; blen_pose; lia].
  - do 42 (destruct d as [|? d]; [exfalso; autorewrite with blen in Hl; lia|]).
    destruct (optional_u8_ok (drop 24 d)) as (v & t1 & E1).
    destruct (optional_u8_ok t1) as (u & t2 & E2).
    destruct (optional_u16_ok t2) as (k & t3 & E3).
    exists v, k. split.
    + unfold block_info_fields. repeat rd_step.
      do 3 (erewrite rd_bind_ok by apply read_str_eq; rewrite ?drop_drop; cbn [Nat.add]).
      rewrite (rd_bind_ok _ _ _ _ _ E1), (rd_bind_ok _ _ _ _ _ E2), (rd_bind_ok _ _ _ _ _ E3).
      unfold rd_ret, res_map_err. rewrite as_u16_small; [done|].
      wf_inv. unfold of_be32. unwidth. lia.
    + intros Hl'. do 24 (destruct d as [|? d]; [exfalso; autorewrite with blen in Hl'; lia|]).
      destruct d as [|a [|b [|x [|y d]]]]; try (exfalso; autorewrite with blen in Hl'; lia).
      unfold optional_field, rd_bind, remaining in E1, E2, E3. cbn [drop] in E1.
      destruct (Z.leb_spec 1 (blen (a :: b :: x :: y :: d))); [|blen_lia]. injection E1 as <- <-.
      destruct (Z.leb_spec 1 (blen (b :: x :: y :: d))); [|blen_lia]. injection E2 as <- <-.
      destruct (Z.leb_spec 2 (blen (x :: y :: d))); [|blen_lia]. by injection E3 as <- <-.
Qed.

Lemma block_info_of_cases_witness :
  block_info_of 7 (replicate 41 0) = Panic ∧
  ∃ version checksum,
    block_info_of 7 (replicate 78 1) =
      Ok {| bi_block_type := 1; bi_block_number := 7; bi_language := 1; bi_flags := 1;
            bi_size := 0xFFFF; bi_size_ram := 257; bi_mc7_size := 257; bi_local_data := 257;
            bi_checksum := checksum; bi_version := version;
            bi_author := replicate 8 1; bi_family := replicate 8 1; bi_header := replicate 8 1;
            bi_date := [] |} ∧ (70 <= 78 → version = 1 ∧ checksum = 257).
Proof.
  split.
  - apply (block_info_of_cases 7 (replicate 41 0)); [|vm_compute; split; congruence].
    apply Forall_replicate. unwidth. lia.
  - apply (block_info_of_cases 7 (replicate 78 1)); [|vm_compute; congruence].
    apply Forall_replicate. unwidth. lia.
Defined.

(** *** Blocks as bytes *)

(** A text of at most eight bytes, padded with NUL. *)
Definition pad8 (s : text) : bytes := let b := s ≫= utf8 in b ++ replicate (8 - length b) 0.
Definition name_ok (s : text) : Prop :=
  Forall (fun c => scalar c ∧ c ≠ 0) s ∧ trim s = s ∧ blen (s ≫= utf8) <= 8.

(** The layout of a block: a header of 36 bytes, the code and data, a footer of
    48 bytes; [h], [times], [seg], [f] and [t] are the parts nothing reads. *)
Definition block_image (h times seg code f t : bytes) (i : BlockInfo) : bytes :=
  h ++ [bi_flags i; bi_language i; bi_block_type i] ++ be16 (bi_block_number i) ++
  be32 (84 + blen code) ++ times ++ be16 (bi_size_ram i) ++ seg ++ be16 (bi_local_data i) ++
  be16 (bi_mc7_size i) ++ code ++ f ++ pad8 (bi_author i) ++ pad8 (bi_family i) ++
  pad8 (bi_header i) ++ be16 (bi_checksum i) ++ t.

Lemma utf8_nonzero c : scalar c → c ≠ 0 → Forall (fun b => b ≠ 0) (utf8 c).
Proof.
  unfold scalar, utf8. intros. repeat case_ltb; repeat constructor; Z.div_mod_to_equations; lia.
Qed.

Lemma span_all f a b : Forall (fun x => f x = true) a → (∀ x r, b = x :: r → f x = false) →
  span f (a ++ b) = (a, b).
Proof.
  intros Ha Hb. induction Ha as [|x a Hx _ IH]; cbn.
  - destruct b as [|x b]; [done|]. cbn. by rewrite (Hb x b).
  - by rewrite Hx, IH.
Qed.

Lemma field_text_pad8 s : name_ok s → field_text (pad8 s) = s.
Proof.
  intros (Hs & Ht & _). unfold field_text, pad8. rewrite span_all.
  - cbn [fst]. rewrite from_utf8_lossy_utf8; [done|]. eapply Forall_impl; [exact Hs|]. by intros c [? _].
  - apply Forall_bind. eapply Forall_impl; [exact Hs|]. intros c [? ?].
    eapply Forall_impl; [by apply utf8_nonzero|]. cbn. intros x ?. apply negb_true_iff. lia.
  - intros x r Hx. destruct (8 - length (s ≫= utf8))%nat; [done|]. by injection Hx as <-.
Qed.

Lemma length_pad8 s : name_ok s → length (pad8 s) = 8%nat.
Proof.
  intros (_ & _ & Hl). unfold pad8. rewrite length_app, length_replicate. unfold blen in Hl. lia.
Qed.

Lemma name_ok_ascii s :
  forallb (fun c => (1 <=? c) && (c <? 128)) s = true → trim s = s → blen (s ≫= utf8) <= 8 →
  name_ok s.
Proof.
  intros Hs Ht Hl. split; [|done]. apply Forall_forall. intros c Hc.
  rewrite forallb_forall in Hs. specialize (Hs c (proj1 (list_elem_of_In _ _) Hc)).
  unfold scalar. lia.
Qed.

Lemma byte_or_0_app a b k : byte_or_0 (a ++ b) (length a + k) = byte_or_0 b k.
Proof. unfold byte_or_0. rewrite lookup_app_r by lia. do 2 f_equal. lia. Qed.
Lemma u16_at_app a b v : u16 v → u16_at (a ++ be16 v ++ b) (length a) = v.
Proof.
  intros Hv. unfold u16_at. rewrite <- (Nat.add_0_r (length a)), <- Nat.add_succ_r, !byte_or_0_app.
  by apply of_be16_split.
Qed.
Lemma pad8_at a s b : name_ok s → field_text (take 8 (drop (length a) (a ++ pad8 s ++ b))) = s.
Proof.
  intros Hs. rewrite drop_app_length, <- (length_pad8 s Hs), take_app_length. by apply field_text_pad8.
Qed.

(** The parts of a block have the sizes of the layout, and its fields fit. *)
Definition image_ok (h times seg code f t : bytes) (i : BlockInfo) : Prop :=
  (length h = 3 ∧ length times = 16 ∧ length seg = 2 ∧ length f = 20 ∧ length t = 2)%nat ∧
  blen code < 4294967212 ∧ u16 (bi_block_number i) ∧ u16 (bi_size_ram i) ∧
  u16 (bi_local_data i) ∧ u16 (bi_mc7_size i) ∧ u16 (bi_checksum i) ∧
  name_ok (bi_author i) ∧ name_ok (bi_family i) ∧ name_ok (bi_header i) ∧
  bi_mc7_size i < blen code + 48 ∧ bi_version i = 0 ∧ bi_date i = [] ∧
  bi_size i = Z.min (84 + blen code) 0xFFFF.

Lemma footer_fields f a b n k t :
  length f = 20%nat → name_ok a → name_ok b → name_ok n → u16 k →
  let foot := f ++ pad8 a ++ pad8 b ++ pad8 n ++ be16 k ++ t in
  field_text (take 8 (drop 20 foot)) = a ∧ field_text (take 8 (drop 28 foot)) = b ∧
  field_text (take 8 (drop 36 foot)) = n ∧ u16_at foot 44 = k.
Proof.
  intros Hf Ha Hb Hn Hk. cbv zeta. split_and!.
  - rewrite <- Hf. by apply pad8_at.
  - rewrite (assoc (++) f). replace 28%nat with (length (f ++ pad8 a))
      by (rewrite length_app, length_pad8, Hf; done). by apply pad8_at.
  - rewrite !(assoc (++) f), (assoc (++) (f ++ pad8 a)).
    replace 36%nat with (length ((f ++ pad8 a) ++ pad8 b))
      by (rewrite !length_app, !length_pad8, Hf; done). by apply pad8_at.
  - rewrite !(assoc (++) f), (assoc (++) (f ++ pad8 a)), (assoc (++) ((f ++ pad8 a) ++ pad8 b)).
    replace 44%nat with (length (((f ++ pad8 a) ++ pad8 b) ++ pad8 n))
      by (rewrite !length_app, !length_pad8, Hf; done). by apply u16_at_app.
Qed.

Lemma block_image_split h times seg code f t i :
  image_ok h times seg code f t i →
  let img := block_image h times seg code f t i in
  blen img = 84 + blen code ∧ u32_at img 8 = 84 + blen code ∧
  byte_or_0 img 3 = bi_flags i ∧ byte_or_0 img 4 = bi_language i ∧
  byte_or_0 img 5 = bi_block_type i ∧ u16_at img 6 = bi_block_number i ∧
  u16_at img 28 = bi_size_ram i ∧ u16_at img 32 = bi_local_data i ∧
  u16_at img 34 = bi_mc7_size i ∧
  drop (Z.to_nat (84 + blen code - FOOTER)) img =
    f ++ pad8 (bi_author i) ++ pad8 (bi_family i) ++ pad8 (bi_header i) ++
    be16 (bi_checksum i) ++ t.
Proof.
  intros ((Hh & Hts & Hsg & Hf & Ht) & Hc & ? & ? & ? & ? & ? & Ha & Hfa & Hhd & _). cbv zeta.
  blen_pose. assert (u32 (84 + blen code)) by (unwidth; lia).
  do 4 (destruct h as [|? h]; try done). do 17 (destruct times as [|? times]; try done).
  do 3 (destruct seg as [|? seg]; try done). unfold block_image. split_and!.
  - unfold blen. rewrite !length_app, !length_pad8, Hf, Ht by done. unfold blen. cbn. lia.
  - by apply of_be32_split.
  - done.
  - done.
  - done.
  - by apply of_be16_split.
  - by apply of_be16_split.
  - by apply of_be16_split.
  - by apply of_be16_split.
  - replace (Z.to_nat (84 + blen code - FOOTER)) with (36 + length code)%nat
      by (unfold FOOTER, blen; lia).
    rewrite <- drop_drop. apply (drop_app_length code).
Qed.

(** [parse_block_info] reads back what a block of the documented layout says
    of itself, whatever its code and the parts nothing reads: type, number,
    language, flags, sizes, checksum and the three names (at most eight bytes of
    UTF-8, without NUL and surrounding blanks), with the size capped at 65535. *)
Theorem parse_block_info_image h times seg code f t i :
  image_ok h times seg code f t i →
  parse_block_info (block_image h times seg code f t i) = Ok i.
Proof.
  intros Hok.
  destruct (block_image_split _ _ _ _ _ _ _ Hok) as (Hl & H1 & H2 & H3 & H4 & H5 & H6 & H7 & H8 & H9).
  destruct Hok as ((_ & _ & _ & Hf & _) & Hc & ? & ? & ? & ? & ? & Ha & Hfa & Hhd & Hm & Hv & Hd & Hs).
  blen_pose. unfold parse_block_info. cbv zeta.
  rewrite H1, H2, H3, H4, H5, H6, H7, H8, H9, Hl. unfold HDR, FOOTER.
  case_ltb; [lia|]. rewrite Z.eqb_refl. cbn [negb].
  destruct (Z.leb_spec (84 + blen code) (bi_mc7_size i + 36)); [lia|].
  rewrite !as_u16_small by (unwidth; lia).
  destruct (footer_fields f (bi_author i) (bi_family i) (bi_header i) (bi_checksum i) t)
    as (-> & -> & -> & ->); [done..|].
  destruct i. cbn in *. by subst.
Qed.

Lemma parse_block_info_image_witness :
  let i := {| bi_block_type := 0x41; bi_block_number := 7; bi_language := 5; bi_flags := 1;
              bi_size := 100; bi_size_ram := 24; bi_mc7_size := 16; bi_local_data := 0;
              bi_checksum := 0xBEEF; bi_version := 0; bi_author := str_bytes "me";
              bi_family := str_bytes "pumps"; bi_header := str_bytes "PUMP 1"; bi_date := [] |} in
  parse_block_info (block_image (replicate 3 0x70) (replicate 16 0) [0; 0] (replicate 16 0xCC)
                      (replicate 20 0) [0; 0] i) = Ok i.
Proof.
  intros i. apply parse_block_info_image. subst i. unfold image_ok.
  cbn [bi_block_number bi_size_ram bi_local_data bi_mc7_size bi_checksum bi_author bi_family
       bi_header bi_version bi_date bi_size].
  split_and!; try done; try (by apply name_ok_ascii); unwidth; lia.
Defined.

(** The two readers of an uploaded block disagree on its layout: a block of
    less than 64 KiB that [BlockData::from_bytes] reads with its length as total
    length is refused by [parse_block_info]. *)
Theorem block_layouts_disagree d b :
  wf_bytes d → blen d < 65536 → BlockData_from_bytes d = Some b → total_length b = blen d →
  parse_block_info d = Err Client.UnexpectedResponse.
Proof.
  intros Hd Hl Hb Ht. unfold parse_block_info. case_ltb; [done|].
  destruct (Z.eqb_spec (u32_at d 8) (blen d)) as [E|]; [exfalso|done].
  unfold HDR, FOOTER in *. do 20 (destruct d as [|? d]; [done|]).
  injection Hb as <-. cbn [total_length] in Ht. wf_inv.
  unfold u32_at, byte_or_0 in E. cbn in E. unfold of_be32 in *. unwidth. blen_lia.
Qed.

Lemma block_layouts_disagree_witness :
  parse_block_info (BlockData_to_bytes (BlockData_new_db 1 100)) = Err Client.UnexpectedResponse.
Proof.
  apply (block_layouts_disagree _ (BlockData_new_db 1 100)); [|done..].
  apply Forall_forall. intros x Hx. apply list_elem_of_In in Hx.
  assert (forallb (fun b => (0 <=? b) && (b <? 256))
            (BlockData_to_bytes (BlockData_new_db 1 100)) = true) as E by (vm_compute; reflexivity).
  rewrite forallb_forall in E. specialize (E x Hx). unwidth. lia.
Defined.
