(* ===== verification/CpuInfo.v ===== *)
(** * Order code and CPU information (snap7-client, client.rs)

    [get_order_code] and [get_cpu_info] read an SZL record and extract texts
    from it, by entries where the record has them and otherwise by scanning its
    bytes.  Loops over a buffer and an index are loops over the bytes from that
    index on; each turn consumes a byte, so the length of the buffer is enough
    fuel (Lemmas [scan_loop_fuel], [sub_record_loop_fuel]). *)

From S2P Require Import Prelude Wire Io Tpkt Cotp S7Header Szl Store ServerHandshake Dispatch.
From S2P Require Import Connection Tag Text Client Loopback ClientServices ServiceLoop BlockInfo.
Local Open Scope Z_scope.

Record OrderCode := { oc_code : text; oc_v1 : Z; oc_v2 : Z; oc_v3 : Z }.

Inductive Protocol := S7 | S7Plus.
Definition Protocol_display (p : Protocol) : string :=
  match p with S7 => "S7" | S7Plus => "S7+" end.

(** The five texts of [CpuInfo], and the record itself. *)
Record CpuTexts := {
  module_type : text;
  serial_number : text;
  as_name : text;
  copyright : text;
  module_name : text;
}.
Record CpuInfo := { cpu_texts : CpuTexts; cpu_protocol : Protocol }.

Definition no_texts : CpuTexts :=
  {| module_type := []; serial_number := []; as_name := []; copyright := []; module_name := [] |}.
Definition is_empty (s : text) : bool := match s with [] => true | _ => false end.

(** [c.is_ascii_graphic() || c == b' ']. *)
Definition is_visible (b : Z) : bool := (32 <=? b) && (b <=? 126).

(** ** Entries *)

(** The head of an entry loop: [if b.remaining() < entry_len { break }], then
    the entry's index and its [entry_len - 2] bytes. *)
Definition next_entry (entry_len : Z) (b : bytes) : option (Z * bytes * bytes) :=
  if blen b <? entry_len then None
  else
    match b with
    | x :: y :: r =>
        Some (of_be16 x y, take (Z.to_nat (entry_len - 2)) r, drop (Z.to_nat (entry_len - 2)) r)
    | _ => None
    end.

(** [if field.is_empty() { field = val }], by the entry's index. *)
Definition if_empty (old val : text) : text := if is_empty old then val else old.
Definition store_entry (idx : Z) (val : text) (f : CpuTexts) : CpuTexts :=
  let s i old := if idx =? i then if_empty old val else old in
  {| module_type := s 0x0002 (module_type f); serial_number := s 0x0005 (serial_number f);
     as_name := s 0x0001 (as_name f); copyright := s 0x0004 (copyright f);
     module_name := s 0x0003 (module_name f) |}.

(** The fields and [module_type_canonical]. *)
Fixpoint cpu_entries (n : nat) (entry_len : Z) (b : bytes) (f : CpuTexts) (canonical : text)
  : CpuTexts * text :=
  match n with
  | O => (f, canonical)
  | S n =>
      match next_entry entry_len b with
      | None => (f, canonical)
      | Some (idx, raw, b) =>
          let val := field_text raw in
          cpu_entries n entry_len b (store_entry idx val f)
            (if idx =? 0x0007 then if_empty canonical val else canonical)
      end
  end.

Fixpoint order_entries (n : nat) (entry_len : Z) (b : bytes) : option text :=
  match n with
  | O => None
  | S n =>
      match next_entry entry_len b with
      | None => None
      | Some (idx, raw, b) =>
          let code := field_text raw in
          if (idx =? 0x0001) && negb (is_empty code) then Some code
          else order_entries n entry_len b
      end
  end.

(** ** Scanning *)

(** The loops that look for runs of visible characters: [visit] is applied to
    each run with the bytes before it, latest first, until it answers [inr]. *)
Fixpoint scan_loop {S R} (visit : bytes → text → S → S + R) (fuel : nat) (before b : bytes) (s : S)
  : S + R :=
  match fuel, b with
  | S fuel, x :: r =>
      if is_visible x then
        let '(run, rest) := span is_visible b in
        match visit before (trim (from_utf8_lossy run)) s with
        | inl s => scan_loop visit fuel (reverse run ++ before) rest s
        | inr res => inr res
        end
      else scan_loop visit fuel (x :: before) r s
  | _, _ => inl s
  end.
Definition scan {S R} (visit : bytes → text → S → S + R) (b : bytes) (s : S) : S + R :=
  scan_loop visit (length b) [] b s.

Definition scan_ascii_fields (data : bytes) (max_count : nat) (min_len : Z) : list text :=
  if (max_count =? 0)%nat then []
  else
    match scan (fun _ s fields =>
                  let fields := if min_len <=? str_len s then fields ++ [s] else fields in
                  if (length fields <? max_count)%nat then inl fields else inr fields) data [] with
    | inl fields | inr fields => fields
    end.

Section Texts.
Variable upper_other : Z → text.
Abbreviation upper := (to_uppercase upper_other).

Definition is_boot (su : text) : bool := contains_str "BOOT" su || starts_with_str "P B" su.

(** One tagged record. *)
Definition store_tagged (tag : Z) (val : text) (f : CpuTexts) : CpuTexts :=
  let s i old := if tag =? i then if_empty old val else old in
  let module_type' :=
    if (tag =? 0x01) && starts_with_str "6ES" val then module_type f
    else s 0x07 (s 0x01 (module_type f)) in
  {| module_type := module_type'; serial_number := s 0x06 (serial_number f);
     as_name := s 0x05 (as_name f); copyright := copyright f;
     module_name := s 0x08 (module_name f) |}.

Fixpoint sub_record_loop (fuel : nat) (b : bytes) (f : CpuTexts) : CpuTexts :=
  match fuel, b with
  | S fuel, x :: ((tag :: ((_ :: _) as start)) as r) =>
      if (x =? 0) && (1 <=? tag) && (tag <=? 8) then
        let '(raw, rest') := span (fun x => negb (x =? 0)) start in
        let val := trim (from_utf8_lossy raw) in
        let f := if negb (is_empty val) && negb (is_boot (upper val))
                 then store_tagged tag val f else f in
        sub_record_loop fuel rest' f
      else sub_record_loop fuel r f
  | _, _ => f
  end.

Definition find_copyright (b : bytes) : text :=
  match scan (fun _ val s => if (3 <=? str_len val) && is_boot (upper val) then inr val else inl s)
          b tt with
  | inl _ => []
  | inr val => val
  end.

Definition parse_sub_record_fields (b : bytes) : CpuTexts :=
  let f := sub_record_loop (length b) b no_texts in
  {| module_type := module_type f; serial_number := serial_number f; as_name := as_name f;
     copyright := if is_empty (copyright f) then find_copyright b else copyright f;
     module_name := module_name f |}.

(** *** The protocol *)
Definition is_s7plus (u : text) : bool :=
  contains_str "1500" u || contains_str "1200" u || contains_str "ET 200SP" u ||
  contains_str "ET200SP" u ||
  match find_after (str_bytes "CPU") u with
  | None => false
  | Some after_cpu =>
      let num := (span is_ascii_digit (span (fun c => negb (is_ascii_digit c)) after_cpu).2).1 in
      bool_decide (take 2 num = str_bytes "12") || bool_decide (take 2 num = str_bytes "15")
  end.
Definition detect_protocol (module_type : text) : Protocol :=
  if is_s7plus (upper module_type) then S7Plus else S7.

(** *** The last resort: guessing by the byte before a run and by its text *)
Definition guess_run (before : bytes) (val : text) (f : CpuTexts) : CpuTexts :=
  let tag := match before with t :: z :: _ => if z =? 0 then Some t else None | _ => None end in
  let tagged i old := bool_decide (tag = Some i) && is_empty old in
  let su := upper val in
  let set_type := {| module_type := val; serial_number := serial_number f; as_name := as_name f;
                     copyright := copyright f; module_name := module_name f |} in
  let set_serial := {| module_type := module_type f; serial_number := val; as_name := as_name f;
                       copyright := copyright f; module_name := module_name f |} in
  if str_len val <? 3 then f
  else if contains_str "BOOT" su || starts_with_str "P B" su || starts_with_str "HBOOT" su then f
  else if tagged 0x07 (module_type f) then set_type
  else if tagged 0x08 (module_name f) then
    {| module_type := module_type f; serial_number := serial_number f; as_name := as_name f;
       copyright := copyright f; module_name := val |}
  else if tagged 0x05 (as_name f) then
    {| module_type := module_type f; serial_number := serial_number f; as_name := val;
       copyright := copyright f; module_name := module_name f |}
  else if tagged 0x06 (copyright f) then
    {| module_type := module_type f; serial_number := serial_number f; as_name := as_name f;
       copyright := val; module_name := module_name f |}
  else if tagged 0x04 (serial_number f) then set_serial
  else if contains 45 val && (4 <=? length (filter (fun c => is_ascii_digit c = true) val))%nat &&
          negb (starts_with_str "6ES7" val) && is_empty (serial_number f) then set_serial
  else if contains_str "CPU" su && contains_str "PN" su && is_empty (module_type f) then set_type
  else if is_empty (module_type f) && (8 <=? str_len val) && negb (contains_str "MC_" su)
  then set_type
  else f.

Definition guess_fields (data : bytes) : CpuTexts :=
  match scan (R := Empty_set) (fun before val f => inl (guess_run before val f)) data no_texts with
  | inl f => f
  | inr e => match e with end
  end.

(** ** The services *)
Definition order_code_of (payload : bytes) : res Client.Error OrderCode :=
  match payload with
  | i0 :: i1 :: _ :: _ :: e0 :: e1 :: c0 :: c1 :: b =>
      let n := length payload in
      let found code :=
        {| oc_code := code; oc_v1 := byte_or_0 payload (n - 3); oc_v2 := byte_or_0 payload (n - 2);
           oc_v3 := byte_or_0 payload (n - 1) |} in
      let szl_id := of_be16 i0 i1 in
      let entry_len := of_be16 e0 e1 in
      let entry_count := of_be16 c0 c1 in
      let listed :=
        if ((szl_id =? 0x0011) || (szl_id =? 0x001C)) && (4 <=? entry_len) && (0 <? entry_count)
        then order_entries (Z.to_nat entry_count) entry_len b else None in
      let looks_like_code s :=
        let su := upper s in
        (starts_with_str "6ES" su || starts_with_str "6AV" su || starts_with_str "6GK" su) &&
        (10 <=? str_len s) && forallb is_visible (s ≫= utf8) in
      match listed with
      | Some code => Ok (found code)
      | None => Ok (found (default [] (List.find looks_like_code (scan_ascii_fields payload 10 4))))
      end
  | _ => Err Client.UnexpectedResponse
  end.

Definition cpu_info (f : CpuTexts) : CpuInfo :=
  {| cpu_texts := f; cpu_protocol := detect_protocol (module_type f) |}.

(** The end of the entry form: entry 7 wins over entry 2, and the plant name
    stands in for a missing module name. *)
Definition merge_entries (f : CpuTexts) (canonical : text) : CpuTexts :=
  {| module_type := if is_empty canonical then module_type f else canonical;
     serial_number := serial_number f; as_name := as_name f; copyright := copyright f;
     module_name := if_empty (module_name f) (as_name f) |}.

Definition cpu_info_entries (szl_id entry_len entry_count : Z) (b : bytes) : option CpuTexts :=
  if (szl_id =? 0x001C) && (4 <=? entry_len) && (0 <? entry_count) then
    let '(f, canonical) := cpu_entries (Z.to_nat entry_count) entry_len b no_texts [] in
    let f := merge_entries f canonical in
    if negb (is_empty (module_type f)) || negb (is_empty (serial_number f)) ||
       negb (is_empty (as_name f))
    then Some f else None
  else None.

Definition cpu_info_of (payload : bytes) : res Client.Error CpuInfo :=
  match payload with
  | i0 :: i1 :: _ :: _ :: e0 :: e1 :: c0 :: c1 :: b =>
      match cpu_info_entries (of_be16 i0 i1) (of_be16 e0 e1) (of_be16 c0 c1) b with
      | Some f => Ok (cpu_info f)
      | None =>
          let f := parse_sub_record_fields payload in
          if negb (is_empty (module_type f)) || negb (is_empty (serial_number f)) then
            Ok (cpu_info f)
          else Ok (cpu_info (guess_fields payload))
      end
  | _ => Err Client.UnexpectedResponse
  end.

Context {T : Type} `{Transport T}.
Definition S7Client_get_order_code : @Cl T OrderCode :=
  let* payload := read_szl_payload 0x0011 0x0000 in io_lift (order_code_of payload).
Definition S7Client_get_cpu_info : @Cl T CpuInfo :=
  let* payload := read_szl_payload 0x001C 0x0000 in io_lift (cpu_info_of payload).
End Texts.

(** * Correctness *)

(** ** The scanning loops end *)
Lemma span_length f s : (length (span f s).2 <= length s)%nat.
Proof.
  induction s as [|c s IH]; cbn; [done|]. destruct (f c); [|cbn; lia].
  destruct (span f s). cbn in *. lia.
Qed.

(** One more turn than there are bytes changes nothing. *)
Lemma scan_loop_fuel {S R} (visit : bytes → text → S → S + R) n : ∀ fuel before b s,
  (length b <= n)%nat → (n <= fuel)%nat →
  scan_loop visit fuel before b s = scan_loop visit n before b s.
Proof.
  induction n as [|n IH]; intros [|fuel] before b s Hb Hf; try lia; destruct b as [|x r]; try done;
    cbn in Hb; [lia|].
  cbn [scan_loop]. destruct (is_visible x) eqn:Ex; [|by apply IH; lia].
  cbn [span]. rewrite Ex. pose proof (span_length is_visible r) as Hl.
  destruct (span is_visible r) as [run rest]. cbn in Hl.
  destruct (visit _ _ _); [|done]. apply IH; lia.
Qed.

Lemma sub_record_loop_fuel up n : ∀ fuel b f,
  (length b <= n)%nat → (n <= fuel)%nat →
  sub_record_loop up fuel b f = sub_record_loop up n b f.
Proof.
  induction n as [|n IH]; intros [|fuel] b f Hb Hf; try lia; destruct b as [|x [|tag [|y r]]];
    try done; cbn in Hb; [lia|].
  cbn [sub_record_loop]. destruct (_ && _); [|apply IH; cbn; lia].
  pose proof (span_length (fun x => negb (x =? 0)) (y :: r)) as Hl.
  destruct (span _ (y :: r)) as [raw rest]. cbn in Hl. apply IH; lia.
Qed.

(** ** The simulated PLC *)

(** The identity of the simulated PLC as a client reads it: the order code
    its SZL 0x0011 record holds (but version 0.0.0, as the client takes the last
    three bytes of the record and the simulator writes 1.0.0 three bytes
    earlier), and the texts of its SZL 0x001C record, classified as a classic S7
    device. *)
Theorem identity_end_to_end up c r s :
  S7Client_get_order_code up (linked c r s) =
    (Ok {| oc_code := str_bytes "Simulated PLC"; oc_v1 := 0; oc_v2 := 0; oc_v3 := 0 |},
     linked c (as_u16 (r + 1)) s) ∧
  S7Client_get_cpu_info up (linked c r s) =
    (Ok {| cpu_texts := {| module_type := str_bytes "CPU Simulated";
                           serial_number := str_bytes "SIM-0000000001";
                           as_name := str_bytes "SimPLC"; copyright := str_bytes "(C) Simulated";
                           module_name := str_bytes "SimPLC" |};
           cpu_protocol := S7 |}, linked c (as_u16 (r + 1)) s).
Proof.
  unfold S7Client_get_order_code, S7Client_get_cpu_info.
  split.
  - by rewrite (io_bind_ok _ _ _ _ _ (read_szl_payload_linked 0x0011 0 c r s ltac:(unwidth; lia))).
  - by rewrite (io_bind_ok _ _ _ _ _ (read_szl_payload_linked 0x001C 0 c r s ltac:(unwidth; lia))).
Qed.

(** ** Records with entries *)

(** The first text that is not empty among the entries with index [i]. *)
Fixpoint entry_text (i : Z) (es : list (Z * bytes)) : text :=
  match es with
  | [] => []
  | (j, raw) :: es =>
      if j =? i then if_empty (field_text raw) (entry_text i es) else entry_text i es
  end.

(** An SZL record of entries of [el] bytes. *)
Definition entry_bytes (e : Z * bytes) : bytes := be16 e.1 ++ e.2.
Definition szl_record (id index el : Z) (es : list (Z * bytes)) : bytes :=
  be16 id ++ be16 index ++ be16 el ++ be16 (Z.of_nat (length es)) ++ (es ≫= entry_bytes).
Definition record_ok (el : Z) (es : list (Z * bytes)) : Prop :=
  4 <= el < 65536 ∧ (0 < length es)%nat ∧ Z.of_nat (length es) < 65536 ∧
  Forall (fun e => u16 e.1 ∧ blen e.2 = el - 2) es.

Lemma if_empty_assoc a b c : if_empty (if_empty a b) c = if_empty a (if_empty b c).
Proof. by destruct a. Qed.
Lemma if_empty_nil a : if_empty a [] = a.
Proof. by destruct a. Qed.

Lemma next_entry_app el e b :
  4 <= el → u16 e.1 → blen e.2 = el - 2 → next_entry el (entry_bytes e ++ b) = Some (e.1, e.2, b).
Proof.
  intros Hel Hi Hr. destruct e as [i raw]. unfold next_entry, entry_bytes. cbn [fst snd] in *.
  case_ltb; [autorewrite with blen in *; blen_pose; lia|].
  rewrite <- Hr, to_nat_blen. unfold be16. cbn [app].
  by rewrite take_app_length, drop_app_length, of_be16_split.
Qed.

Lemma cpu_entries_spec el es : ∀ f canonical,
  4 <= el → Forall (fun e => u16 e.1 ∧ blen e.2 = el - 2) es →
  cpu_entries (length es) el (es ≫= entry_bytes) f canonical =
  ({| module_type := if_empty (module_type f) (entry_text 2 es);
      serial_number := if_empty (serial_number f) (entry_text 5 es);
      as_name := if_empty (as_name f) (entry_text 1 es);
      copyright := if_empty (copyright f) (entry_text 4 es);
      module_name := if_empty (module_name f) (entry_text 3 es) |},
   if_empty canonical (entry_text 7 es)).
Proof.
  induction es as [|e es IH]; intros f can Hel Hes.
  { cbn. rewrite !if_empty_nil. by destruct f. }
  apply Forall_cons in Hes as [[Hi Hr] Hes]. cbn [length mbind list_bind cpu_entries].
  rewrite next_entry_app, IH by done. destruct e as [i raw]. cbn [fst snd entry_text] in *.
  unfold store_entry. cbn [module_type serial_number as_name copyright module_name].
  assert (∀ k old, if_empty (if i =? k then if_empty old (field_text raw) else old) (entry_text k es) =
                   if_empty old (if i =? k then if_empty (field_text raw) (entry_text k es)
                                 else entry_text k es)) as Hk.
  { intros k old. destruct (i =? k); [apply if_empty_assoc|done]. }
  by rewrite !Hk.
Qed.

(** [get_cpu_info] reads an SZL 0x001C record entry by entry: each text is
    the first one that is not empty among the entries of its index (plant name
    1, module name 3, copyright 4, serial number 5; module type 7, or else 2),
    whatever the order, number and size of the entries, and the plant name
    stands in for a missing module name.  This holds whenever the record names
    a module type, serial number or plant. *)
Theorem cpu_info_of_entries up index el es :
  record_ok el es →
  let module_type := if_empty (entry_text 7 es) (entry_text 2 es) in
  module_type ≠ [] ∨ entry_text 5 es ≠ [] ∨ entry_text 1 es ≠ [] →
  cpu_info_of up (szl_record 0x001C index el es) =
  Ok {| cpu_texts := {| module_type := module_type; serial_number := entry_text 5 es;
                        as_name := entry_text 1 es; copyright := entry_text 4 es;
                        module_name := if_empty (entry_text 3 es) (entry_text 1 es) |};
        cpu_protocol := detect_protocol up module_type |}.
Proof.
  intros (Hel & Hn & Hn' & Hes). cbv zeta. intros Hne.
  unfold cpu_info_of, szl_record, be16. cbn [app].
  rewrite !of_be16_split by (unwidth; lia).
  unfold cpu_info_entries.
  destruct (Z.leb_spec 4 el); [|lia]. destruct (Z.ltb_spec 0 (Z.of_nat (length es))); [|lia].
  rewrite Nat2Z.id, (cpu_entries_spec el es no_texts []) by (done || lia).
  cbn [Z.eqb Pos.eqb andb]. unfold merge_entries, no_texts, cpu_info.
  cbn [module_type serial_number as_name copyright module_name if_empty is_empty].
  change (if is_empty (entry_text 7 es) then entry_text 2 es else entry_text 7 es)
    with (if_empty (entry_text 7 es) (entry_text 2 es)).
  destruct (if_empty (entry_text 7 es) (entry_text 2 es)); [|done].
  destruct (entry_text 5 es); [|done]. destruct (entry_text 1 es); [|done].
  by destruct Hne as [?|[?|?]].
Qed.

Lemma cpu_info_of_entries_witness :
  let es := [(2, str_bytes "PLANT A" ++ [0; 0; 0]); (7, str_bytes "CPU 1511-1");
             (5, str_bytes "S C-12" ++ [0; 0; 0; 0])] in
  cpu_info_of (fun c => [c]) (szl_record 0x001C 0 12 es) =
  Ok {| cpu_texts := {| module_type := str_bytes "CPU 1511-1"; serial_number := str_bytes "S C-12";
                        as_name := []; copyright := []; module_name := [] |};
        cpu_protocol := S7Plus |}.
Proof.
  intros es. apply (cpu_info_of_entries (fun c => [c]) 0 12 es); [|by left].
  split_and!; [lia..|cbn; lia|cbn; lia|]. repeat constructor; unwidth; cbn; lia.
Defined.

(** An S7-1200 is classified as an S7+ device, although the enumeration's
    documentation lists it under the classic protocol. *)
Lemma s7_1200_is_s7plus up : detect_protocol up (str_bytes "CPU 1214C DC/DC/DC") = S7Plus.
Proof. reflexivity. Qed.
