(* ===== verification/Partner.v ===== *)
(** * The S7 partner: BSend and BRecv (snap7-partner)

    proto.rs (parameter block and data header), transport.rs (framing and the
    two handshakes) and partner.rs (fragmenting send, reassembling receive).
    The counters are atomics of a shared object; both operations hold the
    connection's lock throughout, so they are functions on the partner's
    state. *)

From S2P Require Import Prelude Wire Io ServerHandshake.
Local Open Scope Z_scope.

Module Partner.
Inductive Error :=
| Io (e : IoError)
| InvalidPdu (msg : string)
| NotConnected
| SendRefused (err : Z).
End Partner.

Definition GR_BSEND : Z := 0x46.
Definition GR_BSEND_ACK : Z := 0x86.
Definition S7_HDR_LEN : Z := 10.
Definition BSEND_PARAMS_LEN : Z := 12.
Definition BSEND_DATA_HDR_LEN : Z := 12.
Definition MAX_BSEND_SIZE : Z := 65536.

(** ** proto.rs *)
Record BSendParams := {
  bp_tg : Z;
  bp_sub_fun : Z;
  bp_seq : Z;
  bp_id_seq : Z;
  bp_eos : Z;
  bp_err : Z;
}.

Definition BSendParams_encode (p : BSendParams) : bytes :=
  [0x00; 0x01; 0x12; 0x08; 0x12; bp_tg p; bp_sub_fun p; bp_seq p; bp_id_seq p; bp_eos p] ++
  be16 (bp_err p).

Definition BSendParams_decode (data : bytes) : option BSendParams :=
  match data with
  | _ :: _ :: _ :: _ :: _ :: tg :: sub_fun :: seq :: id_seq :: eos :: e0 :: e1 :: _ =>
      Some {| bp_tg := tg; bp_sub_fun := sub_fun; bp_seq := seq; bp_id_seq := id_seq;
              bp_eos := eos; bp_err := of_be16 e0 e1 |}
  | _ => None
  end.

Record BSendDataHdr := { dh_len : Z; dh_r_id : Z }.

Definition BSendDataHdr_encode (h : BSendDataHdr) : bytes :=
  [0xFF; 0x09] ++ be16 (dh_len h) ++ [0x12; 0x06; 0x13; 0x00] ++ be32 (dh_r_id h).

Definition BSendDataHdr_decode (data : bytes) : option BSendDataHdr :=
  match data with
  | _ :: _ :: l0 :: l1 :: _ :: _ :: _ :: _ :: r0 :: r1 :: r2 :: r3 :: _ =>
      Some {| dh_len := of_be16 l0 l1; dh_r_id := of_be32 r0 r1 r2 r3 |}
  | _ => None
  end.

Definition encode_s7_userdata_header (pdu_ref param_len data_len : Z) : bytes :=
  [0x32; 0x07; 0x00; 0x00] ++ be16 pdu_ref ++ be16 param_len ++ be16 data_len.

Definition parse_s7_bsend_params (frame : bytes) : res Partner.Error BSendParams :=
  if blen frame <? S7_HDR_LEN + BSEND_PARAMS_LEN then
    Err (Partner.InvalidPdu "frame too short for BSend params")
  else
    match BSendParams_decode (drop (Z.to_nat S7_HDR_LEN) frame) with
    | Some p => Ok p
    | None => Err (Partner.InvalidPdu "malformed BSend params")
    end.

(** ** transport.rs *)
Section PartnerTransport.
Context {T : Type} `{Transport T}.

Definition send_iso_frame (payload : bytes) : IO T Partner.Error unit :=
  let total := as_u16 (7 + blen payload) in
  io_map_err Partner.Io (write_all ([0x03; 0x00] ++ be16 total ++ [0x02; 0xF0; 0x80] ++ payload)).

Definition recv_iso_frame : IO T Partner.Error bytes :=
  let* header := io_map_err Partner.Io (read_exact 4) in
  match header with
  | [_; _; h2; h3] =>
      let total := of_be16 h2 h3 in
      if total <? 7 then io_fail (Partner.InvalidPdu "frame too short")
      else
        let* rest := io_map_err Partner.Io (read_exact (total - 4)) in
        if blen rest <? 3 then io_fail (Partner.InvalidPdu "missing COTP DT")
        else io_ret (drop 3 rest)
  | _ => io_lift Panic
  end.

(** The frame body of a handshake, read without a length check: [total - 4]
    underflows on a length field below 4. *)
Definition recv_handshake_frame : IO T Partner.Error bytes :=
  let* header := io_map_err Partner.Io (read_exact 4) in
  match header with
  | [_; _; h2; h3] =>
      let total := of_be16 h2 h3 in
      if total <? 4 then io_lift Panic else io_map_err Partner.Io (read_exact (total - 4))
  | _ => io_lift Panic
  end.

Definition PARTNER_CR : bytes :=
  [0x03; 0x00; 0x00; 0x13; 0x0E; 0xE0; 0x00; 0x00; 0x00; 0x01; 0x00;
   0xC1; 0x02; 0x01; 0x00; 0xC2; 0x02; 0x01; 0x00].
Definition PARTNER_NEGOTIATE : bytes :=
  [0x03; 0x00; 0x00; 0x19; 0x02; 0xF0; 0x80; 0x32; 0x01; 0x00; 0x00; 0x00; 0x01; 0x00; 0x08;
   0x00; 0x00; 0xF0; 0x00; 0x00; 0x01; 0x00; 0x01; 0x01; 0xE0].
Definition PARTNER_CC : bytes :=
  [0x03; 0x00; 0x00; 0x13; 0x0E; 0xD0; 0x00; 0x01; 0x00; 0x01; 0x00;
   0xC1; 0x02; 0x01; 0x00; 0xC2; 0x02; 0x01; 0x00].
Definition PARTNER_NEG_RESP : bytes :=
  [0x03; 0x00; 0x00; 0x1B; 0x02; 0xF0; 0x80; 0x32; 0x03; 0x00; 0x00; 0x00; 0x01; 0x00; 0x08;
   0x00; 0x00; 0x00; 0x00; 0xF0; 0x00; 0x00; 0x01; 0x00; 0x01; 0x01; 0xE0].

Definition active_handshake : IO T Partner.Error Z :=
  let* _ := io_map_err Partner.Io (write_all PARTNER_CR) in
  let* rest := recv_handshake_frame in
  match rest !! 1%nat with
  | Some 0xD0 =>
      let* _ := io_map_err Partner.Io (write_all PARTNER_NEGOTIATE) in
      let* payload := recv_iso_frame in
      if blen payload <? 20 then
        io_fail (Partner.InvalidPdu "negotiate response too short")
      else
        match payload !! 18%nat, payload !! 19%nat with
        | Some p0, Some p1 =>
            let pdu_size := of_be16 p0 p1 in
            io_ret (if pdu_size =? 0 then 480 else pdu_size)
        | _, _ => io_lift Panic
        end
  | _ => io_fail (Partner.InvalidPdu "expected COTP CC")
  end.

Definition passive_handshake : IO T Partner.Error Z :=
  let* _ := recv_handshake_frame in
  let* _ := io_map_err Partner.Io (write_all PARTNER_CC) in
  let* _ := recv_iso_frame in
  let* _ := io_map_err Partner.Io (write_all PARTNER_NEG_RESP) in
  io_ret 480.
End PartnerTransport.

(** ** partner.rs *)
Record S7Partner (T : Type) := {
  p_inner : option (T * Z);
  p_seq : Z;
  p_pdu_ref : Z;
  p_connected : bool;
  bytes_sent : Z;
  bytes_recv : Z;
  send_errors : Z;
  recv_errors : Z;
}.
Arguments p_inner {T}. Arguments p_seq {T}. Arguments p_pdu_ref {T}. Arguments p_connected {T}.
Arguments bytes_sent {T}. Arguments bytes_recv {T}. Arguments send_errors {T}.
Arguments recv_errors {T}.

Inductive PartnerStatus := PartnerDisconnected | PartnerConnected.

Section PartnerOps.
Context {T : Type} `{Transport T}.

Definition new_unconnected : S7Partner T :=
  {| p_inner := None; p_seq := 0; p_pdu_ref := 1; p_connected := false;
     bytes_sent := 0; bytes_recv := 0; send_errors := 0; recv_errors := 0 |}.

(** [S7Partner::bind]: the listener, if the address can be bound, and a partner
    for [accept] to connect. *)
Definition partner_bind {Listener} (listener : res IoError Listener)
    : res Partner.Error (Listener * S7Partner T) :=
  let? l := res_map_err Partner.Io listener in
  Ok (l, new_unconnected).

(** What [connect], [listen] and [accept] do after their handshake. *)
Definition attach (stream : T) (pdu_size : Z) (p : S7Partner T) : S7Partner T :=
  {| p_inner := Some (stream, pdu_size); p_seq := p_seq p; p_pdu_ref := p_pdu_ref p;
     p_connected := true; bytes_sent := bytes_sent p; bytes_recv := bytes_recv p;
     send_errors := send_errors p; recv_errors := recv_errors p |}.

(** [get_status], [get_stats] and [get_error_counts]. *)
Definition partner_get_status (p : S7Partner T) : PartnerStatus :=
  if p_connected p then PartnerConnected else PartnerDisconnected.
Definition partner_get_stats (p : S7Partner T) : Z * Z := (bytes_sent p, bytes_recv p).
Definition partner_get_error_counts (p : S7Partner T) : Z * Z := (send_errors p, recv_errors p).

(** [connect], [listen] and [accept]; [stream] is what opening the connection
    and setting its options gives.  A partner that fails to open is unchanged
    ([connect] and [listen] then return none). *)
(** [drive_active_handshake] and [drive_passive_handshake] give the stream back
    with the PDU size, or drop it on an error. *)
Definition drive_handshake (handshake : IO T Partner.Error Z) (stream : T) : res Partner.Error (Z * T) :=
  match handshake stream with
  | (Ok pdu, stream) => Ok (pdu, stream)
  | (Err e, _) => Err e
  | (Panic, _) => Panic
  end.
Definition drive_active_handshake : T → res Partner.Error (Z * T) := drive_handshake active_handshake.
Definition drive_passive_handshake : T → res Partner.Error (Z * T) := drive_handshake passive_handshake.
Definition partner_open (drive : T → res Partner.Error (Z * T)) (stream : res IoError T)
    (p : S7Partner T) : res Partner.Error unit * S7Partner T :=
  match stream with
  | Ok t =>
      match drive t with
      | Ok (pdu_size, t) => (Ok tt, attach t pdu_size p)
      | Err e => (Err e, p)
      | Panic => (Panic, p)
      end
  | Err e => (Err (Partner.Io e), p)
  | Panic => (Panic, p)
  end.
Definition partner_connect (stream : res IoError T) : res Partner.Error unit * S7Partner T :=
  partner_open drive_active_handshake stream new_unconnected.
Definition partner_listen (stream : res IoError T) : res Partner.Error unit * S7Partner T :=
  partner_open drive_passive_handshake stream new_unconnected.
Definition partner_accept (stream : res IoError T) (p : S7Partner T)
  : res Partner.Error unit * S7Partner T := partner_open drive_passive_handshake stream p.

Definition Pa (A : Type) : Type := IO (S7Partner T) Partner.Error A.

(** [fetch_add(1)] returns the old value and wraps. *)
Definition partner_next_seq : Pa Z := fun p =>
  (Ok (p_seq p),
   {| p_inner := p_inner p; p_seq := as_u8 (p_seq p + 1); p_pdu_ref := p_pdu_ref p;
      p_connected := p_connected p; bytes_sent := bytes_sent p; bytes_recv := bytes_recv p;
      send_errors := send_errors p; recv_errors := recv_errors p |}).
Definition partner_next_pdu_ref : Pa Z := fun p =>
  (Ok (p_pdu_ref p),
   {| p_inner := p_inner p; p_seq := p_seq p; p_pdu_ref := as_u16 (p_pdu_ref p + 1);
      p_connected := p_connected p; bytes_sent := bytes_sent p; bytes_recv := bytes_recv p;
      send_errors := send_errors p; recv_errors := recv_errors p |}).

(** The counters updated by the given amounts. *)
Definition count (sent recv serr rerr : Z) (p : S7Partner T) : S7Partner T :=
  {| p_inner := p_inner p; p_seq := p_seq p; p_pdu_ref := p_pdu_ref p;
     p_connected := p_connected p;
     bytes_sent := (bytes_sent p + sent) mod 2 ^ 64;
     bytes_recv := (bytes_recv p + recv) mod 2 ^ 64;
     send_errors := as_u32 (send_errors p + serr);
     recv_errors := as_u32 (recv_errors p + rerr) |}.

Definition set_stream (t : T) (p : S7Partner T) : S7Partner T :=
  match p_inner p with
  | Some (_, n) =>
      {| p_inner := Some (t, n); p_seq := p_seq p; p_pdu_ref := p_pdu_ref p;
         p_connected := p_connected p; bytes_sent := bytes_sent p; bytes_recv := bytes_recv p;
         send_errors := send_errors p; recv_errors := recv_errors p |}
  | None => p
  end.

(** Run [m] on the stream; [ok] and [err] update the counters. *)
Definition on_stream {A} (m : IO T Partner.Error A) (ok : A → S7Partner T → S7Partner T)
  (err : S7Partner T → S7Partner T) : Pa A := fun p =>
  match p_inner p with
  | None => (Err Partner.NotConnected, p)
  | Some (t, _) =>
      match m t with
      | (Ok a, t') => (Ok a, ok a (set_stream t' p))
      | (Err e, t') => (Err e, err (set_stream t' p))
      | (Panic, t') => (Panic, set_stream t' p)
      end
  end.

(** [send_iso_frame] and [recv_iso_frame] with their error counting. *)
Definition send_counted (frame : bytes) : Pa unit :=
  on_stream (send_iso_frame frame) (fun _ => count (blen frame) 0 0 0) (count 0 0 1 0).

(** One slice of [bsend]: its frame. *)
Definition bsend_frame (pdu_ref r_id id_seq seq_out total_len : Z) (first is_last : bool)
  (slice : bytes) : bytes :=
  let eos := if is_last then 0x00 else 0x01 in
  let extra := if first then 2 else 0 in
  let data_len := as_u16 (BSEND_DATA_HDR_LEN + blen slice + extra) in
  encode_s7_userdata_header pdu_ref BSEND_PARAMS_LEN data_len ++
  BSendParams_encode {| bp_tg := GR_BSEND; bp_sub_fun := 0x01; bp_seq := seq_out;
                        bp_id_seq := id_seq; bp_eos := eos; bp_err := 0 |} ++
  BSendDataHdr_encode {| dh_len := as_u16 (blen slice + 8 + extra); dh_r_id := r_id |} ++
  (if first then be16 (as_u16 total_len) else []) ++ slice.

(** [while offset < data.len()] over the data not yet sent. *)
Fixpoint bsend_loop (fuel : nat) (max_slice : nat) (pdu_ref r_id id_seq seq_out total_len : Z)
  (first : bool) (rest : bytes) : Pa unit :=
  match fuel, rest with
  | _, [] => io_ret tt
  | O, _ => io_lift Panic
  | S fuel', _ =>
      let slice := take max_slice rest in
      let is_last := (length rest <=? max_slice)%nat in
      let* _ := send_counted
                  (bsend_frame pdu_ref r_id id_seq seq_out total_len first is_last slice) in
      let* resp := on_stream recv_iso_frame (fun _ p => p) (count 0 0 0 1) in
      let* rparams := io_lift (parse_s7_bsend_params resp) in
      if negb (bp_err rparams =? 0) then
        (fun p => (Err (Partner.SendRefused (bp_err rparams)), count 0 0 1 0 p))
      else
        bsend_loop fuel' max_slice pdu_ref r_id id_seq (bp_seq rparams) total_len false
          (drop max_slice rest)
  end.

Definition bsend (r_id : Z) (data : bytes) : Pa unit := fun p =>
  if MAX_BSEND_SIZE <? blen data then
    (Err (Partner.InvalidPdu "data exceeds 64 kB BSend limit"), p)
  else
    match p_inner p with
    | None => (Err Partner.NotConnected, p)
    | Some (_, pdu_size) =>
        let max_slice :=
          Z.max 1 (saturating_sub pdu_size
                     (S7_HDR_LEN + BSEND_PARAMS_LEN + BSEND_DATA_HDR_LEN + 2)) in
        (let* pdu_ref := partner_next_pdu_ref in
         let* id_seq := if max_slice <? blen data then partner_next_seq else io_ret 0 in
         bsend_loop (length data) (Z.to_nat max_slice) pdu_ref r_id id_seq 0 (blen data) true data)
          p
    end.

(** The data a frame carries. *)
Definition brecv_slice (first : bool) (frame : bytes) : res Partner.Error (Z * bytes) :=
  let data_offset := S7_HDR_LEN + BSEND_PARAMS_LEN in
  if blen frame <? data_offset + BSEND_DATA_HDR_LEN then
    Err (Partner.InvalidPdu "frame too short for BSend data")
  else
    match BSendDataHdr_decode (drop (Z.to_nat data_offset) frame) with
    | None => Err (Partner.InvalidPdu "bad BSend data header")
    | Some dh =>
        let extra := if first then 2 else 0 in
        let payload_start := data_offset + BSEND_DATA_HDR_LEN + extra in
        let slice_len := saturating_sub (dh_len dh) (8 + extra) in
        if blen frame <? payload_start + slice_len then
          Err (Partner.InvalidPdu "BSend frame data truncated")
        else
          match slice frame payload_start (payload_start + slice_len) with
          | Some s => Ok (dh_r_id dh, s)
          | None => Panic
          end
    end.

Definition brecv_ack (pdu_ref seq_out : Z) : bytes :=
  encode_s7_userdata_header pdu_ref BSEND_PARAMS_LEN 4 ++
  BSendParams_encode {| bp_tg := GR_BSEND_ACK; bp_sub_fun := 0x01; bp_seq := seq_out;
                        bp_id_seq := 0; bp_eos := 0; bp_err := 0 |} ++
  [0x0A; 0x00; 0x00; 0x00].

(** [loop] with a bound on the number of frames received. *)
Fixpoint brecv_loop (fuel : nat) (first : bool) (seq_out : Z) (buf : bytes)
  : S7Partner T → option (res Partner.Error (Z * bytes) * S7Partner T) := fun p =>
  match fuel with
  | O => None
  | S fuel' =>
      let turn : Pa (Z * bytes * Z) :=
        let* frame := on_stream recv_iso_frame (fun f => count 0 (blen f) 0 0) (count 0 0 0 1) in
        let* params := io_lift (parse_s7_bsend_params frame) in
        if negb (bp_tg params =? GR_BSEND) then
          io_fail (Partner.InvalidPdu "expected BSend PDU")
        else
          let* (r_id, s) := io_lift (brecv_slice first frame) in
          let* pdu_ref := partner_next_pdu_ref in
          let* _ := send_counted (brecv_ack pdu_ref seq_out) in
          io_ret (r_id, buf ++ s, bp_eos params) in
      match turn p with
      | (Ok (r_id, buf, eos), p') =>
          if eos =? 0 then Some (Ok (r_id, buf), p')
          else brecv_loop fuel' false (as_u8 (seq_out + 1)) buf p'
      | (Err e, p') => Some (Err e, p')
      | (Panic, p') => Some (Panic, p')
      end
  end.

Definition brecv (fuel : nat) (p : S7Partner T)
  : option (res Partner.Error (Z * bytes) * S7Partner T) :=
  match p_inner p with
  | None => Some (Err Partner.NotConnected, p)
  | Some _ =>
      match partner_next_seq p with
      | (Ok seq_out, p') => brecv_loop fuel true seq_out [] p'
      | (_, p') => Some (Panic, p')
      end
  end.
End PartnerOps.

(** ** Frames *)
Lemma send_iso_frame_ok payload p :
  7 + blen payload <= 65535 →
  send_iso_frame payload p = (Ok tt, {| rx := rx p; tx := tx p ++ data_frame payload |}).
Proof.
  intros Hl. unfold send_iso_frame, io_map_err. cbn [write_all Pipe_transport res_map_err].
  rewrite as_u16_small by (unwidth; blen_lia). unfold data_frame, tpkt_frame.
  rewrite !blen_cons. by replace (4 + (1 + (1 + (1 + blen payload)))) with (7 + blen payload) by lia.
Qed.

Lemma recv_iso_frame_frame payload rest o :
  7 + blen payload <= 65535 →
  recv_iso_frame {| rx := data_frame payload ++ rest; tx := o |} =
  (Ok payload, {| rx := rest; tx := o |}).
Proof.
  intros Hl. unfold recv_iso_frame, data_frame. rewrite tpkt_frame_split. blen_pose.
  erewrite io_bind_ok by (apply io_map_err_ok, pipe_read_app; reflexivity).
  cbn [be16]. rewrite of_be16_split by (unwidth; blen_lia). case_ltb; [blen_lia|].
  erewrite io_bind_ok by (apply io_map_err_ok, pipe_read_app; blen_lia).
  case_ltb; [blen_lia|done].
Qed.

Lemma parse_ack r q :
  ∃ p, parse_s7_bsend_params (brecv_ack r q) = Ok p ∧ bp_seq p = q ∧ bp_err p = 0.
Proof. eexists. split; [reflexivity|]. split; reflexivity. Qed.

Lemma blen_brecv_ack r q : blen (brecv_ack r q) = 26.
Proof. reflexivity. Qed.

Lemma blen_bsend_frame r i q0 q n first last s :
  blen (bsend_frame r i q0 q n first last s) = 34 + (if first then 2 else 0) + blen s.
Proof.
  unfold bsend_frame, encode_s7_userdata_header, BSendParams_encode, BSendDataHdr_encode.
  destruct first; blen_lia.
Qed.

Lemma parse_bsend_frame r i q0 q n first last s :
  ∃ p, parse_s7_bsend_params (bsend_frame r i q0 q n first last s) = Ok p ∧
       bp_tg p = GR_BSEND ∧ bp_eos p = (if last then 0 else 1).
Proof.
  unfold parse_s7_bsend_params, S7_HDR_LEN, BSEND_PARAMS_LEN. rewrite blen_bsend_frame.
  blen_pose. destruct (Z.ltb_spec (34 + (if first then 2 else 0) + blen s) (10 + 12));
    [destruct first; lia|].
  eexists. split; [reflexivity|]. split; reflexivity.
Qed.

Lemma brecv_slice_frame r i q0 q n first last s :
  u32 i → blen s <= 65525 →
  brecv_slice first (bsend_frame r i q0 q n first last s) = Ok (i, s).
Proof.
  intros Hi Hs. unfold brecv_slice, S7_HDR_LEN, BSEND_PARAMS_LEN, BSEND_DATA_HDR_LEN.
  rewrite blen_bsend_frame. blen_pose.
  destruct (Z.ltb_spec (34 + (if first then 2 else 0) + blen s) (10 + 12 + 12));
    [destruct first; lia|].
  change (drop (Z.to_nat (10 + 12)) (bsend_frame r i q0 q n first last s)) with
    (BSendDataHdr_encode {| dh_len := as_u16 (blen s + 8 + (if first then 2 else 0)); dh_r_id := i |}
     ++ (if first then be16 (as_u16 n) else []) ++ s).
  cbn [BSendDataHdr_encode BSendDataHdr_decode app be16 be32 dh_len dh_r_id].
  set (x := if first then 2 else 0). assert (0 <= x <= 2) by (subst x; destruct first; lia).
  rewrite of_be32_split, of_be16_split by (done || apply as_u16_u16).
  cbv zeta. cbn [dh_len dh_r_id]. rewrite as_u16_small by (unwidth; lia).
  replace (saturating_sub (blen s + 8 + x) (8 + x)) with (blen s) by (unfold saturating_sub; lia).
  case_ltb; [lia|]. unfold slice. rewrite blen_bsend_frame. fold x.
  replace ((10 + 12 + 12 + x <? 0) || (10 + 12 + 12 + x + blen s <? 10 + 12 + 12 + x) ||
           (34 + x + blen s <? 10 + 12 + 12 + x + blen s)) with false by lia.
  replace (10 + 12 + 12 + x + blen s - (10 + 12 + 12 + x)) with (blen s) by lia.
  rewrite to_nat_blen.
  assert (drop (Z.to_nat (10 + 12 + 12 + x)) (bsend_frame r i q0 q n first last s) = s) as ->
    by (subst x; by destruct first).
  by rewrite firstn_all.
Qed.

(** ** One slice on either side *)
Lemma on_stream_ok {A} (m : IO Pipe Partner.Error A) ok err t n a t' p :
  p_inner p = Some (t, n) → m t = (Ok a, t') →
  on_stream m ok err p = (Ok a, ok a (set_stream t' p)).
Proof. intros Hp Hm. unfold on_stream. by rewrite Hp, Hm. Qed.

Lemma p_inner_set_stream (t t' : Pipe) n p :
  p_inner p = Some (t, n) → p_inner (set_stream t' p) = Some (t', n).
Proof. intros Hp. unfold set_stream. by rewrite Hp. Qed.
Lemma p_pdu_ref_set_stream (t : Pipe) p : p_pdu_ref (set_stream t p) = p_pdu_ref p.
Proof. unfold set_stream. by destruct (p_inner p) as [[? ?]|]. Qed.

Lemma bsend_step fuel k r i q0 q n first rest (p : S7Partner Pipe) rx0 o sz ar aq :
  rest ≠ [] → Z.of_nat k <= 65492 →
  p_inner p = Some ({| rx := data_frame (brecv_ack ar aq) ++ rx0; tx := o |}, sz) →
  let frame := bsend_frame r i q0 q n first (length rest <=? k)%nat (take k rest) in
  ∃ p', p_inner p' = Some ({| rx := rx0; tx := o ++ data_frame frame |}, sz) ∧
    bsend_loop (S fuel) k r i q0 q n first rest p =
    bsend_loop fuel k r i q0 aq n false (drop k rest) p'.
Proof.
  intros Hne Hk Hp frame. destruct rest as [|x rest]; [done|].
  assert (7 + blen frame <= 65535) as Hf.
  { subst frame. rewrite blen_bsend_frame, blen_take. destruct first; lia. }
  eexists. split; [|cbn [bsend_loop]; fold frame;
    erewrite io_bind_ok by (eapply on_stream_ok; [exact Hp|by apply send_iso_frame_ok]);
    erewrite io_bind_ok by (eapply on_stream_ok;
      [cbn [count p_inner]; eapply p_inner_set_stream, Hp
      |cbn [rx tx]; apply recv_iso_frame_frame; vm_compute; discriminate]);
    unfold io_lift, io_bind; destruct (parse_ack ar aq) as (pa & -> & Hq & He);
    rewrite He, Hq; cbn [Z.eqb negb]; reflexivity].
  eapply p_inner_set_stream. cbn [count p_inner]. eapply p_inner_set_stream, Hp.
Qed.

Lemma brecv_step fuel r i q0 q n (first last : bool) s sq buf (p : S7Partner Pipe) rx0 o sz :
  u32 i → blen s <= 65492 →
  p_inner p = Some ({| rx := data_frame (bsend_frame r i q0 q n first last s) ++ rx0;
                       tx := o |}, sz) →
  ∃ p', p_inner p' = Some ({| rx := rx0;
                              tx := o ++ data_frame (brecv_ack (p_pdu_ref p) sq) |}, sz) ∧
    p_pdu_ref p' = as_u16 (p_pdu_ref p + 1) ∧
    brecv_loop (S fuel) first sq buf p =
    (if last then Some (Ok (i, buf ++ s), p')
     else brecv_loop fuel false (as_u8 (sq + 1)) (buf ++ s) p').
Proof.
  intros Hi Hs Hp. set (frame := bsend_frame r i q0 q n first last s) in *.
  assert (7 + blen frame <= 65535) as Hf.
  { subst frame. rewrite blen_bsend_frame. destruct first; lia. }
  destruct (parse_bsend_frame r i q0 q n first last s) as (pa & Hpa & Htg & Heos).
  fold frame in Hpa.
  set (t1 := {| rx := rx0; tx := o |}).
  set (p1 := count 0 (blen frame) 0 0 (set_stream t1 p)).
  set (p2 := (partner_next_pdu_ref p1).2).
  set (t2 := {| rx := rx0; tx := o ++ data_frame (brecv_ack (p_pdu_ref p) sq) |}).
  assert (p_inner p1 = Some (t1, sz)) as Hp1 by (eapply (p_inner_set_stream _ _ _ _ Hp)).
  assert (p_pdu_ref p1 = p_pdu_ref p) as Hr1 by apply p_pdu_ref_set_stream.
  exists (count (blen (brecv_ack (p_pdu_ref p) sq)) 0 0 0 (set_stream t2 p2)).
  split; [by eapply (p_inner_set_stream t1)|].
  split.
  { change (p_pdu_ref (set_stream t2 p2) = as_u16 (p_pdu_ref p + 1)).
    rewrite p_pdu_ref_set_stream, <- Hr1. done. }
  cbn [brecv_loop].
  erewrite io_bind_ok by (eapply on_stream_ok; [exact Hp|by apply recv_iso_frame_frame]).
  fold t1 p1. unfold io_lift at 1, io_bind at 1. rewrite Hpa, Htg. cbn [GR_BSEND Z.eqb Pos.eqb negb].
  unfold io_lift at 1, io_bind at 1. subst frame. rewrite brecv_slice_frame by (done || lia).
  unfold io_bind at 1.
  change (partner_next_pdu_ref p1) with (@Ok Partner.Error Z (p_pdu_ref p1), p2).
  cbv beta iota. rewrite Hr1.
  erewrite io_bind_ok by (eapply (on_stream_ok _ _ _ t1); [exact Hp1|];
    apply send_iso_frame_ok; vm_compute; discriminate).
  unfold io_ret. rewrite Heos. by destruct last.
Qed.

(** ** The two loops against each other *)
Lemma bsend_brecv_loops fuel k r i q0 n rest :
  (length rest <= fuel)%nat → rest ≠ [] → (1 <= k)%nat → Z.of_nat k <= 65492 → u32 i →
  ∀ q first sq ar, ∃ frames acks,
    (∀ p rx0 o sz, p_inner p = Some ({| rx := acks ++ rx0; tx := o |}, sz) →
       ∃ p', bsend_loop fuel k r i q0 q n first rest p = (Ok tt, p') ∧
             p_inner p' = Some ({| rx := rx0; tx := o ++ frames |}, sz)) ∧
    (∀ p rx0 o sz buf, p_inner p = Some ({| rx := frames ++ rx0; tx := o |}, sz) →
       p_pdu_ref p = ar →
       ∃ p', brecv_loop fuel first sq buf p = Some (Ok (i, buf ++ rest), p') ∧
             p_inner p' = Some ({| rx := rx0; tx := o ++ acks |}, sz)).
Proof.
  intros Hf Hne Hk1 Hk2 Hi. revert rest Hf Hne.
  induction fuel as [|fuel IH]; intros rest Hf Hne q first sq ar.
  { destruct rest; [done|]. cbn in Hf. lia. }
  set (frame := bsend_frame r i q0 q n first (length rest <=? k)%nat (take k rest)).
  assert (blen (take k rest) <= 65492) as Hsl by (rewrite blen_take; lia).
  destruct (Nat.le_gt_cases (length rest) k) as [Hlast|Hmore].
  - exists (data_frame frame), (data_frame (brecv_ack ar sq)). split.
    + intros p rx0 o sz Hp.
      destruct (bsend_step fuel k r i q0 q n first rest p rx0 o sz ar sq) as (p' & Hp' & E);
        [done..|].
      exists p'. split; [|done]. rewrite E, drop_ge by lia. by destruct fuel.
    + intros p rx0 o sz buf Hp <-.
      destruct (brecv_step fuel r i q0 q n first (length rest <=? k)%nat (take k rest) sq buf p
                  rx0 o sz Hi Hsl Hp) as (p' & Hp' & _ & E).
      exists p'. split; [|done]. rewrite E, (proj2 (Nat.leb_le _ _) Hlast), take_ge by lia. done.
  - destruct (IH (drop k rest)) with (q := sq) (first := false) (sq := as_u8 (sq + 1))
      (ar := as_u16 (ar + 1)) as (frames & acks & HS & HR).
    { rewrite length_drop. lia. }
    { intros E. apply (f_equal length) in E. rewrite length_drop in E. cbn in E. lia. }
    exists (data_frame frame ++ frames), (data_frame (brecv_ack ar sq) ++ acks). split.
    + intros p rx0 o sz Hp. rewrite <- (assoc_L (++)) in Hp.
      destruct (bsend_step fuel k r i q0 q n first rest p _ o sz ar sq Hne Hk2 Hp)
        as (p1 & Hp1 & E).
      destruct (HS p1 rx0 _ sz Hp1) as (p' & E' & Hp'). exists p'. rewrite E.
      split; [done|]. by rewrite Hp', <- (assoc_L (++)).
    + intros p rx0 o sz buf Hp Har. rewrite <- (assoc_L (++)) in Hp. subst ar.
      destruct (brecv_step fuel r i q0 q n first (length rest <=? k)%nat (take k rest) sq buf p
                  _ o sz Hi Hsl Hp) as (p1 & Hp1 & Hr1 & E).
      destruct (HR p1 rx0 _ sz (buf ++ take k rest) Hp1 Hr1) as (p' & E' & Hp'). exists p'.
      rewrite E, (proj2 (Nat.leb_gt _ _) Hmore), E', <- (assoc_L (++)), take_drop.
      split; [done|]. by rewrite Hp', <- (assoc_L (++)).
Qed.

(** C17: a buffer sent with [bsend] arrives complete: for every non-empty
    buffer of at most 64 KiB and every negotiated PDU size up to 65528, hence
    however many fragments, when each partner's input is what the other sends,
    [bsend] succeeds and [brecv] returns the request id and exactly the buffer,
    both having consumed all their input. *)
Theorem bsend_brecv_roundtrip r_id data n1 n2 q1 r1 q2 r2 :
  u32 r_id → data ≠ [] → blen data <= 65536 → 0 <= n1 <= 65528 →
  let sender t := {| p_inner := Some (t, n1); p_seq := q1; p_pdu_ref := r1; p_connected := true;
                     bytes_sent := 0; bytes_recv := 0; send_errors := 0; recv_errors := 0 |} in
  let receiver t := {| p_inner := Some (t, n2); p_seq := q2; p_pdu_ref := r2; p_connected := true;
                       bytes_sent := 0; bytes_recv := 0; send_errors := 0; recv_errors := 0 |} in
  ∃ frames acks s' p',
    bsend r_id data (sender {| rx := acks; tx := [] |}) = (Ok tt, s') ∧
    p_inner s' = Some ({| rx := []; tx := frames |}, n1) ∧
    brecv (length data) (receiver {| rx := frames; tx := [] |}) = Some (Ok (r_id, data), p') ∧
    p_inner p' = Some ({| rx := []; tx := acks |}, n2).
Proof.
  intros Hid Hne Hlen Hn sender receiver.
  set (k := Z.max 1 (saturating_sub n1 36)).
  assert (1 <= k <= 65492) as Hk by (subst k; unfold saturating_sub; lia).
  set (id_seq := if k <? blen data then q1 else 0).
  destruct (bsend_brecv_loops (length data) (Z.to_nat k) r1 r_id id_seq (blen data) data)
    with (q := 0) (first := true) (sq := q2) (ar := r2) as (frames & acks & HS & HR);
    [done|done|lia|lia|done|].
  assert (∃ s0, p_inner s0 = Some ({| rx := acks; tx := [] |}, n1) ∧
    bsend r_id data (sender {| rx := acks; tx := [] |}) =
    bsend_loop (length data) (Z.to_nat k) r1 r_id id_seq 0 (blen data) true data s0)
    as (s0 & Hs0 & Eb).
  { unfold bsend, MAX_BSEND_SIZE. case_ltb; [lia|]. cbn [p_inner sender].
    unfold S7_HDR_LEN, BSEND_PARAMS_LEN, BSEND_DATA_HDR_LEN.
    change (10 + 12 + 12 + 2) with 36. fold k. unfold io_bind. cbn [partner_next_pdu_ref sender].
    subst id_seq. destruct (k <? blen data); eexists; (split; [|reflexivity]); reflexivity. }
  destruct (HS s0 [] [] n1) as (s' & Es & Hs'); [by rewrite app_nil_r|].
  destruct (HR (partner_next_seq (receiver {| rx := frames; tx := [] |})).2 [] [] n2 [])
    as (p' & Ep & Hp'); [cbn; by rewrite app_nil_r|done|].
  exists frames, acks, s', p'. split; [by rewrite Eb|]. split; [done|]. split; [|done].
  exact Ep.
Qed.

Lemma bsend_brecv_roundtrip_witness :
  let sender t := {| p_inner := Some (t, 40); p_seq := 0; p_pdu_ref := 1; p_connected := true;
                     bytes_sent := 0; bytes_recv := 0; send_errors := 0; recv_errors := 0 |} in
  let receiver t := {| p_inner := Some (t, 480); p_seq := 0; p_pdu_ref := 1; p_connected := true;
                       bytes_sent := 0; bytes_recv := 0; send_errors := 0; recv_errors := 0 |} in
  ∃ frames acks s' p',
    bsend 7 [1; 2; 3; 4; 5; 6; 7; 8; 9] (sender {| rx := acks; tx := [] |}) = (Ok tt, s') ∧
    p_inner s' = Some ({| rx := []; tx := frames |}, 40) ∧
    brecv 9 (receiver {| rx := frames; tx := [] |}) =
      Some (Ok (7, [1; 2; 3; 4; 5; 6; 7; 8; 9]), p') ∧
    p_inner p' = Some ({| rx := []; tx := acks |}, 480).
Proof.
  apply (bsend_brecv_roundtrip 7 [1; 2; 3; 4; 5; 6; 7; 8; 9] 40 480 0 1 0 1);
    [unwidth; lia|done|vm_compute; discriminate|lia].
Defined.

(** The first frame of a sender that gets no answer. *)
Definition iso_frame (payload : bytes) : bytes :=
  [0x03; 0x00] ++ be16 (as_u16 (7 + blen payload)) ++ [0x02; 0xF0; 0x80] ++ payload.
Lemma bsend_unanswered fuel k r i q0 q n first rest (p : S7Partner Pipe) o sz :
  rest ≠ [] → p_inner p = Some ({| rx := []; tx := o |}, sz) →
  let frame := bsend_frame r i q0 q n first (length rest <=? k)%nat (take k rest) in
  ∃ p', bsend_loop (S fuel) k r i q0 q n first rest p = (Err (Partner.Io UnexpectedEof), p') ∧
        p_inner p' = Some ({| rx := []; tx := o ++ iso_frame frame |}, sz).
Proof.
  intros Hne Hp frame. destruct rest as [|x rest]; [done|].
  eexists. split; [cbn [bsend_loop]; fold frame|].
  - erewrite io_bind_ok by (eapply on_stream_ok; [exact Hp|reflexivity]).
    apply io_bind_err. unfold on_stream. cbn [count p_inner].
    rewrite (p_inner_set_stream _ _ _ _ Hp). reflexivity.
  - eapply (p_inner_set_stream {| rx := []; tx := o ++ iso_frame frame |}).
    by rewrite <- (p_inner_set_stream _ {| rx := []; tx := o ++ iso_frame frame |} _ _ Hp).
Qed.

(** Beyond that size the length field of a full frame wraps around: what a
    partner sends first of a buffer that fills a PDU of 65529 bytes or more is
    refused by its peer as too short. *)
Theorem bsend_length_wraps fuel r_id data n1 n2 q1 r1 q2 r2 :
  65529 <= n1 <= 65535 → n1 - 36 <= blen data <= 65536 →
  let sender t := {| p_inner := Some (t, n1); p_seq := q1; p_pdu_ref := r1; p_connected := true;
                     bytes_sent := 0; bytes_recv := 0; send_errors := 0; recv_errors := 0 |} in
  let receiver t := {| p_inner := Some (t, n2); p_seq := q2; p_pdu_ref := r2; p_connected := true;
                       bytes_sent := 0; bytes_recv := 0; send_errors := 0; recv_errors := 0 |} in
  ∃ frame s' p',
    bsend r_id data (sender {| rx := []; tx := [] |}) = (Err (Partner.Io UnexpectedEof), s') ∧
    p_inner s' = Some ({| rx := []; tx := frame |}, n1) ∧
    brecv (S fuel) (receiver {| rx := frame; tx := [] |}) =
      Some (Err (Partner.InvalidPdu "frame too short"), p').
Proof.
  intros Hn Hl sender receiver. set (k := Z.to_nat (n1 - 36)).
  destruct data as [|x data]; [rewrite blen_nil in Hl; lia|].
  set (q0 := if n1 - 36 <? blen (x :: data) then q1 else 0).
  set (frame := bsend_frame r1 r_id q0 0 (blen (x :: data)) true (length (x :: data) <=? k)%nat
                  (take k (x :: data))).
  assert (blen frame = n1) as Hf by (subst frame k; rewrite blen_bsend_frame, blen_take; lia).
  assert (∃ s0, p_inner s0 = Some ({| rx := []; tx := [] |}, n1) ∧
    bsend r_id (x :: data) (sender {| rx := []; tx := [] |}) =
    bsend_loop (S (length data)) k r1 r_id q0 0 (blen (x :: data)) true (x :: data) s0)
    as (s0 & Hs0 & Eb).
  { unfold bsend, MAX_BSEND_SIZE. case_ltb; [lia|]. cbn [p_inner sender].
    unfold S7_HDR_LEN, BSEND_PARAMS_LEN, BSEND_DATA_HDR_LEN, saturating_sub.
    replace (Z.max 1 _) with (n1 - 36) by lia. fold k. unfold io_bind. cbn [partner_next_pdu_ref sender].
    subst q0. destruct (n1 - 36 <? blen (x :: data)); eexists; (split; [|reflexivity]); reflexivity. }
  destruct (bsend_unanswered (length data) k r1 r_id q0 0 (blen (x :: data)) true (x :: data) s0 [] n1)
    as (s' & Es & Hs'); [done..|]. fold frame in Hs'.
  exists (iso_frame frame), s'. eexists. split; [by rewrite Eb|]. split; [exact Hs'|].
  unfold brecv. cbn [receiver p_inner partner_next_seq brecv_loop]. unfold iso_frame.
  assert (as_u16 (7 + blen frame) = n1 - 65529) as ->
    by (rewrite Hf; unfold as_u16; Z.div_mod_to_equations; lia).
  erewrite io_bind_err; [reflexivity|]. unfold on_stream, recv_iso_frame. cbn [p_inner].
  erewrite io_bind_ok by (apply io_map_err_ok, (pipe_read_app 4 ([3; 0] ++ be16 (n1 - 65529))); reflexivity).
  cbn [app be16]. rewrite of_be16_split by (unwidth; lia). case_ltb; [reflexivity|lia].
Qed.

(** ** Handshake *)
Lemma partner_handshake_agreement :
  ∃ from_active from_passive,
    active_handshake {| rx := from_passive; tx := [] |} =
      (Ok 480, {| rx := []; tx := from_active |}) ∧
    passive_handshake {| rx := from_active; tx := [] |} =
      (Ok 480, {| rx := []; tx := from_passive |}).
Proof.
  exists (PARTNER_CR ++ PARTNER_NEGOTIATE), (PARTNER_CC ++ PARTNER_NEG_RESP).
  split; vm_compute; reflexivity.
Qed.

(** Two partners that talk to each other open: both report to be connected, with
    480-byte PDUs and nothing counted yet; a partner whose stream cannot be
    opened stays as it was. *)
Lemma partners_open :
  (∃ from_active from_passive a p,
     partner_connect (Ok {| rx := from_passive; tx := [] |}) = (Ok tt, a) ∧
     partner_listen (Ok {| rx := from_active; tx := [] |}) = (Ok tt, p) ∧
     p_inner a = Some ({| rx := []; tx := from_active |}, 480) ∧
     p_inner p = Some ({| rx := []; tx := from_passive |}, 480) ∧
     partner_get_status a = PartnerConnected ∧ partner_get_status p = PartnerConnected ∧
     partner_get_stats a = (0, 0) ∧ partner_get_error_counts p = (0, 0)) ∧
  (∀ T (Tr : Transport T) e (p : S7Partner T),
     partner_accept (Err e) p = (Err (Partner.Io e), p)).
Proof.
  split; [|done].
  destruct partner_handshake_agreement as (fa & fp & Ea & Ep).
  exists fa, fp, (attach {| rx := []; tx := fa |} 480 new_unconnected),
    (attach {| rx := []; tx := fp |} 480 new_unconnected).
  unfold partner_connect, partner_listen, partner_open, drive_active_handshake, drive_passive_handshake,
    drive_handshake. by rewrite Ea, Ep.
Qed.
