(* ===== verification/Registry.v ===== *)
(** * Configuration and tags of the OPC UA gateway
    (snap7-opcua-gateway, config.rs, registry.rs, error.rs)

    A configuration names PLCs and, for each, tags to publish.  The registry of
    a PLC holds the parsed tags with the OPC UA node of each.  The node ids of
    the OPC UA library are a parameter: a type with decidable equality, its
    constructor [NodeId::new] and its [Display]. *)

From S2P Require Import Prelude Wire Io S7Header Connection Client Tag.
Local Open Scope Z_scope.

(** ** Messages of the client's errors (error.rs, proto/error.rs) *)

(** [{:#04x}] and [{:#06x}] of values of at most 8 and 32 bits. *)
Definition lower_hex_digit (d : Z) : string :=
  match d with
  | 10 => "a" | 11 => "b" | 12 => "c" | 13 => "d" | 14 => "e" | 15 => "f" | _ => hex_digit d
  end.
Fixpoint lower_hex (width : nat) (v : Z) : string :=
  match width with
  | O => ""
  | S w => lower_hex w (v / 16) +:+ lower_hex_digit (v mod 16)
  end.
Definition hex_04 (v : Z) : string := "0x" +:+ lower_hex 2 v.
Definition hex_06 (v : Z) : string :=
  "0x" +:+ lower_hex (if v <? 65536 then 4 else if v <? 1048576 then 5 else
                      if v <? 16777216 then 6 else if v <? 268435456 then 7 else 8) v.

Definition ProtoError_display (e : ProtoError) : string :=
  match e with
  | BufferTooShort need have =>
      "buffer too short: need " +:+ pretty need +:+ " bytes, have " +:+ pretty have
  | InvalidMagic expected got =>
      "invalid magic byte: expected " +:+ hex_04 expected +:+ ", got " +:+ hex_04 got
  | UnsupportedPduType v => "unsupported PDU type: " +:+ hex_04 v
  | UnsupportedFunction v => "unsupported function code: " +:+ hex_04 v
  | EncodingFailed msg => "encoding failed: " +:+ msg
  | UnsupportedArea v => "unsupported area code: " +:+ hex_04 v
  | UnsupportedTransportSize v => "unsupported transport size: " +:+ hex_04 v
  | InvalidVersion v => "unsupported S7CommPlus version: " +:+ hex_04 v
  | IntegrityFailure => "S7CommPlus integrity check failed"
  end.

(** The text of an operating system error and of a duration is the platform's. *)
Definition Error_display (show_io : IoError → string) (show_timeout : string)
    (e : Client.Error) : string :=
  match e with
  | Client.Proto e => "protocol error: " +:+ ProtoError_display e
  | Client.Io e => "I/O error: " +:+ show_io e
  | Client.PlcError code message =>
      "PLC error: code=" +:+ hex_06 code +:+ " (" +:+ message +:+ ")"
  | Client.Timeout => "connection timeout after " +:+ show_timeout
  | Client.NegotiationFailed => "PDU negotiation failed"
  | Client.ConnectionRefused => "connection refused or PLC not responding"
  | Client.UnexpectedResponse => "unexpected response PDU type"
  end.

(** [{:?}] of a [TransportSize]. *)
Definition TransportSize_debug (ts : TransportSize) : string :=
  match ts with
  | Bit => "Bit" | Byte => "Byte" | Char => "Char" | Word => "Word" | Int => "Int"
  | DWord => "DWord" | DInt => "DInt" | Real => "Real" | Date => "Date" | Tod => "Tod"
  | Time => "Time" | S5Time => "S5Time" | DtL => "DtL" | TCounter => "Counter"
  | TTimer => "Timer"
  end.

(** ** The gateway's errors *)
Module Gateway.
Inductive Error :=
| Plc (e : Client.Error)
| OpcUa (message : string)
| Config (message : string)
| InvalidTag (tag : text) (reason : string).

Definition Error_display (show_io : IoError → string) (show_timeout : string) (e : Error) : string :=
  match e with
  | Plc e => "PLC error: " +:+ Registry.Error_display show_io show_timeout e
  | OpcUa m => "OPC-UA error: " +:+ m
  | Config m => "config error: " +:+ m
  | InvalidTag tag reason => "invalid tag '" +:+ message_of tag +:+ "': " +:+ reason
  end.
End Gateway.

(** ** Configuration *)
Record TagSpec := { spec_tag : text; spec_name : text; spec_writable : bool }.

Record PlcConfig := { plc_config_addr : text; plc_poll_interval_ms : Z; plc_tags : list TagSpec }.

Record OpcSecurityConfig := {
  policy : text;
  mode : text;
  certificate : option text;
  private_key : option text;
}.
Definition OpcSecurityConfig_default : OpcSecurityConfig := {|
  policy := str_bytes "None"; mode := str_bytes "None"; certificate := None; private_key := None |}.

Record GatewayConfig := {
  opc_endpoint : text;
  poll_interval_ms : Z;
  plc_addr : option text;
  tags : option (list TagSpec);
  plcs : option (list PlcConfig);
  opc_security : OpcSecurityConfig;
}.

Definition default_poll_ms : Z := 1000.

Definition plc_configs (self : GatewayConfig) : list PlcConfig :=
  match default [] (plcs self) with
  | [] =>
      match plc_addr self, tags self with
      | Some addr, Some tags =>
          [ {| plc_config_addr := addr; plc_poll_interval_ms := poll_interval_ms self;
               plc_tags := tags |} ]
      | _, _ => []
      end
  | out => out
  end.

(** ** The security settings (server.rs, [parse_security])

    [str::to_lowercase] maps ASCII letters on their own; what it makes of
    another character, which may depend on its context, is a parameter. *)
Inductive SecurityPolicy := PolicyNone | Basic128Rsa15 | Basic256 | Basic256Sha256.
Inductive MessageSecurityMode := ModeNone | Sign | SignAndEncrypt.

Definition ascii_lowercase (c : Z) : Z := if (65 <=? c) && (c <=? 90) then c + 32 else c.

Section Security.
Variable lower_other : text → text → Z → text.

Fixpoint lowercase_after (before s : text) : text :=
  match s with
  | [] => []
  | c :: r =>
      (if c <? 128 then [ascii_lowercase c] else lower_other before r c)
      ++ lowercase_after (before ++ [c]) r
  end.
Definition to_lowercase (s : text) : text := lowercase_after [] s.

Definition parse_security (sec : OpcSecurityConfig)
    : res Gateway.Error (SecurityPolicy * MessageSecurityMode) :=
  let p := to_lowercase (policy sec) in
  let? policy :=
    if bool_decide (p = str_bytes "none") then Ok PolicyNone
    else if bool_decide (p = str_bytes "basic128") then Ok Basic128Rsa15
    else if bool_decide (p = str_bytes "basic256") then Ok Basic256
    else if bool_decide (p = str_bytes "basic256sha256") then Ok Basic256Sha256
    else Err (Gateway.Config ("unsupported security policy: " +:+ message_of (policy sec) +:+
                ". Use None, Basic128, Basic256, or Basic256Sha256")) in
  let m := to_lowercase (mode sec) in
  let? mode :=
    if bool_decide (m = str_bytes "none") then Ok ModeNone
    else if bool_decide (m = str_bytes "sign") then Ok Sign
    else if bool_decide (m = str_bytes "signandencrypt") then Ok SignAndEncrypt
    else Err (Gateway.Config ("unsupported security mode: " +:+ message_of (mode sec) +:+
                ". Use None, Sign, or SignAndEncrypt")) in
  Ok (policy, mode).
End Security.

(** ** The registry *)
Record TagEntry {NodeId : Type} := {
  node_id : NodeId;
  entry_address : TagAddress;
  entry_name : text;
  writable : bool;
  plc_index : nat;
}.
Arguments TagEntry : clear implicits.

Record TagRegistry {NodeId : Type} := { registry_entries : list (TagEntry NodeId) }.
Arguments TagRegistry : clear implicits.

Section Registry.
Context {NodeId : Type} `{EqDecision NodeId} (NodeId_new : Z → text → NodeId).
Context (upper_other : Z → text) (show_io : IoError → string) (show_timeout : string).

Definition entry_of (spec : TagSpec) (plc_index : nat) (address : TagAddress) : TagEntry NodeId :=
  {| node_id := NodeId_new 2 (spec_name spec); entry_address := address;
     entry_name := spec_name spec; writable := spec_writable spec; plc_index := plc_index |}.

Fixpoint specs_loop (specs : list TagSpec) (plc_index : nat) (entries : list (TagEntry NodeId))
    : res Gateway.Error (list (TagEntry NodeId)) :=
  match specs with
  | [] => Ok entries
  | spec :: rest =>
      let? address :=
        res_map_err (fun e => Gateway.InvalidTag (spec_tag spec)
                                (Error_display show_io show_timeout e))
          (parse_tag upper_other (spec_tag spec)) in
      specs_loop rest plc_index (entries ++ [entry_of spec plc_index address])
  end.

Definition TagRegistry_from_specs (specs : list TagSpec) (plc_index : nat)
    : res Gateway.Error (TagRegistry NodeId) :=
  let? entries := specs_loop specs plc_index [] in
  Ok {| registry_entries := entries |}.

Definition TagRegistry_len (r : TagRegistry NodeId) : nat := length (registry_entries r).
Definition TagRegistry_is_empty (r : TagRegistry NodeId) : bool :=
  match registry_entries r with [] => true | _ => false end.

Fixpoint find_entry (n : NodeId) (es : list (TagEntry NodeId)) : option (TagEntry NodeId) :=
  match es with
  | [] => None
  | e :: r => if bool_decide (node_id e = n) then Some e else find_entry n r
  end.
Definition find_by_node_id (r : TagRegistry NodeId) (n : NodeId) : option (TagEntry NodeId) :=
  find_entry n (registry_entries r).
End Registry.

(** ** Loading a registry *)
Section RegistryProofs.
Context {NodeId : Type} `{EqDecision NodeId} (NodeId_new : Z → text → NodeId).
Context (upper_other : Z → text) (show_io : IoError → string) (show_timeout : string).

Abbreviation parse := (parse_tag upper_other).
Abbreviation from_specs := (TagRegistry_from_specs NodeId_new upper_other show_io show_timeout).

(** An entry that publishes a tag specification. *)
Definition publishes (i : nat) (spec : TagSpec) (e : TagEntry NodeId) : Prop :=
  ∃ a, parse (spec_tag spec) = Ok a ∧ e = entry_of NodeId_new spec i a.

Lemma specs_loop_ok specs i acc es :
  specs_loop NodeId_new upper_other show_io show_timeout specs i acc = Ok es ↔
  ∃ new, es = acc ++ new ∧ Forall2 (publishes i) specs new.
Proof.
  revert acc. induction specs as [|s specs IH]; intros acc; cbn [specs_loop].
  - split.
    + intros [= <-]. exists []. by rewrite app_nil_r.
    + intros (new & -> & H%Forall2_nil_inv_l). subst. by rewrite app_nil_r.
  - destruct (parse (spec_tag s)) as [a|e|] eqn:E; cbn.
    + rewrite IH. split.
      * intros (new & -> & Hn). exists (entry_of NodeId_new s i a :: new).
        rewrite <- app_assoc. split; [done|]. constructor; [by exists a|done].
      * intros (new & -> & Hn). inversion Hn as [|? e0 ? new' (a' & Ha & ->) Hn']; subst.
        assert (a' = a) as -> by congruence. exists new'. by rewrite <- app_assoc.
    + split; [done|]. intros (new & _ & Hn). inversion Hn as [|? ? ? ? (a & Ha & _)]; subst; congruence.
    + split; [done|]. intros (new & _ & Hn). inversion Hn as [|? ? ? ? (a & Ha & _)]; subst; congruence.
Qed.

Lemma specs_loop_err specs i acc err :
  specs_loop NodeId_new upper_other show_io show_timeout specs i acc = Err err ↔
  ∃ pre spec post e, specs = pre ++ spec :: post ∧
    Forall (fun s => is_ok (parse (spec_tag s)) = true) pre ∧ parse (spec_tag spec) = Err e ∧
    err = Gateway.InvalidTag (spec_tag spec) (Error_display show_io show_timeout e).
Proof.
  revert acc. induction specs as [|s specs IH]; intros acc; cbn [specs_loop].
  - split; [done|]. by intros ([] & ? & ? & ? & ? & _).
  - destruct (parse (spec_tag s)) as [a|e|] eqn:E; cbn.
    + rewrite IH. split.
      * intros (pre & spec & post & e & -> & Hp & He). exists (s :: pre), spec, post, e.
        split_and!; try done; [|apply He..]. constructor; [by rewrite E|done].
      * intros ([|s' pre] & spec & post & e & [= <- ->] & Hp & He & ->); [congruence|].
        apply Forall_cons in Hp as [_ Hp]. by exists pre, spec, post, e.
    + split.
      * intros [= <-]. by exists [], s, specs, e.
      * intros ([|s' pre] & spec & post & e' & [= <- ->] & Hp & He & ->); [congruence|].
        apply Forall_cons in Hp as [Hp _]. by rewrite E in Hp.
    + split; [done|].
      intros ([|s' pre] & spec & post & e' & [= <- ->] & Hp & He & ->); [congruence|].
      apply Forall_cons in Hp as [Hp _]. by rewrite E in Hp.
Qed.


Lemma find_entry_spec n (es : list (TagEntry NodeId)) e :
  find_entry n es = Some e ↔
  ∃ pre post, es = pre ++ e :: post ∧ node_id e = n ∧ Forall (fun x => node_id x ≠ n) pre.
Proof.
  induction es as [|x es IH]; cbn [find_entry].
  - split; [done|]. by intros ([] & ? & ? & _).
  - case_bool_decide as Hx.
    + split.
      * intros [= <-]. by exists [], es.
      * intros ([|y pre] & post & [= -> ->] & He & Hp); [done|].
        by apply Forall_cons in Hp as [? _].
    + rewrite IH. split.
      * intros (pre & post & -> & He & Hp). exists (x :: pre), post. by split_and!; [..|constructor].
      * intros ([|y pre] & post & [= -> ->] & He & Hp); [done|].
        apply Forall_cons in Hp as [_ Hp]. by exists pre, post.
Qed.

Lemma find_entry_elem n (es : list (TagEntry NodeId)) e :
  find_entry n es = Some e → e ∈ es ∧ node_id e = n.
Proof. intros (pre & post & -> & He & _)%find_entry_spec. set_solver. Qed.

Lemma find_entry_nodup (es : list (TagEntry NodeId)) e :
  NoDup (node_id <$> es) → e ∈ es → find_entry (node_id e) es = Some e.
Proof.
  intros Hn He. apply list_elem_of_split in He as (pre & post & ->).
  apply find_entry_spec. exists pre, post. split_and!; [done..|].
  rewrite fmap_app in Hn. apply NoDup_app in Hn as (_ & Hn & _).
  apply Forall_forall. intros x Hx Hxe. apply (Hn (node_id x)); [by apply list_elem_of_fmap_2|].
  cbn. rewrite Hxe. by constructor.
Qed.
End RegistryProofs.
