(* ===== verification/Poller.v ===== *)
(** * The poller of the OPC UA gateway (snap7-opcua-gateway, poller.rs)

    A poller owns a client, reads the tags of one PLC and publishes their
    values in the address space of an OPC UA server; commands to write a tag
    come to it through a channel.  The OPC UA library is a parameter: its
    variants beyond the ones the code names, and its address space through the
    class [AddressSpace].  A 32-bit float is its bit pattern, which
    [to_be_bytes] and [from_be_bytes] keep. *)

From stdpp Require Import relations gmap.
From S2P Require Import Prelude Wire Io S7Header ReadVar Store Dispatch Connection Client Tag.
From S2P Require Import Loopback Registry.
Local Open Scope Z_scope.

(** ** Values *)
Inductive Variant {Other : Type} :=
| Empty
| Boolean (b : bool)
| VByte (v : Z)
| Int16 (v : Z)
| UInt16 (v : Z)
| Int32 (v : Z)
| UInt32 (v : Z)
| Float (bits : Z)
| OtherVariant (o : Other).
Arguments Variant : clear implicits.

Section Values.
Context {Other : Type}.
Abbreviation Variant := (Variant Other).

Definition bytes_to_variant (bs : bytes) (ts : TransportSize) : option Variant :=
  match ts with
  | Real =>
      match bs with a :: b :: c :: d :: _ => Some (Float (of_be32 a b c d)) | _ => None end
  | DWord | DInt =>
      match bs with
      | a :: b :: c :: d :: _ =>
          let v := of_be32 a b c d in
          if bool_decide (ts = DInt) then Some (Int32 (as_i32 v)) else Some (UInt32 v)
      | _ => None
      end
  | Word => match bs with a :: b :: _ => Some (UInt16 (of_be16 a b)) | _ => None end
  | Int => match bs with a :: b :: _ => Some (Int16 (as_i16 (of_be16 a b))) | _ => None end
  | Byte => match bs with a :: _ => Some (VByte a) | _ => None end
  | Bit => match bs with a :: _ => Some (Boolean (negb (a =? 0))) | _ => None end
  | _ => None
  end.

Definition transport_size_bytes (ts : TransportSize) (count : Z) : option Z :=
  let unit :=
    match ts with
    | Real | DWord | DInt => Some 4
    | Word | Int => Some 2
    | Byte | Bit => Some 1
    | _ => None
    end in
  (fun u => u * count) <$> unit.

Definition variant_to_bytes (v : Variant) : option (bytes * TransportSize) :=
  match v with
  | Float f => Some (be32 f, Real)
  | Int32 i => Some (be32 (as_u32 i), DInt)
  | UInt32 u => Some (be32 u, DWord)
  | Int16 i => Some (be16 (as_u16 i), Int)
  | UInt16 u => Some (be16 u, Word)
  | VByte b => Some ([b], Byte)
  | Boolean b => Some ([if b then 1 else 0], Bit)
  | _ => None
  end.

(** The variants that exist: the values fit their types. *)
Definition variant_wf (v : Variant) : Prop :=
  match v with
  | VByte b => u8 b
  | Int16 i => -32768 <= i < 32768
  | UInt16 u => u16 u
  | Int32 i => -2147483648 <= i < 2147483648
  | UInt32 u | Float u => u32 u
  | _ => True
  end.

Lemma variant_of_bytes v b ts :
  variant_wf v → variant_to_bytes v = Some (b, ts) → bytes_to_variant b ts = Some v.
Proof.
  intros Hv Hb. destruct v; cbn in *; simplify_eq/=; try done.
  - by destruct b0.
  - by rewrite of_be16_split, as_i16_as_u16 by (done || apply as_u16_u16).
  - by rewrite of_be16_split.
  - by rewrite of_be32_split, as_i32_as_u32 by (done || apply as_u32_u32).
  - by rewrite of_be32_split.
  - by rewrite of_be32_split.
Qed.

Lemma variant_to_bytes_wf v b ts :
  variant_wf v → variant_to_bytes v = Some (b, ts) → wf_bytes b.
Proof.
  intros Hv Hb. destruct v; cbn in *; simplify_eq/=; try apply be16_wf; try apply be32_wf;
    (apply Forall_singleton; try done); unwidth; by destruct b0.
Qed.

Lemma variant_to_bytes_size v b ts :
  variant_to_bytes v = Some (b, ts) → transport_size_bytes ts 1 = Some (blen b).
Proof. destruct v; intros; cbn in *; simplify_eq; reflexivity. Qed.

(** The values of the gateway survive the trip to the PLC and back: a
    variant of a supported type is written as bytes that read back as the same
    variant and type; and every byte string of the width of a tag that is not
    a bit reads as a variant that is written back as the same bytes. *)
Theorem variant_bytes_roundtrip :
  (∀ v b ts, variant_wf v → variant_to_bytes v = Some (b, ts) →
     bytes_to_variant b ts = Some v ∧ transport_size_bytes ts 1 = Some (blen b) ∧ wf_bytes b) ∧
  (∀ ts b, transport_size_bytes ts 1 = Some (blen b) → wf_bytes b → ts ≠ Bit →
     ∃ v, bytes_to_variant b ts = Some v ∧ variant_wf v ∧ variant_to_bytes v = Some (b, ts)).
Proof.
  split.
  { intros v b ts Hv Hb. split_and!; [by apply variant_of_bytes|by eapply variant_to_bytes_size|
      by eapply variant_to_bytes_wf]. }
  intros ts b Hl Hb Hts. unfold blen in Hl.
  destruct ts; cbn in Hl; simplify_eq;
    repeat (destruct b as [|? b]; cbn [length] in *; try lia); wf_inv; cbn;
    eexists; (split; [reflexivity|]); cbn; split;
    rewrite ?as_u32_as_i32, ?as_u16_as_i16, ?be32_of_be32, ?be16_of_be16 by
      auto using of_be32_u32, of_be16_u16;
    try done; auto using of_be32_u32, of_be16_u16.
  - unfold as_i16. pose proof (of_be16_u16 z z0). unwidth. case_ltb; lia.
  - unfold as_i32. pose proof (of_be32_u32 z z0 z1 z2). unwidth. case_ltb; lia.
Qed.
End Values.

(** ** The address space of the OPC UA server *)
Inductive DataTypeId := DtBoolean | DtUInt32 | DtInt32 | DtFloat | DtString.

Class AddressSpace (NodeId Other Sp : Type) := {
  (** whether [find_mut] finds a node, and a [NodeType::Variable] *)
  node_exists : NodeId → Sp → bool;
  is_variable : NodeId → Sp → bool;
  (** the value OPC UA clients read *)
  value_of : NodeId → Sp → option (Variant Other);
  (** [var.set_value(&NumericRange::None, v)] *)
  set_value : NodeId → Variant Other → Sp → Sp;
  (** [VariableBuilder::new(id, name, ..).data_type(dt).value(v) ..
      .organized_by(folder).insert(space)]; the flag is [CURRENT_WRITE] *)
  insert_variable : NodeId → text → DataTypeId → Variant Other → bool → Sp → Sp;
}.

(** What the gateway relies on. *)
Class AddressSpaceLaws (NodeId Other Sp : Type) `{AddressSpace NodeId Other Sp} := {
  value_of_set n v sp : is_variable n sp = true → value_of n (set_value n v sp) = Some v;
  value_of_set_ne n m v sp : n ≠ m → value_of m (set_value n v sp) = value_of m sp;
  is_variable_set n m v sp : is_variable m (set_value n v sp) = is_variable m sp;
  is_variable_insert n name dt v w sp :
    node_exists n sp = false → is_variable n (insert_variable n name dt v w sp) = true;
  is_variable_keep n m name dt v w sp :
    is_variable m sp = true → is_variable m (insert_variable n name dt v w sp) = true;
  node_exists_insert n m name dt v w sp :
    n ≠ m → node_exists m (insert_variable n name dt v w sp) = node_exists m sp;
  variable_exists n sp : is_variable n sp = true → node_exists n sp = true;
}.

(** ** One PLC *)

Section Poller.
Context {NodeId Other Sp T : Type} `{EqDecision NodeId} `{AddressSpace NodeId Other Sp}.
Context `{Transport T} (show_node : NodeId → string).
Abbreviation TagEntry := (TagEntry NodeId).
Abbreviation TagRegistry := (TagRegistry NodeId).
Abbreviation Variant := (Variant Other).

Record WriteCommand := { cmd_node_id : NodeId; cmd_variant : Variant }.

(** Code that uses the client and the address space. *)
Definition Gw (A : Type) : Type := IO (Inner T * Sp) Gateway.Error A.

Definition on_client {A} (m : Cl T A) : Gw A := fun '(i, sp) =>
  let '(r, i') := m i in (res_map_err Gateway.Plc r, (i', sp)).

(** [if let Some(NodeType::Variable(var)) = space.find_mut(n) { var.set_value(..) }],
    and whether it found the variable. *)
Definition publish (n : NodeId) (v : Variant) : Gw bool := fun '(i, sp) =>
  if is_variable n sp then (Ok true, (i, set_value n v sp)) else (Ok false, (i, sp)).

Definition apply_write (registry : TagRegistry) (cmd : WriteCommand) : Gw unit :=
  match find_by_node_id registry (cmd_node_id cmd) with
  | None => io_fail (Gateway.OpcUa ("unknown node: " +:+ show_node (cmd_node_id cmd)))
  | Some entry =>
      if negb (writable entry) then
        io_fail (Gateway.OpcUa ("node " +:+ show_node (cmd_node_id cmd) +:+ " is not writable"))
      else
        match variant_to_bytes (cmd_variant cmd) with
        | None => io_fail (Gateway.OpcUa "unsupported variant type for write")
        | Some (data, incoming_ts) =>
            let addr := entry_address entry in
            if bool_decide (incoming_ts ≠ tag_transport addr) then
              io_fail (Gateway.OpcUa ("type mismatch for node " +:+ show_node (cmd_node_id cmd) +:+
                ": tag expects " +:+ TransportSize_debug (tag_transport addr) +:+
                ", got " +:+ TransportSize_debug incoming_ts))
            else
              let* _ := on_client (S7Client_db_write (tag_db_number addr) (byte_offset addr) data) in
              let* _ := publish (node_id entry) (cmd_variant cmd) in
              io_ret tt
        end
  end.

(** One turn of the loop of [poll_once], with the updates so far. *)
Definition poll_entry (entry : TagEntry) (updated : list (NodeId * Variant))
    : Gw (list (NodeId * Variant)) :=
  let addr := entry_address entry in
  match transport_size_bytes (tag_transport addr) (element_count addr) with
  | None => io_ret updated
  | Some size =>
      let* data := on_client (S7Client_db_read (tag_db_number addr) (byte_offset addr) (as_u16 size)) in
      match bytes_to_variant data (tag_transport addr) with
      | None => io_ret updated
      | Some variant =>
          let* found := publish (node_id entry) variant in
          io_ret (if (found : bool) then updated ++ [(node_id entry, variant)] else updated)
      end
  end.

Fixpoint poll_entries (entries : list TagEntry) (updated : list (NodeId * Variant))
    : Gw (list (NodeId * Variant)) :=
  match entries with
  | [] => io_ret updated
  | e :: rest => let* updated := poll_entry e updated in poll_entries rest updated
  end.

Definition poll_once (registry : TagRegistry) : Gw (list (NodeId * Variant)) :=
  poll_entries (registry_entries registry) [].

(** ** The task

    [spawn] starts a task that selects between a tick, a command and the
    shutdown.  Its state is where it stands, the client, the address space it
    shares, and the channel: the commands queued, the number of senders alive
    and, for the specification, every command ever sent.  The commands handled
    with their outcomes, and the notifications of subscribers, are recorded. *)
Inductive Phase :=
| Selecting
| Draining
| Polling (rest : list TagEntry) (updated : list (NodeId * Variant))
| Sleeping
| Stopped.

Record Channel := { queue : list WriteCommand; senders : nat; sent : list WriteCommand }.
Definition channel_capacity : nat := 100.

Record Task := {
  phase : Phase;
  task_client : Inner T;
  task_space : Sp;
  write_rx : Channel;
  handled : list (WriteCommand * res Gateway.Error unit);
  notified : list (NodeId * Variant);
}.

Definition pop_queue (c : Channel) : Channel :=
  {| queue := tail (queue c); senders := senders c; sent := sent c |}.

(** The task after code that ran on its client and space. *)
Definition resume (t : Task) (p : Phase) (st : Inner T * Sp) : Task :=
  {| phase := p; task_client := st.1; task_space := st.2; write_rx := write_rx t;
     handled := handled t; notified := notified t |}.

(** [if let Err(e) = apply_write(..).await { eprintln!(..) }] for a command
    taken from the channel. *)
Definition handle (registry : TagRegistry) (cmd : WriteCommand) (t : Task) : Task :=
  let '(r, st) := apply_write registry cmd (task_client t, task_space t) in
  {| phase := match r with Panic => Stopped | _ => phase t end;
     task_client := st.1; task_space := st.2; write_rx := pop_queue (write_rx t);
     handled := handled t ++ [(cmd, r)]; notified := notified t |}.

Definition poll_turn (e : TagEntry) (rest : list TagEntry) (updated : list (NodeId * Variant))
    (t : Task) : Task :=
  let '(r, st) := poll_entry e updated (task_client t, task_space t) in
  resume t match r with
           | Ok updated => Polling rest updated
           | Err _ => Sleeping
           | Panic => Stopped
           end st.

Definition set_phase (t : Task) (p : Phase) : Task := resume t p (task_client t, task_space t).
Definition notify_subscriptions (updated : list (NodeId * Variant)) (t : Task) : Task :=
  {| phase := phase t; task_client := task_client t; task_space := task_space t;
     write_rx := write_rx t; handled := handled t; notified := notified t ++ updated |}.
Definition send_command (cmd : WriteCommand) (c : Channel) : Channel :=
  {| queue := queue c ++ [cmd]; senders := senders c; sent := sent c ++ [cmd] |}.
Definition set_channel (t : Task) (c : Channel) : Task :=
  {| phase := phase t; task_client := task_client t; task_space := task_space t;
     write_rx := c; handled := handled t; notified := notified t |}.

(** The steps of the task itself, between two points where it may wait. *)
Inductive task_step (registry : TagRegistry) : Task → Task → Prop :=
| step_tick t :
    phase t = Selecting → task_step registry t (set_phase t Draining)
| step_drain t cmd q :
    phase t = Draining → queue (write_rx t) = cmd :: q →
    task_step registry t (handle registry cmd t)
| step_drained t :
    phase t = Draining → queue (write_rx t) = [] →
    task_step registry t (set_phase t (Polling (registry_entries registry) []))
| step_poll t e rest updated :
    phase t = Polling (e :: rest) updated →
    task_step registry t (poll_turn e rest updated t)
| step_polled t updated :
    phase t = Polling [] updated →
    task_step registry t (notify_subscriptions updated (set_phase t Selecting))
| step_slept t :
    phase t = Sleeping → task_step registry t (set_phase t Selecting)
| step_recv t cmd q :
    phase t = Selecting → queue (write_rx t) = cmd :: q →
    task_step registry t (handle registry cmd t).

(** The steps around it: senders send, are cloned (while one is alive) and
    dropped, the gateway shuts down, and other tasks set values in the
    address space. *)
Inductive outside_step : Task → Task → Prop :=
| step_send t cmd :
    (0 < senders (write_rx t))%nat → (length (queue (write_rx t)) < channel_capacity)%nat →
    outside_step t (set_channel t (send_command cmd (write_rx t)))
| step_clone_sender t n :
    senders (write_rx t) = S n →
    outside_step t (set_channel t {| queue := queue (write_rx t); senders := S (S n);
                                     sent := sent (write_rx t) |})
| step_drop_sender t n :
    senders (write_rx t) = S n →
    outside_step t (set_channel t {| queue := queue (write_rx t); senders := n;
                                     sent := sent (write_rx t) |})
| step_shutdown t :
    phase t = Selecting → outside_step t (set_phase t Stopped)
| step_publish t n v :
    outside_step t (resume t (phase t) (task_client t, set_value n v (task_space t))).

Definition step (registry : TagRegistry) (t t' : Task) : Prop :=
  task_step registry t t' ∨ outside_step t t'.

(** A task as [spawn] starts it. *)
Definition spawn (client : Inner T) (sp : Sp) (senders : nat) : Task :=
  {| phase := Selecting; task_client := client; task_space := sp;
     write_rx := {| queue := []; senders := senders; sent := [] |};
     handled := []; notified := [] |}.
End Poller.
Arguments WriteCommand : clear implicits.
Arguments Channel : clear implicits.
Arguments Task : clear implicits.

(** ** The channel *)
Section Channel.
Context {NodeId Other Sp T : Type} `{EqDecision NodeId} `{AddressSpace NodeId Other Sp}.
Context `{Transport T} (show_node : NodeId → string) (registry : TagRegistry NodeId).
Abbreviation Task := (Task NodeId Other Sp T).
Abbreviation step := (step show_node registry).

(** Nothing is lost, duplicated or reordered between a sender and the PLC. *)
Definition channel_inv (t : Task) : Prop :=
  (handled t).*1 ++ queue (write_rx t) = sent (write_rx t) ∧
  (length (queue (write_rx t)) <= channel_capacity)%nat.

Lemma handle_channel cmd q (t : Task) :
  queue (write_rx t) = cmd :: q → channel_inv t → channel_inv (handle show_node registry cmd t).
Proof.
  intros Hq [Hs Hl]. unfold channel_inv, handle.
  destruct (apply_write _ _ _ _) as [r st]. cbn. rewrite Hq in *. cbn in *.
  rewrite fmap_app, <- app_assoc. cbn. split; [done|lia].
Qed.

Lemma poll_turn_channel e rest updated (t : Task) :
  write_rx (poll_turn e rest updated t) = write_rx t ∧ handled (poll_turn e rest updated t) = handled t.
Proof. unfold poll_turn. by destruct (poll_entry _ _ _) as [r st]. Qed.

Lemma step_channel t t' : step t t' → channel_inv t → channel_inv t'.
Proof.
  intros [Hs|Hs]; destruct Hs; try done; eauto using handle_channel.
  - intros Hi. unfold channel_inv. by destruct (poll_turn_channel e rest updated t) as [-> ->].
  - intros [Hs Hl]. unfold channel_inv. cbn. rewrite length_app, app_assoc, Hs. cbn.
    unfold channel_capacity in *. split; [done|lia].
Qed.

(** A channel without senders stays empty. *)
Lemma orphan_channel t t' :
  step t t' → senders (write_rx t) = O ∧ sent (write_rx t) = [] →
  senders (write_rx t') = O ∧ sent (write_rx t') = [].
Proof.
  intros [Hs|Hs]; destruct Hs; intros [? ?]; try done; try lia; cbn;
    unfold handle; try (by destruct (apply_write _ _ _ _)).
  by destruct (poll_turn_channel e rest updated t) as [-> _].
Qed.
End Channel.

(** ** Against the simulated PLC *)
Section PollerLink.
Context {NodeId Other Sp : Type} `{EqDecision NodeId} `{AddressSpaceLaws NodeId Other Sp}.
Context (show_node : NodeId → string).
Abbreviation TagEntry := (TagEntry NodeId).
Abbreviation Variant := (Variant Other).

(** The tags whose addresses fit the address field of a request. *)
Definition entry_ok (e : TagEntry) : Prop :=
  u16 (tag_db_number (entry_address e)) ∧ 0 <= byte_offset (entry_address e) < 2097152 ∧
  element_count (entry_address e) = 1.

(** What the poller finds for a tag in a memory: it reads bytes of a data
    block, whatever the tag's area, and takes the whole byte for a bit. *)
Definition polled_value (m : Mem) (e : TagEntry) : option Variant :=
  let addr := entry_address e in
  match transport_size_bytes (tag_transport addr) 1 with
  | Some size =>
      bytes_to_variant (spec_read 0x84 (tag_db_number addr) (byte_offset addr) size m)
        (tag_transport addr)
  | None => None
  end.
Definition polled_updates (m : Mem) (sp : Sp) (e : TagEntry) : list (NodeId * Variant) :=
  match polled_value m e with
  | Some v => if is_variable (node_id e) sp then [(node_id e, v)] else []
  | None => []
  end.
Definition set_values (us : list (NodeId * Variant)) (sp : Sp) : Sp :=
  foldl (fun sp '(n, v) => set_value n v sp) sp us.

#[local] Instance polled_value_proper e : Proper (mem_eq ==> eq) (fun m => polled_value m e).
Proof. intros m m' Hm. unfold polled_value. case_match; [|done]. by rewrite Hm. Qed.

Lemma is_variable_set_values us n sp : is_variable n (set_values us sp) = is_variable n sp.
Proof.
  revert sp. induction us as [|[m v] us IH]; intros sp; cbn; [done|].
  unfold set_values in IH. by rewrite IH, is_variable_set.
Qed.

Lemma polled_updates_set m us sp e : polled_updates m (set_values us sp) e = polled_updates m sp e.
Proof. unfold polled_updates. by rewrite is_variable_set_values. Qed.

Lemma bind_updates_set m us sp es :
  es ≫= polled_updates m (set_values us sp) = es ≫= polled_updates m sp.
Proof. apply list_bind_ext; [|done]. intros. apply polled_updates_set. Qed.

Lemma poll_entry_linked e us c r s sp :
  entry_ok e →
  ∃ r' s', same_data s s' ∧
    poll_entry e us (linked c r s, sp) =
    (Ok (us ++ polled_updates (mem_of s) sp e),
     (linked c r' s', set_values (polled_updates (mem_of s) sp e) sp)).
Proof.
  intros (Hdb & Hoff & Hone). unfold poll_entry, polled_updates, polled_value. rewrite Hone.
  destruct (transport_size_bytes _ 1) as [size|] eqn:Hsz.
  2: { exists r, s. rewrite app_nil_r. done. }
  assert (0 <= size < 5) as Hb by (destruct (tag_transport _); cbn in Hsz; simplify_eq; lia).
  destruct (db_read_linked (tag_db_number (entry_address e)) (byte_offset (entry_address e))
              (as_u16 size) c r s) as (s' & Hr & Hs); [done|done|unwidth; Z.div_mod_to_equations; lia|].
  exists (as_u16 (r + 1)), s'. split; [done|]. rewrite as_u16_small in * by (unwidth; lia).
  unfold io_bind at 1. cbn. rewrite Hr. cbn.
  destruct (bytes_to_variant _ _) as [v|]; cbn; [|by rewrite app_nil_r].
  unfold io_bind. cbn. destruct (is_variable _ sp) eqn:Hv; cbn; [done|by rewrite app_nil_r].
Qed.

Lemma poll_entries_linked es us c r s sp :
  Forall entry_ok es →
  ∃ r' s', same_data s s' ∧
    poll_entries es us (linked c r s, sp) =
    (Ok (us ++ (es ≫= polled_updates (mem_of s) sp)),
     (linked c r' s', set_values (es ≫= polled_updates (mem_of s) sp) sp)).
Proof.
  intros He. revert us r s sp. induction He as [|e es He Hes IH]; intros us r s sp.
  { exists r, s. cbn. by rewrite app_nil_r. }
  destruct (poll_entry_linked e us c r s sp He) as (r1 & s1 & Hs1 & H1).
  destruct (IH (us ++ polled_updates (mem_of s) sp e) r1 s1
               (set_values (polled_updates (mem_of s) sp e) sp)) as (r2 & s2 & Hs2 & H2).
  exists r2, s2. split; [by etrans|]. cbn [poll_entries]. rewrite (io_bind_ok _ _ _ _ _ H1), H2.
  assert (mem_of s1 = mem_of s) as -> by apply Hs1.
  rewrite bind_updates_set. cbn. rewrite <- app_assoc. unfold set_values. by rewrite foldl_app.
Qed.

(** The values that a round of updates leaves. *)
Lemma value_of_set_values_notin us n sp :
  n ∉ us.*1 → value_of n (set_values us sp) = value_of n sp.
Proof.
  revert sp. induction us as [|[m v] us IH]; intros sp Hn; [done|]. cbn in *.
  unfold set_values in IH. rewrite IH by set_solver. apply value_of_set_ne. set_solver.
Qed.

Lemma polled_updates_nodes m sp es n :
  n ∈ (es ≫= polled_updates m sp).*1 → n ∈ node_id <$> es.
Proof.
  induction es as [|e es IH]; cbn; [done|]. rewrite fmap_app, elem_of_app.
  intros [Hn|Hn]; [|right; by apply IH]. unfold polled_updates in Hn.
  repeat case_match; cbn in Hn; set_solver.
Qed.

Lemma value_of_polled m sp es e v :
  NoDup (node_id <$> es) → e ∈ es → is_variable (node_id e) sp = true →
  polled_value m e = Some v →
  value_of (node_id e) (set_values (es ≫= polled_updates m sp) sp) = Some v.
Proof.
  intros Hn He Hv Hval. apply list_elem_of_split in He as (pre & post & ->).
  rewrite fmap_app in Hn. apply NoDup_app in Hn as (_ & _ & Hn).
  cbn in Hn. apply NoDup_cons in Hn as [Hn _].
  rewrite bind_app. cbn. unfold set_values. rewrite !foldl_app.
  fold (set_values (pre ≫= polled_updates m sp) sp).
  unfold polled_updates at 2. rewrite Hval, Hv. cbn.
  match goal with |- value_of _ (foldl _ ?x _) = _ =>
    fold (set_values (post ≫= polled_updates m sp) x) end.
  rewrite value_of_set_values_notin by (by intros ?%polled_updates_nodes).
  apply value_of_set. by rewrite is_variable_set_values.
Qed.

(** A command that the gateway accepts for an entry. *)
Definition command_for (registry : TagRegistry NodeId) (cmd : WriteCommand NodeId Other)
    (e : TagEntry) (d : bytes) : Prop :=
  find_by_node_id registry (cmd_node_id cmd) = Some e ∧ writable e = true ∧
  variant_wf (cmd_variant cmd) ∧
  variant_to_bytes (cmd_variant cmd) = Some (d, tag_transport (entry_address e)).

(** Where it writes them. *)
Definition poller_write (e : TagEntry) (d : bytes) (m : Mem) : Mem :=
  spec_write 0x84 (tag_db_number (entry_address e)) (byte_offset (entry_address e)) d m.

#[local] Instance poller_write_proper e d : Proper (mem_eq ==> mem_eq) (poller_write e d).
Proof. intros m m' Hm. unfold poller_write. by rewrite Hm. Qed.

Lemma command_bytes_short registry cmd e d : command_for registry cmd e d → blen d < 5.
Proof.
  intros (_ & _ & _ & Hd). apply variant_to_bytes_size in Hd.
  destruct (tag_transport _); cbn in Hd; simplify_eq; lia.
Qed.

Lemma polled_value_written e d m registry cmd :
  command_for registry cmd e d → polled_value (poller_write e d m) e = Some (cmd_variant cmd).
Proof.
  intros (_ & _ & Hv & Hd). unfold polled_value, poller_write.
  rewrite (variant_to_bytes_size _ _ _ Hd), spec_read_write. by apply variant_of_bytes.
Qed.

Lemma apply_write_linked registry cmd e d c r s sp :
  command_for registry cmd e d → entry_ok e → is_area_locked 0x84 s = false →
  ∃ r' s', mem_eq (mem_of s') (poller_write e d (mem_of s)) ∧
    (∀ a, is_area_locked a s' = is_area_locked a s) ∧
    apply_write show_node registry cmd (linked c r s, sp) =
    (Ok tt, (linked c r' s', if is_variable (node_id e) sp
                             then set_value (node_id e) (cmd_variant cmd) sp else sp)).
Proof.
  intros Hc (Hdb & Hoff & _) Hl. pose proof (command_bytes_short _ _ _ _ Hc) as Hd5.
  destruct Hc as (Hf & Hw & Hv & Hd).
  set (i := db_item (tag_db_number (entry_address e)) (byte_offset (entry_address e)) (blen d)).
  blen_pose.
  destruct (write_one_linked "db_write" "write error" i d c r s) as (s' & Hm & Hk & _ & Hwr);
    [apply db_item_addressable; unwidth; lia|lia|].
  exists (as_u16 (r + 1)), s'. split_and!; [|done|].
  - unfold spec_write_item in Hm. cbn in Hm. by rewrite Hl in Hm.
  - unfold apply_write. rewrite Hf, Hw, Hd. cbn [negb]. rewrite bool_decide_eq_false_2 by naive_solver.
    erewrite io_bind_ok.
    2: { unfold on_client, S7Client_db_write. rewrite (as_u16_small (blen d)) by (unwidth; lia).
         fold (db_item (tag_db_number (entry_address e)) (byte_offset (entry_address e)) (blen d)).
         fold i. rewrite Hwr. reflexivity. }
    unfold io_bind. cbn. by destruct (is_variable _ sp).
Qed.

(** ** What tags denote *)

(** The value of a tag in a memory: of its area, and of its bit if it is one. *)
Definition entry_value (m : Mem) (e : TagEntry) : option Variant :=
  let addr := entry_address e in
  let area := Area_as_u8 (tag_area addr) in
  match tag_transport addr with
  | Bit =>
      Some (Boolean (Z.testbit (m (area, tag_db_number addr, byte_offset addr)) (tag_bit_offset addr)))
  | ts =>
      match transport_size_bytes ts 1 with
      | Some size =>
          bytes_to_variant (spec_read area (tag_db_number addr) (byte_offset addr) size m) ts
      | None => None
      end
  end.
(** The memory in which a tag has been given a value, and nothing else. *)
Definition entry_write (e : TagEntry) (v : Variant) (m : Mem) : Mem :=
  let addr := entry_address e in
  let area := Area_as_u8 (tag_area addr) in
  let old := m (area, tag_db_number addr, byte_offset addr) in
  let write d := spec_write area (tag_db_number addr) (byte_offset addr) d m in
  match v with
  | Boolean b =>
      write [if b then Z.setbit old (tag_bit_offset addr) else Z.clearbit old (tag_bit_offset addr)]
  | _ => match variant_to_bytes v with Some (d, _) => write d | None => m end
  end.
Definition command_memory (registry : TagRegistry NodeId) (m : Mem)
    (cmd : WriteCommand NodeId Other) : Mem :=
  match find_by_node_id registry (cmd_node_id cmd) with
  | Some e => entry_write e (cmd_variant cmd) m
  | None => m
  end.

(** The tags whose area and bit number the poller does not have to look at. *)
Definition data_tag (e : TagEntry) : Prop :=
  tag_area (entry_address e) = DataBlock ∧ tag_transport (entry_address e) ≠ Bit.

Lemma data_tag_polled m e : data_tag e → entry_value m e = polled_value m e.
Proof.
  intros [Ha Ht]. unfold entry_value, polled_value. rewrite Ha.
  by destruct (tag_transport (entry_address e)).
Qed.
Lemma data_tag_written registry m cmd e d :
  command_for registry cmd e d → data_tag e → command_memory registry m cmd = poller_write e d m.
Proof.
  intros (Hf & _ & _ & Hd) [Ha Ht]. unfold command_memory, entry_write, poller_write. rewrite Hf, Ha, Hd.
  by destruct (cmd_variant cmd); simplify_eq/=.
Qed.

(** ** A tick *)
#[local] Instance command_memory_proper registry :
  Proper (mem_eq ==> eq ==> mem_eq) (command_memory registry).
Proof.
  intros m m' Hm cmd ? <-. unfold command_memory, entry_write.
  repeat case_match; rewrite ?(Hm (_, _, _)); by rewrite ?Hm.
Qed.
#[local] Instance foldl_command_memory_proper registry :
  Proper (mem_eq ==> eq ==> mem_eq) (foldl (command_memory registry)).
Proof.
  intros m m' Hm l ? <-. revert m m' Hm.
  induction l as [|cmd l IH]; intros m m' Hm; cbn; [done|]. apply IH. by rewrite Hm.
Qed.

Abbreviation Task := (Task NodeId Other Sp Link).
Abbreviation task_step := (task_step show_node).

(** A task at a phase, with what the PLC and the queue hold. *)
Definition at_phase (t : Task) (p : Phase) (c : Connection) (r : Z) (s : StoreInner)
    (q : list (WriteCommand NodeId Other)) : Prop :=
  phase t = p ∧ task_client t = linked c r s ∧ queue (write_rx t) = q.

Definition accepted (registry : TagRegistry NodeId) (cmd : WriteCommand NodeId Other) : Prop :=
  ∃ e d, command_for registry cmd e d ∧ data_tag e.

Lemma drain_steps registry q t c r s :
  Forall entry_ok (registry_entries registry) → Forall (accepted registry) q →
  is_area_locked 0x84 s = false → at_phase t Draining c r s q →
  ∃ t' r' s', rtc (task_step registry) t t' ∧ at_phase t' Draining c r' s' [] ∧
    mem_eq (mem_of s') (foldl (command_memory registry) (mem_of s) q) ∧
    handled t' = handled t ++ ((fun cmd => (cmd, Ok tt)) <$> q) ∧ notified t' = notified t ∧
    (∀ n, is_variable n (task_space t') = is_variable n (task_space t)).
Proof.
  intros Hok Hq. revert t r s. induction Hq as [|cmd q (e & d & Hcmd & Hdt) Hq IH]; intros t r s Hl (Hp & Hc & Hque).
  { exists t, r, s. cbn. rewrite app_nil_r. by split_and!. }
  assert (entry_ok e) as He.
  { eapply (Forall_forall entry_ok); [done|]. apply (find_entry_elem (cmd_node_id cmd)), Hcmd. }
  destruct (apply_write_linked registry cmd e d c r s (task_space t) Hcmd He Hl)
    as (r1 & s1 & Hm1 & Hl1 & H1).
  set (t1 := handle show_node registry cmd t).
  assert (at_phase t1 Draining c r1 s1 q ∧ handled t1 = handled t ++ [(cmd, Ok tt)] ∧
          notified t1 = notified t ∧
          (∀ n, is_variable n (task_space t1) = is_variable n (task_space t))) as (Ha & Hh & Hn & Hv).
  { unfold at_phase. subst t1. unfold handle. rewrite Hc, H1. cbn. rewrite Hque. split_and!; try done.
    intros n. destruct (is_variable (node_id e) _); [apply is_variable_set|done]. }
  destruct (IH t1 r1 s1) as (t2 & r2 & s2 & Hs2 & Ha2 & Hm2 & Hh2 & Hn2 & Hv2);
    [by rewrite Hl1|done|].
  exists t2, r2, s2. split_and!; [|done|..].
  - eapply rtc_l; [by eapply step_drain|done].
  - rewrite Hm2. cbn [foldl]. by rewrite Hm1, (data_tag_written _ _ _ _ _ Hcmd Hdt).
  - rewrite Hh2, Hh. cbn. by rewrite <- app_assoc.
  - by rewrite Hn2.
  - intros n. by rewrite Hv2.
Qed.

Lemma poll_steps registry es us t c r s :
  Forall entry_ok es → at_phase t (Polling es us) c r s [] →
  ∃ t' r' s', rtc (task_step registry) t t' ∧ same_data s s' ∧
    at_phase t' (Polling [] (us ++ (es ≫= polled_updates (mem_of s) (task_space t)))) c r' s' [] ∧
    task_space t' = set_values (es ≫= polled_updates (mem_of s) (task_space t)) (task_space t) ∧
    handled t' = handled t ∧ notified t' = notified t.
Proof.
  intros He. revert us t r s. induction He as [|e es He Hes IH]; intros us t r s (Hp & Hc & Hque).
  { exists t, r, s. cbn. rewrite app_nil_r. by split_and!. }
  destruct (poll_entry_linked e us c r s (task_space t) He) as (r1 & s1 & Hs1 & H1).
  set (t1 := poll_turn e es us t).
  set (u := polled_updates (mem_of s) (task_space t) e) in *.
  assert (at_phase t1 (Polling es (us ++ u)) c r1 s1 [] ∧ task_space t1 = set_values u (task_space t) ∧
    handled t1 = handled t ∧ notified t1 = notified t) as (Ha & Hsp & Hh & Hn).
  { unfold at_phase. subst t1. unfold poll_turn. rewrite Hc, H1. by split_and!. }
  destruct (IH (us ++ u) t1 r1 s1 Ha) as (t2 & r2 & s2 & Hs2 & Hd2 & Ha2 & Hsp2 & Hh2 & Hn2).
  exists t2, r2, s2. assert (mem_of s1 = mem_of s) as Hm by apply Hs1.
  rewrite Hm, Hsp, bind_updates_set in *. cbn [mbind list_bind]. fold u. split_and!.
  - eapply rtc_l; [by eapply step_poll|done].
  - by etrans.
  - by rewrite (assoc_L (++)).
  - rewrite Hsp2. unfold set_values. by rewrite foldl_app.
  - by rewrite Hh2.
  - by rewrite Hn2.
Qed.

(** What a round tells subscribers. *)
Lemma polled_updates_nodup m sp es :
  NoDup (node_id <$> es) → NoDup (es ≫= polled_updates m sp).*1.
Proof.
  induction es as [|e es IH]; cbn; [constructor|]. intros [Hn Hnd]%NoDup_cons.
  rewrite fmap_app. apply NoDup_app. split_and!; [|intros n Hn1 Hn2|by apply IH].
  - unfold polled_updates. repeat case_match; [apply NoDup_singleton|constructor..].
  - apply Hn. apply polled_updates_nodes in Hn2. unfold polled_updates in Hn1.
    repeat case_match; cbn in Hn1; set_solver.
Qed.
Lemma polled_updates_elem m sp es e v :
  NoDup (node_id <$> es) → e ∈ es → is_variable (node_id e) sp = true →
  (node_id e, v) ∈ es ≫= polled_updates m sp ↔ polled_value m e = Some v.
Proof.
  intros Hnd He Hv. rewrite list_elem_of_bind. unfold polled_updates. split.
  - intros (e' & Hin & He'). assert (node_id e = node_id e') as Hn
      by (repeat case_match; set_solver).
    assert (e = e') as <-.
    { apply list_elem_of_lookup in He as [i Hi]. apply list_elem_of_lookup in He' as [j Hj].
      assert (i = j) as -> by (eapply (NoDup_lookup (node_id <$> es)); [done|..];
        rewrite list_lookup_fmap; [by rewrite Hi|rewrite Hj; cbn; by rewrite Hn]). congruence. }
    rewrite Hv in Hin. destruct (polled_value m e); set_solver.
  - intros Hp. exists e. rewrite Hp, Hv. set_solver.
Qed.


(** ** A poller nobody can send to *)
Definition orphan_inv (registry : TagRegistry NodeId) (c : Connection) (s : StoreInner) (t : Task) : Prop :=
  handled t = [] ∧ (∃ r' s', task_client t = linked c r' s' ∧ mem_of s' = mem_of s) ∧
  match phase t with Polling es _ => Forall entry_ok es | _ => True end.

Lemma orphan_step registry c s t t' :
  Forall entry_ok (registry_entries registry) → queue (write_rx t) = [] →
  step show_node registry t t' → orphan_inv registry c s t → orphan_inv registry c s t'.
Proof.
  intros Hok Hq Hs (Hh & (r' & s' & Hc & Hm) & Hp). unfold orphan_inv.
  destruct Hs as [Hs|Hs]; destruct Hs; try (by rewrite Hq in *);
    try (split_and!; cbn; [done|by exists r', s'|done]).
  rewrite (ltac:(eassumption) : phase t = Polling (e :: rest) updated) in Hp.
  apply Forall_cons in Hp as [He Hr].
  destruct (poll_entry_linked e updated c r' s' (task_space t) He) as (r1 & s1 & Hs1 & Hpoll).
  unfold poll_turn. rewrite Hc, Hpoll. cbn. split_and!; [done| |done].
  exists r1, s1. split; [done|]. rewrite <- Hm. apply Hs1.
Qed.

Lemma orphan_reachable registry c r s sp t :
  Forall entry_ok (registry_entries registry) →
  rtc (step show_node registry) (spawn (linked c r s) sp 0) t →
  (senders (write_rx t) = O ∧ sent (write_rx t) = []) ∧ channel_inv t ∧ orphan_inv registry c s t.
Proof.
  intros Hok Hr.
  apply (rtc_ind_r (fun t => (senders (write_rx t) = O ∧ sent (write_rx t) = []) ∧ channel_inv t ∧
    orphan_inv registry c s t) (spawn (linked c r s) sp 0)) in Hr; [done|..].
  - split; [done|]. split; [split; [done|cbn; lia]|]. split; [done|]. split; [by exists r, s|done].
  - intros t1 t2 _ Hs (Ho & Hi & Hv). split; [by eapply orphan_channel|].
    split; [by eapply step_channel|]. eapply orphan_step; [done| |done..].
    destruct Hi as [Hi _]. destruct Ho as [_ Ho]. rewrite Ho in Hi. by apply app_eq_nil in Hi as [_ ->].
Qed.

(** The bit number of a tag is ignored when it is written: writing a boolean
    to a bit tag replaces the whole byte by 0 or 1, whatever its bit number and
    whatever the other bits were. *)
Theorem bit_write_clobbers registry cmd e b c r s sp :
  find_by_node_id registry (cmd_node_id cmd) = Some e → writable e = true →
  tag_transport (entry_address e) = Bit → cmd_variant cmd = Boolean b → entry_ok e →
  is_area_locked 0x84 s = false →
  ∃ r' s' sp', apply_write show_node registry cmd (linked c r s, sp) = (Ok tt, (linked c r' s', sp')) ∧
    mem_of s' (0x84, tag_db_number (entry_address e), byte_offset (entry_address e)) =
    (if b then 1 else 0).
Proof.
  intros Hf Hw Ht Hb He Hl.
  destruct (apply_write_linked registry cmd e [if b then 1 else 0] c r s sp) as (r' & s' & Hm & _ & Ha);
    [|done|done|].
  { unfold command_for. rewrite Ht, Hb. by split_and!. }
  exists r', s'. eexists. split; [exact Ha|]. rewrite (Hm _). unfold poller_write, spec_write.
  rewrite bool_decide_eq_true_2 by (split_and!; [done..|lia|blen_lia]). by rewrite Z.sub_diag.
Qed.

(** The area of a tag is ignored when it is polled: the outcome of polling
    a tag, of whatever area, depends on the PLC's data blocks alone; a marker
    tag shows the byte of data block 0 at its offset. *)
Theorem poll_ignores_area e us c r s1 s2 sp :
  entry_ok e → (∀ d o, mem_of s1 (0x84, d, o) = mem_of s2 (0x84, d, o)) →
  (poll_entry e us (linked c r s1, sp)).1 = (poll_entry e us (linked c r s2, sp)).1.
Proof.
  intros He Hm.
  destruct (poll_entry_linked e us c r s1 sp He) as (? & ? & _ & ->).
  destruct (poll_entry_linked e us c r s2 sp He) as (? & ? & _ & ->).
  assert (polled_value (mem_of s1) e = polled_value (mem_of s2) e) as Hv.
  { unfold polled_value. case_match; [|done]. f_equal. apply list_fmap_ext. intros. by rewrite Hm. }
  cbn. unfold polled_updates. by rewrite Hv.
Qed.
End PollerLink.

(** ** A concrete address space: a finite map from names to values *)
Abbreviation NodeMap := (gmap text (Variant unit)).

#[export] Instance NodeMap_space : AddressSpace text unit NodeMap := {|
  node_exists n sp := bool_decide (is_Some (sp !! n));
  is_variable n sp := bool_decide (is_Some (sp !! n));
  value_of n sp := sp !! n;
  set_value n v sp := alter (fun _ => v) n sp;
  insert_variable n _ _ v _ sp := match sp !! n with Some _ => sp | None => <[n := v]> sp end;
|}.

#[export] Instance NodeMap_laws : AddressSpaceLaws text unit NodeMap.
Proof.
  split; cbn; intros.
  - apply bool_decide_eq_true in H as [x Hx]. by rewrite lookup_alter_eq, Hx.
  - by rewrite lookup_alter_ne.
  - apply bool_decide_ext. destruct (decide (n = m)) as [->|]; [|by rewrite lookup_alter_ne].
    by rewrite lookup_alter_eq, fmap_is_Some.
  - apply bool_decide_eq_false, eq_None_not_Some in H. rewrite H.
    apply bool_decide_eq_true_2. by rewrite lookup_insert_eq.
  - apply bool_decide_eq_true in H. apply bool_decide_eq_true_2.
    destruct (sp !! n); [done|]. destruct (decide (n = m)) as [->|];
      [by rewrite lookup_insert_eq|by rewrite lookup_insert_ne].
  - apply bool_decide_ext. destruct (sp !! n); [done|]. by rewrite lookup_insert_ne.
  - done.
Qed.

(** A registry of one writable REAL, one bit and one marker byte. *)
Definition demo_entry (name : string) (a : Area) (db off : Z) (ts : TransportSize) : TagEntry text :=
  {| node_id := str_bytes name; entry_address := mk_tag a db off 0 ts; entry_name := str_bytes name;
     writable := true; plc_index := 0 |}.
Definition demo_registry : TagRegistry text :=
  {| registry_entries := [demo_entry "Speed" DataBlock 1 4 Real; demo_entry "Valve" DataBlock 1 8 Bit;
                          demo_entry "Flags" Marker 0 3 Byte] |}.
Definition demo_space : NodeMap :=
  foldr (fun e => insert_variable (node_id e) (entry_name e) DtFloat (@Empty unit) true) ∅
    (registry_entries demo_registry).
Definition demo_write : WriteCommand text unit :=
  {| cmd_node_id := str_bytes "Speed"; cmd_variant := Float 0x3F800000 |}.
Definition demo_task : Task text unit NodeMap Link :=
  set_channel (spawn (linked {| pdu_size := 480 |} 1 DataStore_new) demo_space 1)
    {| queue := [demo_write]; senders := 1; sent := [demo_write] |}.

Lemma demo_entries_ok : Forall entry_ok (registry_entries demo_registry).
Proof. repeat constructor; by vm_compute. Qed.

Lemma demo_write_accepted : accepted demo_registry demo_write.
Proof.
  exists (demo_entry "Speed" DataBlock 1 4 Real), [0x3F; 0x80; 0; 0].
  split; [|by split]. split_and!; [reflexivity..| |reflexivity]. cbn. unwidth. lia.
Qed.


Lemma bit_write_clobbers_witness :
  ∃ r' s' sp',
    apply_write (fun _ => "") demo_registry
      {| cmd_node_id := str_bytes "Valve"; cmd_variant := Boolean true |}
      (linked {| pdu_size := 480 |} 1 (write_bytes 1 8 [0xF0] DataStore_new), demo_space) =
    (Ok tt, (linked {| pdu_size := 480 |} r' s', sp')) ∧ mem_of s' (0x84, 1, 8) = 1.
Proof.
  apply (bit_write_clobbers (fun _ => "") demo_registry
    {| cmd_node_id := str_bytes "Valve"; cmd_variant := Boolean true |}
    (demo_entry "Valve" DataBlock 1 8 Bit) true); try reflexivity.
  split_and!; try reflexivity; by vm_compute.
Defined.

Lemma poll_ignores_area_witness :
  (poll_entry (demo_entry "Flags" Marker 0 3 Byte) []
     (linked {| pdu_size := 480 |} 1 (write_area 0x83 0 3 [7] DataStore_new), demo_space)).1 =
  (poll_entry (demo_entry "Flags" Marker 0 3 Byte) []
     (linked {| pdu_size := 480 |} 1 DataStore_new, demo_space)).1.
Proof.
  apply (poll_ignores_area (demo_entry "Flags" Marker 0 3 Byte)).
  - split_and!; try reflexivity; by vm_compute.
  - intros d o. rewrite (mem_of_write_area 0x83 0 3 [7] DataStore_new) by (by vm_compute).
    unfold spec_write. rewrite bool_decide_eq_false_2; [reflexivity|]. intros [[=] _].
Defined.
