(* ===== verification/ConfigFile.v ===== *)
(** * The gateway's configuration file (snap7-opcua-gateway, config.rs)

    [toml::from_str] parses a document and builds a [GatewayConfig] from it as
    the attributes of the structs say: a field without a default must be
    there, one with a default or of type [Option] may be missing, fields of
    other names are skipped.  The parser of the text is a library; the model
    starts with the table it gives.  [None] is an error.  A struct is a table
    here; one written as an array of its fields is not modelled. *)

From S2P Require Import Prelude Wire Io S7Header Connection Client Tag Registry.
Local Open Scope Z_scope.

Inductive Toml :=
| TStr (s : text)
| TInt (v : Z)
| TBool (b : bool)
| TArray (l : list Toml)
| TTable (fields : list (text * Toml))
| TOther.   (* a float or a date *)

(** ** Values *)
Definition de_string (v : Toml) : option text := match v with TStr s => Some s | _ => None end.
Definition de_bool (v : Toml) : option bool := match v with TBool b => Some b | _ => None end.
(** TOML integers are signed 64-bit numbers. *)
Definition de_u64 (v : Toml) : option Z :=
  match v with TInt n => if 0 <=? n then Some n else None | _ => None end.
Definition de_list {A} (de : Toml → option A) (v : Toml) : option (list A) :=
  match v with TArray l => mapM de l | _ => None end.
Definition de_table (v : Toml) : option (list (text * Toml)) :=
  match v with TTable fields => Some fields | _ => None end.

(** ** Fields *)
Fixpoint get (key : string) (fields : list (text * Toml)) : option Toml :=
  match fields with
  | [] => None
  | (k, v) :: rest => if bool_decide (k = str_bytes key) then Some v else get key rest
  end.
Definition required {A} (key : string) (de : Toml → option A) (fields : list (text * Toml)) : option A :=
  get key fields ≫= de.
Definition with_default {A} (key : string) (d : A) (de : Toml → option A)
    (fields : list (text * Toml)) : option A :=
  match get key fields with Some v => de v | None => Some d end.
Definition optional {A} (key : string) (de : Toml → option A) (fields : list (text * Toml))
    : option (option A) :=
  match get key fields with Some v => Some <$> de v | None => Some None end.

(** ** The structs *)
Definition default_security_policy : text := str_bytes "None".
Definition default_security_mode : text := str_bytes "None".

Definition TagSpec_de (v : Toml) : option TagSpec :=
  f ← de_table v;
  tag ← required "tag" de_string f;
  name ← required "name" de_string f;
  writable ← with_default "writable" false de_bool f;
  Some {| spec_tag := tag; spec_name := name; spec_writable := writable |}.

Definition PlcConfig_de (v : Toml) : option PlcConfig :=
  f ← de_table v;
  addr ← required "addr" de_string f;
  ms ← with_default "poll_interval_ms" default_poll_ms de_u64 f;
  tags ← required "tags" (de_list TagSpec_de) f;
  Some {| plc_config_addr := addr; plc_poll_interval_ms := ms; plc_tags := tags |}.

Definition OpcSecurityConfig_de (v : Toml) : option OpcSecurityConfig :=
  f ← de_table v;
  policy ← with_default "policy" default_security_policy de_string f;
  mode ← with_default "mode" default_security_mode de_string f;
  certificate ← optional "certificate" de_string f;
  private_key ← optional "private_key" de_string f;
  Some {| policy := policy; mode := mode; certificate := certificate; private_key := private_key |}.

Definition GatewayConfig_de (v : Toml) : option GatewayConfig :=
  f ← de_table v;
  endpoint ← required "opc_endpoint" de_string f;
  ms ← with_default "poll_interval_ms" default_poll_ms de_u64 f;
  addr ← optional "plc_addr" de_string f;
  tags ← optional "tags" (de_list TagSpec_de) f;
  plcs ← optional "plcs" (de_list PlcConfig_de) f;
  security ← with_default "opc_security" OpcSecurityConfig_default OpcSecurityConfig_de f;
  Some {| opc_endpoint := endpoint; poll_interval_ms := ms; plc_addr := addr; tags := tags;
          plcs := plcs; opc_security := security |}.

(** ** Every configuration can be written *)
Definition put {A} (key : string) (ser : A → Toml) (a : A) : list (text * Toml) :=
  [(str_bytes key, ser a)].
Definition put_opt {A} (key : string) (ser : A → Toml) (o : option A) : list (text * Toml) :=
  match o with Some a => put key ser a | None => [] end.
(** A field equal to its default may be left out. *)
Definition put_unless {A} `{EqDecision A} (key : string) (d : A) (ser : A → Toml) (a : A)
    : list (text * Toml) := if bool_decide (a = d) then [] else put key ser a.

Definition TagSpec_ser (t : TagSpec) : Toml :=
  TTable (put "tag" TStr (spec_tag t) ++ put "name" TStr (spec_name t) ++
          put_unless "writable" false TBool (spec_writable t)).
Definition tags_ser (l : list TagSpec) : Toml := TArray (TagSpec_ser <$> l).
Definition PlcConfig_ser (p : PlcConfig) : Toml :=
  TTable (put "addr" TStr (plc_config_addr p) ++
          put_unless "poll_interval_ms" default_poll_ms TInt (plc_poll_interval_ms p) ++
          put "tags" tags_ser (plc_tags p)).
Definition OpcSecurityConfig_ser (s : OpcSecurityConfig) : Toml :=
  TTable (put_unless "policy" default_security_policy TStr (policy s) ++
          put_unless "mode" default_security_mode TStr (mode s) ++
          put_opt "certificate" TStr (certificate s) ++ put_opt "private_key" TStr (private_key s)).
(** The fields of a configuration behind its interval. *)
Definition config_rest (addr : option text) (tags : option (list TagSpec))
    (plcs : option (list PlcConfig)) (sec : OpcSecurityConfig) : list (text * Toml) :=
  put_opt "plc_addr" TStr addr ++ put_opt "tags" tags_ser tags ++
  put_opt "plcs" (fun l => TArray (PlcConfig_ser <$> l)) plcs ++
  put "opc_security" OpcSecurityConfig_ser sec.
Definition GatewayConfig_ser (c : GatewayConfig) : Toml :=
  TTable (put "opc_endpoint" TStr (opc_endpoint c) ++
          put_unless "poll_interval_ms" default_poll_ms TInt (poll_interval_ms c) ++
          config_rest (plc_addr c) (tags c) (plcs c) (opc_security c)).

Definition config_wf (c : GatewayConfig) : Prop :=
  0 <= poll_interval_ms c ∧ Forall (fun p => 0 <= plc_poll_interval_ms p) (default [] (plcs c)).

Lemma de_list_ser {A} (ser : A → Toml) (de : Toml → option A) (P : A → Prop) l :
  (∀ a, P a → de (ser a) = Some a) → Forall P l → de_list de (TArray (ser <$> l)) = Some l.
Proof.
  intros Hd. cbn. induction 1 as [|a l Ha _ IH]; [done|]. cbn in *. by rewrite Hd, IH.
Qed.
Lemma TagSpec_de_ser t : TagSpec_de (TagSpec_ser t) = Some t.
Proof. destruct t as [tag name []]; reflexivity. Qed.
Lemma tags_de_ser l : de_list TagSpec_de (tags_ser l) = Some l.
Proof.
  apply (de_list_ser _ _ (fun _ => True)); [intros; apply TagSpec_de_ser|]. by apply Forall_true.
Qed.
Lemma de_u64_int n : 0 <= n → de_u64 (TInt n) = Some n.
Proof. intros. cbn. by rewrite (proj2 (Z.leb_le 0 n)). Qed.
Lemma default_u64 key n rest :
  0 <= n → get key rest = None →
  with_default key default_poll_ms de_u64 (put_unless key default_poll_ms TInt n ++ rest) = Some n.
Proof.
  intros Hn Hr. unfold put_unless, with_default. case_bool_decide as E; cbn [app put get].
  - rewrite Hr. by rewrite E.
  - rewrite bool_decide_eq_true_2 by done. by apply de_u64_int.
Qed.
Lemma get_unless {A} `{EqDecision A} key key' (d : A) ser a rest :
  str_bytes key' ≠ str_bytes key → get key (put_unless key' d ser a ++ rest) = get key rest.
Proof.
  intros Hk. unfold put_unless. case_bool_decide; [done|]. cbn. by rewrite bool_decide_eq_false_2.
Qed.

Lemma PlcConfig_de_ser p : 0 <= plc_poll_interval_ms p → PlcConfig_de (PlcConfig_ser p) = Some p.
Proof.
  intros Hp. destruct p as [addr ms l]. cbn in Hp.
  transitivity (ms' ← with_default "poll_interval_ms" default_poll_ms de_u64
                  (put_unless "poll_interval_ms" default_poll_ms TInt ms ++ put "tags" tags_ser l);
                tags ← get "tags" (put_unless "poll_interval_ms" default_poll_ms TInt ms ++
                                   put "tags" tags_ser l) ≫= de_list TagSpec_de;
                Some {| plc_config_addr := addr; plc_poll_interval_ms := ms'; plc_tags := tags |});
    [reflexivity|].
  rewrite default_u64 by done. rewrite get_unless by done. cbn [mbind option_bind].
  transitivity (tags ← de_list TagSpec_de (tags_ser l);
                Some {| plc_config_addr := addr; plc_poll_interval_ms := ms; plc_tags := tags |});
    [reflexivity|]. by rewrite tags_de_ser.
Qed.
Lemma OpcSecurityConfig_de_ser s : OpcSecurityConfig_de (OpcSecurityConfig_ser s) = Some s.
Proof.
  destruct s as [pol m cert key]. unfold OpcSecurityConfig_ser, put_unless. cbn.
  repeat case_bool_decide; destruct cert, key; subst; reflexivity.
Qed.

Lemma optional_get {A} key (de : Toml → option A) f v a :
  get key f = Some v → de v = Some a → optional key de f = Some (Some a).
Proof. intros Hg Hd. unfold optional. by rewrite Hg, Hd. Qed.

Lemma config_rest_fields addr tags plcs sec :
  Forall (fun p => 0 <= plc_poll_interval_ms p) (default [] plcs) →
  let f := config_rest addr tags plcs sec in
  get "poll_interval_ms" f = None ∧ optional "plc_addr" de_string f = Some addr ∧
  optional "tags" (de_list TagSpec_de) f = Some tags ∧
  optional "plcs" (de_list PlcConfig_de) f = Some plcs ∧
  with_default "opc_security" OpcSecurityConfig_default OpcSecurityConfig_de f = Some sec.
Proof.
  intros Hp f. split_and!; [by destruct addr, tags, plcs..| | |].
  - destruct tags as [l|]; [|by destruct addr, plcs].
    apply (optional_get _ _ _ (tags_ser l)); [by destruct addr|apply tags_de_ser].
  - destruct plcs as [l|]; [|by destruct addr, tags].
    apply (optional_get _ _ _ (TArray (PlcConfig_ser <$> l))); [by destruct addr, tags|].
    apply (de_list_ser _ _ _ _ PlcConfig_de_ser Hp).
  - unfold with_default.
    replace (get "opc_security" f) with (Some (OpcSecurityConfig_ser sec))
      by (by destruct addr, tags, plcs). apply OpcSecurityConfig_de_ser.
Qed.

(** Every configuration the gateway can be given has a configuration file,
    also one that leaves out the fields equal to their defaults: reading what
    is written for a configuration gives it back, its PLCs, tags, intervals
    and security settings. *)
Theorem GatewayConfig_roundtrip c : config_wf c → GatewayConfig_de (GatewayConfig_ser c) = Some c.
Proof.
  intros [Hms Hplcs]. destruct c as [ep ms addr tags plcs sec]. cbn in Hms, Hplcs.
  destruct (config_rest_fields addr tags plcs sec Hplcs) as (Hn & Ha & Ht & Hp & Hs).
  set (rest := config_rest addr tags plcs sec) in *.
  set (all := put_unless "poll_interval_ms" default_poll_ms TInt ms ++ rest).
  assert (∀ k, str_bytes "poll_interval_ms" ≠ str_bytes k → get k all = get k rest) as Hget
    by (intros; by apply get_unless).
  transitivity (ms ← with_default "poll_interval_ms" default_poll_ms de_u64 all;
    addr ← optional "plc_addr" de_string all;
    tags ← optional "tags" (de_list TagSpec_de) all;
    plcs ← optional "plcs" (de_list PlcConfig_de) all;
    security ← with_default "opc_security" OpcSecurityConfig_default OpcSecurityConfig_de all;
    Some {| opc_endpoint := ep; poll_interval_ms := ms; plc_addr := addr; Registry.tags := tags;
            Registry.plcs := plcs; opc_security := security |}); [reflexivity|].
  assert (with_default "poll_interval_ms" default_poll_ms de_u64 all = Some ms) as ->
    by (by apply default_u64).
  unfold optional, with_default. rewrite !Hget by done.
  fold (optional "plc_addr" de_string rest) (optional "tags" (de_list TagSpec_de) rest)
    (optional "plcs" (de_list PlcConfig_de) rest)
    (with_default "opc_security" OpcSecurityConfig_default OpcSecurityConfig_de rest).
  by rewrite Ha, Ht, Hp, Hs.
Qed.
Lemma GatewayConfig_roundtrip_witness :
  let c := {| opc_endpoint := str_bytes "opc.tcp://0.0.0.0:4840"; poll_interval_ms := 500;
              plc_addr := None; tags := None;
              plcs := Some [ {| plc_config_addr := str_bytes "10.0.0.1:102"; plc_poll_interval_ms := 1000;
                                plc_tags := [] |} ];
              opc_security := OpcSecurityConfig_default |} in
  GatewayConfig_de (GatewayConfig_ser c) = Some c.
Proof.
  intros c. apply (GatewayConfig_roundtrip c). split; [cbn; lia|]. repeat constructor; cbn; lia.
Defined.
