(* ===== verification/Concurrent.v ===== *)
(** * Concurrent requests on the shared store (snap7-server, store.rs and dispatch.rs)

    The connections of the server run on the threads of the runtime, and the
    owner of the store uses it meanwhile.  [DataStore] is a mutex, and a method
    locks it once for its own work and, when it fires callbacks, twice more: to
    take the list out and to put it back.  Here a task is opened into these
    critical sections, and the sections of different tasks interleave freely:
    [step] runs one section of any task.  A handler with several items locks
    once per item, so a request is not one step.

    [AcceptLoop] runs a whole request as one step; [solo_run] shows
    that this is the execution in which no other task comes in between. *)

From stdpp Require Import relations gmap.
From S2P Require Import Prelude Wire S7Header ReadVar WriteVar Store Dispatch.
Local Open Scope Z_scope.

(** ** Critical sections *)

(** Why a callback list is fired: [fire_read], [fire_write], [fire_event]. *)
Inductive Cause :=
| CauseRead (info : EventInfo)
| CauseWrite (info : EventInfo)
| CauseEvent (name : string).

(** What a method does before it fires, under its first lock. *)
Definition first_section (op : StoreOp) (s : StoreInner) : bytes * StoreInner * option Cause :=
  match op with
  | OpRead a d st n =>
      (read_range (data s) a d st (saturating_add_u32 st n), s,
       Some (CauseRead {| event := "read"; ev_area := a; ev_db_number := d;
                          ev_start := st; ev_length := n |}))
  | OpWrite a d st bs =>
      if is_area_locked a s then ([], s, None)
      else ([], with_data s (write_loop a d st 0 bs (data s)),
            Some (CauseWrite {| event := "write"; ev_area := a; ev_db_number := d;
                                ev_start := st; ev_length := as_u32 (blen bs) |}))
  | OpSetCpuState c =>
      ([], with_cpu_state s c,
       Some (CauseEvent (match c with Run => "cpu_start" | Stop => "cpu_stop" end)))
  | _ => let '(out, s') := run_op op s in (out, s', None)
  end.

(** [std::mem::take] of the list; the calls that follow, without the lock, are
    recorded with it. *)
Definition take_callbacks (c : Cause) (s : StoreInner) : list nat * StoreInner :=
  match c with
  | CauseRead info =>
      (read_callbacks s,
       with_callbacks s [] (write_callbacks s) (event_callbacks s)
         (fired s ++ ((fun cb => FiredRead cb info) <$> read_callbacks s)))
  | CauseWrite info =>
      (write_callbacks s,
       with_callbacks s (read_callbacks s) [] (event_callbacks s)
         (fired s ++ ((fun cb => FiredWrite cb info) <$> write_callbacks s)))
  | CauseEvent name =>
      (event_callbacks s,
       with_callbacks s (read_callbacks s) (write_callbacks s) []
         (fired s ++ ((fun cb => FiredEvent cb name) <$> event_callbacks s)))
  end.

Definition restore_callbacks (c : Cause) (cbs : list nat) (s : StoreInner) : StoreInner :=
  match c with
  | CauseRead _ => with_callbacks s cbs (write_callbacks s) (event_callbacks s) (fired s)
  | CauseWrite _ => with_callbacks s (read_callbacks s) cbs (event_callbacks s) (fired s)
  | CauseEvent _ => with_callbacks s (read_callbacks s) (write_callbacks s) cbs (fired s)
  end.

(** ** Tasks

    The work left to a task: the items of a read request and those already
    read, the items of a write request, or calls of the owner. *)
Inductive Work :=
| Reads (items : list AddressItem) (got : list DataItem)
| Writes (items : list WriteItem) (total : nat)
| Owner (ops : list StoreOp).

Definition read_op (i : AddressItem) : StoreOp :=
  OpRead (to_u8 (area i)) (db_number i) (start i) (item_length i).
Definition write_op (i : WriteItem) : StoreOp :=
  OpWrite (to_u8 (area (address i))) (db_number (address i)) (start (address i)) (write_data i).

(** The next call on the store, and how the task goes on with its result. *)
Definition next_op (w : Work) : option (StoreOp * (bytes → Work)) :=
  match w with
  | Reads (i :: items) got =>
      Some (read_op i, fun d => Reads items (got ++ [{| return_code := 0xFF; item_data := d |}]))
  | Writes (i :: items) total => Some (write_op i, fun _ => Writes items total)
  | Owner (op :: ops) => Some (op, fun _ => Owner ops)
  | Reads [] _ | Writes [] _ | Owner [] => None
  end.

(** What the handler returns when no item is left. *)
Definition answer (w : Work) : Z * bytes :=
  match w with
  | Reads _ got =>
      (as_u8 (Z.of_nat (length got)), ReadVarResponse_encode {| resp_items := got |})
  | Writes _ total =>
      let item_count := as_u8 (Z.of_nat total) in
      (item_count, replicate (Z.to_nat item_count) 0xFF)
  | Owner _ => (0, [])
  end.

(** The handlers, up to their loops. *)
Definition begin_read (payload : bytes) : res unit Work :=
  match ReadVarRequest_decode payload with
  | Ok (req, _) => Ok (Reads (read_items req) [])
  | Err _ => Err tt
  | Panic => Panic
  end.
Definition begin_write (payload : bytes) : res unit Work :=
  match WriteVarRequest_decode payload with
  | Ok (req, _) => Ok (Writes (write_items req) (length (write_items req)))
  | Err _ => Err tt
  | Panic => Panic
  end.

Inductive Task :=
| At (w : Work)                                     (* before the next call *)
| Taking (c : Cause) (w : Work)                     (* before the list is taken *)
| Restoring (c : Cause) (cbs : list nat) (w : Work) (* before it is put back *).

Definition idle (t : Task) : bool :=
  match t with At w => match next_op w with None => true | Some _ => false end | _ => false end.

Definition after_first (c : option Cause) (w : Work) : Task :=
  match c with Some c => Taking c w | None => At w end.

(** One critical section of a task, with the call it commits. *)
Definition section (t : Task) (s : StoreInner)
  : option (Task * StoreInner * option (StoreOp * bytes)) :=
  match t with
  | At w =>
      match next_op w with
      | Some (op, k) =>
          let '(out, s', c) := first_section op s in
          Some (after_first c (k out), s', Some (op, out))
      | None => None
      end
  | Taking c w =>
      let '(cbs, s') := take_callbacks c s in Some (Restoring c cbs w, s', None)
  | Restoring c cbs w => Some (At w, restore_callbacks c cbs s, None)
  end.

(** ** Interleavings *)
Record Config := { tasks : list Task; shared : StoreInner }.

Inductive Label :=
| Begin (i : nat)                            (* the task takes up new work *)
| Commit (i : nat) (op : StoreOp) (out : bytes)
| Silent (i : nat)
| Spawn.

Definition label (i : nat) (o : option (StoreOp * bytes)) : Label :=
  match o with Some (op, out) => Commit i op out | None => Silent i end.

(** The work a connection can take up is a decoded request; the owner's is any
    list of calls. *)
Inductive takes_up : Work → Prop :=
| takes_read payload w : begin_read payload = Ok w → takes_up w
| takes_write payload w : begin_write payload = Ok w → takes_up w
| takes_owner ops : takes_up (Owner ops).

Inductive step : Config → Label → Config → Prop :=
| step_section c i t t' s' o :
    tasks c !! i = Some t → section t (shared c) = Some (t', s', o) →
    step c (label i o) {| tasks := <[i := t']> (tasks c); shared := s' |}
| step_begin c i t w :
    tasks c !! i = Some t → idle t = true → takes_up w →
    step c (Begin i) {| tasks := <[i := At w]> (tasks c); shared := shared c |}
| step_spawn c :
    step c Spawn {| tasks := tasks c ++ [At (Owner [])]; shared := shared c |}.

Inductive exec : Config → list Label → Config → Prop :=
| exec_nil c : exec c [] c
| exec_cons c1 l c2 tr c3 : step c1 l c2 → exec c2 tr c3 → exec c1 (l :: tr) c3.

(** The calls of a trace in the order of their locks, and those of one task. *)
Definition commit (l : Label) : option (nat * StoreOp * bytes) :=
  match l with Commit i op out => Some (i, op, out) | _ => None end.
Definition commits (tr : list Label) : list (nat * StoreOp * bytes) := omap commit tr.
Definition ops_of (cs : list (nat * StoreOp * bytes)) : list StoreOp := (fun x => x.1.2) <$> cs.
Definition outs_of (cs : list (nat * StoreOp * bytes)) : list bytes := snd <$> cs.
Definition commits_by (i : nat) (tr : list Label) : list (nat * StoreOp * bytes) :=
  filter (fun x => x.1.1 = i) (commits tr).

(** A task left alone for [n] sections. *)
Fixpoint solo (n : nat) (t : Task) (s : StoreInner) : Task * StoreInner :=
  match n with
  | O => (t, s)
  | S n' => match section t s with Some (t', s', _) => solo n' t' s' | None => (t, s) end
  end.

(** ** Stores that agree but for their callbacks *)
Definition core (s : StoreInner) : StoreInner := with_callbacks s [] [] [] [].
Definition store_eq : relation StoreInner := fun s s' => core s = core s'.
Infix "≈" := store_eq (at level 70).

#[export] Instance store_eq_equiv : Equivalence store_eq.
Proof. split; unfold store_eq; [done|by intros ?|intros x y z; congruence]. Qed.

Lemma core_eq s : core s ≈ s.
Proof. done. Qed.

Lemma run_op_core op s :
  (run_op op s).1 = (run_op op (core s)).1 ∧ (run_op op s).2 ≈ (run_op op (core s)).2.
Proof.
  destruct op; cbn [run_op fst snd]; try done.
  - unfold pick_event. cbn. by destruct (events s).
  - unfold enqueue_event. cbn. by destruct (_ =? 0).
  - unfold write_area, is_area_locked. cbn. by destruct (bool_decide _).
Qed.

#[export] Instance run_op_proper op : Proper (store_eq ==> prod_relation (=) store_eq) (run_op op).
Proof.
  intros s s' E. destruct (run_op_core op s) as [E1 E2], (run_op_core op s') as [F1 F2].
  rewrite E in E1, E2. split; cbn; [congruence|]. by rewrite E2, F2.
Qed.
#[export] Instance run_ops_proper ops :
  Proper (store_eq ==> prod_relation (=) store_eq) (run_ops ops).
Proof.
  induction ops as [|op ops IH]; intros s s' E; [by split|]. cbn [run_ops].
  pose proof (run_op_proper op s s' E) as [E1 E2].
  destruct (run_op op s) as [o s1], (run_op op s') as [o' s1']. cbn in *.
  destruct (IH s1 s1' E2) as [F1 F2].
  destruct (run_ops ops s1), (run_ops ops s1'). cbn in *. by subst.
Qed.

Lemma take_callbacks_eq c s : (take_callbacks c s).2 ≈ s.
Proof. by destruct c. Qed.
Lemma restore_callbacks_eq c cbs s : restore_callbacks c cbs s ≈ s.
Proof. by destruct c. Qed.

(** ** A method is its sections in a row *)
Definition fire (c : Cause) (s : StoreInner) : StoreInner :=
  let '(cbs, s') := take_callbacks c s in restore_callbacks c cbs s'.
Definition fire_opt (c : option Cause) (s : StoreInner) : StoreInner :=
  match c with Some c => fire c s | None => s end.

Lemma run_op_sections op s :
  run_op op s = ((first_section op s).1.1, fire_opt (first_section op s).2 (first_section op s).1.2).
Proof.
  destruct op; cbn [run_op first_section]; try done.
  unfold write_area. by destruct (is_area_locked area s).
Qed.

Lemma fire_opt_eq c s : fire_opt c s ≈ s.
Proof. by destruct c as [[]|]. Qed.

Lemma first_section_run op s :
  (first_section op s).1.1 = (run_op op s).1 ∧ (first_section op s).1.2 ≈ (run_op op s).2.
Proof. rewrite run_op_sections. cbn. by rewrite fire_opt_eq. Qed.

(** ** Every interleaving is a sequence of calls *)
Lemma section_inv t s t' s' o :
  section t s = Some (t', s', o) →
  (∃ w op k, t = At w ∧ next_op w = Some (op, k) ∧
     t' = after_first (first_section op s).2 (k (first_section op s).1.1) ∧
     s' = (first_section op s).1.2 ∧ o = Some (op, (first_section op s).1.1)) ∨
  o = None ∧ s' ≈ s ∧
  ((∃ c w, t = Taking c w ∧ t' = Restoring c (take_callbacks c s).1 w) ∨
   (∃ c cbs w, t = Restoring c cbs w ∧ t' = At w)).
Proof.
  destruct t as [w|c w|c cbs w]; cbn.
  - destruct (next_op w) as [[op k]|] eqn:E; [|done]. intros H. left. exists w, op, k.
    destruct (first_section op s) as [[out s1] c1]. by injection H as <- <- <-.
  - intros H. right. pose proof (take_callbacks_eq c s) as Hs.
    destruct (take_callbacks c s) as [cbs s1] eqn:E. injection H as <- <- <-.
    split; [done|]. split; [exact Hs|]. left. exists c, w. by rewrite E.
  - intros [= <- <- <-]. right. split; [done|]. split; [apply restore_callbacks_eq|].
    right. by exists c, cbs, w.
Qed.

Lemma run_ops_cons op ops s :
  run_ops (op :: ops) s =
  ((run_op op s).1 :: (run_ops ops (run_op op s).2).1, (run_ops ops (run_op op s).2).2).
Proof. cbn [run_ops]. destruct (run_op op s) as [o s1]. cbn. by destruct (run_ops ops s1). Qed.

Lemma step_run c l c' :
  step c l c' →
  match commit l with
  | Some (i, op, out) => out = (run_op op (shared c)).1 ∧ shared c' ≈ (run_op op (shared c)).2
  | None => shared c' ≈ shared c
  end.
Proof.
  intros [c0 i t t' s' o Ht Hs|c0 i t w Ht Hi Hw|c0]; cbn; try done.
  apply section_inv in Hs as [(w & op & k & _ & _ & _ & -> & ->)|(-> & E & _)]; cbn; [|done].
  apply first_section_run.
Qed.

Lemma exec_run c tr c' :
  exec c tr c' →
  outs_of (commits tr) = (run_ops (ops_of (commits tr)) (shared c)).1 ∧
  shared c' ≈ (run_ops (ops_of (commits tr)) (shared c)).2.
Proof.
  induction 1 as [c|c1 l c2 tr c3 Hs He [IH1 IH2]]; [done|]. apply step_run in Hs.
  unfold commits. cbn [omap list_omap]. destruct (commit l) as [[[i op] out]|]; cbn [outs_of ops_of].
  - cbn [fmap list_fmap ops_of outs_of]. rewrite run_ops_cons. destruct Hs as [-> Hs].
    pose proof (run_ops_proper (ops_of (commits tr)) _ _ Hs) as [E1 E2]. cbn.
    rewrite IH2, E2. split; [|done]. f_equal. exact (eq_trans IH1 E1).
  - pose proof (run_ops_proper (ops_of (commits tr)) _ _ Hs) as [E1 E2].
    rewrite IH2, E2. split; [|done]. exact (eq_trans IH1 E1).
Qed.

(** ** The calls of one task come in the order of its program *)
Definition program (w : Work) : list StoreOp :=
  match w with
  | Reads items _ => read_op <$> items
  | Writes items _ => write_op <$> items
  | Owner ops => ops
  end.
Definition work_of (t : Task) : Work :=
  match t with At w | Taking _ w | Restoring _ _ w => w end.
Definition feed (w : Work) (out : bytes) : Work :=
  match next_op w with Some (_, k) => k out | None => w end.

(** The response to a request whose calls returned [outs]. *)
Definition data_item (d : bytes) : DataItem := {| return_code := 0xFF; item_data := d |}.
Definition response (w : Work) (outs : list bytes) : Z * bytes :=
  match w with
  | Reads _ got => answer (Reads [] (got ++ (data_item <$> outs)))
  | _ => answer w
  end.

Lemma next_op_program w op k out :
  next_op w = Some (op, k) → program w = op :: program (k out) ∧ k out = feed w out.
Proof.
  intros H. unfold feed. rewrite H. split; [|done].
  destruct w as [[|i items]|[|i items]|[|o ops]]; cbn in *; by simplify_eq/=.
Qed.
Lemma program_nil w : next_op w = None → program w = [].
Proof. by destruct w as [[|i items]|[|i items]|[|o ops]]. Qed.
Lemma work_of_after c w : work_of (after_first c w) = w.
Proof. by destruct c. Qed.

Lemma answer_feed outs w :
  length outs = length (program w) → answer (foldl feed w outs) = response w outs.
Proof.
  revert w. induction outs as [|out outs IH]; intros w; cbn.
  - destruct w as [[|i items] got|[|i items]|[|o ops]]; cbn; try done. by rewrite app_nil_r.
  - destruct w as [[|i items] got|[|i items]|[|o ops]]; cbn; intros [= Hl]; try done;
      rewrite IH by done; cbn; try done. by rewrite <- app_assoc.
Qed.

Lemma step_tasks c l c' i t :
  step c l c' → tasks c !! i = Some t → l ≠ Begin i →
  ∃ t', tasks c' !! i = Some t' ∧
    match commit l with
    | Some (j, op, out) => if decide (j = i)
        then program (work_of t) = op :: program (work_of t') ∧ work_of t' = feed (work_of t) out
        else t' = t
    | None => work_of t' = work_of t
    end.
Proof.
  intros Hs Hi Hl. destruct Hs as [c j u u' s' o Hj Hs|c j u w Hj _ _|c]; cbn in *.
  - assert (Hlt := lookup_lt_Some _ _ _ Hj). destruct (decide (j = i)) as [->|Hne].
    + exists u'. rewrite list_lookup_insert_eq by done. split; [done|]. simplify_eq.
      apply section_inv in Hs as [(w & op & k & -> & Hn & -> & _ & ->)|(-> & _ & H)]; cbn.
      * rewrite decide_True, work_of_after by done. by apply next_op_program.
      * by destruct H as [(? & ? & -> & ->)|(? & ? & ? & -> & ->)].
    + exists t. rewrite list_lookup_insert_ne by done. split; [done|].
      destruct o as [[op out]|]; cbn; [by rewrite decide_False|done].
  - exists t. rewrite list_lookup_insert_ne by congruence. done.
  - exists t. split; [by apply lookup_app_l_Some|done].
Qed.

Lemma exec_program i c tr c' t :
  exec c tr c' → Begin i ∉ tr → tasks c !! i = Some t →
  ∃ t', tasks c' !! i = Some t' ∧
    program (work_of t) = ops_of (commits_by i tr) ++ program (work_of t') ∧
    work_of t' = foldl feed (work_of t) (outs_of (commits_by i tr)).
Proof.
  intros He. revert t. induction He as [c|c1 l c2 tr c3 Hs He IH]; intros t Hb Ht; [by exists t|].
  apply not_elem_of_cons in Hb as [Hl Hb].
  destruct (step_tasks _ _ _ _ _ Hs Ht ltac:(congruence)) as (t1 & Ht1 & H).
  destruct (IH t1 Hb Ht1) as (t' & Ht' & E1 & E2). exists t'. split; [done|].
  unfold commits_by, commits in *. cbn [omap list_omap].
  destruct (commit l) as [[[j op] out]|]; [|by rewrite <- H].
  rewrite filter_cons. cbn. destruct (decide (j = i)) as [->|]; [|by subst].
  destruct H as [-> H]. cbn. rewrite <- H. by rewrite E1.
Qed.

(** C3: whatever the connections and the owner of the store do at the same
    time, the server is linearizable call by call.  Take any interleaving of
    critical sections in which task [i] works off a request: its calls on the
    store are exactly the items of the request in their order, its response is
    built from what these calls returned, and what all the calls of all tasks
    returned, and the store they leave (callbacks apart), are those of running
    them one after the other in the order of their locks; on the abstract
    memory as well, for accesses within 32-bit offsets. *)
Theorem requests_linearizable c tr c' i w w' t :
  exec c tr c' → Begin i ∉ tr →
  tasks c !! i = Some (At w) → tasks c' !! i = Some (At w') → next_op w' = None →
  refines (shared c) t →
  ops_of (commits_by i tr) = program w ∧
  answer w' = response w (outs_of (commits_by i tr)) ∧
  (let all := commits tr in
   outs_of all = (run_ops (ops_of all) (shared c)).1 ∧
   shared c' ≈ (run_ops (ops_of all) (shared c)).2 ∧
   (Forall op_in_range (ops_of all) → outs_of all = (spec_ops (ops_of all) t).1)).
Proof.
  intros He Hb Hw Hw' Hn Ht.
  destruct (exec_program i c tr c' _ He Hb Hw) as (t' & Ht' & E1 & E2). simplify_eq.
  cbn [work_of] in *. rewrite (program_nil w' Hn), app_nil_r in E1.
  destruct (exec_run c tr c' He) as [F1 F2]. split_and!; [done| |done|done|].
  - rewrite E2. apply answer_feed. rewrite E1. unfold ops_of, outs_of. by rewrite !length_fmap.
  - intros Hr. rewrite F1. by apply run_ops_refines.
Qed.

(** ** Requests that nobody disturbs *)
Lemma run_reads items s :
  read_items_loop items s =
  (data_item <$> (run_ops (read_op <$> items) s).1, (run_ops (read_op <$> items) s).2).
Proof.
  revert s. induction items as [|i items IH]; intros s; [done|].
  cbn [fmap list_fmap]. rewrite run_ops_cons. cbn [read_items_loop]. unfold read_item.
  change (read_area (to_u8 (area i)) (db_number i) (start i) (item_length i) s)
    with (run_op (read_op i) s).
  destruct (run_op (read_op i) s) as [d s1]. rewrite IH. done.
Qed.
Lemma run_writes items s :
  foldl write_item s items = (run_ops (write_op <$> items) s).2.
Proof.
  revert s. induction items as [|i items IH]; intros s; [done|].
  cbn [fmap list_fmap]. rewrite run_ops_cons. cbn [foldl]. by rewrite IH.
Qed.

(** A request and the function of [Dispatch] that answers it in one go. *)
Inductive request : Work → (StoreInner → res unit (Z * bytes) * StoreInner) → Prop :=
| request_read payload w : begin_read payload = Ok w → request w (handle_read_var payload)
| request_write payload w : begin_write payload = Ok w → request w (handle_write_var payload).

Lemma request_run w h s :
  request w h → h s = (Ok (response w (run_ops (program w) s).1), (run_ops (program w) s).2).
Proof.
  intros [payload w' Hw|payload w' Hw].
  - unfold begin_read, handle_read_var in *. destruct (ReadVarRequest_decode payload) as [[req ?]| |];
      simplify_eq/=. by rewrite run_reads.
  - unfold begin_write, handle_write_var in *. destruct (WriteVarRequest_decode payload) as [[req ?]| |];
      simplify_eq/=. by rewrite run_writes.
Qed.

Lemma length_run_ops ops s : length (run_ops ops s).1 = length ops.
Proof. revert s. induction ops as [|op ops IH]; intros s; [done|]. rewrite run_ops_cons. cbn. by rewrite IH. Qed.

Lemma solo_call n w op k s :
  next_op w = Some (op, k) →
  ∃ m, (n ≤ m)%nat ∧ solo (3 + n) (At w) s = solo m (At (feed w (run_op op s).1)) (run_op op s).2.
Proof.
  intros Hn. rewrite run_op_sections. unfold feed. cbn [solo section Nat.add]. rewrite Hn.
  destruct (first_section op s) as [[out s1] [c|]]; cbn.
  - exists n. split; [done|]. unfold fire. by destruct (take_callbacks c s1).
  - exists (S (S n)). split; [lia|done].
Qed.

Lemma solo_feed n w s :
  (3 * length (program w) ≤ n)%nat →
  solo n (At w) s =
  (At (foldl feed w (run_ops (program w) s).1), (run_ops (program w) s).2).
Proof.
  remember (length (program w)) as len eqn:Hl. revert n w s Hl.
  induction len as [|len IH]; intros n w s Hl Hn.
  - assert (next_op w = None) as E by
      (destruct w as [[|? ?]|[|? ?]|[|? ?]]; done).
    rewrite (program_nil w E). destruct n as [|n]; cbn; [done|]. by rewrite E.
  - destruct (next_op w) as [[op k]|] eqn:E; [|by rewrite (program_nil w E) in Hl].
    destruct (next_op_program w op k (run_op op s).1 E) as [Hp Hk].
    replace n with (3 + (n - 3))%nat by lia.
    destruct (solo_call (n - 3) w op k s E) as (m & Hm & ->).
    rewrite Hp, run_ops_cons in *. cbn [foldl fst snd length] in *.
    rewrite <- Hk. apply IH; [congruence|lia].
Qed.

(** A request whose task runs without interruption is what the handler
    computes at once: after at most three critical sections per item the task
    is done, with the handler's response and exactly the handler's store, the
    callbacks it fired and the lists it restored included. *)
Theorem solo_run w h s :
  request w h →
  ∃ w', solo (3 * length (program w)) (At w) s = (At w', (h s).2) ∧
        next_op w' = None ∧ (h s).1 = Ok (answer w').
Proof.
  intros Hr. rewrite (request_run w h s Hr). cbn [fst snd].
  exists (foldl feed w (run_ops (program w) s).1). rewrite solo_feed by done.
  split; [done|]. rewrite answer_feed by apply length_run_ops. split; [|done].
  clear Hr. generalize (run_ops (program w) s).1, (length_run_ops (program w) s). intros outs.
  revert w. induction outs as [|out outs IH]; intros w Hl; cbn.
  - by destruct w as [[|? ?]|[|? ?]|[|? ?]].
  - apply IH. by destruct w as [[|? ?]|[|? ?]|[|? ?]]; cbn in *; simplify_eq.
Qed.

(** ** Requests of one item *)
Lemma exec_split i op out c tr c' :
  exec c tr c' → commits_by i tr = [(i, op, out)] →
  ∃ tr1 c1 c2 tr2, tr = tr1 ++ Commit i op out :: tr2 ∧
    exec c tr1 c1 ∧ step c1 (Commit i op out) c2 ∧ exec c2 tr2 c'.
Proof.
  unfold commits_by, commits. induction 1 as [c|c1 l c2 tr c3 Hs He IH]; [done|].
  cbn [omap list_omap].
  assert (filter (λ x, x.1.1 = i) (omap commit tr) = [(i, op, out)] →
    ∃ tr1 c4 c5 tr2, l :: tr = tr1 ++ Commit i op out :: tr2 ∧
    exec c1 tr1 c4 ∧ step c4 (Commit i op out) c5 ∧ exec c5 tr2 c3) as Hrest.
  { intros E. destruct (IH E) as (tr1 & c4 & c5 & tr2 & -> & H1 & H2 & H3).
    exists (l :: tr1), c4, c5, tr2. split_and!; [done|by econstructor|done..]. }
  destruct l as [j|j op' out'|j|]; cbn [commit]; try done. rewrite filter_cons. cbn [fst].
  destruct (decide (j = i)) as [->|]; [|done]. intros [= -> -> _].
  exists [], c1, c2, tr. split_and!; try done. constructor.
Qed.

(** A request with a single item is atomic: in every interleaving there is
    a moment between its start and its end at which the handler, run at once
    on the store of that moment, gives its response and makes its change. *)
Theorem single_item_atomic c tr c' i w w' h :
  exec c tr c' → Begin i ∉ tr → request w h → length (program w) = 1%nat →
  tasks c !! i = Some (At w) → tasks c' !! i = Some (At w') → next_op w' = None →
  ∃ tr1 c1 l c2 tr2, tr = tr1 ++ l :: tr2 ∧ exec c tr1 c1 ∧ step c1 l c2 ∧ exec c2 tr2 c' ∧
    (h (shared c1)).1 = Ok (answer w') ∧ shared c2 ≈ (h (shared c1)).2.
Proof.
  intros He Hb Hr Hl Hw Hw' Hn.
  destruct (exec_program i c tr c' _ He Hb Hw) as (t' & Ht' & E1 & E2). simplify_eq.
  cbn [work_of] in *. rewrite (program_nil w' Hn), app_nil_r in E1.
  destruct (program w) as [|op [|]] eqn:Ep; try done.
  destruct (commits_by i tr) as [|[[j op'] out] [|]] eqn:Ec; cbn in E1, E2; simplify_eq.
  assert (j = i) as ->.
  { assert ((j, op', out) ∈ commits_by i tr) as Hin by (rewrite Ec; left).
    by apply list_elem_of_filter in Hin as [? _]. }
  destruct (exec_split i op' out c tr c' He Ec) as (tr1 & c1 & c2 & tr2 & -> & H1 & H2 & H3).
  exists tr1, c1, (Commit i op' out), c2, tr2. split_and!; [done..| |].
  - rewrite (request_run w h _ Hr), Ep. cbn [fst]. rewrite run_ops_cons. cbn [fst run_ops].
    apply step_run in H2 as [-> _]. f_equal. symmetry. apply (answer_feed [_] w). by rewrite Ep.
  - rewrite (request_run w h _ Hr), Ep. cbn [snd]. rewrite run_ops_cons. by apply step_run in H2 as [_ ->].
Qed.

(** ** Requests of several items *)

(** A call changes bytes that a read of the item returns. *)
Definition disturbs (op : StoreOp) (i : AddressItem) : bool :=
  match op with
  | OpWrite a d st bs =>
      bool_decide (a = to_u8 (area i)) && bool_decide (d = db_number i) &&
      (st <? start i + item_length i) && (start i <? st + blen bs)
  | OpUnregister a => bool_decide (a = to_u8 (area i))
  | _ => false
  end.

Lemma run_op_undisturbed op i s :
  op_in_range op → item_in_range i → disturbs op i = false →
  (run_op (read_op i) (run_op op s).2).1 = (run_op (read_op i) s).1.
Proof.
  intros Hop (H1 & H2 & H3) Hd. cbn [run_op read_op]. rewrite !read_area_spec by lia.
  pose proof (run_op_refines op s {| sm := mem_of s; sl := fun a => is_area_locked a s |} Hop
                ltac:(done)) as [_ [Hm _]].
  unfold spec_read. apply list_fmap_ext. intros j o Ho. apply lookup_seqZ in Ho as [-> Hj].
  rewrite (Hm (_, _, _)). destruct op; try done; cbn in *.
  - apply bool_decide_eq_false in Hd. rewrite bool_decide_eq_false_2; [done|congruence].
  - destruct (is_area_locked _ s); [done|]. cbn.
    rewrite bool_decide_eq_false_2; [done|]. intros (<- & <- & Hr).
    rewrite !bool_decide_eq_true_2 in Hd by done. cbn in Hd. apply andb_false_iff in Hd. lia.
Qed.

Lemma step_undisturbed c l c' i :
  step c l c' → item_in_range i →
  match commit l with Some (_, op, _) => op_in_range op ∧ disturbs op i = false | None => True end →
  (run_op (read_op i) (shared c')).1 = (run_op (read_op i) (shared c)).1.
Proof.
  intros Hs Hi H. apply step_run in Hs. destruct (commit l) as [[[j op] out]|].
  - destruct Hs as [_ Hs]. destruct H as [Hr Hd]. rewrite (proj1 (run_op_proper _ _ _ Hs)).
    by apply run_op_undisturbed.
  - by rewrite (proj1 (run_op_proper _ _ _ Hs)).
Qed.

Lemma read_op_undisturbing i j : item_in_range i → op_in_range (read_op i) ∧ disturbs (read_op i) j = false.
Proof. done. Qed.

Lemma reads_prefix items ops rest s s' :
  read_op <$> items = ops ++ rest →
  (∀ it, it ∈ items → (run_op (read_op it) s').1 = (run_op (read_op it) s).1) →
  ((fun op => (run_op op s').1) <$> ops) = (fun op => (run_op op s).1) <$> ops.
Proof.
  intros E H. apply list_fmap_ext. intros n op Hop.
  assert (op ∈ read_op <$> items) as (it & -> & Hit)%list_elem_of_fmap; [|by apply H].
  rewrite E. apply elem_of_app. left. by eapply list_elem_of_lookup_2.
Qed.

(** The calls a reading task makes while the others leave its items alone
    return what the store held at the start. *)
Lemma exec_undisturbed i items c tr c' got :
  exec c tr c' → Begin i ∉ tr → Forall item_in_range items →
  (∃ t, tasks c !! i = Some t ∧ work_of t = Reads items got) →
  Forall (fun '(j, op, _) => j ≠ i →
    op_in_range op ∧ Forall (fun it => disturbs op it = false) items) (commits tr) →
  outs_of (commits_by i tr) = (fun op => (run_op op (shared c)).1) <$> ops_of (commits_by i tr).
Proof.
  intros He. revert items got.
  induction He as [c|c1 l c2 tr c3 Hs He IH]; intros items got Hb Hi (t & Ht & Hw) Hd; [done|].
  apply not_elem_of_cons in Hb as [Hl Hb].
  destruct (step_tasks _ _ _ _ _ Hs Ht ltac:(congruence)) as (t1 & Ht1 & H1).
  destruct (exec_program i c2 tr c3 t1 He Hb Ht1) as (t3 & _ & Hp & _).
  pose proof (step_undisturbed c1 l c2) as Hstep. pose proof (step_run _ _ _ Hs) as Hout.
  unfold commits_by, commits in *. cbn [omap list_omap] in *.
  destruct (commit l) as [[[j op] out]|].
  - apply Forall_cons in Hd as [Hd0 Hd]. rewrite filter_cons. cbn [fst].
    destruct (decide (j = i)) as [->|Hne].
    + destruct H1 as [E1 E2]. rewrite Hw in E1, E2.
      destruct items as [|it items]; [done|]. cbn in E1, E2. simplify_eq.
      rewrite E2 in Hp. apply Forall_cons in Hi as [Hit Hi].
      cbn [outs_of ops_of fmap list_fmap fst snd]. f_equal; [apply Hout|].
      etrans; [eapply (IH items _ Hb Hi); [by eauto|]|].
      * eapply Forall_impl; [exact Hd|]. intros [[j op] o] Hj Hne.
        destruct (Hj Hne) as [? [_ ?]%Forall_cons]. done.
      * rewrite Forall_forall in Hi. eapply reads_prefix; [exact Hp|]. auto.
    + subst t1. etrans; [eapply (IH items _ Hb Hi); [by eauto|done]|].
      destruct (Hd0 Hne) as [Hop Hf]. rewrite Hw in Hp. rewrite Forall_forall in Hi, Hf.
      eapply reads_prefix; [exact Hp|]. auto.
  - rewrite Hw in H1. etrans; [apply (IH items got Hb Hi); [by eauto|done]|].
    rewrite H1 in Hp. rewrite Forall_forall in Hi. eapply reads_prefix; [exact Hp|]. auto.
Qed.

(** C15: a read request of several items is atomic as long as the other tasks
    leave its items alone: if the items and the accesses of the other tasks lie
    within 32-bit offsets, and no write and no unregistration committed by
    another task during the request touches a byte it reads, its response is
    the one the handler gives on the store of its start, whatever else happens
    in between. *)
Theorem undisturbed_read_atomic c tr c' i payload items w' :
  exec c tr c' → Begin i ∉ tr → begin_read payload = Ok (Reads items []) →
  tasks c !! i = Some (At (Reads items [])) → tasks c' !! i = Some (At w') → next_op w' = None →
  Forall item_in_range items →
  Forall (fun '(j, op, _) => j ≠ i →
    op_in_range op ∧ Forall (fun it => disturbs op it = false) items) (commits tr) →
  (handle_read_var payload (shared c)).1 = Ok (answer w').
Proof.
  intros He Hb Hp Hw Hw' Hn Hi Hd.
  destruct (exec_program i c tr c' _ He Hb Hw) as (t' & Ht' & E1 & E2). simplify_eq.
  cbn [work_of program] in *. rewrite (program_nil w' Hn), app_nil_r in E1.
  rewrite (request_run _ _ _ (request_read _ _ Hp)). cbn [fst]. f_equal.
  rewrite E2, answer_feed by (cbn; rewrite E1; unfold ops_of, outs_of; by rewrite !length_fmap).
  rewrite (exec_undisturbed i items c tr c' []); [|done..|by eexists|done]. f_equal.
  rewrite <- E1. cbn [program].
  assert (∀ s, s ≈ shared c → (run_ops (read_op <$> items) s).1 =
            (λ op, (run_op op (shared c)).1) <$> (read_op <$> items)) as H; [|by apply H].
  clear. induction items as [|it items IH]; intros s Hs; [done|]. cbn [fmap list_fmap].
  rewrite run_ops_cons. cbn [fst]. f_equal; [apply (run_op_proper (read_op it) _ _ Hs)|].
  apply IH. exact Hs.
Qed.

(** ** Running a schedule *)
Fixpoint schedule (order : list nat) (c : Config) : list Label * Config :=
  match order with
  | [] => ([], c)
  | i :: order' =>
      match tasks c !! i with
      | Some t =>
          match section t (shared c) with
          | Some (t', s', o) =>
              let '(tr, c') := schedule order' {| tasks := <[i := t']> (tasks c); shared := s' |} in
              (label i o :: tr, c')
          | None => schedule order' c
          end
      | None => schedule order' c
      end
  end.

Lemma schedule_exec order c : exec c (schedule order c).1 (schedule order c).2.
Proof.
  revert c. induction order as [|i order IH]; intros c; cbn [schedule]; [constructor|].
  destruct (tasks c !! i) as [t|] eqn:Et; [|apply IH].
  destruct (section t (shared c)) as [[[t' s'] o]|] eqn:Es; [|apply IH].
  specialize (IH {| tasks := <[i:=t']> (tasks c); shared := s' |}).
  destruct (schedule order _) as [tr c']. cbn. econstructor; [by econstructor|exact IH].
Qed.

(** Two bytes far apart in a data block, read and written by one request each. *)
Definition far_item (at_ : Z) : AddressItem :=
  {| area := DataBlock; db_number := 1; start := at_; bit_offset := 0; item_length := 1;
     transport := Byte |}.
Definition far_read : bytes :=
  ReadVarRequest_encode {| read_items := [far_item 0; far_item 100] |}.
Definition far_write : bytes :=
  WriteVarRequest_encode {| write_items := [{| address := far_item 0; write_data := [1] |};
                                            {| address := far_item 100; write_data := [1] |}] |}.

(** Requests of several items are not atomic: a client that writes two
    items with one request and a client that reads both with one request can
    run so that the reader sees the first item as it was before the write and
    the second as it is after it, a response that neither the store before nor
    the store after the write gives. *)
Theorem multi_item_read_torn :
  ∃ w1 w2 tr c' w',
    begin_read far_read = Ok w1 ∧ begin_write far_write = Ok w2 ∧
    exec {| tasks := [At w1; At w2]; shared := DataStore_new |} tr c' ∧
    tasks c' = [At w'; At (Writes [] 2)] ∧ next_op w' = None ∧
    (handle_read_var far_read DataStore_new).1 ≠ Ok (answer w') ∧
    (handle_read_var far_read (handle_write_var far_write DataStore_new).2).1 ≠ Ok (answer w').
Proof.
  exists (Reads [far_item 0; far_item 100] []).
  exists (Writes [{| address := far_item 0; write_data := [1] |};
                  {| address := far_item 100; write_data := [1] |}] 2).
  set (c := {| tasks := _; shared := _ |}). set (order := [0; 1; 1; 1; 1; 1; 1; 0; 0; 0; 0; 0]%nat).
  exists (schedule order c).1, (schedule order c).2, (Reads [] [data_item [0]; data_item [1]]).
  split; [vm_compute; reflexivity|]. split; [vm_compute; reflexivity|].
  split; [apply schedule_exec|]. split; [vm_compute; reflexivity|]. split; [reflexivity|].
  split; vm_compute; discriminate.
Qed.

(** Overlapping requests can lose every read callback for good: two
    connections that read one item each, and nothing else happens; when both
    are done, no read callback is installed any more, although nothing
    unregisters a callback. *)
Theorem callbacks_lost_by_concurrent_reads cb :
  let w := Reads [far_item 0] [] in
  let s := on_read cb DataStore_new in
  ∃ tr c', exec {| tasks := [At w; At w]; shared := s |} tr c' ∧
    forallb idle (tasks c') = true ∧ read_callbacks s = [cb] ∧ read_callbacks (shared c') = [].
Proof.
  intros w s. set (c := {| tasks := _; shared := _ |}). set (order := [0; 1; 0; 1; 0; 1]%nat).
  exists (schedule order c).1, (schedule order c).2. split; [apply schedule_exec|].
  split; [vm_compute; reflexivity|]. split; reflexivity.
Qed.

(** ** Examples *)
Ltac not_begun := let H := fresh in intros H; vm_compute in H;
  repeat (apply elem_of_cons in H as [H|H]; [discriminate|]); by apply elem_of_nil in H.

(** A reader of the two bytes against a writer of the byte between them. *)
Definition near_item : AddressItem := far_item 50.
Definition near_write : bytes :=
  WriteVarRequest_encode {| write_items := [{| address := near_item; write_data := [7] |}] |}.
Definition example_config : Config :=
  {| tasks := [At (Reads [far_item 0; far_item 100] []);
               At (Writes [{| address := near_item; write_data := [7] |}] 1)];
     shared := write_area 132 1 100 [9] DataStore_new |}.
Definition example_order : list nat := [0; 1; 0; 1; 0; 1; 0; 0; 0]%nat.

Lemma example_exec :
  exec example_config (schedule example_order example_config).1
    (schedule example_order example_config).2.
Proof. apply schedule_exec. Qed.

Lemma requests_linearizable_witness :
  answer (Reads [] [data_item [0]; data_item [9]]) =
  response (Reads [far_item 0; far_item 100] [])
    (outs_of (commits_by 0 (schedule example_order example_config).1)).
Proof.
  refine (proj1 (proj2 (requests_linearizable _ _ _ 0 _ _
    {| sm := mem_of (shared example_config); sl := fun a => is_area_locked a (shared example_config) |}
    example_exec _ _ _ _ _))); try reflexivity; [not_begun|done].
Defined.

Lemma solo_run_witness :
  ∃ w', solo 6 (At (Reads [far_item 0; far_item 100] [])) DataStore_new =
        (At w', (handle_read_var far_read DataStore_new).2) ∧
        next_op w' = None ∧ (handle_read_var far_read DataStore_new).1 = Ok (answer w').
Proof.
  apply (solo_run (Reads [far_item 0; far_item 100] []) (handle_read_var far_read)).
  apply request_read. vm_compute. reflexivity.
Defined.

Lemma single_item_atomic_witness :
  ∃ tr1 c1 l c2 tr2, (schedule example_order example_config).1 = tr1 ++ l :: tr2 ∧
    exec example_config tr1 c1 ∧ step c1 l c2 ∧
    exec c2 tr2 (schedule example_order example_config).2 ∧
    (handle_write_var near_write (shared c1)).1 = Ok (1, [0xFF]) ∧
    shared c2 ≈ (handle_write_var near_write (shared c1)).2.
Proof.
  refine (single_item_atomic example_config _ _ 1
            (Writes [{| address := near_item; write_data := [7] |}] 1) (Writes [] 1)
            (handle_write_var near_write) example_exec _ _ _ _ _ _); try reflexivity; [not_begun|].
  apply request_write. vm_compute. reflexivity.
Defined.

Lemma undisturbed_read_atomic_witness :
  (handle_read_var far_read (shared example_config)).1 =
  Ok (answer (Reads [] [data_item [0]; data_item [9]])).
Proof.
  refine (undisturbed_read_atomic example_config _ _ 0 far_read [far_item 0; far_item 100] _
            example_exec _ _ _ _ _ _ _); try reflexivity; [not_begun| |].
  - repeat constructor; unfold U32_MAX; cbn; lia.
  - replace (commits _) with [(0%nat, read_op (far_item 0), [0]);
      (1%nat, write_op {| address := near_item; write_data := [7] |}, []);
      (0%nat, read_op (far_item 100), [9])] by (vm_compute; reflexivity).
    apply Forall_cons; split; [done|]. apply Forall_cons; split; [|by apply Forall_singleton].
    intros _. split; [split; vm_compute; discriminate|]. by repeat constructor.
Defined.

(** ** Values that are written whole *)
Lemma run_op_write_item i bs s :
  item_in_range i → blen bs = item_length i →
  (run_op (read_op i)
     (run_op (OpWrite (to_u8 (area i)) (db_number i) (start i) bs) s).2).1 = bs ∨
  is_area_locked (to_u8 (area i)) s = true.
Proof.
  intros (H1 & H2 & H3) Hl. destruct (is_area_locked (to_u8 (area i)) s) eqn:El; [by right|left].
  unfold U32_MAX in H3. cbn [run_op read_op snd]. rewrite read_area_spec by (unfold U32_MAX; lia).
  rewrite mem_of_write_area by (done || lia). rewrite <- Hl. apply spec_read_write.
Qed.

(** The bytes that the last of some calls to write an item gave it, if each
    that touches it writes it whole. *)
Definition latest (i : AddressItem) (bs : bytes) (cs : list (nat * StoreOp * bytes)) : bytes :=
  foldl (fun bs '(_, op, _) =>
    match op with OpWrite _ _ _ new => if disturbs op i then new else bs | _ => bs end) bs cs.

(** Reads, writes that do not touch the item, and writes of the whole of it. *)
Definition whole_for (i : AddressItem) (op : StoreOp) : Prop :=
  op_in_range op ∧
  match op with
  | OpRead _ _ _ _ => True
  | OpWrite a d st bs =>
      disturbs op i = false ∨
      a = to_u8 (area i) ∧ d = db_number i ∧ st = start i ∧ blen bs = item_length i
  | _ => False
  end.

Lemma locked_proper a s s' : s ≈ s' → is_area_locked a s = is_area_locked a s'.
Proof. intros E. apply (f_equal (is_area_locked a)) in E. exact E. Qed.

Lemma whole_for_run i op s :
  item_in_range i → whole_for i op → is_area_locked (to_u8 (area i)) s = false →
  (run_op (read_op i) (run_op op s).2).1 = latest i (run_op (read_op i) s).1 [(0%nat, op, [])] ∧
  is_area_locked (to_u8 (area i)) (run_op op s).2 = false.
Proof.
  intros Hi [Hr Hop] Hl.
  destruct op as [| | | | | | | | | | | |a d st n|a d st bs| | |]; try done.
  cbn [latest foldl]. split.
  - destruct (disturbs (OpWrite a d st bs) i) eqn:Hd; [|by apply run_op_undisturbed].
    destruct Hop as [?|(-> & -> & -> & Hlen)]; [congruence|].
    destruct (run_op_write_item i bs s Hi Hlen) as [E|E]; [exact E|congruence].
  - cbn [run_op snd]. unfold write_area. by destruct (is_area_locked a s).
Qed.

(** In every interleaving of such calls a read of the item returns the bytes of
    the last write of it before the read, or those it had at the beginning. *)
Lemma exec_latest i c tr c' :
  exec c tr c' → item_in_range i →
  is_area_locked (to_u8 (area i)) (shared c) = false →
  Forall (fun x => whole_for i x.1.2) (commits tr) →
  ∀ pre j out post, commits tr = pre ++ (j, read_op i, out) :: post →
  out = latest i (run_op (read_op i) (shared c)).1 pre.
Proof.
  intros He Hi. induction He as [c|c1 l c2 tr c3 Hs He IH]; intros Hl Hc pre j out post E;
    [by destruct pre|].
  apply step_run in Hs. unfold commits in *. cbn [omap list_omap] in *.
  destruct (commit l) as [[[k op] o]|].
  - destruct Hs as [-> Hs]. apply Forall_cons in Hc as [Hop Hc].
    destruct pre as [|x pre]; [by injection E as <- -> <- _|]. injection E as <- E.
    destruct (whole_for_run i op (shared c1) Hi Hop Hl) as [H1 H2].
    rewrite (IH ltac:(by rewrite (locked_proper _ _ _ Hs)) Hc pre j out post E).
    by rewrite (proj1 (run_op_proper _ _ _ Hs)), H1.
  - rewrite (IH ltac:(by rewrite (locked_proper _ _ _ Hs)) Hc pre j out post E).
    by rewrite (proj1 (run_op_proper _ _ _ Hs)).
Qed.
