(* ===== verification/AcceptLoop.v ===== *)
(** * The accept loop of the server (snap7-server, server.rs)

    [serve] takes a permit, accepts a connection and spawns a task for it; the
    task counts itself in the store, runs the handshake and the dispatch loop,
    and counts itself out; its permit returns when it ends.  A step is a
    stretch of one task between two points where another can run: a connection
    is a [Pipe] with all its peer will ever send, and serves one request per
    step.  What happens after those bytes is the [Peer]'s choice: it closes, and
    the next read ends with [UnexpectedEof], or it stays open and silent, and a
    task that needs more bytes has no step.  Sending does not wait: a peer reads
    what it is sent.
    The store is shared: the steps of all tasks act on one [StoreInner].  A
    request is one step here; [Concurrent] opens it into its critical sections. *)

From stdpp Require Import relations gmap.
From S2P Require Import Prelude Wire Io Tpkt S7Header ReadVar WriteVar Store ServerHandshake Dispatch.
Local Open Scope Z_scope.

(** ** The listener and its connections *)
Record ServerConfig := { max_connections : nat }.

(** The other end of a connection: whether it closes when it has sent all its
    bytes, and what [set_nodelay] gives on its socket. *)
Record Peer := { closes : bool; nodelay : res IoError unit }.

(** A spawned task, by how far it has come; one that has left [serve_one]
    keeps what it had sent. *)
Inductive Conn :=
| Accepted (w : Peer) (p : Pipe)       (* spawned, not yet counted *)
| Handshaking (w : Peer) (p : Pipe)    (* counted, in [serve_one] *)
| Dispatching (w : Peer) (p : Pipe) (pdu_size : Z)
| Leaving (sent : bytes)               (* [serve_one] has returned *)
| Uncounted (sent : bytes)             (* counted out, permit still held *)
| Closed (sent : bytes)
| Crashed.                             (* unwound: permit dropped, never counted out *)

(** Where [serve] stands. *)
Inductive Acceptor :=
| Acquiring                 (* awaiting a permit *)
| Accepting                 (* holds one, awaiting a connection *)
| Failed (e : IoError).     (* returned the error of [accept] *)

Record S7Server := {
  semaphore : nat;
  acceptor : Acceptor;
  conns : list Conn;
  store : StoreInner;
}.

(** [S7Server::bind] with [Semaphore::new(max_connections)], then [serve]. *)
Definition S7Server_serve (config : ServerConfig) (s : StoreInner) : S7Server :=
  {| semaphore := max_connections config; acceptor := Acquiring; conns := []; store := s |}.

(** [S7Server::bind] as far as the socket: [listen] is what binding an address
    gives; [start_to] parses the address first, and serves later. *)
Definition S7Server_bind {Addr} (listen : Addr → res IoError unit) (bind_addr : Addr)
    (config : ServerConfig) (s : StoreInner) : res Server.Error S7Server :=
  let? _ := res_map_err Server.Io (listen bind_addr) in
  Ok (S7Server_serve config s).
Definition S7Server_start_to {Addr} (parse : bytes → option Addr) (listen : Addr → res IoError unit)
    (addr : bytes) (max_connections : nat) (s : StoreInner) : res Server.Error S7Server :=
  match parse addr with
  | None => Err (Server.Io InvalidInput)
  | Some bind_addr => S7Server_bind listen bind_addr {| max_connections := max_connections |} s
  end.

Definition with_conn (sv : S7Server) (i : nat) (c : Conn) (s : StoreInner) : S7Server :=
  {| semaphore := semaphore sv; acceptor := acceptor sv; conns := <[i := c]> (conns sv); store := s |}.
Definition with_semaphore (sv : S7Server) (n : nat) : S7Server :=
  {| semaphore := n; acceptor := acceptor sv; conns := conns sv; store := store sv |}.
Definition with_acceptor (sv : S7Server) (a : Acceptor) : S7Server :=
  {| semaphore := semaphore sv; acceptor := a; conns := conns sv; store := store sv |}.

(** A task that unwinds drops its permit. *)
Definition crashed_permits (c : Conn) : nat := match c with Crashed => 1 | _ => 0 end.
Definition finish (sv : S7Server) (i : nat) (c : Conn) (s : StoreInner) : S7Server :=
  let sv' := with_conn sv i c s in with_semaphore sv' (crashed_permits c + semaphore sv').

(** The parts of [serve_one]: [set_nodelay] and the handshake, then a turn of
    the dispatch loop. *)
Definition serve_handshake (w : Peer) (p : Pipe) : Conn :=
  match nodelay w with
  | Ok _ =>
      match server_handshake p with
      | (Ok pdu_size, p') => Dispatching w p' pdu_size
      | (Err _, p') => Leaving (tx p')
      | (Panic, _) => Crashed
      end
  | Err _ => Leaving (tx p)
  | Panic => Crashed
  end.
Definition serve_turn (w : Peer) (p : Pipe) (pdu_size : Z) (s : StoreInner) : Conn * StoreInner :=
  match dispatch_turn (p, s) with
  | (inr _, (p', s')) => (Dispatching w p' pdu_size, s')
  | (inl Panic, (_, s')) => (Crashed, s')
  | (inl _, (p', s')) => (Leaving (tx p'), s')
  end.

(** A task that needs bytes its peer will not send, on a connection the peer
    keeps open: neither [handshake] nor [dispatch_loop] has a timeout. *)
Definition starved {A} (r : res Server.Error A) : bool :=
  match r with Err (Server.Io UnexpectedEof) => true | _ => false end.
Definition conn_waits (c : Conn) : bool :=
  match c with
  | Handshaking w p =>
      negb (closes w) && match nodelay w with Ok _ => starved (server_handshake p).1 | _ => false end
  | Dispatching w p _ => negb (closes w) && starved (recv_cotp_data p).1
  | _ => false
  end.

(** The steps of the spawned tasks. *)
Inductive conn_step : S7Server → S7Server → Prop :=
| step_connected sv i w p :
    conns sv !! i = Some (Accepted w p) →
    conn_step sv (with_conn sv i (Handshaking w p) (client_connected (store sv)))
| step_handshake sv i w p :
    conns sv !! i = Some (Handshaking w p) → conn_waits (Handshaking w p) = false →
    conn_step sv (finish sv i (serve_handshake w p) (store sv))
| step_dispatch sv i w p n :
    conns sv !! i = Some (Dispatching w p n) → conn_waits (Dispatching w p n) = false →
    conn_step sv (finish sv i (serve_turn w p n (store sv)).1 (serve_turn w p n (store sv)).2)
| step_disconnected sv i sent :
    conns sv !! i = Some (Leaving sent) →
    conn_step sv (with_conn sv i (Uncounted sent) (client_disconnected (store sv)))
| step_release sv i sent :
    conns sv !! i = Some (Uncounted sent) →
    conn_step sv (with_semaphore (with_conn sv i (Closed sent) (store sv)) (S (semaphore sv))).

(** The operations of the management API; the counter is the server's own. *)
Definition api_op (op : StoreOp) : Prop :=
  match op with OpConnected | OpDisconnected => False | _ => op_wf op end.

(** The steps of the loop in [serve], and of the owner of the store. *)
Inductive serve_step : S7Server → S7Server → Prop :=
| step_acquire sv n :
    acceptor sv = Acquiring → semaphore sv = S n →
    serve_step sv (with_acceptor (with_semaphore sv n) Accepting)
| step_accept sv w p :
    acceptor sv = Accepting → wf_bytes (rx p) → nodelay w ≠ Panic →
    serve_step sv {| semaphore := semaphore sv; acceptor := Acquiring;
                     conns := conns sv ++ [Accepted w p]; store := store sv |}
| step_accept_error sv e :
    acceptor sv = Accepting →
    serve_step sv (with_acceptor (with_semaphore sv (S (semaphore sv))) (Failed e))
| step_api sv op :
    api_op op →
    serve_step sv {| semaphore := semaphore sv; acceptor := acceptor sv; conns := conns sv;
                     store := (run_op op (store sv)).2 |}.

Definition server_step (sv sv' : S7Server) : Prop := serve_step sv sv' ∨ conn_step sv sv'.

(** ** Requests leave the counter alone *)
Definition keeps_count {T A} (m : @Srv T A) : Prop :=
  ∀ t s, client_count (m (t, s)).2.2 = client_count s.

Lemma keeps_count_bind {T A B} (m : @Srv T A) (k : A → @Srv T B) :
  keeps_count m → (∀ a, keeps_count (k a)) → keeps_count (io_bind m k).
Proof.
  intros Hm Hk t s. specialize (Hm t s). unfold io_bind.
  destruct (m (t, s)) as [[a|e|] [t' s']]; cbn in *; try done. by rewrite Hk.
Qed.
Lemma keeps_count_lift {T A} (r : res Server.Error A) : keeps_count (@io_lift (T * StoreInner) _ A r).
Proof. done. Qed.
Lemma keeps_count_transport {T A} (m : IO T Server.Error A) : keeps_count (on_transport m).
Proof. intros t s. unfold on_transport. by destruct (m t). Qed.
Lemma keeps_count_store {T A} (f : StoreInner → A * StoreInner) :
  (∀ s, client_count (f s).2 = client_count s) → keeps_count (T := T) (on_store f).
Proof. intros Hf t s. unfold on_store. specialize (Hf s). by destruct (f s). Qed.

Lemma read_items_loop_count items s :
  client_count (read_items_loop items s).2 = client_count s.
Proof.
  revert s. induction items as [|i items IH]; intros s; [done|].
  cbn [read_items_loop]. destruct (read_item i s) as [d s1] eqn:E.
  specialize (IH s1). destruct (read_items_loop items s1) as [ds s2]. cbn in *.
  rewrite IH. unfold read_item in E. by injection E as _ <-.
Qed.
Lemma write_item_count s i : client_count (write_item s i) = client_count s.
Proof. unfold write_item, write_area. by destruct (is_area_locked _ s). Qed.
Lemma write_items_count items s : client_count (foldl write_item s items) = client_count s.
Proof.
  revert s. induction items as [|i items IH]; intros s; [done|]. cbn. by rewrite IH, write_item_count.
Qed.
Lemma handle_read_count payload s : client_count (handle_read_var payload s).2 = client_count s.
Proof.
  unfold handle_read_var. destruct (ReadVarRequest_decode payload) as [[req ?]| |]; [|done..].
  pose proof (read_items_loop_count (ReadVar.read_items req) s) as H.
  by destruct (read_items_loop _ s).
Qed.
Lemma handle_write_count payload s : client_count (handle_write_var payload s).2 = client_count s.
Proof.
  unfold handle_write_var. destruct (WriteVar.WriteVarRequest_decode payload) as [[req ?]| |]; [|done..].
  apply write_items_count.
Qed.

Lemma answer_var_count {T} `{Transport T} ref func r : keeps_count (answer_var ref func r).
Proof. destruct r as [[]| |]; [apply keeps_count_transport..|done]. Qed.

Create HintDb count.
#[export] Hint Resolve keeps_count_lift keeps_count_transport handle_read_count handle_write_count : count.
#[export] Hint Extern 1 (keeps_count (on_store _)) => apply keeps_count_store; intros : count.

Lemma handle_user_data_count {T} `{Transport T} ref payload :
  keeps_count (handle_user_data ref payload).
Proof.
  unfold handle_user_data, handle_clock_user_data, handle_szl_user_data. cbv zeta.
  destruct (Z.land _ _ =? 7).
  - destruct (_ =? 2); apply keeps_count_bind; auto with count.
    + case_match; [case_match|]; auto with count; done.
    + intros a. repeat case_match; auto with count.
  - apply keeps_count_bind; auto with count. repeat case_match; auto with count; done.
Qed.

Lemma dispatch_request_count {T} `{Transport T} payload : keeps_count (dispatch_request payload).
Proof.
  unfold dispatch_request. destruct (S7Header_decode payload) as [[h p]| |]; auto with count;
    [|apply keeps_count_transport].
  case_match; [apply keeps_count_transport|]. case_match; try apply keeps_count_transport.
  - unfold dispatch_job. destruct p as [|func p]; [auto with count|].
    repeat (case_match; [try apply keeps_count_transport|]); try apply keeps_count_transport;
      (apply keeps_count_bind; [auto with count|intros; apply answer_var_count]).
  - case_match; [apply handle_user_data_count|apply keeps_count_transport].
Qed.

Lemma dispatch_turn_count {T} `{Transport T} t s :
  client_count (dispatch_turn (t, s)).2.2 = client_count s.
Proof.
  unfold dispatch_turn. pose proof (keeps_count_transport recv_cotp_data t s) as H1.
  destruct (on_transport recv_cotp_data (t, s)) as [[payload|e|] [t1 s1]]; cbn in *; try done.
  pose proof (dispatch_request_count payload t1 s1) as H2.
  destruct (dispatch_request payload (t1, s1)) as [[u|e|] [t2 s2]]; cbn in *; congruence.
Qed.

(** ** Invariants *)
Definition conn_permit (c : Conn) : list unit :=
  match c with Closed _ | Crashed => [] | _ => [tt] end.
Definition conn_counted (c : Conn) : list unit :=
  match c with Handshaking _ _ | Dispatching _ _ _ | Leaving _ => [tt] | _ => [] end.
Definition acceptor_permit (a : Acceptor) : nat := match a with Accepting => 1 | _ => 0 end.

Definition permits_out (sv : S7Server) : nat := length (conns sv ≫= conn_permit).
Definition counted (sv : S7Server) : nat := length (conns sv ≫= conn_counted).

(** A task that is alive and whose peer sends bytes. *)
Definition conn_ok (c : Conn) : Prop :=
  match c with
  | Accepted w p | Handshaking w p => wf_bytes (rx p) ∧ nodelay w ≠ Panic
  | Dispatching _ p _ => wf_bytes (rx p)
  | Crashed => False
  | _ => True
  end.

Definition server_inv (max : nat) (sv : S7Server) : Prop :=
  (semaphore sv + acceptor_permit (acceptor sv) + permits_out sv = max)%nat ∧
  client_count (store sv) = Z.of_nat (counted sv) ∧
  store_wf (store sv) ∧ Forall conn_ok (conns sv).

(** The handshake consumes a prefix of the input. *)
Definition io_suffix {E A} (m : IO Pipe E A) : Prop := ∀ p, ∃ pre, rx p = pre ++ rx (m p).2.

Lemma io_suffix_reads {E A} (m : IO Pipe E A) : io_reads m → io_suffix m.
Proof. intros Hm p. apply Hm. Qed.
Lemma io_suffix_bind {E A B} (m : IO Pipe E A) (k : A → IO Pipe E B) :
  io_suffix m → (∀ a, io_suffix (k a)) → io_suffix (io_bind m k).
Proof.
  intros Hm Hk p. destruct (Hm p) as [pre H1]. unfold io_bind.
  destruct (m p) as [[a|e|] t]; cbn in *; [|by eauto..].
  destruct (Hk a t) as [pre' H2]. exists (pre ++ pre'). by rewrite <- (assoc_L (++)), <- H2.
Qed.
Lemma io_suffix_send pdu : io_suffix (send_tpkt_cotp pdu).
Proof.
  intros p. exists []. unfold send_tpkt_cotp, io_bind, io_lift. by destruct (TpktFrame_encode _).
Qed.

Lemma server_handshake_suffix : io_suffix server_handshake.
Proof.
  apply io_suffix_bind; [apply io_suffix_reads, recv_tpkt_cotp_reads|].
  intros [| | |]; try (apply io_suffix_reads, io_reads_lift).
  apply io_suffix_bind; [apply io_suffix_send|]. intros _.
  apply io_suffix_bind; [apply io_suffix_reads, recv_cotp_data_reads|]. intros payload.
  apply io_suffix_bind; [apply io_suffix_reads, io_reads_lift|]. intros [h payload'].
  destruct (negb _); [apply io_suffix_reads, io_reads_lift|].
  apply io_suffix_bind; [apply io_suffix_reads, io_reads_lift|]. intros [r ?].
  apply io_suffix_bind; [apply io_suffix_send|]. intros _. apply io_suffix_reads, io_reads_lift.
Qed.

Lemma serve_handshake_ok w p :
  conn_ok (Handshaking w p) →
  conn_ok (serve_handshake w p) ∧ conn_counted (serve_handshake w p) = [tt].
Proof.
  intros [Hp Hn]. unfold serve_handshake. destruct (nodelay w) as [[]|e|]; [|done..].
  destruct (server_handshake_safe p) as [Hs _]. destruct (server_handshake_suffix p) as [pre Hr].
  destruct (server_handshake p) as [[n|e|] p']; cbn in *; [|done..].
  rewrite Hr in Hp. by wf_inv.
Qed.

Lemma serve_turn_ok w p n s :
  wf_bytes (rx p) → store_wf s →
  conn_ok (serve_turn w p n s).1 ∧ conn_counted (serve_turn w p n s).1 = [tt] ∧
  store_wf (serve_turn w p n s).2 ∧ client_count (serve_turn w p n s).2 = client_count s.
Proof.
  intros Hp Hs. pose proof (dispatch_turn_count p s) as Hc. unfold serve_turn.
  destruct (dispatch_turn_spec p s Hp Hs) as (c & p' & s' & E & Hs' & Hp' & Ht).
  rewrite E in Hc |- *. destruct Ht as [[-> _]|(r & -> & Hr)]; [done|]. by destruct r.
Qed.

Lemma api_op_count op s : api_op op → client_count (run_op op s).2 = client_count s.
Proof.
  destruct op; cbn; try done; intros _.
  - unfold pick_event. by destruct (events s).
  - unfold enqueue_event. by repeat case_match.
  - unfold write_area. by destruct (is_area_locked _ s).
Qed.

(** A task that moves on with its permit and its count. *)
Lemma server_inv_conn max sv i c c' s' :
  conns sv !! i = Some c → server_inv max sv → conn_ok c' → store_wf s' →
  conn_permit c' = conn_permit c →
  client_count s' + Z.of_nat (length (conn_counted c)) =
    client_count (store sv) + Z.of_nat (length (conn_counted c')) →
  server_inv max (with_conn sv i c' s').
Proof.
  intros Hi (Hp & Hc & Hw & Hok) Hc' Hs' Hperm Hcount.
  pose proof (length_bind_insert conn_permit (conns sv) i c c' Hi) as H1.
  pose proof (length_bind_insert conn_counted (conns sv) i c c' Hi) as H2.
  rewrite Hperm in H1. unfold server_inv, permits_out, counted in *. cbn.
  split_and!; [lia|lia|done|]. by apply Forall_insert.
Qed.

Lemma finish_ok sv i c s : conn_ok c → finish sv i c s = with_conn sv i c s.
Proof. destruct c; done. Qed.

Lemma conn_step_inv max sv sv' : conn_step sv sv' → server_inv max sv → server_inv max sv'.
Proof.
  intros Hs Hinv. pose proof Hinv as (Hp & Hc & Hw & Hok).
  destruct Hs as [sv i w p Hi|sv i w p Hi _|sv i w p n Hi _|sv i sent Hi|sv i sent Hi];
    pose proof (Forall_lookup_1 _ _ _ _ Hok Hi) as Hci; cbn in Hci.
  - eapply server_inv_conn; try done; [|cbn; lia]. destruct Hw as (? & ? & ? & ? & ? & ?).
    split_and!; try done. cbn. lia.
  - destruct (serve_handshake_ok w p Hci) as [H1 H2].
    rewrite finish_ok by done. eapply server_inv_conn; try done; [|by rewrite H2].
    unfold serve_handshake in *. by repeat case_match.
  - destruct (serve_turn_ok w p n (store sv) Hci Hw) as (H1 & H2 & H3 & H4).
    rewrite finish_ok by done. eapply server_inv_conn; try done; [|by rewrite H2, H4].
    unfold serve_turn in *. by repeat case_match.
  - assert (0 < Z.of_nat (counted sv)) as Hpos.
    { pose proof (length_bind_insert conn_counted (conns sv) i (Leaving sent) (Uncounted sent) Hi) as H.
      unfold counted. cbn in H. lia. }
    eapply server_inv_conn; try done; cbn.
    + destruct Hw as (? & ? & ? & ? & ? & ?). split_and!; try done. cbn. unfold saturating_sub. lia.
    + unfold saturating_sub. lia.
  - pose proof (length_bind_insert conn_permit (conns sv) i (Uncounted sent) (Closed sent) Hi) as H1.
    pose proof (length_bind_insert conn_counted (conns sv) i (Uncounted sent) (Closed sent) Hi) as H2.
    unfold server_inv, permits_out, counted in *. cbn in *.
    split_and!; [lia|lia|done|]. by apply Forall_insert.
Qed.

Lemma serve_step_inv max sv sv' : serve_step sv sv' → server_inv max sv → server_inv max sv'.
Proof.
  intros Hs (Hp & Hc & Hw & Hok). unfold server_inv, permits_out, counted in *.
  destruct Hs as [sv n Ha Hn|sv w p Ha Hwf Hnd|sv e Ha|sv op Hop]; cbn in *;
    rewrite ?Ha, ?bind_app, ?length_app in *; cbn in *.
  - split_and!; [lia|done..].
  - split_and!; [lia|lia|done|]. apply Forall_app. by split; [|apply Forall_singleton].
  - split_and!; [lia|done..].
  - rewrite api_op_count by done. split_and!; try done. apply run_op_wf; [by destruct op|done].
Qed.

Lemma server_reachable_inv config s sv :
  store_wf s → client_count s = 0 →
  rtc server_step (S7Server_serve config s) sv → server_inv (max_connections config) sv.
Proof.
  intros Hs Hc Hr.
  assert (server_inv (max_connections config) (S7Server_serve config s)) as Hi.
  { split_and!; try done. cbn. lia. }
  revert Hi. induction Hr as [|? ? ? [Hst|Hst] _ IH]; eauto using conn_step_inv, serve_step_inv.
Qed.

(** C12: the server keeps its limit and its count: whatever peers send, accept
    or the management API do, and however tasks interleave, no connection task
    crashes, at most [max_connections] are alive, no permit is lost or made up,
    the store stays well formed, and the reported number of clients is the
    number of connections being served. *)
Theorem server_limits config s sv :
  store_wf s → client_count s = 0 → rtc server_step (S7Server_serve config s) sv →
  (semaphore sv + acceptor_permit (acceptor sv) + permits_out sv = max_connections config)%nat ∧
  clients_count (get_status (store sv)) = Z.of_nat (counted sv) ∧
  (counted sv <= permits_out sv <= max_connections config)%nat ∧
  store_wf (store sv) ∧ Crashed ∉ conns sv.
Proof.
  intros Hs Hc Hr. destruct (server_reachable_inv _ _ _ Hs Hc Hr) as (Hp & Hcount & Hw & Hok).
  split_and!; try done; [|lia|].
  - unfold counted, permits_out. clear. induction (conns sv) as [|c l IH]; cbn; [lia|].
    rewrite !length_app. destruct c; cbn; lia.
  - intros Hin. rewrite Forall_forall in Hok. exact (Hok _ Hin).
Qed.

(** ** Connections end *)
Definition conn_work (c : Conn) : nat :=
  match c with
  | Accepted _ p => 5 + length (rx p)
  | Handshaking _ p => 4 + length (rx p)
  | Dispatching _ p _ => 3 + length (rx p)
  | Leaving _ => 2
  | Uncounted _ => 1
  | Closed _ | Crashed => 0
  end.
Definition conn_units (c : Conn) : list unit := replicate (conn_work c) tt.
Definition server_work (sv : S7Server) : nat := length (conns sv ≫= conn_units).

Lemma serve_handshake_work w p :
  (conn_work (serve_handshake w p) < conn_work (Handshaking w p))%nat.
Proof.
  unfold serve_handshake. destruct (nodelay w) as [[]|e|]; cbn [conn_work]; [|lia..].
  destruct (server_handshake_safe p) as [_ Hl]. unfold blen in Hl.
  destruct (server_handshake p) as [[n|e|] p']; cbn in *; lia.
Qed.

Lemma serve_turn_work w p n s :
  wf_bytes (rx p) → store_wf s →
  (conn_work (serve_turn w p n s).1 < conn_work (Dispatching w p n))%nat.
Proof.
  intros Hp Hs. unfold serve_turn.
  destruct (dispatch_turn_spec p s Hp Hs) as (c & p' & s' & E & _ & _ & Ht). rewrite E.
  destruct Ht as [[-> Hlt]|(r & -> & Hr)]; [unfold blen in Hlt; cbn; lia|].
  destruct r; cbn; lia.
Qed.

Lemma conn_step_work max sv sv' :
  server_inv max sv → conn_step sv sv' → (server_work sv' < server_work sv)%nat.
Proof.
  intros (_ & _ & Hw & Hok) Hs. unfold server_work.
  assert (∀ i c c', conns sv !! i = Some c → (conn_work c' < conn_work c)%nat →
    (length (<[i := c']> (conns sv) ≫= conn_units) < length (conns sv ≫= conn_units))%nat) as Hgen.
  { intros i c c' Hi Hlt. pose proof (length_bind_insert conn_units _ i c c' Hi) as H.
    unfold conn_units in H at 1 3. rewrite !length_replicate in H. lia. }
  destruct Hs as [sv i w p Hi|sv i w p Hi _|sv i w p n Hi _|sv i sent Hi|sv i sent Hi];
    (eapply Hgen; [exact Hi|]); cbn [conn_work]; try lia.
  - apply serve_handshake_work.
  - apply serve_turn_work; [|done]. exact (Forall_lookup_1 _ _ _ _ Hok Hi).
Qed.

Lemma conn_steps_work max n sv sv' :
  server_inv max sv → nsteps conn_step n sv sv' → server_inv max sv' ∧ (n + server_work sv' <= server_work sv)%nat.
Proof.
  intros Hi Hn. induction Hn as [|n x y z Hxy _ IH]; [by split; [|lia]|].
  pose proof (conn_step_work _ _ _ Hi Hxy). destruct IH; [by eapply conn_step_inv|]. split; [done|lia].
Qed.

(** A connection with nothing left to do: closed, or waiting for bytes of a
    peer that keeps it open. *)
Definition is_closed (c : Conn) : bool := match c with Closed _ => true | _ => false end.
Definition conn_settled (c : Conn) : bool := is_closed c || conn_waits c.

(** A task takes its steps on its own: it can move unless it has settled. *)
Lemma conn_moves sv i c :
  conns sv !! i = Some c → c ≠ Crashed → conn_settled c = false → ∃ sv', conn_step sv sv'.
Proof.
  intros Hi Hc Hs. unfold conn_settled in Hs. apply orb_false_iff in Hs as [Hcl Hw].
  destruct c; try done; eexists;
    eauto using step_connected, step_handshake, step_dispatch, step_disconnected, step_release.
Qed.
(** Every step is a step of a task that has not. *)
Lemma conn_step_index sv sv' :
  conn_step sv sv' → ∃ i c, conns sv !! i = Some c ∧ conn_settled c = false.
Proof.
  intros [? ? ? ? Hi|? ? ? ? Hi Hw|? ? ? ? ? Hi Hw|? ? ? Hi|? ? ? Hi]; eexists _, _;
    (split; [exact Hi|]); try done; unfold conn_settled; by rewrite Hw.
Qed.
Lemma conn_stuck_settled max sv :
  server_inv max sv → (∀ sv', ¬ conn_step sv sv') ↔ Forall (fun c => conn_settled c = true) (conns sv).
Proof.
  intros (_ & _ & _ & Hok). rewrite Forall_lookup. split.
  - intros Hno i c Hi. destruct (conn_settled c) eqn:E; [done|].
    pose proof (Forall_lookup_1 _ _ _ _ Hok Hi) as Hc.
    destruct (conn_moves sv i c Hi) as [sv' H]; [by intros ->|done|by destruct (Hno sv')].
  - intros Hall sv' (i & c & Hi & Hs)%conn_step_index. specialize (Hall _ _ Hi). congruence.
Qed.

(** A settled connection holds its permit and its count exactly if it waits. *)
Definition waiting (sv : S7Server) : nat := length (filter (fun c => conn_waits c = true) (conns sv)).
Lemma settled_holds (l : list Conn) :
  Forall (fun c => conn_settled c = true) l →
  length (l ≫= conn_permit) = length (filter (fun c => conn_waits c = true) l) ∧
  length (l ≫= conn_counted) = length (filter (fun c => conn_waits c = true) l).
Proof.
  induction 1 as [|c l Hc _ [IH1 IH2]]; [done|]. cbn [mbind list_bind]. rewrite !length_app, IH1, IH2.
  destruct (conn_waits c) eqn:E; [rewrite filter_cons_True by done|rewrite filter_cons_False by congruence];
    unfold conn_settled in Hc; rewrite E in Hc; destruct c; done.
Qed.

(** The peers of the connections that are still served. *)
Definition peer_closes (c : Conn) : Prop :=
  match c with
  | Accepted w _ | Handshaking w _ | Dispatching w _ _ => closes w = true
  | _ => True
  end.
Lemma peer_closes_handshake w p : closes w = true → peer_closes (serve_handshake w p).
Proof. intros Hw. unfold serve_handshake. by repeat case_match. Qed.
Lemma peer_closes_turn w p n s : closes w = true → peer_closes (serve_turn w p n s).1.
Proof. intros Hw. unfold serve_turn. by repeat case_match. Qed.
Lemma conn_step_peers sv sv' :
  conn_step sv sv' → Forall peer_closes (conns sv) → Forall peer_closes (conns sv').
Proof.
  intros Hs Hall.
  destruct Hs as [sv i w p Hi|sv i w p Hi _|sv i w p n Hi _|sv i sent Hi|sv i sent Hi];
    pose proof (Forall_lookup_1 _ _ _ _ Hall Hi) as Hc; cbn; apply Forall_insert; eauto using peer_closes_handshake, peer_closes_turn.
Qed.
Lemma conn_steps_peers sv sv' :
  rtc conn_step sv sv' → Forall peer_closes (conns sv) → Forall peer_closes (conns sv').
Proof. induction 1; eauto using conn_step_peers. Qed.
Lemma peers_closed (l : list Conn) :
  Forall peer_closes l → Forall (fun c => conn_settled c = true) l →
  Forall (fun c => is_closed c = true) l ∧ filter (fun c => conn_waits c = true) l = [].
Proof.
  induction 1 as [|c l Hc _ IH]; intros Hs; [done|]. inversion Hs as [|? ? Hsc Hsl]; subst.
  destruct (IH Hsl) as [H1 H2].
  assert (conn_waits c = false) as E by (destruct c; try done; cbn in *; by rewrite Hc).
  unfold conn_settled in Hsc. rewrite E, orb_false_r in Hsc.
  rewrite filter_cons_False by congruence. split; [by constructor|done].
Qed.

(** C13: every connection ends, or waits for a peer that keeps it open: from
    any state the server can be in, the steps of the connections that exist
    are finitely many, at most five and one per byte their peers send, for
    each connection.  No step is left exactly when every connection is closed
    or needs bytes that an open peer does not send; the client counter is then
    the number of those that wait, and every other permit is back.  If the
    peers of the connections close when they have sent their bytes, all
    connections are closed then, the counter is zero and every permit is back. *)
Theorem server_drains config s sv :
  store_wf s → client_count s = 0 → rtc server_step (S7Server_serve config s) sv →
  (∀ n sv', nsteps conn_step n sv sv' → (n <= server_work sv)%nat) ∧
  ∀ sv', rtc conn_step sv sv' →
    ((∀ sv'', ¬ conn_step sv' sv'') ↔ Forall (fun c => conn_settled c = true) (conns sv')) ∧
    ((∀ sv'', ¬ conn_step sv' sv'') →
       client_count (store sv') = Z.of_nat (waiting sv') ∧
       (semaphore sv' + acceptor_permit (acceptor sv') + waiting sv' = max_connections config)%nat ∧
       (Forall peer_closes (conns sv) →
          Forall (fun c => is_closed c = true) (conns sv') ∧ client_count (store sv') = 0 ∧
          (semaphore sv' + acceptor_permit (acceptor sv') = max_connections config)%nat)).
Proof.
  intros Hs Hc Hr. pose proof (server_reachable_inv _ _ _ Hs Hc Hr) as Hi. split.
  { intros n sv' [_ H]%(conn_steps_work _ _ _ _ Hi). lia. }
  intros sv' Hrun. pose proof Hrun as [n Hn]%rtc_nsteps.
  destruct (conn_steps_work _ _ _ _ Hi Hn) as [Hi' _].
  pose proof (conn_stuck_settled _ _ Hi') as Hiff. split; [exact Hiff|]. intros Hset%Hiff.
  destruct (settled_holds _ Hset) as [H1 H2]. destruct Hi' as (Hp & Hcount & _ & _).
  unfold permits_out, counted, waiting in *. rewrite H1 in Hp. rewrite H2 in Hcount.
  split_and!; [done|done|]. intros Hpeers.
  destruct (peers_closed _ (conn_steps_peers _ _ Hrun Hpeers) Hset) as [H3 H4].
  rewrite H4 in *. cbn in *. split_and!; [done|done|lia].
Qed.

(** Peers that connect, send nothing and stay open hold their permits for
    ever: once they hold them all, whatever runs, the accept loop takes no
    further connection and the connections do not change. *)
Theorem silent_peers_block sv sv' :
  semaphore sv = O → acceptor sv = Acquiring → Forall (fun c => conn_settled c = true) (conns sv) →
  rtc server_step sv sv' →
  semaphore sv' = O ∧ acceptor sv' = Acquiring ∧ conns sv' = conns sv.
Proof.
  intros Hsem Hacc Hset Hrun. induction Hrun as [|x y z Hxy _ IH]; [done|].
  destruct Hxy as [Hst|(i & c & Hi & Hc)%conn_step_index].
  - destruct Hst; cbn in *; try congruence. by apply IH.
  - rewrite (Forall_lookup_1 _ _ _ _ Hset Hi) in Hc. done.
Qed.

(** A server with two connections: the first frame of one peer is no connect
    request, and the other sends nothing and stays open. *)
Definition closing_peer : Peer := {| closes := true; nodelay := Ok tt |}.
Definition silent_peer : Peer := {| closes := false; nodelay := Ok tt |}.
Definition demo_pipe : Pipe := {| rx := [3; 0; 0; 7; 2; 240; 128]; tx := [] |}.
Definition demo_server : S7Server :=
  {| semaphore := 0; acceptor := Acquiring;
     conns := [Accepted closing_peer demo_pipe; Accepted silent_peer {| rx := []; tx := [] |}];
     store := DataStore_new |}.

Lemma demo_accept config sv n w p :
  acceptor sv = Acquiring → semaphore sv = S n → wf_bytes (rx p) → nodelay w ≠ Panic →
  rtc server_step (S7Server_serve config DataStore_new) sv →
  rtc server_step (S7Server_serve config DataStore_new)
    {| semaphore := n; acceptor := Acquiring; conns := conns sv ++ [Accepted w p]; store := store sv |}.
Proof.
  intros Ha Hn Hp Hw Hr. etrans; [exact Hr|].
  eapply rtc_l; [left; by apply (step_acquire sv n)|].
  apply rtc_once. left. by apply (step_accept (with_acceptor (with_semaphore sv n) Accepting) w p).
Qed.
Lemma demo_server_reachable :
  rtc server_step (S7Server_serve {| max_connections := 2 |} DataStore_new) demo_server.
Proof.
  apply (demo_accept _ {| semaphore := 1; acceptor := Acquiring;
    conns := [Accepted closing_peer demo_pipe]; store := DataStore_new |}); try done.
  apply (demo_accept _ (S7Server_serve {| max_connections := 2 |} DataStore_new)); try done.
  repeat constructor; unwidth; lia.
Qed.

Lemma server_limits_witness :
  clients_count (get_status (store demo_server)) = 0 ∧ (permits_out demo_server <= 2)%nat.
Proof.
  destruct (server_limits {| max_connections := 2 |} DataStore_new demo_server) as (_ & H1 & H2 & _);
    [apply DataStore_new_wf|reflexivity|exact demo_server_reachable|].
  split; [exact H1|apply H2].
Defined.

(** Where it ends: one connection closed, the other in its handshake. *)
Definition demo_drained : S7Server :=
  {| semaphore := 1; acceptor := Acquiring;
     conns := [Closed []; Handshaking silent_peer {| rx := []; tx := [] |}];
     store := client_disconnected (client_connected (client_connected DataStore_new)) |}.
Lemma demo_drained_steps : rtc conn_step demo_server demo_drained.
Proof.
  eapply rtc_l; [by apply (step_connected _ 0)|].
  eapply rtc_l; [by apply (step_connected _ 1)|].
  eapply rtc_l; [by apply (step_handshake _ 0 closing_peer demo_pipe)|].
  eapply rtc_l; [by apply (step_disconnected _ 0 [])|].
  eapply rtc_l; [by apply (step_release _ 0 [])|]. apply reflexive_eq. vm_compute. reflexivity.
Qed.

Lemma server_drains_witness :
  (∀ n sv', nsteps conn_step n demo_server sv' → (n <= 17)%nat) ∧
  (∀ sv'', ¬ conn_step demo_drained sv'') ∧
  client_count (store demo_drained) = 1 ∧ waiting demo_drained = 1%nat.
Proof.
  destruct (server_drains {| max_connections := 2 |} DataStore_new demo_server) as [H1 H2];
    [apply DataStore_new_wf|reflexivity|exact demo_server_reachable|].
  destruct (H2 demo_drained demo_drained_steps) as [H3 H4].
  assert (∀ sv'', ¬ conn_step demo_drained sv'') as Hno by (apply H3; repeat constructor).
  destruct (H4 Hno) as (H5 & _ & _). split; [exact H1|]. split; [exact Hno|]. by split.
Defined.
