(* ===== verification/Udp.v ===== *)
(** * Byte transports (snap7-client, udp.rs and transport.rs)

    The client reads its transport as a stream of bytes.  [UdpTransport] makes
    one out of datagrams: what does not fit the caller's buffer is kept for the
    next read.  The socket is a parameter of the model, as the sequence of the
    outcomes of its [poll_recv]; tokio's [read_exact] is the loop over
    [poll_read] it documents. *)

From S2P Require Import Prelude Wire Io Connection.
Local Open Scope Z_scope.

Inductive Poll (A : Type) := Ready (a : A) | Pending.
Arguments Ready {A}. Arguments Pending {A}.

(** What [poll_recv] does next: deliver a datagram, fail, or not be ready. *)
Inductive SocketEvent := Datagram (b : bytes) | RecvError (e : IoError) | NotReady.

Record UdpTransport := {
  incoming : list SocketEvent;
  outgoing : list bytes;
  read_buf : bytes;
}.

Definition set_read_buf (u : UdpTransport) (b : bytes) : UdpTransport :=
  {| incoming := incoming u; outgoing := outgoing u; read_buf := b |}.

(** [socket.poll_recv] into a buffer of [cap] bytes: the outcome and the bytes
    at the front of the buffer. *)
Definition poll_recv (cap : nat) (u : UdpTransport) : Poll (res IoError bytes) * UdpTransport :=
  match incoming u with
  | [] => (Pending, u)
  | ev :: rest =>
      let u' := {| incoming := rest; outgoing := outgoing u; read_buf := read_buf u |} in
      match ev with
      | Datagram b => (Ready (Ok (take cap b)), u')
      | RecvError e => (Ready (Err e), u')
      | NotReady => (Pending, u')
      end
  end.

Definition scratch_size : nat := Z.to_nat 65535.

(** [poll_read] into a buffer with [remaining] bytes left: the outcome, the
    bytes put into the buffer, and the transport. *)
Definition poll_read (remaining : nat) (u : UdpTransport)
    : Poll (res IoError unit) * bytes * UdpTransport :=
  match read_buf u with
  | _ :: _ =>
      let n := Nat.min (length (read_buf u)) remaining in
      (Ready (Ok tt), take n (read_buf u), set_read_buf u (drop n (read_buf u)))
  | [] =>
      match poll_recv scratch_size u with
      | (Ready (Ok received), u') =>
          let scratch := received ++ replicate (scratch_size - length received) 0 in
          let filled := length received in
          let n := Nat.min filled remaining in
          (Ready (Ok tt), take n scratch,
           set_read_buf u' (take (filled - n) (drop n scratch)))
      | (Ready (Err e), u') => (Ready (Err e), [], set_read_buf u' [])
      | (Ready Panic, u') => (Ready Panic, [], u')
      | (Pending, u') => (Pending, [], set_read_buf u' [])
      end
  end.

(** [poll_write]: [poll_send] hands the whole buffer to the socket as one
    datagram; its answer is the socket's. *)
Definition poll_write (answer : Poll (res IoError unit)) (buf : bytes) (u : UdpTransport)
    : Poll (res IoError Z) * UdpTransport :=
  match answer with
  | Ready (Ok _) =>
      (Ready (Ok (blen buf)),
       {| incoming := incoming u; outgoing := outgoing u ++ [buf]; read_buf := read_buf u |})
  | Ready (Err e) => (Ready (Err e), u)
  | Ready Panic => (Ready Panic, u)
  | Pending => (Pending, u)
  end.

(** [read_exact]: polls until the buffer is full; a read of no bytes is the end
    of the stream.  A wait for a socket that has nothing more to deliver is
    ended by the caller's timeout. *)
Fixpoint read_exact_loop (fuel : nat) (remaining : nat) (acc : bytes) (u : UdpTransport)
    : option (res IoError bytes * UdpTransport) :=
  match fuel with
  | O => None
  | S fuel =>
      match remaining with
      | O => Some (Ok acc, u)
      | _ =>
          match poll_read remaining u with
          | (Ready (Ok _), [], u') => Some (Err UnexpectedEof, u')
          | (Ready (Ok _), put, u') =>
              read_exact_loop fuel (remaining - length put) (acc ++ put) u'
          | (Ready (Err e), _, u') => Some (Err e, u')
          | (Ready Panic, _, u') => Some (Panic, u')
          | (Pending, _, u') =>
              match incoming u with
              | [] => Some (Err TimedOut, u')
              | _ => read_exact_loop fuel remaining acc u'
              end
          end
      end
  end.

Definition udp_read_exact (n : nat) (u : UdpTransport) : option (res IoError bytes * UdpTransport) :=
  read_exact_loop (S (n + length (incoming u))) n [] u.

(** [TcpTransport::connect], given what the runtime answers: a timeout, a
    refused connection, or a stream and the outcome of [set_nodelay] on it. *)
Inductive TcpConnect (S : Type) :=
| ConnectElapsed
| ConnectFailed
| ConnectStream (s : S) (nodelay : res IoError unit).
Arguments ConnectElapsed {S}. Arguments ConnectFailed {S}. Arguments ConnectStream {S}.
Definition TcpTransport_connect {S} (outcome : TcpConnect S) : res Client.Error S :=
  match outcome with
  | ConnectElapsed => Err Client.Timeout
  | ConnectFailed => Err Client.ConnectionRefused
  | ConnectStream s nodelay => let? _ := res_map_err Client.Io nodelay in Ok s
  end.

(** [UdpTransport::connect]: binding and then connecting the socket; what has
    arrived and will arrive on it is [arrivals]. *)
Definition UdpTransport_connect (bind connect : res IoError unit) (arrivals : list SocketEvent)
  : res IoError UdpTransport :=
  let? _ := bind in
  let? _ := connect in
  Ok {| incoming := arrivals; outgoing := []; read_buf := [] |}.

(** ** The stream of a transport *)

(** The socket as one stream: the bytes of the datagrams in their order, and
    where a read that gets that far is stopped: at an error of the socket, and
    at an empty datagram, which [read_exact] takes for the end of the stream. *)
Inductive Item := Octet (b : Z) | Halt (e : IoError).
Definition event_items (ev : SocketEvent) : list Item :=
  match ev with
  | Datagram [] => [Halt UnexpectedEof]
  | Datagram b => Octet <$> b
  | RecvError e => [Halt e]
  | NotReady => []
  end.
Definition stream (u : UdpTransport) : list Item :=
  (Octet <$> read_buf u) ++ (incoming u ≫= event_items).

(** A datagram has at most 65535 bytes. *)
Definition event_ok (ev : SocketEvent) : Prop :=
  match ev with Datagram b => (length b <= scratch_size)%nat | _ => True end.
Definition socket_ok (u : UdpTransport) : Prop := Forall event_ok (incoming u).

(** Reading [n] more bytes of such a stream; at its end a read waits until the
    timeout. *)
Fixpoint stream_read (n : nat) (acc : bytes) (l : list Item) : res IoError bytes * list Item :=
  match n, l with
  | O, _ => (Ok acc, l)
  | S _, [] => (Err TimedOut, [])
  | S n, Octet b :: l => stream_read n (acc ++ [b]) l
  | S _, Halt e :: l => (Err e, l)
  end.
Fixpoint stream_reads (ns : list nat) (l : list Item) : list (res IoError bytes) * list Item :=
  match ns with
  | [] => ([], l)
  | n :: ns =>
      let '(r, l1) := stream_read n [] l in
      let '(rs, l2) := stream_reads ns l1 in (r :: rs, l2)
  end.

Lemma stream_read_bytes put n acc l :
  (length put <= n)%nat →
  stream_read n acc ((Octet <$> put) ++ l) = stream_read (n - length put) (acc ++ put) l.
Proof.
  revert n acc. induction put as [|b put IH]; intros n acc Hn; cbn.
  - by rewrite Nat.sub_0_r, app_nil_r.
  - destruct n as [|n]; [cbn in Hn; lia|]. cbn. rewrite IH by (cbn in Hn; lia). by rewrite <- (assoc_L (++)).
Qed.

(** What a poll does to the stream: it takes bytes, is stopped, or waits. *)
Inductive polled (n : nat) (u : UdpTransport) : Poll (res IoError unit) * bytes * UdpTransport → Prop :=
| polled_bytes put u' :
    put ≠ [] → (length put <= n)%nat → stream u = (Octet <$> put) ++ stream u' →
    (length (incoming u') <= length (incoming u))%nat → polled n u (Ready (Ok tt), put, u')
| polled_error e u' : stream u = Halt e :: stream u' → polled n u (Ready (Err e), [], u')
| polled_eof u' : stream u = Halt UnexpectedEof :: stream u' → polled n u (Ready (Ok tt), [], u')
| polled_pending u' :
    stream u' = stream u →
    (incoming u = [] ∧ stream u = []) ∨ (length (incoming u') < length (incoming u))%nat →
    polled n u (Pending, [], u').

Lemma poll_read_datagram n u d rest :
  (0 < n)%nat → read_buf u = [] → incoming u = Datagram d :: rest → event_ok (Datagram d) →
  polled n u (poll_read n u) ∧ incoming (poll_read n u).2 = rest.
Proof.
  intros Hn Hb Hi Hl. cbn in Hl. unfold poll_read, poll_recv. rewrite Hb, Hi.
  rewrite (take_ge d) by done. cbv zeta. set (k := Nat.min (length d) n).
  assert (k <= length d)%nat by lia.
  rewrite take_app_le, drop_app_le by done. rewrite take_app_le by (rewrite length_drop; lia).
  rewrite (take_ge (drop k d)) by (rewrite length_drop; lia). split; [|done].
  destruct d as [|x d].
  - apply polled_eof. unfold stream. cbn. by rewrite Hb, Hi.
  - apply polled_bytes.
    + subst k. by destruct n; [lia|].
    + rewrite length_take. lia.
    + unfold stream. rewrite Hb, Hi. cbn [set_read_buf read_buf incoming mbind list_bind event_items].
      cbn [fmap list_fmap app]. by rewrite (assoc_L (++)), <- fmap_app, take_drop.
    + rewrite Hi. cbn. lia.
Qed.

Lemma poll_read_polled n u :
  socket_ok u → (0 < n)%nat →
  polled n u (poll_read n u) ∧ socket_ok (poll_read n u).2 ∧ outgoing (poll_read n u).2 = outgoing u.
Proof.
  intros Hok Hn. destruct (read_buf u) as [|x b] eqn:Hb.
  - unfold socket_ok in *. destruct (incoming u) as [|[d|e|] rest] eqn:Hi.
    + unfold poll_read, poll_recv, stream. rewrite Hb, Hi. cbn. rewrite Hi. split_and!; try done.
      apply polled_pending; unfold stream; cbn; rewrite ?Hb, ?Hi; [done|by left].
    + apply Forall_cons in Hok as [He Hr].
      destruct (poll_read_datagram n u d rest Hn Hb Hi He) as [Hp ->]. split_and!; try done.
      unfold poll_read, poll_recv. by rewrite Hb, Hi.
    + apply Forall_cons in Hok as [_ Hr]. unfold poll_read, poll_recv. rewrite Hb, Hi. split_and!; try done.
      apply polled_error. unfold stream. cbn. by rewrite Hb, Hi.
    + apply Forall_cons in Hok as [_ Hr]. unfold poll_read, poll_recv. rewrite Hb, Hi. split_and!; try done.
      apply polled_pending; unfold stream; cbn; rewrite ?Hb, ?Hi; [done|]. right. cbn. lia.
  - unfold poll_read. rewrite Hb. set (k := Nat.min (length (x :: b)) n). split_and!; try done.
    apply polled_bytes; [|rewrite length_take; lia| |cbn; lia].
    + subst k. cbn. by destruct n; [lia|].
    + unfold stream. cbn [set_read_buf read_buf incoming].
      by rewrite Hb, (assoc_L (++)), <- fmap_app, take_drop.
Qed.

Lemma read_exact_loop_stream fuel n acc u :
  socket_ok u → (n + length (incoming u) < fuel)%nat →
  ∃ u', socket_ok u' ∧ outgoing u' = outgoing u ∧
    read_exact_loop fuel n acc u = Some ((stream_read n acc (stream u)).1, u') ∧
    stream u' = (stream_read n acc (stream u)).2.
Proof.
  revert n acc u. induction fuel as [|fuel IH]; intros n acc u Hok Hf; [lia|].
  cbn [read_exact_loop]. destruct n as [|n]; [by exists u|].
  destruct (poll_read_polled (S n) u Hok ltac:(lia)) as (Hp & Hok1 & Hout).
  destruct Hp as [put u1 Hne Hl Hs Hi|e u1 Hs|u1 Hs|u1 Hs Hi]; cbn [snd] in *.
  - destruct put as [|b put]; [done|].
    destruct (IH (S n - length (b :: put))%nat (acc ++ b :: put) u1 Hok1) as (u' & Hok' & Hout' & Hr & Hs').
    { cbn in *. lia. }
    exists u'. rewrite Hs, stream_read_bytes by done. split_and!; [done|congruence|done|done].
  - exists u1. rewrite Hs. by split_and!.
  - exists u1. rewrite Hs. by split_and!.
  - rewrite <- Hs. destruct (incoming u) as [|ev rest] eqn:Hin.
    + exists u1. destruct Hi as [[_ Hnil]|Hi]; [|cbn in Hi; lia]. rewrite Hs, Hnil. by split_and!.
    + destruct Hi as [[? _]|Hi]; [done|].
      destruct (IH (S n) acc u1 Hok1) as (u' & Hok' & Hout' & Hr & Hs'); [cbn in *; lia|].
      exists u'. split_and!; [done|congruence|done|done].
Qed.

(** ** Datagram boundaries do not matter *)
Fixpoint udp_reads (ns : list nat) (u : UdpTransport) : option (list (res IoError bytes) * UdpTransport) :=
  match ns with
  | [] => Some ([], u)
  | n :: ns =>
      match udp_read_exact n u with
      | Some (r, u1) =>
          match udp_reads ns u1 with Some (rs, u2) => Some (r :: rs, u2) | None => None end
      | None => None
      end
  end.

(** C30: reading datagrams is reading a byte stream: any sequence of exact reads
    ends, and returns what the same reads of the concatenated datagrams return,
    however the bytes are cut into datagrams and however often the socket was
    not ready; a socket error and an empty datagram stop exactly the read that
    reaches them, with that error and with [UnexpectedEof]; what is left is the
    rest of the stream, and a read beyond its end waits until the timeout. *)
Theorem udp_stream_equivalence ns u :
  socket_ok u →
  ∃ u', udp_reads ns u = Some ((stream_reads ns (stream u)).1, u') ∧
    stream u' = (stream_reads ns (stream u)).2 ∧ outgoing u' = outgoing u.
Proof.
  revert u. induction ns as [|n ns IH]; intros u Hok; [by exists u|].
  destruct (read_exact_loop_stream (S (n + length (incoming u))) n [] u Hok)
    as (u1 & Hok1 & Hout & Hr & Hs); [lia|].
  destruct (IH u1 Hok1) as (u2 & Hrs & Hs2 & Hout2).
  exists u2. cbn [udp_reads stream_reads]. unfold udp_read_exact. rewrite Hr, Hrs, Hs in *.
  destruct (stream_read n [] (stream u)) as [r l]. cbn in *.
  destruct (stream_reads ns l) as [rs l']. cbn in *. split_and!; [done|done|congruence].
Qed.

Lemma udp_stream_equivalence_witness :
  let u := {| incoming := [Datagram [3; 0; 0]; NotReady; Datagram [7; 2; 240; 128]; Datagram []; Datagram [5]];
              outgoing := []; read_buf := [] |} in
  ∃ u', udp_reads [4; 3; 1; 1; 1]%nat u =
          Some ([Ok [3; 0; 0; 7]; Ok [2; 240; 128]; Err UnexpectedEof; Ok [5]; Err TimedOut], u') ∧
        stream u' = [].
Proof.
  intros u. destruct (udp_stream_equivalence [4; 3; 1; 1; 1]%nat u) as (u' & H1 & H2 & _).
  - repeat apply Forall_cons_2; try exact I; try (unfold event_ok, scratch_size; cbn [length]; lia).
    apply Forall_nil, I.
  - exists u'. split; [exact H1|exact H2].
Defined.
