(* ===== verification/Handle.v ===== *)
(** * The client handle: parameters, connecting and reconnecting (client.rs)

    [S7Client] wraps the state that its methods lock (the [Inner] of Client.v)
    together with the parameters it was opened with.  Durations are numbers of
    nanoseconds; the request timeout exists twice, in the parameters and in the
    locked state.  The execution time of the last job is not modelled. *)

From S2P Require Import Prelude Wire Io S7Header Store Connection Tag Client Loopback Udp.
Local Open Scope Z_scope.

(** [ConnectParams] with its timeouts. *)
Record Params := {
  connect_params : ConnectParams;
  connect_timeout : Z;
  request_timeout : Z;
}.
Definition Params_default : Params :=
  {| connect_params := ConnectParams_default; connect_timeout := 5 * 10 ^ 9;
     request_timeout := 10 * 10 ^ 9 |}.

Section Handle.
Context {T : Type} `{Transport T} {SocketAddr : Type}.

Record S7Client := {
  inner : Inner T;
  inner_request_timeout : Z;
  params : Params;
  remote_addr : option SocketAddr;
}.

(** [from_transport]: the locked timeout starts as the one of the parameters. *)
Definition S7Client_from_transport (t : T) (p : Params) : res Client.Error S7Client :=
  match (from_transport t (connect_params p)).1 with
  | Ok i => Ok {| inner := i; inner_request_timeout := request_timeout p; params := p;
                  remote_addr := None |}
  | Err e => Err e
  | Panic => Panic
  end.

Definition S7Client_request_timeout (self : S7Client) : Z := request_timeout (params self).
Definition S7Client_is_connected (self : S7Client) : bool := connected (inner self).

Definition S7Client_set_request_timeout (timeout : Z) (self : S7Client) : S7Client :=
  {| inner := inner self; inner_request_timeout := timeout; params := params self;
     remote_addr := remote_addr self |}.

Definition S7Client_get_param (name : text) (self : S7Client) : res Client.Error Z :=
  if bool_decide (name = str_bytes "request_timeout") then Ok (request_timeout (params self))
  else if bool_decide (name = str_bytes "connect_timeout") then Ok (connect_timeout (params self))
  else if bool_decide (name = str_bytes "pdu_size") then
    Err (Client.PlcError 0 "pdu_size is not a Duration; use .params.pdu_size directly")
  else Err (Client.PlcError 0 ("unknown parameter: " +:+ message_of name)).

Definition S7Client_set_param (name : text) (value : Z) (self : S7Client)
  : res Client.Error unit * S7Client :=
  if bool_decide (name = str_bytes "request_timeout") then
    (Ok tt, {| inner := inner self; inner_request_timeout := inner_request_timeout self;
               params := {| connect_params := connect_params (params self);
                            connect_timeout := connect_timeout (params self);
                            request_timeout := value |};
               remote_addr := remote_addr self |})
  else (Err (Client.PlcError 0 ("unknown parameter: " +:+ message_of name)), self).

(** [S7Client::connect]; what the socket does is [outcome]. *)
Definition S7Client_connect (addr : SocketAddr) (p : Params) (outcome : TcpConnect T)
  : res Client.Error S7Client :=
  match TcpTransport_connect outcome with
  | Ok t =>
      match S7Client_from_transport t p with
      | Ok client => Ok {| inner := inner client;
                           inner_request_timeout := inner_request_timeout client;
                           params := params client; remote_addr := Some addr |}
      | Err e => Err e
      | Panic => Panic
      end
  | Err e => Err e
  | Panic => Panic
  end.

(** [S7Client::connect_udp]; binding and connecting the socket is [socket]. *)
Definition S7Client_connect_udp (p : Params) (socket : res IoError T) : res Client.Error S7Client :=
  match socket with
  | Ok t => S7Client_from_transport t p
  | Err e => Err (Client.Io e)
  | Panic => Panic
  end.

Definition S7Client_reconnect (outcome : TcpConnect T) (self : S7Client)
  : res Client.Error unit * S7Client :=
  match remote_addr self with
  | None => (Err Client.ConnectionRefused, self)
  | Some addr =>
      match TcpTransport_connect outcome with
      | Ok t =>
          match connect (connect_params (params self)) t with
          | (Ok connection, t) =>
              (Ok tt, {| inner := {| inner_transport := t; connection := connection;
                                     inner_pdu_ref := 1; connected := true; job_start := false |};
                         inner_request_timeout := inner_request_timeout self;
                         params := params self; remote_addr := Some addr |})
          | (Err e, _) => (Err e, self)
          | (Panic, _) => (Panic, self)
          end
      | Err e => (Err e, self)
      | Panic => (Panic, self)
      end
  end.
End Handle.
Arguments S7Client : clear implicits.

(** * Correctness *)
Section HandleProofs.
Context {T : Type} `{Transport T} {SocketAddr : Type}.
Implicit Types self : S7Client T SocketAddr.

(** Reconnecting is connecting again: [reconnect] of a client that knows its
    address has the same outcome as a fresh [connect] with its parameters and
    leaves the client in the fresh client's state, except that the request
    timeout in use is kept; when it fails the client is unchanged, and a client
    that was not opened by address (from a transport, or over UDP) is always
    refused. *)
Theorem reconnect_is_connect self outcome :
  match remote_addr self with
  | None => S7Client_reconnect outcome self = (Err Client.ConnectionRefused, self)
  | Some addr =>
      S7Client_reconnect outcome self =
      match S7Client_connect addr (params self) outcome with
      | Ok fresh => (Ok tt, S7Client_set_request_timeout (inner_request_timeout self) fresh)
      | Err e => (Err e, self)
      | Panic => (Panic, self)
      end
  end.
Proof.
  unfold S7Client_reconnect, S7Client_connect, S7Client_from_transport, from_transport.
  destruct (remote_addr self) as [addr|]; [|done].
  destruct (TcpTransport_connect outcome) as [t|e|]; try done.
  by destruct (connect (connect_params (params self)) t) as [[c|e|] t'].
Qed.

(** The request timeout is kept twice and only a new client has both equal:
    [set_param] changes the value that [request_timeout] and [get_param] report
    and a reconnection does not pick up, but not the one that bounds a receive;
    [set_request_timeout] the other way round. *)
Theorem timeouts_diverge self v :
  let name := str_bytes "request_timeout" in
  let by_param := (S7Client_set_param name v self).2 in
  let by_call := S7Client_set_request_timeout v self in
  (S7Client_set_param name v self).1 = Ok tt ∧ S7Client_get_param name by_param = Ok v ∧
  S7Client_request_timeout by_param = v ∧
  inner_request_timeout by_param = inner_request_timeout self ∧
  (∀ outcome, inner_request_timeout (S7Client_reconnect outcome by_param).2 =
              inner_request_timeout self) ∧
  inner_request_timeout by_call = v ∧
  S7Client_request_timeout by_call = S7Client_request_timeout self ∧
  S7Client_get_param name by_call = S7Client_get_param name self ∧
  (∀ t p client, S7Client_from_transport t p = Ok client →
     inner_request_timeout client = S7Client_request_timeout (client : S7Client T SocketAddr)).
Proof.
  cbv zeta. split_and!; try done.
  - intros outcome. unfold S7Client_reconnect. destruct (remote_addr _); [|done].
    destruct (TcpTransport_connect outcome) as [t|e|]; try done.
    by destruct (connect _ t) as [[c|e|] t'].
  - intros t p client. unfold S7Client_from_transport.
    destruct (from_transport _ _).1; [|done..]. by intros [= <-].
Qed.
End HandleProofs.
