(* ===== verification/GatewayServer.v ===== *)
(** * The OPC UA gateway (snap7-opcua-gateway, server.rs)

    [Gateway::new] builds the registries of all PLCs and the OPC UA server;
    [run] publishes a node per tag, connects to every PLC and starts a poller
    for each.  Parameters: the URL parser, the OPC UA server builder, the
    address space of a built server and its event loop (libraries), the socket
    address parser, and the network: what dialling an address gives, on which
    [S7Client::connect] runs. *)

From stdpp Require Import relations gmap.
From S2P Require Import Prelude Wire Io S7Header Store Dispatch Connection Client Tag Loopback.
From S2P Require Import Registry Poller Udp Handle.
Local Open Scope Z_scope.

(** What [new] hands to the server builder: the endpoint's path, security
    policy and mode, and the discovery URL. *)
Record Endpoint := {
  endpoint_path : text;
  sec_policy : SecurityPolicy;
  sec_mode : MessageSecurityMode;
  discovery_url : text;
}.

Section GatewayServer.
Context {NodeId Other Sp T Server SocketAddr : Type} `{EqDecision NodeId}.
Context `{AddressSpace NodeId Other Sp} `{Transport T}.
Context (NodeId_new : Z → text → NodeId) (upper_other : Z → text)
        (lower_other : text → text → Z → text)
        (show_io : IoError → string) (show_timeout : string).
Context (url_path : text → res string text) (build : Endpoint → res string Server)
        (node_manager_space : Server → option Sp) (server_run : Server → res string unit)
        (parse_addr : text → option SocketAddr) (network : SocketAddr → TcpConnect T).
Abbreviation TagEntry := (TagEntry NodeId).
Abbreviation TagRegistry := (TagRegistry NodeId).

Record GatewayState := {
  server : Server;
  registries : list TagRegistry;
  plc_addrs : list (text * Z);
  endpoint_url : text;
  (** whether the receiver of [write_tx] is alive *)
  write_tx_open : bool;
}.

(** The loop over the PLCs in [new]. *)
Fixpoint plc_loop (i : nat) (plcs : list PlcConfig) (regs : list TagRegistry)
    (addrs : list (text * Z)) : res Gateway.Error (list TagRegistry * list (text * Z)) :=
  match plcs with
  | [] => Ok (regs, addrs)
  | plc :: rest =>
      let? reg :=
        res_map_err (fun e => Gateway.Config (Gateway.Error_display show_io show_timeout e))
          (TagRegistry_from_specs NodeId_new upper_other show_io show_timeout (plc_tags plc) i) in
      plc_loop (S i) rest (regs ++ [reg])
        (addrs ++ [(plc_config_addr plc, plc_poll_interval_ms plc)])
  end.

(** The channels that [new] creates: the receiver of [write_tx] is dropped
    when [new] returns. *)
Definition Gateway_new (config : GatewayConfig) : res Gateway.Error GatewayState :=
  let plcs := plc_configs config in
  match plcs with
  | [] =>
      Err (Gateway.Config
        "at least one PLC must be configured (use plc_addr + [[tags]] or [[plcs]])")
  | _ =>
      let? (policy, mode) := parse_security lower_other (opc_security config) in
      let? (registries, plc_addrs) := plc_loop 0 plcs [] [] in
      let? path :=
        res_map_err (fun e => Gateway.Config ("invalid opc_endpoint URL: " +:+ e))
          (url_path (opc_endpoint config)) in
      let? server :=
        res_map_err Gateway.OpcUa
          (build {| endpoint_path := path; sec_policy := policy; sec_mode := mode;
                    discovery_url := opc_endpoint config |}) in
      Ok {| server := server; registries := registries; plc_addrs := plc_addrs;
            endpoint_url := opc_endpoint config; write_tx_open := false |}
  end.

Definition data_type_of (ts : TransportSize) : DataTypeId :=
  match ts with
  | Bit => DtBoolean
  | Byte | Word | DWord => DtUInt32
  | Int | DInt => DtInt32
  | Real => DtFloat
  | _ => DtString
  end.

Definition register_tag_entry (sp : Sp) (entry : TagEntry) : Sp :=
  insert_variable (node_id entry) (entry_name entry)
    (data_type_of (tag_transport (entry_address entry))) (@Empty Other) (writable entry) sp.

Definition register_all (regs : list TagRegistry) (sp : Sp) : Sp :=
  foldl (fun sp reg => foldl register_tag_entry sp (registry_entries reg)) sp regs.

(** A poller that [run] has started: its registry, its task and its period. *)
Record Spawned := {
  spawned_registry : TagRegistry;
  spawned_task : Task NodeId Other Sp T;
  poll_ms : Z;
}.

(** The loop over the registries in [run].  The sender of the channel made
    here is dropped at the end of the turn. *)
Fixpoint spawn_loop (plc_idx : nat) (regs : list TagRegistry) (addrs : list (text * Z)) (sp : Sp)
    (spawned : list Spawned) : res Gateway.Error (list Spawned) :=
  match regs with
  | [] => Ok spawned
  | reg :: rest =>
      match addrs !! plc_idx with
      | None => Panic
      | Some (addr, ms) =>
          let? plc_addr :=
            match parse_addr addr with
            | Some a => Ok a
            | None => Err (Gateway.Config ("invalid PLC addr: " +:+ message_of addr))
            end in
          let? client :=
            res_map_err Gateway.Plc (S7Client_connect plc_addr Params_default (network plc_addr)) in
          spawn_loop (S plc_idx) rest addrs sp
            (spawned ++ [ {| spawned_registry := reg; spawned_task := spawn (inner client) sp 0;
                             poll_ms := ms |} ])
      end
  end.

(** [run] up to the event loop of the OPC UA server: the address space with
    every tag registered, and the pollers. *)
Definition Gateway_start (gw : GatewayState) : res Gateway.Error (Sp * list Spawned) :=
  match node_manager_space (server gw) with
  | None => Err (Gateway.OpcUa "Failed to get node manager")
  | Some space =>
      let space := register_all (registries gw) space in
      let? spawned := spawn_loop 0 (registries gw) (plc_addrs gw) space [] in
      Ok (space, spawned)
  end.

Definition Gateway_run (gw : GatewayState) : res Gateway.Error unit :=
  let? _ := Gateway_start gw in
  res_map_err Gateway.OpcUa (server_run (server gw)).

(** ** What [new] guarantees *)

(** Registries and addresses correspond, and the entries of a registry know
    its place. *)
Definition gateway_wf (gw : GatewayState) : Prop :=
  length (registries gw) = length (plc_addrs gw) ∧ registries gw ≠ [] ∧
  ∀ i reg, registries gw !! i = Some reg → Forall (fun e => plc_index e = i) (registry_entries reg).

Lemma specs_loop_index specs i acc es :
  specs_loop NodeId_new upper_other show_io show_timeout specs i acc = Ok es →
  Forall (fun e => plc_index e = i) acc → Forall (fun e => plc_index e = i) es.
Proof.
  revert acc. induction specs as [|s specs IH]; intros acc; cbn; [by intros [= <-]|].
  destruct (parse_tag _ _); cbn; [|done..]. intros Hs Ha. eapply IH; [done|].
  apply Forall_app. by split; [|apply Forall_singleton].
Qed.

Lemma from_specs_index specs i reg :
  TagRegistry_from_specs NodeId_new upper_other show_io show_timeout specs i = Ok reg →
  Forall (fun e => plc_index e = i) (registry_entries reg).
Proof.
  unfold TagRegistry_from_specs. destruct (specs_loop _ _ _ _ _ _ _) eqn:E; cbn; [|done..].
  intros [= <-]. by eapply specs_loop_index.
Qed.

Lemma plc_loop_wf i plcs regs addrs regs' addrs' :
  plc_loop i plcs regs addrs = Ok (regs', addrs') →
  length regs = i → length addrs = i →
  (∀ j reg, regs !! j = Some reg → Forall (fun e => plc_index e = j) (registry_entries reg)) →
  length regs' = (i + length plcs)%nat ∧ length addrs' = (i + length plcs)%nat ∧
  (∀ j reg, regs' !! j = Some reg → Forall (fun e => plc_index e = j) (registry_entries reg)).
Proof.
  revert i regs addrs. induction plcs as [|plc plcs IH]; intros i regs addrs; cbn [plc_loop].
  { intros [= <- <-] Hr Ha Hi. cbn. split_and!; [lia..|done]. }
  destruct (TagRegistry_from_specs _ _ _ _ _ i) as [reg|e|] eqn:E; cbn; [|done..].
  intros Hl Hr Ha Hi. apply IH in Hl as (H1 & H2 & H3); [cbn; split_and!; [lia..|done]|rewrite length_app; cbn; lia..|].
  intros j reg' [Hj|[Hj Hs]]%lookup_app_Some; [by apply Hi|].
  apply list_lookup_singleton_Some in Hs as [Hj' <-].
  assert (j = i) as -> by lia. by eapply from_specs_index.
Qed.

Lemma Gateway_new_wf config gw : Gateway_new config = Ok gw → gateway_wf gw.
Proof.
  unfold Gateway_new. destruct (plc_configs config) as [|p ps]; [done|].
  destruct (parse_security _ _) as [[policy mode]| |]; cbn [res_bind]; [|done..].
  destruct (plc_loop _ _ _ _) as [[regs addrs]| |] eqn:E; cbn [res_bind]; [|done..].
  destruct (url_path _); cbn [res_bind res_map_err]; [|done..].
  destruct (build _); cbn [res_bind res_map_err]; [|done..].
  intros [= <-]. apply plc_loop_wf in E as (H1 & H2 & H3); [|done..].
  split_and!; cbn; [lia| |done]. intros ->. cbn in H1. lia.
Qed.

Lemma plc_loop_addrs i plcs regs addrs regs' addrs' :
  plc_loop i plcs regs addrs = Ok (regs', addrs') →
  addrs' = addrs ++ ((fun c => (plc_config_addr c, plc_poll_interval_ms c)) <$> plcs).
Proof.
  revert i regs addrs. induction plcs as [|plc plcs IH]; intros i regs addrs; cbn [plc_loop].
  { intros [= _ <-]. cbn. by rewrite app_nil_r. }
  destruct (TagRegistry_from_specs _ _ _ _ _ i); cbn; [|done..]. intros ->%IH. by rewrite <- app_assoc.
Qed.
Lemma Gateway_new_addrs config gw :
  Gateway_new config = Ok gw →
  plc_addrs gw = (fun c => (plc_config_addr c, plc_poll_interval_ms c)) <$> plc_configs config.
Proof.
  unfold Gateway_new. destruct (plc_configs config) as [|p ps]; [done|].
  destruct (parse_security _ _) as [[policy mode]| |]; cbn [res_bind]; [|done..].
  destruct (plc_loop _ _ _ _) as [[regs addrs]| |] eqn:E; cbn [res_bind]; [|done..].
  destruct (url_path _); cbn [res_bind res_map_err]; [|done..].
  destruct (build _); cbn [res_bind res_map_err]; [|done..].
  intros [= <-]. cbn [plc_addrs]. by apply plc_loop_addrs in E.
Qed.

(** The client that [run] opens for an address. *)
Definition plc_client (addr : text) : res Gateway.Error (S7Client T SocketAddr) :=
  match parse_addr addr with
  | Some a => res_map_err Gateway.Plc (S7Client_connect a Params_default (network a))
  | None => Err (Gateway.Config ("invalid PLC addr: " +:+ message_of addr))
  end.

(** A poller started for an address and its period. *)
Definition polls (sp : Sp) (a : text * Z) (p : Spawned) : Prop :=
  poll_ms p = a.2 ∧ ∃ client, plc_client a.1 = Ok client ∧ spawned_task p = spawn (inner client) sp 0.

Lemma spawn_loop_turn i reg regs addrs sp spawned addr ms :
  addrs !! i = Some (addr, ms) →
  spawn_loop i (reg :: regs) addrs sp spawned =
  (let? client := plc_client addr in
   spawn_loop (S i) regs addrs sp
     (spawned ++ [ {| spawned_registry := reg; spawned_task := spawn (inner client) sp 0;
                      poll_ms := ms |} ])).
Proof. intros Ha. cbn [spawn_loop]. rewrite Ha. unfold plc_client. by destruct (parse_addr addr). Qed.

Lemma spawn_loop_spec regs addrs sp spawned i :
  (i + length regs <= length addrs)%nat →
  match spawn_loop i regs addrs sp spawned with
  | Panic => ∃ a, a ∈ addrs ∧ plc_client a.1 = Panic
  | Err e => ∃ a, a ∈ addrs ∧ plc_client a.1 = Err e
  | Ok out => ∃ new, out = spawned ++ new ∧ Forall2 (fun reg p => spawned_registry p = reg) regs new ∧
                Forall2 (polls sp) (take (length regs) (drop i addrs)) new
  end.
Proof.
  revert i spawned. induction regs as [|reg regs IH]; intros i spawned Hi.
  { exists []. by rewrite app_nil_r. }
  cbn [length] in *. destruct (lookup_lt_is_Some_2 addrs i) as [[addr ms] Ha]; [lia|].
  rewrite (spawn_loop_turn _ _ _ _ _ _ _ _ Ha), (drop_S _ _ _ Ha). cbn [take].
  apply list_elem_of_lookup_2 in Ha.
  destruct (plc_client addr) as [client|e|] eqn:E; cbn [res_bind]; [|by exists (addr, ms)..].
  specialize (IH (S i) (spawned ++ [ {| spawned_registry := reg;
    spawned_task := spawn (inner client) sp 0; poll_ms := ms |} ]) ltac:(lia)).
  destruct (spawn_loop (S i) _ _ _ _) as [out| |]; [|done..].
  destruct IH as (new & -> & H1 & H2). eexists (_ :: new). rewrite <- app_assoc.
  split; [done|]. split; constructor; try done. split; [done|]. by exists client.
Qed.

(** Registering publishes a variable for every entry. *)
Context `{!AddressSpaceLaws NodeId Other Sp}.

Definition node_free_or_variable (sp : Sp) (n : NodeId) : Prop :=
  node_exists n sp = false ∨ is_variable n sp = true.

Lemma register_entry_free sp e n :
  node_free_or_variable sp n → node_free_or_variable (register_tag_entry sp e) n.
Proof.
  intros [Hn|Hn]; unfold node_free_or_variable, register_tag_entry.
  - destruct (decide (node_id e = n)) as [<-|Hne]; [right; by apply is_variable_insert|].
    left. by rewrite node_exists_insert.
  - right. by apply is_variable_keep.
Qed.

Lemma register_entry_variable sp e :
  node_free_or_variable sp (node_id e) → is_variable (node_id e) (register_tag_entry sp e) = true.
Proof.
  intros [Hn|Hn]; unfold register_tag_entry; [by apply is_variable_insert|by apply is_variable_keep].
Qed.

Lemma register_entries_variable es sp :
  (∀ e, e ∈ es → node_free_or_variable sp (node_id e)) →
  (∀ n, is_variable n sp = true → is_variable n (foldl register_tag_entry sp es) = true) ∧
  (∀ n, node_free_or_variable sp n → node_free_or_variable (foldl register_tag_entry sp es) n) ∧
  (∀ e, e ∈ es → is_variable (node_id e) (foldl register_tag_entry sp es) = true).
Proof.
  revert sp. induction es as [|e es IH]; intros sp Hf; cbn; [set_solver|].
  destruct (IH (register_tag_entry sp e)) as (H1 & H2 & H3).
  { intros e' He'. apply register_entry_free, Hf. set_solver. }
  split_and!.
  - intros n Hn. apply H1. by apply is_variable_keep.
  - intros n Hn. by apply H2, register_entry_free.
  - intros e' [->|He']%elem_of_cons; [|by apply H3].
    apply H1, register_entry_variable, Hf. set_solver.
Qed.

Lemma register_all_variable regs sp :
  (∀ reg e, reg ∈ regs → e ∈ registry_entries reg → node_free_or_variable sp (node_id e)) →
  (∀ n, is_variable n sp = true → is_variable n (register_all regs sp) = true) ∧
  (∀ reg e, reg ∈ regs → e ∈ registry_entries reg →
     is_variable (node_id e) (register_all regs sp) = true).
Proof.
  revert sp. induction regs as [|reg regs IH]; intros sp Hf; cbn; [set_solver|].
  destruct (register_entries_variable (registry_entries reg) sp) as (H1 & H2 & H3).
  { intros e He. apply (Hf reg); set_solver. }
  destruct (IH (foldl register_tag_entry sp (registry_entries reg))) as [H4 H5].
  { intros reg' e Hr He. apply H2, (Hf reg'); set_solver. }
  split; [auto|]. intros reg' e [->|Hr]%elem_of_cons He; [by apply H4, H3|by eapply H5].
Qed.

End GatewayServer.

(** ** Writes of OPC UA clients *)
Section Orphans.
Context {NodeId Other Sp Server SocketAddr : Type} `{EqDecision NodeId}.
Context `{AddressSpaceLaws NodeId Other Sp}.
Context (node_manager_space : Server → option Sp) (parse_addr : text → option SocketAddr)
        (network : SocketAddr → TcpConnect Link) (show_node : NodeId → string).

Lemma spawn_loop_orphans i regs addrs (sp : Sp) (acc out : list (@Spawned NodeId Other Sp Link)) :
  spawn_loop parse_addr network i regs addrs sp acc = Ok out →
  Forall (fun p => ∃ client, spawned_task p = spawn client sp 0) acc →
  Forall (fun p => ∃ client, spawned_task p = spawn client sp 0) out.
Proof.
  revert i acc. induction regs as [|reg regs IH]; intros i acc; cbn; [by intros [= <-]|].
  destruct (addrs !! i) as [[addr ms]|]; [|done].
  destruct (parse_addr addr) as [a|]; cbn; [|done].
  destruct (S7Client_connect a _ _) as [client| |]; cbn; [|done..]. intros Ho Ha. eapply IH; [done|].
  apply Forall_app. split; [done|]. apply Forall_singleton. by exists (inner client).
Qed.

(** Writes of OPC UA clients never reach a PLC: [run] drops the only sender
    of each poller's channel, so whatever happens afterwards, a started poller
    handles no command and leaves the memory of its PLC as it was. *)
Theorem gateway_never_writes (gw : @GatewayState NodeId Server) sp
    (ps : list (@Spawned NodeId Other Sp Link)) p c r s t :
  Gateway_start node_manager_space parse_addr network gw = Ok (sp, ps) → p ∈ ps →
  task_client (spawned_task p) = linked c r s →
  Forall entry_ok (registry_entries (spawned_registry p)) →
  rtc (step show_node (spawned_registry p)) (spawned_task p) t →
  handled t = [] ∧ ∃ r' s', task_client t = linked c r' s' ∧ mem_of s' = mem_of s.
Proof.
  unfold Gateway_start. destruct (node_manager_space (server gw)) as [sp0|]; [|done].
  destruct (spawn_loop _ _ _ _ _ _ _) as [out| |] eqn:E; cbn; [|done..].
  intros [= <- <-] Hp Hc Hok Hr. apply spawn_loop_orphans in E; [|done].
  rewrite Forall_forall in E. destruct (E _ Hp) as [client Ht].
  rewrite Ht in Hc, Hr. cbn in Hc. subst client.
  by apply orphan_reachable in Hr as (_ & _ & Hh & Hs & _).
Qed.
End Orphans.

(** ** A gateway for the simulated PLC *)
Definition demo_config : GatewayConfig := {|
  opc_endpoint := str_bytes "opc.tcp://0.0.0.0:4840";
  poll_interval_ms := default_poll_ms;
  plc_addr := Some (str_bytes "127.0.0.1:102");
  tags := Some [ {| spec_tag := str_bytes "DB1,REAL4"; spec_name := str_bytes "Speed";
                    spec_writable := true |} ];
  plcs := None;
  opc_security := OpcSecurityConfig_default |}.
Definition demo_network (_ : text) : TcpConnect Link := ConnectStream (dial DataStore_new) (Ok tt).
Definition demo_new : res Gateway.Error (@GatewayState text unit) :=
  Gateway_new (fun _ n => n) (fun _ => []) (fun _ _ _ => []) (fun _ => "") ""
    (fun _ => Ok []) (fun _ => Ok tt) demo_config.


Definition demo_gateway : @GatewayState text unit := {|
  server := tt; plc_addrs := [(str_bytes "127.0.0.1:102", 1000)];
  registries := [ {| registry_entries := [demo_entry "Speed" DataBlock 1 4 Real] |} ];
  endpoint_url := str_bytes "opc.tcp://0.0.0.0:4840"; write_tx_open := false |}.
Lemma demo_gateway_new : demo_new = Ok demo_gateway.
Proof. vm_compute. reflexivity. Qed.

Lemma gateway_never_writes_witness :
  ∃ sp (p : @Spawned text unit NodeMap Link),
    Gateway_start (fun _ => Some (∅ : NodeMap)) Some demo_network demo_gateway = Ok (sp, [p]) ∧
    handled (set_phase (spawned_task p) Draining) = [].
Proof.
  eexists. eexists. split; [vm_compute; reflexivity|].
  eapply (gateway_never_writes (fun _ => Some (∅ : NodeMap)) Some demo_network (fun _ => "") demo_gateway
    _ _ _ {| pdu_size := 480 |} 1 DataStore_new); [vm_compute; reflexivity|by constructor|reflexivity|..].
  - repeat constructor; by vm_compute.
  - apply rtc_once. left. by apply step_tick.
Defined.
