(* ===== verification/Pool.v ===== *)
(** * The connection pool (snap7-client, pool.rs)

    Tasks call [acquire] and drop the guards it returns, concurrently.  A step
    is a stretch of code that no other task can interleave with: taking or
    returning a semaphore permit, a critical section of the pool's mutex, the
    end of a connection attempt, a use of a client by the task that holds it.
    A client is known by its socket; its state changes while it is held, and
    nothing looks at it when it is returned or handed out again. *)

From stdpp Require Import relations.
From S2P Require Import Prelude Wire Io Connection Client Udp Handle.
Local Open Scope Z_scope.

Record PoolConfig := { max_size : nat; cfg_connect_timeout : Z }.
Definition PoolConfig_default : PoolConfig :=
  {| max_size := 4; cfg_connect_timeout := 5 * 10 ^ 9 |}.

Section Pool.
Context {T : Type} `{Transport T} {SocketAddr : Type}.

(** An open connection: its socket, and the [S7Client] on it. *)
Record Pooled := { socket : nat; pooled_client : S7Client T SocketAddr }.

Record PoolInner := {
  idle : list Pooled;
  pool_addr : SocketAddr;
  pool_params : Params;
  pool_timeout : Z;
}.
Definition with_idle (p : PoolInner) (q : list Pooled) : PoolInner :=
  {| idle := q; pool_addr := pool_addr p; pool_params := pool_params p;
     pool_timeout := pool_timeout p |}.

(** A call of [acquire], up to the end of the guard it returns. *)
Inductive task :=
| Waiting           (* awaiting a permit *)
| Permitted         (* has a permit, has not looked for an idle connection *)
| Connecting        (* found none, is opening one *)
| Holding (c : Pooled)   (* owns a [PooledClient] *)
| Returned          (* the guard's [drop] has run, its permit is still held *)
| Failed (e : Client.Error)   (* [acquire] returned an error *)
| Gone.             (* the guard is gone, or the call was cancelled or unwound *)

Record S7Pool := { pool_inner : PoolInner; semaphore : nat; tasks : list task }.

(** [S7Pool::new]. *)
Definition S7Pool_new (addr : SocketAddr) (connect_params : Params) (cfg : PoolConfig) : S7Pool :=
  {| pool_inner := {| idle := []; pool_addr := addr; pool_params := connect_params;
                      pool_timeout := cfg_connect_timeout cfg |};
     semaphore := max_size cfg; tasks := [] |}.

(** [PooledClient::client]: a guard has its client until it is dropped. *)
Definition PooledClient_client (t : task) : option (S7Client T SocketAddr) :=
  match t with Holding c => Some (pooled_client c) | _ => None end.

(** [inner.idle.pop_front()] and what [acquire] makes of it. *)
Definition take_idle (p : PoolInner) : task * PoolInner :=
  match idle p with
  | c :: q => (Holding c, with_idle p q)
  | [] => (Connecting, p)
  end.

(** The connection attempt under the pool's own timer: [None] is the timer
    running out, [Some outcome] what the socket does, on socket [fd].  [acquire]
    ends with a guard that keeps the permit, or with an error and the permit
    dropped; a peer that makes [connect] panic unwinds the call, which drops the
    permit too. *)
Definition pool_connect (p : PoolInner) (fd : nat) (outcome : option (TcpConnect T)) : task :=
  match outcome with
  | None => Failed (Client.Io TimedOut)
  | Some o =>
      match S7Client_connect (pool_addr p) (pool_params p) o with
      | Ok client => Holding {| socket := fd; pooled_client := client |}
      | Err e => Failed e
      | Panic => Gone
      end
  end.
Definition dropped_permits (t : task) : nat := match t with Holding _ => 0 | _ => 1 end.

(** [PooledClient::drop]: the client goes to the back of the queue. *)
Definition drop_guard (c : Pooled) (p : PoolInner) : PoolInner := with_idle p (idle p ++ [c]).

Definition set_task (s : S7Pool) (i : nat) (t : task) : S7Pool :=
  {| pool_inner := pool_inner s; semaphore := semaphore s; tasks := <[i := t]> (tasks s) |}.
Definition set_inner (s : S7Pool) (p : PoolInner) : S7Pool :=
  {| pool_inner := p; semaphore := semaphore s; tasks := tasks s |}.
Definition set_semaphore (s : S7Pool) (n : nat) : S7Pool :=
  {| pool_inner := pool_inner s; semaphore := n; tasks := tasks s |}.

(** The sockets that are open. *)
Definition client_of (t : task) : list nat := match t with Holding c => [socket c] | _ => [] end.
Definition clients (s : S7Pool) : list nat := (socket <$> idle (pool_inner s)) ++ (tasks s ≫= client_of).

(** What the pool's code does on its own. *)
Inductive pool_internal : S7Pool → S7Pool → Prop :=
| step_permit s i n :
    tasks s !! i = Some Waiting → semaphore s = S n →
    pool_internal s (set_semaphore (set_task s i Permitted) n)
| step_idle s i :
    tasks s !! i = Some Permitted →
    pool_internal s (set_inner (set_task s i (take_idle (pool_inner s)).1)
                       (take_idle (pool_inner s)).2)
| step_connect s i fd outcome :
    tasks s !! i = Some Connecting → fd ∉ clients s →
    let t := pool_connect (pool_inner s) fd outcome in
    pool_internal s (set_semaphore (set_task s i t) (dropped_permits t + semaphore s))
| step_release s i :
    tasks s !! i = Some Returned →
    pool_internal s (set_semaphore (set_task s i Gone) (S (semaphore s))).

(** What its callers do: call [acquire], use a client, drop a guard, and
    cancel a call where it awaits. *)
Inductive pool_caller : S7Pool → S7Pool → Prop :=
| step_acquire s :
    pool_caller s {| pool_inner := pool_inner s; semaphore := semaphore s;
                     tasks := tasks s ++ [Waiting] |}
| step_use s i c c' :
    tasks s !! i = Some (Holding c) → socket c' = socket c →
    pool_caller s (set_task s i (Holding c'))
| step_drop s i c :
    tasks s !! i = Some (Holding c) →
    pool_caller s (set_inner (set_task s i Returned) (drop_guard c (pool_inner s)))
| step_cancel_waiting s i :
    tasks s !! i = Some Waiting → pool_caller s (set_task s i Gone)
| step_cancel_connecting s i :
    tasks s !! i = Some Connecting →
    pool_caller s (set_semaphore (set_task s i Gone) (S (semaphore s))).

Definition pool_step (s s' : S7Pool) : Prop := pool_internal s s' ∨ pool_caller s s'.

(** ** Invariants *)
Definition permit_of (t : task) : list unit :=
  match t with Permitted | Connecting | Holding _ | Returned => [tt] | _ => [] end.
Definition connecting_of (t : task) : list unit := match t with Connecting => [tt] | _ => [] end.

Definition permits_held (s : S7Pool) : nat := length (tasks s ≫= permit_of).
Definition connecting (s : S7Pool) : nat := length (tasks s ≫= connecting_of).

(** Every permit is free or held by one task; the connections that exist or
    are being opened never exceed the size of the pool; and no connection is
    in two places. *)
Definition pool_inv (max : nat) (s : S7Pool) : Prop :=
  (semaphore s + permits_held s)%nat = max ∧
  (length (clients s) + connecting s <= max)%nat ∧
  NoDup (clients s).

(** Holding a connection, or opening one, takes a permit. *)
Lemma holders_permitted ts :
  (length (ts ≫= client_of) + length (ts ≫= connecting_of) <= length (ts ≫= permit_of))%nat.
Proof. induction ts as [|[] ts IH]; cbn in *; lia. Qed.

Lemma pool_inv_new addr params cfg : pool_inv (max_size cfg) (S7Pool_new addr params cfg).
Proof. split_and!; [cbn; lia..|constructor]. Qed.

(** A step that only replaces one task and moves permits and idle connections. *)
Lemma pool_inv_update max s i t t' inner' sem' :
  pool_inv max s → tasks s !! i = Some t →
  (sem' + length (permit_of t') = semaphore s + length (permit_of t))%nat →
  NoDup ((socket <$> idle inner') ++ (<[i := t']> (tasks s) ≫= client_of)) →
  (length (idle inner') + length (client_of t') + length (connecting_of t') <=
   length (idle (pool_inner s)) + length (client_of t) + length (connecting_of t))%nat ∨
   idle inner' = [] →
  pool_inv max {| pool_inner := inner'; semaphore := sem'; tasks := <[i := t']> (tasks s) |}.
Proof.
  intros (Hp & Hc & _) Ht Hsem Hnd Hle.
  pose proof (length_bind_insert permit_of _ _ _ t' Ht).
  pose proof (length_bind_insert client_of _ _ _ t' Ht).
  pose proof (length_bind_insert connecting_of _ _ _ t' Ht).
  pose proof (holders_permitted (<[i := t']> (tasks s))).
  unfold pool_inv, permits_held, connecting, clients in *. cbn in *.
  rewrite !length_app, !length_fmap in *.
  split_and!; [lia| |done]. destruct Hle as [Hle|Hle]; [|rewrite Hle; cbn]; lia.
Qed.

Lemma clients_set_task_none s i t t' :
  tasks s !! i = Some t → client_of t = client_of t' →
  (socket <$> idle (pool_inner s)) ++ (<[i := t']> (tasks s) ≫= client_of) ≡ₚ clients s.
Proof.
  intros Ht Hc. unfold clients. f_equiv.
  pose proof (bind_insert client_of _ _ _ t' Ht) as Hb. rewrite Hc in Hb.
  by apply Permutation_app_inv_l in Hb.
Qed.

Lemma pool_connect_cases p fd outcome :
  (∃ c, pool_connect p fd outcome = Holding c ∧ socket c = fd) ∨
  (∃ e, pool_connect p fd outcome = Failed e) ∨ pool_connect p fd outcome = Gone.
Proof.
  unfold pool_connect. destruct outcome as [o|]; [|by eauto].
  destruct (S7Client_connect _ _ o); [left|by eauto..]. by eexists.
Qed.

Lemma pool_internal_inv max s s' : pool_internal s s' → pool_inv max s → pool_inv max s'.
Proof.
  intros Hstep Hinv. pose proof Hinv as (_ & _ & Hnd).
  destruct Hstep as [s i n Ht Hn|s i Ht|s i fd o Ht Ha t|s i Ht].
  - eapply (pool_inv_update _ s i _ Permitted); [done..|cbn; lia| |left; cbn; lia].
    by rewrite (clients_set_task_none _ _ _ _ Ht).
  - unfold set_inner, set_task, take_idle. cbn.
    destruct (idle (pool_inner s)) as [|c q] eqn:Ei; cbn.
    + eapply (pool_inv_update _ s i _ Connecting); [done..|cbn; lia| |by right].
      rewrite <- (clients_set_task_none _ _ _ Connecting Ht) in Hnd by done. done.
    + eapply (pool_inv_update _ s i _ (Holding c)); [done..|cbn; lia| |left; rewrite Ei; cbn; lia].
      pose proof (bind_insert client_of _ _ _ (Holding c) Ht) as Hb. cbn in *. rewrite Hb.
      revert Hnd. unfold clients. rewrite Ei. cbn. by rewrite Permutation_middle.
  - pose proof (pool_connect_cases (pool_inner s) fd o) as Hc. fold t in Hc.
    eapply (pool_inv_update _ s i _ t); [done..| | |];
      destruct Hc as [(c & -> & Hfd)|[(e & ->)| ->]]; try (cbn; lia); try (left; cbn; lia);
      try (by rewrite (clients_set_task_none _ _ _ _ Ht)).
    pose proof (bind_insert client_of _ _ _ (Holding c) Ht) as Hb. cbn in *. rewrite Hb, Hfd.
    rewrite <- Permutation_middle. by constructor.
  - eapply (pool_inv_update _ s i _ Gone); [done..|cbn; lia| |left; cbn; lia].
    by rewrite (clients_set_task_none _ _ _ _ Ht).
Qed.
Lemma pool_caller_inv max s s' : pool_caller s s' → pool_inv max s → pool_inv max s'.
Proof.
  intros Hstep Hinv. pose proof Hinv as (_ & _ & Hnd).
  destruct Hstep as [s|s i c c' Ht Hc|s i c Ht|s i Ht|s i Ht].
  - destruct Hinv as (Hp & Hc & _). unfold pool_inv, permits_held, connecting, clients in *. cbn.
    rewrite !bind_app. cbn. by rewrite !app_nil_r.
  - eapply (pool_inv_update _ s i _ (Holding c')); [done..| |left; cbn; lia].
    rewrite (clients_set_task_none _ _ _ _ Ht); [done|]. cbn. by rewrite Hc.
  - eapply (pool_inv_update _ s i _ Returned); [done..| |left; cbn; rewrite length_app; cbn; lia].
    pose proof (bind_insert client_of _ _ _ Returned Ht) as Hb. cbn in *.
    rewrite fmap_app, <- (assoc_L (++)). cbn. by rewrite Hb.
  - eapply (pool_inv_update _ s i _ Gone); [done..|cbn; lia| |left; cbn; lia].
    by rewrite (clients_set_task_none _ _ _ _ Ht).
  - eapply (pool_inv_update _ s i _ Gone); [done..|cbn; lia| |left; cbn; lia].
    by rewrite (clients_set_task_none _ _ _ _ Ht).
Qed.

Lemma pool_reachable_inv addr params cfg s :
  rtc pool_step (S7Pool_new addr params cfg) s → pool_inv (max_size cfg) s.
Proof.
  intros Hr. pose proof (pool_inv_new addr params cfg) as H0. revert H0.
  induction Hr as [|x y z [Hi|Hc] _ IH]; eauto using pool_internal_inv, pool_caller_inv.
Qed.

(** C22: the pool is bounded and never loses or shares a connection: in every
    state the tasks can reach, free permits and permits held add up to
    [max_size], the connections idle, in use or being opened are at most
    [max_size], no connection is held by two tasks or both held and idle, and
    if no permit is free some task holds one. *)
Theorem pool_safe addr params cfg s :
  rtc pool_step (S7Pool_new addr params cfg) s →
  (semaphore s + permits_held s)%nat = max_size cfg ∧
  (length (clients s) + connecting s <= max_size cfg)%nat ∧
  NoDup (clients s) ∧
  (semaphore s = 0%nat → (0 < max_size cfg)%nat →
   ∃ i t, tasks s !! i = Some t ∧ permit_of t ≠ []).
Proof.
  intros Hr. destruct (pool_reachable_inv _ _ _ _ Hr) as (H1 & H2 & H3).
  split_and!; [done..|]. intros Hs Hmax. rewrite Hs in H1. unfold permits_held in H1.
  assert ((tasks s ≫= permit_of) ≠ []) as Hne by (intros E; rewrite E in H1; cbn in H1; lia).
  destruct (tasks s ≫= permit_of) as [|u l] eqn:E; [done|].
  assert (u ∈ tasks s ≫= permit_of) as Hu by (rewrite E; apply elem_of_cons; by left).
  apply list_elem_of_bind in Hu as (t & Ht & Hin).
  apply list_elem_of_lookup in Hin as [i Hi]. exists i, t. split; [done|].
  intros Ep. rewrite Ep in Ht. by apply elem_of_nil in Ht.
Qed.

(** ** Progress *)

(** How many steps a call can still take on its own. *)
Definition work_of (t : task) : list unit :=
  match t with
  | Waiting => [tt; tt; tt]
  | Permitted => [tt; tt]
  | Connecting | Returned => [tt]
  | _ => []
  end.
Definition pool_work (s : S7Pool) : nat := length (tasks s ≫= work_of).
Definition holding (s : S7Pool) : nat := length (tasks s ≫= client_of).

Lemma pool_internal_work s s' : pool_internal s s' → (pool_work s' < pool_work s)%nat.
Proof.
  assert (∀ s i t t', tasks s !! i = Some t → (length (work_of t') < length (work_of t))%nat →
    (length (<[i := t']> (tasks s) ≫= work_of) < pool_work s)%nat) as Hset.
  { intros s0 i t t' Ht Hl. pose proof (length_bind_insert work_of _ _ _ t' Ht).
    unfold pool_work. lia. }
  destruct 1 as [s i n Ht Hn|s i Ht|s i fd o Ht Ha t|s i Ht]; unfold pool_work at 1;
    cbn [set_semaphore set_inner set_task tasks]; eapply Hset; try done; cbn; try lia.
  - unfold take_idle. destruct (idle (pool_inner s)); cbn; lia.
  - destruct (pool_connect_cases (pool_inner s) fd o) as [(c & E & _)|[(e & E)|E]];
      subst t; rewrite E; cbn; lia.
Qed.
Lemma pool_internals_work n s s' :
  nsteps pool_internal n s s' → (n + pool_work s' <= pool_work s)%nat.
Proof. induction 1 as [|n x y z Hx _ IH]; [lia|]. apply pool_internal_work in Hx. lia. Qed.

(** A call that can take no step of its own waits for a permit, has returned,
    or holds a client. *)
Definition settled (t : task) : Prop :=
  match t with Permitted | Connecting | Returned => False | _ => True end.
Lemma pool_stuck_settled s : (∀ s', ¬ pool_internal s s') → Forall settled (tasks s).
Proof.
  intros Hno. apply Forall_lookup. intros i t Hi. destruct t; try done.
  - destruct (Hno _ (step_idle _ _ Hi)).
  - destruct (Hno _ (step_connect _ _ (fresh (clients s)) None Hi (infinite_is_fresh _))).
  - destruct (Hno _ (step_release _ _ Hi)).
Qed.
Lemma settled_permits ts : Forall settled ts → length (ts ≫= permit_of) = length (ts ≫= client_of).
Proof. induction 1 as [|t ts Ht _ IH]; [done|]. destruct t; cbn in *; try done; lia. Qed.

(** C23: the pool cannot get stuck: from every state that can be reached, its
    own steps are at most three for each call; and when there is none left,
    every call has returned, holds a client or waits, the permits that are not
    free are those of the clients held, and a call waits only if [max_size]
    clients are held. *)
Theorem pool_live addr params cfg s :
  rtc pool_step (S7Pool_new addr params cfg) s →
  (∀ n s', nsteps pool_internal n s s' → (n <= pool_work s)%nat) ∧
  (∀ s', rtc pool_internal s s' → (∀ s'', ¬ pool_internal s' s'') →
     Forall settled (tasks s') ∧ (semaphore s' + holding s')%nat = max_size cfg ∧
     (Waiting ∈ tasks s' → holding s' = max_size cfg)).
Proof.
  intros Hr. split; [intros n s' Hn%pool_internals_work; lia|].
  intros s' Hs' Hno. pose proof (pool_stuck_settled s' Hno) as Hset.
  assert (pool_inv (max_size cfg) s') as (Hp & _ & _).
  { apply pool_reachable_inv in Hr. revert Hr. clear -Hs'.
    induction Hs'; eauto using pool_internal_inv. }
  unfold permits_held in Hp. rewrite settled_permits in Hp by done. split_and!; [done..|].
  intros [i Hi]%list_elem_of_lookup. unfold holding. destruct (semaphore s') as [|n] eqn:E; [lia|].
  destruct (Hno _ (step_permit s' i n Hi E)).
Qed.

(** ** A call on its own

    [acquire] by a caller nobody interferes with; [None] where it would wait
    for a permit. *)
Definition acquire (fd : nat) (outcome : option (TcpConnect T)) (s : S7Pool) : option (task * S7Pool) :=
  match semaphore s with
  | O => None
  | S n =>
      let '(t, p) :=
        match take_idle (pool_inner s) with
        | (Connecting, p) => (pool_connect p fd outcome, p)
        | tp => tp
        end in
      Some (t, {| pool_inner := p; semaphore := dropped_permits t + n; tasks := tasks s ++ [t] |})
  end.

(** It is a run of the steps. *)
Lemma acquire_steps fd outcome s t s' :
  acquire fd outcome s = Some (t, s') → fd ∉ clients s → rtc pool_step s s'.
Proof.
  unfold acquire. destruct (semaphore s) as [|n] eqn:En; [done|].
  assert (∀ (x : task) l, (l ++ [x]) !! length l = Some x) as Hlast
    by (intros; by rewrite lookup_app_r, Nat.sub_diag by lia).
  assert (∀ (x y : task) l, <[length l := y]> (l ++ [x]) = l ++ [y]) as Hset.
  { intros x y l. rewrite insert_app_r_alt, Nat.sub_diag by lia. done. }
  intros Ha Hfd.
  eapply rtc_l; [right; apply step_acquire|].
  eapply rtc_l; [left; apply (step_permit _ (length (tasks s)) n); [apply Hlast|done]|].
  unfold set_semaphore, set_task. cbn [pool_inner tasks semaphore]. rewrite Hset.
  eapply rtc_l; [left; apply (step_idle _ (length (tasks s))), Hlast|].
  unfold set_inner, set_task. cbn [pool_inner tasks semaphore]. rewrite Hset. revert Ha.
  unfold take_idle. destruct (idle (pool_inner s)) as [|c q] eqn:Eq; cbn [fst snd].
  - intros [= <- <-]. eapply rtc_l; [left; apply (step_connect _ (length (tasks s)) fd outcome)|].
    + apply Hlast.
    + unfold clients in *. cbn. rewrite bind_app. cbn. by rewrite app_nil_r.
    + unfold set_semaphore, set_task. cbn. by rewrite Hset.
  - intros [= <- <-]. done.
Qed.

(** ** Reuse

    A returned client is handed out again as it is: the next call that finds
    the queue ahead of it empty gets it, also when its connection is lost. *)
Theorem returned_client_reused s i j c :
  idle (pool_inner s) = [] → tasks s !! i = Some (Holding c) → tasks s !! j = Some Permitted →
  let s1 := set_inner (set_task s i Returned) (drop_guard c (pool_inner s)) in
  let s2 := set_inner (set_task s1 j (take_idle (pool_inner s1)).1) (take_idle (pool_inner s1)).2 in
  pool_step s s1 ∧ pool_step s1 s2 ∧ tasks s2 !! j = Some (Holding c).
Proof.
  intros Hq Hi Hj s1 s2. assert (i ≠ j) as Hij by (intros ->; congruence).
  assert (tasks s1 !! j = Some Permitted) as Hj1 by (cbn; by rewrite list_lookup_insert_ne).
  split_and!.
  - right. by apply step_drop.
  - left. by apply step_idle.
  - subst s2. unfold take_idle, s1. cbn. rewrite Hq. cbn. apply list_lookup_insert_eq.
    rewrite length_insert. by eapply lookup_lt_Some.
Qed.
End Pool.
Arguments task : clear implicits.
Arguments S7Pool : clear implicits.

(** A pool of one on byte streams: a call whose peer refuses, and one that
    waits for its permit. *)
Definition demo_pool : S7Pool Pipe unit :=
  {| pool_inner := {| idle := []; pool_addr := tt; pool_params := Params_default; pool_timeout := 5 |};
     semaphore := 1; tasks := [Failed Client.ConnectionRefused; Waiting] |}.
Lemma demo_pool_reachable :
  rtc pool_step (S7Pool_new tt Params_default {| max_size := 1; cfg_connect_timeout := 5 |}) demo_pool.
Proof.
  eapply rtc_l; [right; by apply step_acquire|]. eapply rtc_l; [left; by eapply (step_permit _ 0)|].
  eapply rtc_l; [left; by eapply (step_idle _ 0)|].
  eapply rtc_l; [left; eapply (step_connect _ 0 3 (Some ConnectFailed)); [done|by cbn; apply not_elem_of_nil]|].
  eapply rtc_l; [right; by apply step_acquire|]. apply rtc_refl.
Qed.

Lemma pool_safe_witness :
  (length (clients demo_pool) + connecting demo_pool <= 1)%nat ∧ NoDup (clients demo_pool).
Proof.
  destruct (pool_safe tt Params_default {| max_size := 1; cfg_connect_timeout := 5 |} demo_pool
              demo_pool_reachable) as (_ & H2 & H3 & _).
  split; [exact H2|exact H3].
Defined.

Lemma pool_live_witness :
  pool_work demo_pool = 3%nat ∧ (∀ n s', nsteps pool_internal n demo_pool s' → (n <= 3)%nat).
Proof.
  split; [reflexivity|].
  apply (pool_live tt Params_default {| max_size := 1; cfg_connect_timeout := 5 |} demo_pool
           demo_pool_reachable).
Defined.
