(* ===== verification/PlusOpen.v ===== *)
(** * Opening an S7CommPlus client (snap7-client, tls.rs and plus_client.rs)

    The TLS library is a parameter: certificate stores, server names, the
    configuration and the TLS handshake over an open socket.  The crypto
    provider of the process is state: the first one installed stays.  What
    opening a TCP socket gives is an argument.  The messages inside the I/O
    errors are not kept. *)

From S2P Require Import Prelude Wire Io PlusWire Connection PlusClient Tag Udp Handle.
Local Open Scope Z_scope.

(** The operations of [rustls] that tls.rs uses. *)
Class Tls (Provider Certs ServerName Config Tcp T : Type) := {
  ring : Provider;
  no_certs : Certs;
  webpki_roots : Certs → Certs;
  add_cert : bytes → Certs → option Certs;
  client_config : Provider → Certs → Config;
  server_name_of : text → option ServerName;
  tls_handshake : Config → ServerName → Tcp → res IoError T;
}.

Section Open.
Context {Provider Certs ServerName Config Tcp T : Type}.
Context `{!Tls Provider Certs ServerName Config Tcp T, !Transport T}.
Context {SocketAddr : Type}.

(** [install_default]: fails, without effect, when a provider is installed. *)
Definition install_default (installed : option Provider) : option Provider :=
  match installed with Some p => Some p | None => Some ring end.

(** [ClientConfig::builder] panics when the process has no provider. *)
Definition build_config (installed : option Provider) (roots : Certs) : res Client.Error Config :=
  match installed with Some p => Ok (client_config p roots) | None => Panic end.

Definition make_tls_config (extra_ca_der : option bytes) (installed : option Provider)
  : res Client.Error Config * option Provider :=
  let installed := install_default installed in
  let root_store := webpki_roots no_certs in
  match extra_ca_der with
  | None => (build_config installed root_store, installed)
  | Some ca =>
      match add_cert ca root_store with
      | Some root_store => (build_config installed root_store, installed)
      | None => (Err (Client.Io InvalidData), installed)
      end
  end.

(** [tls_connect]; the outcome of [TcpStream::connect] is [tcp]. *)
Definition tls_connect (server_name : text) (extra_ca_der : option bytes) (tcp : res IoError Tcp)
    (installed : option Provider) : res Client.Error T * option Provider :=
  let '(config, installed) := make_tls_config extra_ca_der installed in
  (let? config := config in
   let? tcp := res_map_err Client.Io tcp in
   match server_name_of server_name with
   | Some name => res_map_err Client.Io (tls_handshake config name tcp)
   | None => Err (Client.Io InvalidInput)
   end, installed).

(** Session set-up on an open transport, as both [connect]s end. *)
Definition plus_open (transport : T) : res Client.Error (PlusInner T) :=
  let '(conn, transport) := plus_connect transport in
  let? conn := conn in
  Ok {| pi_transport := transport; pi_conn := conn |}.

(** [S7PlusClient::connect] over TCP. *)
Definition S7PlusClient_connect (addr : SocketAddr) (p : Params) (outcome : TcpConnect T)
  : res Client.Error (PlusInner T) :=
  let? transport := TcpTransport_connect outcome in
  plus_open transport.

(** [S7PlusClient::connect_tls]. *)
Definition S7PlusClient_connect_tls (server_name : text) (extra_ca_der : option bytes) (p : Params)
    (tcp : res IoError Tcp) (installed : option Provider)
  : res Client.Error (PlusInner T) * option Provider :=
  let '(transport, installed) := tls_connect server_name extra_ca_der tcp installed in
  (let? transport := transport in plus_open transport, installed).

(** ** Correctness *)

(** The certificates an attempt trusts; [None] when the extra one is refused. *)
Definition trusted (extra_ca_der : option bytes) : option Certs :=
  match extra_ca_der with
  | None => Some (webpki_roots no_certs)
  | Some ca => add_cert ca (webpki_roots no_certs)
  end.

Lemma make_tls_config_cases extra_ca_der installed :
  let provider := default ring installed in
  make_tls_config extra_ca_der installed =
  (match trusted extra_ca_der with
   | Some roots => Ok (client_config provider roots)
   | None => Err (Client.Io InvalidData)
   end, Some provider).
Proof.
  unfold make_tls_config, trusted.
  destruct installed, extra_ca_der as [ca|]; cbn; try done; by destruct (add_cert ca _).
Qed.

End Open.

(** C27: over TCP and over TLS the opened client is the same: when the socket (and
    the TLS stream over it) opens and the PLC answers the set-up with session
    [sid] in version [v], the client has sent the one set-up request, has
    consumed the answer and nothing more, and is ready for a request with that
    session and sequence number 2. *)
Theorem plus_open_transports {Provider Certs ServerName Config Tcp : Type}
    `{!Tls Provider Certs ServerName Config Tcp Pipe} {SocketAddr : Type} (addr : SocketAddr)
    name extra_ca_der p socket installed roots sni fc q sid fl pay v rest :
  u16 fc → u16 q → u32 sid → u8 fl → 12 + blen (plus_reply fc q sid fl pay) <= 65535 →
  let stream := {| rx := plus_packet v (plus_reply fc q sid fl pay) ++ rest; tx := [] |} in
  trusted extra_ca_der = Some roots → server_name_of name = Some sni →
  tls_handshake (client_config (default ring installed) roots) sni socket = Ok stream →
  let client := {| pi_transport := {| rx := rest; tx := plus_packet V1 (CreateObjectRequest_encode 1) |};
                   pi_conn := {| pc_session_id := sid; pc_seqnum := 2; pc_version := v |} |} in
  S7PlusClient_connect addr p (ConnectStream stream (Ok tt)) = Ok client ∧
  (S7PlusClient_connect_tls name extra_ca_der p (Ok socket) installed).1 = Ok client.
Proof.
  intros Hf Hq Hs Ht Hl stream Hr Hn Hh client.
  assert (plus_open stream = Ok client) as E.
  { unfold plus_open, stream. by rewrite plus_connect_ok. }
  split; [exact E|]. unfold S7PlusClient_connect_tls, tls_connect.
  rewrite make_tls_config_cases, Hr. cbn. rewrite Hn. cbn. by rewrite Hh.
Qed.

(** A library that trusts what it is given, with a PLC that answers the
    set-up with session 77. *)
#[local] Instance sample_tls (reply : bytes) : Tls unit (list bytes) text unit unit Pipe := {
  ring := tt; no_certs := []; webpki_roots certs := certs; add_cert ca certs := Some (ca :: certs);
  client_config _ _ := tt; server_name_of name := if decide (name = []) then None else Some name;
  tls_handshake _ _ _ := Ok {| rx := reply; tx := [] |};
}.

Lemma plus_open_transports_witness :
  let reply := plus_packet V1 (plus_reply 0 1 77 0 []) in
  (S7PlusClient_connect_tls (Tls0 := sample_tls (reply ++ [9])) (str_bytes "plc") (Some [1]) Params_default
     (Ok tt) None).1 =
  Ok {| pi_transport := {| rx := [9]; tx := plus_packet V1 (CreateObjectRequest_encode 1) |};
        pi_conn := {| pc_session_id := 77; pc_seqnum := 2; pc_version := V1 |} |}.
Proof.
  intros reply.
  eapply (plus_open_transports (Tls0 := sample_tls (reply ++ [9])) tt (str_bytes "plc") (Some [1])
            Params_default tt None [[1]] (str_bytes "plc") 0 1 77 0 [] V1 [9]);
    [unwidth; lia..|by vm_compute|reflexivity|reflexivity|reflexivity].
Defined.
