(* ===== verification/Watch.v ===== *)
(** * The watch command (snap7-cli, cmd/watch.rs)

    [watch] reads a range of a data block at every tick and prints it with a
    time stamp, every time or when it changed.  The time stamp is computed by
    Hinnant's algorithm; the client computes the dates of [set_clock_to_now] by
    counting years and months.  The two are proved to agree. *)

From S2P Require Import Prelude Wire Io S7Header Clock Connection Client ClientServices Tag Text.
Local Open Scope Z_scope.

(** ** Time stamps *)
Definition seconds_to_ymd_hms (secs : Z) : Z * Z * Z * Z * Z * Z :=
  let sec := secs mod 60 in
  let mins := secs / 60 in
  let min := mins mod 60 in
  let hours := mins / 60 in
  let hour := hours mod 24 in
  let days := hours / 24 in
  let z := days + 719468 in
  let era := z / 146097 in
  let doe := z mod 146097 in
  let yoe := (doe - doe / 1460 + doe / 36524 - doe / 146096) / 365 in
  let y := yoe + era * 400 in
  let doy := doe - (365 * yoe + yoe / 4 - yoe / 100) in
  let mp := (5 * doy + 2) / 153 in
  let d := doy - (153 * mp + 2) / 5 + 1 in
  let m := if mp <? 10 then mp + 3 else mp - 9 in
  let y := if m <=? 2 then y + 1 else y in
  (y, m, d, hour, min, sec).

(** [iso8601_now], at Unix time [secs]. *)
Definition iso8601_now (secs : Z) : text :=
  let '(y, mo, d, h, mi, sec) := seconds_to_ymd_hms secs in
  format_dec 4 y ++ str_bytes "-" ++ format_dec 2 mo ++ str_bytes "-" ++ format_dec 2 d ++
  str_bytes "T" ++ format_dec 2 h ++ str_bytes ":" ++ format_dec 2 mi ++ str_bytes ":" ++
  format_dec 2 sec ++ str_bytes "Z".

(** ** The loop *)
Record WatchArgs := {
  watch_db : Z;
  watch_offset : Z;
  watch_size : Z;
  interval_ms : Z;
  changes_only : bool;
}.

(** What the command has printed, on the two streams, and the last data it
    printed. *)
Record WatchState := { prev : option bytes; stdout : list text; read_errors : nat }.
Definition watch_start : WatchState := {| prev := None; stdout := []; read_errors := 0 |}.

(** What a tick does with the outcome of its read. *)
Definition watch_outcome (args : WatchArgs) (secs : Z) (r : res Client.Error bytes) (w : WatchState)
    : WatchState :=
  match r with
  | Ok data =>
      let changed := match prev w with None => true | Some p => negb (bool_decide (p = data)) end in
      if changed || negb (changes_only args) then
        {| prev := Some data; read_errors := read_errors w;
           stdout := stdout w ++ [iso8601_now secs ++ str_bytes "  " ++ hex_bytes data] |}
      else w
  | _ => {| prev := prev w; stdout := stdout w; read_errors := S (read_errors w) |}
  end.

Section Watch.
Context {T : Type} `{Transport T}.

(** The ticks at the given times, until the user stops the command. *)
Fixpoint watch_loop (args : WatchArgs) (ticks : list Z) (w : WatchState) : Cl T WatchState :=
  match ticks with
  | [] => io_ret w
  | secs :: ticks => fun i =>
      let '(r, i') := S7Client_db_read (watch_db args) (watch_offset args) (watch_size args) i in
      match r with
      | Panic => (Panic, i')
      | _ => watch_loop args ticks (watch_outcome args secs r w) i'
      end
  end.
Definition watch_run (args : WatchArgs) (ticks : list Z) : Cl T WatchState :=
  watch_loop args ticks watch_start.
End Watch.

(** ** The dates *)
Lemma year_of_era doe :
  0 <= doe < 146097 →
  let yoe := (doe - doe / 1460 + doe / 36524 - doe / 146096) / 365 in
  let doy := doe - (365 * yoe + yoe / 4 - yoe / 100) in
  0 <= yoe < 400 ∧ 0 <= doy <= 365 ∧
  (doy = 365 → (yoe + 1) mod 4 = 0 ∧ ((yoe + 1) mod 100 ≠ 0 ∨ (yoe + 1) mod 400 = 0)).
Proof.
  intros H. cbv zeta.
  assert (0 <= doe / 36524 <= 4 ∧ 0 <= doe / 146096 <= 1) by (Z.div_mod_to_equations; lia).
  split_and!; [Z.div_mod_to_equations; lia..|].
  intros Hd. split; [Z.div_mod_to_equations; lia|].
  Z.div_mod_to_equations; lia.
Qed.
Lemma leap_shift yoe era k : is_leap (yoe + era * 400 + k) = is_leap (yoe + k).
Proof.
  unfold is_leap. f_equal; [f_equal; [|f_equal]|]; f_equal; Z.div_mod_to_equations; lia.
Qed.
Lemma leap_365 n : n mod 4 = 0 ∧ (n mod 100 ≠ 0 ∨ n mod 400 = 0) → is_leap n = true.
Proof. unfold is_leap. lia. Qed.

Definition days_of_ymd (y m d : Z) : Z :=
  days_before_year y + days_before_month (is_leap y) m + (d - 1).

(** Evaluates the closed comparisons and month sums of a goal. *)
Ltac eval_closed :=
  repeat match goal with
  | |- context [?a <=? ?b] => let v := eval vm_compute in (a <=? b) in change (a <=? b) with v
  | |- context [?a <? ?b] => let v := eval vm_compute in (a <? b) in change (a <? b) with v
  | |- context [days_before_month true ?m] =>
      let v := eval vm_compute in (days_before_month true m) in change (days_before_month true m) with v
  | |- context [days_before_month false ?m] =>
      let v := eval vm_compute in (days_before_month false m) in change (days_before_month false m) with v
  | H : context [(?a + 2) / 5] |- _ => 
      let v := eval vm_compute in ((a + 2) / 5) in change ((a + 2) / 5) with v in H
  end; cbv iota.

(** A month of a year that starts in March. *)
Lemma month_of_doy (y doy : Z) :
  0 <= doy <= 365 → (doy = 365 → is_leap (y + 1) = true) →
  let mp := (5 * doy + 2) / 153 in
  let d := doy - (153 * mp + 2) / 5 + 1 in
  let m := if mp <? 10 then mp + 3 else mp - 9 in
  let y' := if m <=? 2 then y + 1 else y in
  1 <= m <= 12 ∧
  (∃ dim, days_per_month (is_leap y') !! Z.to_nat (m - 1) = Some dim ∧ 1 <= d <= dim) ∧
  days_of_ymd y' m d = days_before_year y + (if is_leap y then 60 else 59) + doy.
Proof.
  intros Hd Hl mp d. 
  assert (mp ∈ [0;1;2;3;4;5;6;7;8;9;10;11]) as Hmp.
  { assert (0 <= mp <= 11) by (subst mp; Z.div_mod_to_equations; lia).
    rewrite !elem_of_cons. lia. }
  assert (d = doy - (153 * mp + 2) / 5 + 1) as Ed by done.
  assert (153 * mp <= 5 * doy + 2 < 153 * mp + 153) as Em by (subst mp; Z.div_mod_to_equations; lia).
  clearbody mp d.
  repeat (apply elem_of_cons in Hmp as [->|Hmp]); [..|by apply not_elem_of_nil in Hmp];
    (split; [by vm_compute|]); (split; [eexists; split; [reflexivity|]|]);
    unfold days_of_ymd; eval_closed; rewrite ?days_before_year_succ; unfold days_in_year.
  all: try (destruct (is_leap y); eval_closed; lia).
  all: destruct (is_leap y), (is_leap (y + 1)); eval_closed; lia.
Qed.

(** Dates of whole days. *)
Lemma civil_from_days days :
  0 <= days →
  let z := days + 719468 in
  let era := z / 146097 in
  let doe := z mod 146097 in
  let yoe := (doe - doe / 1460 + doe / 36524 - doe / 146096) / 365 in
  let y := yoe + era * 400 in
  let doy := doe - (365 * yoe + yoe / 4 - yoe / 100) in
  0 <= doy <= 365 ∧ (doy = 365 → is_leap (y + 1) = true) ∧
  days_before_year y + (if is_leap y then 60 else 59) + doy = days ∧ 1969 <= y.
Proof.
  intros Hd z era doe yoe y doy.
  assert (0 <= doe < 146097) as Hdoe by (apply Z.mod_pos_bound; lia).
  destruct (year_of_era doe Hdoe) as (Hy & Hdoy & Hl). fold yoe in Hy, Hdoy, Hl. fold doy in Hdoy, Hl.
  assert (z = 146097 * era + doe) as Hz by (apply Z.div_mod; lia).
  assert (z = days + 719468) as Ez by done. subst y doy. clearbody z era doe yoe.
  split_and!; [lia..| | |].
  - intros H. rewrite leap_shift. by apply leap_365, Hl.
  - clear Hdoy Hl Hdoe. unfold days_before_year, is_leap.
    destruct (Z.eqb_spec ((yoe + era * 400) mod 4) 0), (Z.eqb_spec ((yoe + era * 400) mod 100) 0),
      (Z.eqb_spec ((yoe + era * 400) mod 400) 0); cbn [negb andb orb]; Z.div_mod_to_equations; lia.
  - Z.div_mod_to_equations; lia.
Qed.

(** ** A day has one date *)
Lemma days_before_year_mono y y' : y < y' → days_before_year y + days_in_year y <= days_before_year y'.
Proof.
  intros H. rewrite <- days_before_year_succ. unfold days_before_year.
  Z.div_mod_to_equations; lia.
Qed.

Definition date_in_month (leap : bool) (m d : Z) : Prop :=
  1 <= m <= 12 ∧ ∃ dim, days_per_month leap !! Z.to_nat (m - 1) = Some dim ∧ 1 <= d <= dim.

Lemma days_before_month_mono leap m m' d :
  date_in_month leap m d → 1 <= m' <= 12 → m < m' →
  days_before_month leap m + d <= days_before_month leap m'.
Proof.
  intros (Hm & dim & Hdim & Hd) Hm' Hlt.
  unfold days_before_month. replace (Z.to_nat (m' - 1)) with (S (Z.to_nat (m - 1)) + Z.to_nat (m' - m - 1))%nat by lia.
  rewrite <- take_take_drop, (take_S_r _ _ _ Hdim), <- app_assoc, !foldr_app. cbn [foldr].
  assert (∀ l, Forall (fun x => 0 <= x) l → 0 <= foldr Z.add 0 l) as Hpos.
  { intros l Hl. induction Hl; cbn; lia. }
  assert (∀ l a, foldr Z.add a l = foldr Z.add 0 l + a) as Hacc.
  { intros l a. induction l as [|x l IH]; cbn; [lia|]. rewrite IH. lia. }
  rewrite (Hacc (take (Z.to_nat (m - 1)) _) (dim + _)).
  assert (0 <= foldr Z.add 0 (take (Z.to_nat (m' - m - 1)) (drop (S (Z.to_nat (m - 1))) (days_per_month leap)))).
  { apply Hpos, Forall_take, Forall_drop. eapply Forall_impl; [apply days_per_month_range|]. cbn. lia. }
  lia.
Qed.

Lemma date_in_month_range leap m d :
  date_in_month leap m d → 0 <= days_before_month leap m + (d - 1) < if leap then 366 else 365.
Proof.
  intros (Hm & dim & Hdim & Hd).
  assert (m ∈ [1;2;3;4;5;6;7;8;9;10;11;12]) as Hin by (rewrite !elem_of_cons; lia).
  repeat (apply elem_of_cons in Hin as [->|Hin]); [..|by apply not_elem_of_nil in Hin];
    destruct leap; injection Hdim as <-; eval_closed; lia.
Qed.

Lemma ymd_unique y m d y' m' d' :
  date_in_month (is_leap y) m d → date_in_month (is_leap y') m' d' →
  days_of_ymd y m d = days_of_ymd y' m' d' → y = y' ∧ m = m' ∧ d = d'.
Proof.
  unfold days_of_ymd. intros H1 H2 He.
  pose proof (date_in_month_range _ _ _ H1) as R1. pose proof (date_in_month_range _ _ _ H2) as R2.
  assert (y = y') as <-.
  { destruct (Z.lt_trichotomy y y') as [Hlt|[?|Hlt]]; [|done|].
    - pose proof (days_before_year_mono _ _ Hlt). unfold days_in_year in *. destruct (is_leap y); lia.
    - pose proof (days_before_year_mono _ _ Hlt). unfold days_in_year in *. destruct (is_leap y'); lia. }
  split; [done|].
  assert (m = m') as <-; [|split; [done|lia]].
  destruct (Z.lt_trichotomy m m') as [Hlt|[?|Hlt]]; [|done|].
  - pose proof (days_before_month_mono _ _ m' _ H1 (proj1 H2) Hlt). destruct H2 as (_ & ? & _ & ?). lia.
  - pose proof (days_before_month_mono _ _ m _ H2 (proj1 H1) Hlt). destruct H1 as (_ & ? & _ & ?). lia.
Qed.

Lemma seconds_to_ymd_hms_spec secs :
  0 <= secs →
  ∃ y m d, seconds_to_ymd_hms secs = (y, m, d, secs / 60 / 60 mod 24, secs / 60 mod 60, secs mod 60) ∧
    date_in_month (is_leap y) m d ∧ days_of_ymd y m d = secs / 60 / 60 / 24.
Proof.
  intros Hs. unfold seconds_to_ymd_hms. cbv zeta.
  destruct (civil_from_days (secs / 60 / 60 / 24)) as (H1 & H2 & H3 & _).
  { rewrite !Z.div_div by lia. apply Z.div_pos; lia. }
  destruct (month_of_doy _ _ H1 H2) as (Hm & Hdim & Hday).
  do 3 eexists. split; [reflexivity|]. split; [exact (conj Hm Hdim)|]. etrans; [exact Hday|exact H3].
Qed.

(** C31: the two date algorithms of the project agree: for every Unix time below
    2^40 the year, month, day, hour, minute and second of a watch time stamp
    are those that [set_clock_to_now] sends to a PLC. *)
Theorem date_algorithms_agree secs :
  0 <= secs < 2 ^ 40 →
  let d := date_of_secs secs in
  seconds_to_ymd_hms secs = (year d, month d, day d, hour d, minute d, second d).
Proof.
  intros Hs d. destruct (date_of_secs_spec secs Hs) as ((Hm & Hdim & Hh & Hmi & Hse) & Hsecs & _).
  fold d in Hm, Hdim, Hh, Hmi, Hse, Hsecs. clearbody d. unfold secs_of_date in Hsecs.
  assert (days_of_ymd (year d) (month d) (day d) = secs / 60 / 60 / 24) as Hdays.
  { unfold days_of_ymd. rewrite !Z.div_div by lia.
    apply (Z.div_unique_pos secs (60 * 60 * 24) _ (hour d * 3600 + minute d * 60 + second d)); lia. }
  assert (second d = secs mod 60 ∧ minute d = secs / 60 mod 60 ∧ hour d = secs / 60 / 60 mod 24)
    as (Es & Emi & Eh) by (rewrite Z.div_div by lia; Z.div_mod_to_equations; lia).
  destruct (seconds_to_ymd_hms_spec secs) as (y & m & dd & -> & Hdate & Hday); [lia|].
  rewrite <- Hdays in Hday.
  destruct (ymd_unique _ _ _ _ _ _ Hdate (conj Hm Hdim) Hday) as (-> & -> & ->).
  by rewrite Es, Emi, Eh.
Qed.

Lemma date_algorithms_agree_witness :
  seconds_to_ymd_hms 1746187200 = (2025, 5, 2, 12, 0, 0).
Proof. etrans; [apply (date_algorithms_agree 1746187200); lia|]. vm_compute. reflexivity. Defined.

(** ** What is printed *)
Fixpoint changes (last : option bytes) (l : list bytes) : list bytes :=
  match l with
  | [] => []
  | x :: r => if bool_decide (last = Some x) then changes last r else x :: changes (Some x) r
  end.

(** The data of the successful reads. *)
Definition read_data (rs : list (Z * res Client.Error bytes)) : list bytes :=
  omap (fun '(_, r) => match r with Ok d => Some d | _ => None end) rs.

Definition watch_line (secs : Z) (data : bytes) : text :=
  iso8601_now secs ++ str_bytes "  " ++ hex_bytes data.
Definition watch_outcomes (args : WatchArgs) (w : WatchState) (rs : list (Z * res Client.Error bytes))
    : WatchState :=
  foldl (fun w '(secs, r) => watch_outcome args secs r w) w rs.

Lemma read_data_cons t r rs :
  read_data ((t, r) :: rs) = match r with Ok d => d :: read_data rs | _ => read_data rs end.
Proof. by destruct r. Qed.

Lemma watch_outcomes_cons args w t r rs :
  watch_outcomes args w ((t, r) :: rs) = watch_outcomes args (watch_outcome args t r w) rs.
Proof. done. Qed.

Lemma watch_outcomes_spec args rs w :
  ∃ ts, stdout (watch_outcomes args w rs) =
          stdout w ++ zip_with watch_line ts
            (if changes_only args then changes (prev w) (read_data rs) else read_data rs) ∧
    length ts = length (if changes_only args then changes (prev w) (read_data rs) else read_data rs) ∧
    ts `sublist_of` rs.*1 ∧
    (read_errors (watch_outcomes args w rs) + length (read_data rs) = read_errors w + length rs)%nat.
Proof.
  revert w. induction rs as [|[secs r] rs IH]; intros w.
  { exists []. cbn. rewrite app_nil_r. by destruct (changes_only args). }
  destruct (IH (watch_outcome args secs r w)) as (ts & Ho & Hl & Hs & He).
  rewrite watch_outcomes_cons, read_data_cons. cbn [fmap list_fmap fst length].
  destruct r as [data|e|]; cbn [watch_outcome] in *.
  2,3: exists ts; split_and!; [exact Ho|exact Hl|by constructor|cbn [read_errors] in He; lia].
  assert (match prev w with None => true | Some p => negb (bool_decide (p = data)) end =
          negb (bool_decide (prev w = Some data))) as Hch.
  { destruct (prev w) as [p|]; [|done]. f_equal. apply bool_decide_ext. split; congruence. }
  rewrite Hch in *. cbn [changes].
  destruct (changes_only args) eqn:Eo; cbn [negb orb] in *.
  - case_bool_decide as Hp; cbn [negb orb] in *.
    + exists ts. split_and!; [exact Ho|exact Hl|by constructor|cbn [length]; lia].
    + exists (secs :: ts). cbn [stdout prev read_errors] in *. rewrite <- app_assoc in Ho.
      split_and!; [exact Ho|cbn [length]; by rewrite Hl|by constructor|cbn [length]; lia].
  - rewrite orb_true_r in *. exists (secs :: ts). cbn [stdout prev read_errors] in *.
    rewrite <- app_assoc in Ho.
    split_and!; [exact Ho|cbn [length]; by rewrite Hl|by constructor|cbn [length]; lia].
Qed.

(** [watch] prints what it should: from its start, over any outcomes of its
    reads, the lines printed are one for every successful read, or, when only
    changes are asked for, one for the first and one for every read that
    differs from the one before it, in order, each with the time and the bytes
    of its read; every other outcome is reported as an error. *)
Theorem watch_prints_changes args rs :
  ∃ ts, ts `sublist_of` rs.*1 ∧
    stdout (watch_outcomes args watch_start rs) =
      zip_with watch_line ts
        (if changes_only args then changes None (read_data rs) else read_data rs) ∧
    length ts = length (if changes_only args then changes None (read_data rs) else read_data rs) ∧
    (read_errors (watch_outcomes args watch_start rs) + length (read_data rs) = length rs)%nat.
Proof.
  destruct (watch_outcomes_spec args rs watch_start) as (ts & Ho & Hl & Hs & He).
  exists ts. by split_and!.
Qed.
