(* ===== verification/Cli.v ===== *)
(** * The command line tool (snap7-cli, cmd/ and output.rs)

    A command parses its arguments, calls the client and prints.  Its state is
    the client and the lines printed; an error is the message the tool exits
    with.  Parameters: parsing and printing of 32-bit floats (by their bits),
    the hexadecimal decoder of the [hex] crate, the characters outside ASCII in
    uppercase, the texts of operating system errors. *)

From S2P Require Import Prelude Wire Io S7Header ReadVar WriteVar Clock Szl Connection Client.
From S2P Require Import Store Dispatch Loopback ClientServices Types Blocks Tag Text Registry.
Local Open Scope Z_scope.

(** ** Block types and versions (cmd/block.rs) *)
Definition block_type_label (t : Z) : string :=
  match t with
  | 0x38 => "OB" | 0x41 => "DB" | 0x42 => "SDB" | 0x43 => "FC" | 0x44 => "SFC" | 0x45 => "FB"
  | 0x46 => "SFB" | 0x47 => "DI" | _ => "?"
  end.

Section Parsers.
Variable upper_other : Z → text.
Abbreviation upper := (to_uppercase upper_other).

Definition fail {A} (msg : text) : res text A := Err msg.
Definition parsed {A} (msg : text) (o : option A) : res text A :=
  match o with Some a => Ok a | None => fail msg end.

Definition parse_block_type (s : text) : res text Z :=
  let u := upper s in
  if bool_decide (u = str_bytes "OB") then Ok 0x38
  else if bool_decide (u = str_bytes "DB") then Ok 0x41
  else if bool_decide (u = str_bytes "SDB") then Ok 0x42
  else if bool_decide (u = str_bytes "FC") then Ok 0x43
  else if bool_decide (u = str_bytes "SFC") then Ok 0x44
  else if bool_decide (u = str_bytes "FB") then Ok 0x45
  else if bool_decide (u = str_bytes "SFB") then Ok 0x46
  else if bool_decide (u = str_bytes "UDT") then Ok 0x47
  else fail (str_bytes "unknown block type: " ++ s ++
             str_bytes ". Use OB, DB, FC, FB, SFC, SFB, SDB, UDT").

Definition parse_version_opt (s : option text) : res text (option Z) :=
  match s with
  | None => Ok None
  | Some s =>
      let parts := splitn2 46 s in
      match parts with
      | [] => Panic
      | part0 :: rest =>
          let? major := parsed (str_bytes "invalid version major: " ++ s) (parse_u8 part0) in
          let? minor :=
            match rest with
            | part1 :: _ => parsed (str_bytes "invalid version minor: " ++ s) (parse_u8 part1)
            | [] => Ok 0
            end in
          if (15 <? major) || (15 <? minor) then
            fail (str_bytes "version major and minor must each be 0" ++ [8211] ++ str_bytes "15")
          else Ok (Some (Z.lor (Z.shiftl major 4) minor))
      end
  end.

(** ** Block files (cmd/program.rs) *)
Fixpoint parse_types (l : list text) : res text (list Z) :=
  match l with
  | [] => Ok []
  | t :: r => let? bt := parse_block_type (trim t) in let? bts := parse_types r in Ok (bt :: bts)
  end.
Definition parse_types_list (s : text) : res text (list Z) := parse_types (split 44 s).

(** One turn of the loop over prefix lengths: [Some] leaves the function. *)
Definition filename_turn (base : text) (prefix_len : Z) : res text (option (Z * Z)) :=
  if str_len base <=? prefix_len then Ok None
  else
    match split_at prefix_len base with
    | None => Panic
    | Some (type_str, num_str) =>
        match parse_block_type type_str, parse_u16 num_str with
        | Ok bt, Some num => Ok (Some (bt, num))
        | Panic, _ => Panic
        | _, _ => Ok None
        end
    end.
Fixpoint filename_loop (base : text) (lens : list Z) : res text (option (Z * Z)) :=
  match lens with
  | [] => Ok None
  | n :: r =>
      let? found := filename_turn base n in
      match found with Some x => Ok (Some x) | None => filename_loop base r end
  end.
Definition parse_block_filename (fname : text) : res text (option (Z * Z)) :=
  match strip_suffix (str_bytes ".bin") fname with
  | None => Ok None
  | Some base => filename_loop base [3; 2]
  end.

(** [format!("{}{}.bin", block_type_name(bt), num)] of the batch upload. *)
Definition block_filename (bt num : Z) : text :=
  str_bytes (block_type_name bt) ++ format_dec 0 num ++ str_bytes ".bin".

(** ** Forced variables (cmd/force.rs) *)
Inductive ForceAddr :=
| ForceBit (area : Area) (byte_addr bit : Z)
| ForceByte (area : Area) (byte_addr : Z).

Definition parse_address (s : text) : res text ForceAddr :=
  let u := upper s in
  match strip_prefix (str_bytes "IB") u with
  | Some rest =>
      let? n := parsed (str_bytes "invalid byte address: " ++ s) (parse_u32 rest) in
      Ok (ForceByte ProcessInput n)
  | None =>
  match strip_prefix (str_bytes "QB") u with
  | Some rest =>
      let? n := parsed (str_bytes "invalid byte address: " ++ s) (parse_u32 rest) in
      Ok (ForceByte ProcessOutput n)
  | None =>
      let? (area, rest) :=
        match strip_prefix (str_bytes "I") u, strip_prefix (str_bytes "Q") u with
        | Some rest, _ => Ok (ProcessInput, rest)
        | None, Some rest => Ok (ProcessOutput, rest)
        | None, None => fail (str_bytes "address must start with I, Q, IB, or QB " ++ [8212] ++
                              str_bytes " got: " ++ s)
        end in
      match splitn2 46 rest with
      | [part0; part1] =>
          let? byte_addr := parsed (str_bytes "invalid byte in: " ++ s) (parse_u32 part0) in
          let? bit := parsed (str_bytes "invalid bit in: " ++ s) (parse_u8 part1) in
          if 7 <? bit then
            fail (str_bytes "bit must be 0" ++ [8211] ++ str_bytes "7, got " ++ format_dec 0 bit)
          else Ok (ForceBit area byte_addr bit)
      | _ => fail (str_bytes "bit address requires dot notation: I<byte>.<bit> or Q<byte>.<bit>")
      end
  end end.

Definition parse_byte_address (s : text) : res text (Area * Z) :=
  let u := upper s in
  match strip_prefix (str_bytes "IB") u with
  | Some rest =>
      let? n := parsed (str_bytes "invalid address: " ++ s) (parse_u32 rest) in Ok (ProcessInput, n)
  | None =>
  match strip_prefix (str_bytes "QB") u with
  | Some rest =>
      let? n := parsed (str_bytes "invalid address: " ++ s) (parse_u32 rest) in Ok (ProcessOutput, n)
  | None => fail (str_bytes "cancel address must be IB<n> or QB<n> " ++ [8212] ++
                  str_bytes " got: " ++ s)
  end end.

Definition parse_bit_value (s : text) : res text bool :=
  if bool_decide (s ∈ str_bytes <$> ["0"; "false"; "False"; "FALSE"]%string) then Ok false
  else if bool_decide (s ∈ str_bytes <$> ["1"; "true"; "True"; "TRUE"]%string) then Ok true
  else fail (str_bytes "bit value must be 0 or 1, got: " ++ s).

Definition parse_byte_value (s : text) : res text Z :=
  let s := trim s in
  match strip_prefix (str_bytes "0x") s, strip_prefix (str_bytes "0X") s with
  | Some rest, _ | None, Some rest =>
      parsed (str_bytes "invalid hex byte: " ++ s) (parse_hex 255 rest)
  | None, None =>
      parsed (str_bytes "invalid byte value (0" ++ [8211] ++ str_bytes "255 or 0x00" ++ [8211] ++
              str_bytes "0xFF): " ++ s) (parse_u8 s)
  end.

(** ** Dates (cmd/clock.rs) *)
Definition bad_datetime : text :=
  str_bytes "invalid datetime format " ++ [8212] ++ str_bytes " use YYYY-MM-DDTHH:MM:SS".
Definition parse_datetime (s : text) : res text PlcDateTime :=
  let s := replace_char 32 84 s in
  match splitn2 84 s with
  | [date; time] =>
      match split 45 date, split 58 time with
      | [d0; d1; d2], [t0; t1; t2] =>
          let? year := parsed (str_bytes "invalid year") (parse_u16 d0) in
          let? month := parsed (str_bytes "invalid month") (parse_u8 d1) in
          let? day := parsed (str_bytes "invalid day") (parse_u8 d2) in
          let? hour := parsed (str_bytes "invalid hour") (parse_u8 t0) in
          let? minute := parsed (str_bytes "invalid minute") (parse_u8 t1) in
          let? second := parsed (str_bytes "invalid second") (parse_u8 t2) in
          if (month <? 1) || (12 <? month) then
            fail (str_bytes "month must be 1" ++ [8211] ++ str_bytes "12")
          else if (day <? 1) || (31 <? day) then
            fail (str_bytes "day must be 1" ++ [8211] ++ str_bytes "31")
          else if 23 <? hour then fail (str_bytes "hour must be 0" ++ [8211] ++ str_bytes "23")
          else if 59 <? minute then fail (str_bytes "minute must be 0" ++ [8211] ++ str_bytes "59")
          else if 59 <? second then fail (str_bytes "second must be 0" ++ [8211] ++ str_bytes "59")
          else Ok {| year := year; month := month; day := day; hour := hour; minute := minute;
                     second := second; millisecond := 0; weekday := 0 |}
      | _, _ => fail bad_datetime
      end
  | _ => fail bad_datetime
  end.
End Parsers.

Definition area_char (a : Area) : text :=
  match a with ProcessInput => str_bytes "I" | ProcessOutput => str_bytes "Q" | _ => str_bytes "?" end.
Definition area_byte_prefix (a : Area) : text :=
  match a with ProcessInput => str_bytes "IB" | ProcessOutput => str_bytes "QB" | _ => str_bytes "?B" end.

(** ** Areas (args.rs) *)
Inductive AreaArg := Db | Merker | Pi | Pa | Inst | Local_.
Definition AreaArg_display (a : AreaArg) : string :=
  match a with
  | Db => "db" | Merker => "merker" | Pi => "pi" | Pa => "pa" | Inst => "inst" | Local_ => "local"
  end.
Definition Area_from (a : AreaArg) : Area :=
  match a with
  | Db => DataBlock | Merker => Marker | Pi => ProcessInput | Pa => ProcessOutput
  | Inst => InstanceDB | Local_ => LocalData
  end.

(** ** Printing bytes (output.rs) *)
Inductive OutputFormat := FormatText | FormatJson | FormatCsv.

(** [data.chunks(16)]. *)
Fixpoint chunks16 (fuel : nat) (data : bytes) : list bytes :=
  match fuel, data with
  | O, _ | _, [] => []
  | S fuel, _ => take 16 data :: chunks16 fuel (drop 16 data)
  end.
Definition ascii_graphic (b : Z) : Z := if (33 <=? b) && (b <=? 126) then b else 46.
(** [{:47}] pads on the right. *)
Definition pad_right (w : nat) (s : text) : text := s ++ replicate (w - length s) 32.
(** [{:04X}] of an offset. *)
Definition hex_04_upper (n : Z) : text :=
  hex_fixed (if n <? 65536 then 4 else if n <? 1048576 then 5 else if n <? 16777216 then 6 else
             if n <? 268435456 then 7 else 8) n.
Definition print_bytes (data : bytes) (format : OutputFormat) : list text :=
  match format with
  | FormatText =>
      imap (fun i chunk =>
        hex_04_upper (Z.of_nat i * 16) ++ str_bytes "  " ++ pad_right 47 (hex_bytes chunk) ++
        str_bytes "  " ++ (ascii_graphic <$> chunk)) (chunks16 (length data) data)
  | FormatJson =>
      [ [123; 34] ++ str_bytes "bytes" ++ [34] ++ str_bytes ":[" ++
        join (str_bytes ",") ((fun b => [34] ++ str_bytes "0x" ++ hex_fixed 2 b ++ [34]) <$> data) ++
        str_bytes "]" ++ [125] ]
  | FormatCsv =>
      str_bytes "offset,value" ::
      imap (fun i b => format_dec 0 (Z.of_nat i) ++ str_bytes "," ++ hex_fixed 2 b) data
  end.

(** ** Commands *)

(** The error a command exits with: a message of the tool, or an error of the
    client, whose message is its [Display]. *)
Inductive CliError := Message (m : text) | ClientError (e : Client.Error).

Section Commands.
Context {T : Type} `{Transport T}.
Context (upper_other : Z → text) (parse_f32 : text → option Z) (show_f32 : Z → text)
        (hex_decode : text → option bytes).

(** Code that uses the client and prints lines. *)
Definition Cli (A : Type) : Type := IO (Inner T * list text) CliError A.
Definition call {A} (m : Cl T A) : Cli A := fun '(i, out) =>
  let '(r, i') := m i in (res_map_err ClientError r, (i', out)).
Definition say (l : text) : Cli unit := fun '(i, out) => (Ok tt, (i, out ++ [l])).
Definition say_all (ls : list text) : Cli unit := fun '(i, out) => (Ok tt, (i, out ++ ls)).
Definition check {A} (r : res text A) : Cli A := io_lift (res_map_err Message r).
Definition ok_dash (rest : text) : text := str_bytes "ok  " ++ [8211] ++ str_bytes " " ++ rest.

(** *** cmd/read.rs and cmd/write.rs *)
Record ReadArgs := { read_db : Z; read_offset : Z; read_size : Z; read_area_arg : AreaArg }.
Definition read_run (args : ReadArgs) (format : OutputFormat) : Cli unit :=
  let area := Area_from (read_area_arg args) in
  let* data :=
    match read_area_arg args with
    | Db => call (S7Client_db_read (read_db args) (read_offset args) (read_size args))
    | _ => call (S7Client_ab_read area (read_db args) (read_offset args) (read_size args))
    end in
  say_all (print_bytes data format).

Record WriteArgs := { write_db : Z; write_offset : Z; write_data_arg : text; write_area_arg : AreaArg }.
Definition write_run (args : WriteArgs) : Cli unit :=
  let* data := check (parsed (str_bytes "invalid hex data: " ++ write_data_arg args)
                        (hex_decode (write_data_arg args))) in
  let area := Area_from (write_area_arg args) in
  let* _ :=
    match write_area_arg args with
    | Db => call (S7Client_db_write (write_db args) (write_offset args) data)
    | _ => call (S7Client_ab_write area (write_db args) (write_offset args) data)
    end in
  say (str_bytes "ok").

(** *** cmd/tag.rs *)
Definition tag_size_bytes (ts : TransportSize) : Z :=
  match ts with
  | Bit | Byte | Char => 1
  | Word | Int | S5Time | Date | TTimer | TCounter => 2
  | DWord | DInt | Real | Time | Tod => 4
  | DtL => 12
  end.

Definition read_tag (addr : TagAddress) : Cli bytes :=
  match tag_area addr with
  | DataBlock =>
      call (S7Client_db_read (tag_db_number addr) (byte_offset addr)
              (tag_size_bytes (tag_transport addr)))
  | _ =>
      call (S7Client_read_area (tag_area addr) (tag_db_number addr) (byte_offset addr)
              (element_count addr) (tag_transport addr))
  end.

Definition write_tag (addr : TagAddress) (data : bytes) : Cli unit :=
  match tag_area addr with
  | DataBlock => call (S7Client_db_write (tag_db_number addr) (byte_offset addr) data)
  | _ =>
      call (S7Client_write_area (tag_area addr) (tag_db_number addr) (byte_offset addr)
              (tag_transport addr) data)
  end.

Definition decode_value (data : bytes) (ts : TransportSize) : text :=
  match ts, data with
  | Real, a :: b :: c :: d :: _ => show_f32 (of_be32 a b c d)
  | Word, a :: b :: _ => format_dec 0 (of_be16 a b)
  | DWord, a :: b :: c :: d :: _ => format_dec 0 (of_be32 a b c d)
  | Int, a :: b :: _ => format_signed (as_i16 (of_be16 a b))
  | DInt, a :: b :: c :: d :: _ =>
      format_signed (as_i32 (of_be32 a b c d))
  | Byte, a :: _ => format_dec 0 a
  | _, _ => hex_bytes data
  end.

Definition encode_value (value : text) (ts : TransportSize) : res text bytes :=
  match ts with
  | Real => let? v := parsed (str_bytes "invalid float: " ++ value) (parse_f32 value) in Ok (be32 v)
  | Word => let? v := parsed (str_bytes "invalid u16: " ++ value) (parse_u16 value) in Ok (be16 v)
  | DWord => let? v := parsed (str_bytes "invalid u32: " ++ value) (parse_u32 value) in Ok (be32 v)
  | Int =>
      let? v := parsed (str_bytes "invalid i16: " ++ value) (parse_int (-32768) 32767 value) in
      Ok (be16 (as_u16 v))
  | DInt =>
      let? v := parsed (str_bytes "invalid i32: " ++ value)
                  (parse_int (-2147483648) 2147483647 value) in
      Ok (be32 (as_u32 v))
  | Byte => let? v := parsed (str_bytes "invalid u8: " ++ value) (parse_u8 value) in Ok [v]
  | _ => fail (str_bytes "unsupported type for write: " ++ str_bytes (TransportSize_debug ts))
  end.

Inductive TagAction := TagRead (tag : text) | TagWrite (tag value : text).
Definition tag_run (action : TagAction) : Cli unit :=
  match action with
  | TagRead tag =>
      let* addr := io_lift (res_map_err ClientError (parse_tag upper_other tag)) in
      let* data := read_tag addr in
      say (decode_value data (tag_transport addr))
  | TagWrite tag value =>
      let* addr := io_lift (res_map_err ClientError (parse_tag upper_other tag)) in
      let* data := check (encode_value value (tag_transport addr)) in
      let* _ := write_tag addr data in
      say (str_bytes "ok")
  end.

(** *** cmd/force.rs *)
(** [{:02X?}] of an entry. *)
Definition debug_bytes (b : bytes) : text := str_bytes "[" ++ join (str_bytes ", ") (hex_fixed 2 <$> b) ++ str_bytes "]".
(** [{:2}] of an index. *)
Definition pad_left2 (s : text) : text := replicate (2 - length s) 32 ++ s.
Fixpoint force_entries (n : nat) (i : Z) (entry_len : Z) (data : bytes) : list text :=
  match n with
  | O => []
  | S n =>
      let off := 8 + i * entry_len in
      if blen data <? off + entry_len then []
      else
        (str_bytes "  [" ++ pad_left2 (format_dec 0 i) ++ str_bytes "] " ++
         debug_bytes (take (Z.to_nat entry_len) (drop (Z.to_nat off) data)))
        :: force_entries n (i + 1) entry_len data
  end.
Definition print_force_list (data : bytes) : list text :=
  match data with
  | _ :: _ :: _ :: _ :: d4 :: d5 :: d6 :: d7 :: _ =>
      let entry_len := of_be16 d4 d5 in
      let entry_count := of_be16 d6 d7 in
      if (entry_len =? 0) || (entry_count =? 0) then [str_bytes "no forced variables"]
      else
        (format_dec 0 entry_count ++ str_bytes " forced variable(s):")
        :: force_entries (Z.to_nat entry_count) 0 entry_len data
  | _ => [str_bytes "force list: <too short to parse>"]
  end.

Inductive ForceAction := ForceSet (address value : text) | ForceCancel (address : text) | ForceList.
Definition force_run (action : ForceAction) : Cli unit :=
  match action with
  | ForceSet address value =>
      let* a := check (parse_address upper_other address) in
      match a with
      | ForceBit area byte_addr bit =>
          let* v := check (parse_bit_value value) in
          let* _ := call (S7Client_force_bit area byte_addr bit v) in
          say (ok_dash (str_bytes "forced " ++ area_char area ++ format_dec 0 byte_addr ++
                 str_bytes "." ++ format_dec 0 bit ++ str_bytes " = " ++
                 format_dec 0 (if (v : bool) then 1 else 0)))
      | ForceByte area byte_addr =>
          let* v := check (parse_byte_value value) in
          let* _ := call (S7Client_force_byte area byte_addr v) in
          say (ok_dash (str_bytes "forced " ++ area_byte_prefix area ++ format_dec 0 byte_addr ++
                 str_bytes " = 0x" ++ hex_fixed 2 v))
      end
  | ForceCancel address =>
      let* (area, byte_addr) := check (parse_byte_address upper_other address) in
      let* _ := call (S7Client_force_cancel_byte area byte_addr) in
      say (ok_dash (str_bytes "force cancelled on " ++ area_byte_prefix area ++ format_dec 0 byte_addr))
  | ForceList =>
      let* data := call S7Client_read_force_list in
      match data with
      | [] => say (str_bytes "no forced variables")
      | _ => say_all (print_force_list data)
      end
  end.

(** *** cmd/clock.rs *)
(** [confirm_destructive], given the line the user types. *)
Definition confirm_destructive (input : text) : res text unit :=
  if eq_ignore_ascii_case (trim input) (str_bytes "y") then Ok tt else fail (str_bytes "aborted").

Definition print_date (d : PlcDateTime) : text :=
  format_dec 4 (year d) ++ str_bytes "-" ++ format_dec 2 (month d) ++ str_bytes "-" ++
  format_dec 2 (day d) ++ str_bytes "T" ++ format_dec 2 (hour d) ++ str_bytes ":" ++
  format_dec 2 (minute d) ++ str_bytes ":" ++ format_dec 2 (second d).

Inductive ClockAction := ClockRead | ClockSet (datetime : text) (force : bool) | ClockSync (force : bool).
(** [input] is what the user answers, [now] the host's Unix time. *)
Definition clock_run (action : ClockAction) (input : text) (now : Z) : Cli unit :=
  match action with
  | ClockRead =>
      let* dt := call S7Client_read_clock in
      say (print_date dt ++ str_bytes "." ++ format_dec 3 (millisecond dt))
  | ClockSet datetime force =>
      let* dt := check (parse_datetime datetime) in
      let* _ := check (if (force : bool) then Ok tt else confirm_destructive input) in
      let* _ := call (S7Client_set_clock dt) in
      say (ok_dash (str_bytes "PLC clock set to " ++ print_date dt))
  | ClockSync force =>
      let* _ := check (if (force : bool) then Ok tt else confirm_destructive input) in
      let* _ := call (S7Client_set_clock_to_now now) in
      say (ok_dash (str_bytes "PLC clock synced to system time"))
  end.
End Commands.

(** ** Values of tags *)
Section TagValues.
Context (upper_other : Z → text) (parse_f32 : text → option Z) (show_f32 : Z → text).
Abbreviation decode_value := (decode_value show_f32).
Abbreviation encode_value := (encode_value parse_f32).

(** The text of a number as a value of a type. *)
Definition show_value (ts : TransportSize) (n : Z) : text :=
  match ts with
  | Byte | Word | DWord => format_dec 0 n
  | Int | DInt => format_signed n
  | Real => show_f32 n
  | _ => []
  end.
Definition value_fits (ts : TransportSize) (n : Z) : Prop :=
  match ts with
  | Byte => u8 n
  | Word => u16 n
  | DWord => u32 n
  | Int => -32768 <= n < 32768
  | DInt => -2147483648 <= n < 2147483648
  | Real => u32 n ∧ parse_f32 (show_f32 n) = Some n
  | _ => False
  end.

Lemma encode_show_value ts n :
  value_fits ts n →
  ∃ d, encode_value (show_value ts n) ts = Ok d ∧ decode_value d ts = show_value ts n ∧
       blen d = tag_size_bytes ts.
Proof.
  destruct ts; cbn [value_fits show_value encode_value]; try done; intros Hn.
  - unfold parse_u8. rewrite parse_uint_format by (unwidth; lia). by eexists.
  - unfold parse_u16. rewrite parse_uint_format by (unwidth; lia). eexists. split; [done|].
    split; [|done]. cbn. by rewrite of_be16_split.
  - rewrite parse_int_format by lia. eexists. split; [done|]. split; [|done]. cbn.
    by rewrite of_be16_split, as_i16_as_u16 by (done || apply as_u16_u16).
  - unfold parse_u32. rewrite parse_uint_format by (unwidth; lia). eexists. split; [done|].
    split; [|done]. cbn. by rewrite of_be32_split.
  - rewrite parse_int_format by lia. eexists. split; [done|]. split; [|done]. cbn.
    by rewrite of_be32_split, as_i32_as_u32 by (done || apply as_u32_u32).
  - destruct Hn as [Hn ->]. eexists. split; [done|]. split; [|done]. cbn. by rewrite of_be32_split.
Qed.

(** C33: the tool's values survive a trip to the PLC: writing a value to a data
    block tag below offset 2^21 as the tool prints it, to a PLC whose data
    blocks are not locked, and then reading the tag, prints the same text, for every integer type and value, and for every float whose text is
    read back as the float; the write changes exactly the bytes of the tag. *)
Theorem tag_write_read_prints tag a n c r s out :
  parse_tag upper_other tag = Ok a → tag_area a = DataBlock →
  u16 (tag_db_number a) → 0 <= byte_offset a < 2097152 → is_area_locked 0x84 s = false →
  value_fits (tag_transport a) n →
  ∃ d r1 s1 r2 s2,
    tag_run upper_other parse_f32 show_f32 (TagWrite tag (show_value (tag_transport a) n)) (linked c r s, out) =
      (Ok tt, (linked c r1 s1, out ++ [str_bytes "ok"])) ∧
    mem_eq (mem_of s1) (spec_write 0x84 (tag_db_number a) (byte_offset a) d (mem_of s)) ∧
    blen d = tag_size_bytes (tag_transport a) ∧
    tag_run upper_other parse_f32 show_f32 (TagRead tag) (linked c r1 s1, out ++ [str_bytes "ok"]) =
      (Ok tt, (linked c r2 s2, out ++ [str_bytes "ok"; show_value (tag_transport a) n])).
Proof.
  intros Hp Ha Hdb Hoff Hl Hv.
  destruct (encode_show_value _ _ Hv) as (d & He & Hd & Hlen).
  assert (1 <= blen d <= 12) as Hb by (rewrite Hlen; destruct (tag_transport a); cbn; lia).
  set (it := db_item (tag_db_number a) (byte_offset a) (blen d)).
  assert (AddressItem_addressable it) as Hit by (apply db_item_addressable; unwidth; lia).
  destruct (write_one_linked "db_write" "write error" it d c r s) as (s1 & Hm & _ & _ & Hw);
    [done|lia|].
  destruct (read_one_linked "db_read" it c (as_u16 (r + 1)) s1) as (s2 & _ & Hr); [done|cbn; lia|].
  unfold spec_write_item in Hm. cbn [address it db_item area write_data db_number ReadVar.start] in Hm.
  change (to_u8 DataBlock) with 132 in Hm. rewrite Hl in Hm.
  exists d, (as_u16 (r + 1)), s1, (as_u16 (as_u16 (r + 1) + 1)), s2. split_and!; [|exact Hm|done|].
  - cbn [tag_run]. unfold io_lift, io_bind. rewrite Hp. cbn [res_map_err]. unfold check, io_lift.
    rewrite He. cbn [res_map_err]. unfold write_tag, call. rewrite Ha.
    unfold S7Client_db_write. rewrite (as_u16_small (blen d)) by (unwidth; lia).
    fold (db_item (tag_db_number a) (byte_offset a) (blen d)). fold it. by rewrite Hw.
  - cbn [tag_run]. unfold io_lift, io_bind. rewrite Hp. cbn [res_map_err]. unfold read_tag, call. rewrite Ha.
    unfold S7Client_db_read. rewrite <- Hlen.
    fold (db_item (tag_db_number a) (byte_offset a) (blen d)). fold it. rewrite Hr. cbn [res_map_err].
    cbn [it db_item item_length db_number ReadVar.start area].
    change (to_u8 DataBlock) with 132. rewrite Hm, spec_read_write, Hd. cbn. by rewrite <- app_assoc.
Qed.

(** Word and double word markers are read one byte wide: the tool asks for
    one element of the tag's type, and the simulated PLC takes the element
    count for a number of bytes, so reading MW or MD prints two hexadecimal
    digits of the first byte instead of the number. *)
Theorem marker_tag_read_truncated tag a c r s out :
  parse_tag upper_other tag = Ok a → tag_area a = Marker → tag_db_number a = 0 →
  0 <= byte_offset a < 2097152 → element_count a = 1 →
  tag_transport a = Word ∨ tag_transport a = DWord →
  ∃ r' s',
    tag_run upper_other parse_f32 show_f32 (TagRead tag) (linked c r s, out) =
    (Ok tt, (linked c r' s', out ++ [hex_bytes [mem_of s (0x83, 0, byte_offset a)]])).
Proof.
  intros Hp Ha Hdb Hoff Hone Hts.
  set (it := {| area := Marker; db_number := 0; start := byte_offset a; bit_offset := 0;
                item_length := 1; transport := tag_transport a |}).
  destruct (read_one_linked "read_area" it c r s) as (s' & _ & Hr).
  { unfold AddressItem_addressable. cbn. unwidth. destruct Hts as [->| ->]; split_and!; done || lia. }
  { cbn. lia. }
  exists (as_u16 (r + 1)), s'. cbn [tag_run]. unfold io_lift, io_bind. rewrite Hp. cbn [res_map_err].
  unfold read_tag, call. rewrite Ha. unfold S7Client_read_area. rewrite Hone, Hdb. fold it. rewrite Hr.
  cbn [res_map_err]. cbn [it item_length db_number ReadVar.start area].
  change (to_u8 Marker) with 131.
  replace (spec_read 131 0 (byte_offset a) 1 (mem_of s)) with [mem_of s (131, 0, byte_offset a)].
  - by destruct Hts as [-> | ->].
  - unfold spec_read. cbn. done.
Qed.
End TagValues.

(** ** Dates *)
Lemma replace_char_id a b s : a ∉ s → replace_char a b s = s.
Proof.
  unfold replace_char. induction s as [|c s IH]; [done|]. rewrite not_elem_of_cons. intros [Hc Hs].
  cbn. rewrite IH by done. by destruct (Z.eqb_spec c a).
Qed.

Lemma format_not_digit w n c : 0 <= n < 10 ^ 20 → ¬ digit c → c ∉ format_dec w n.
Proof. intros Hn Hc. eapply digits_not_in; [|exact Hc]. by apply format_dec_spec. Qed.

(** The dates that the tool takes: the ranges it checks. *)
Definition datetime_fields (d : PlcDateTime) : Prop :=
  u16 (year d) ∧ 1 <= month d <= 12 ∧ 1 <= day d <= 31 ∧ 0 <= hour d <= 23 ∧
  0 <= minute d <= 59 ∧ 0 <= second d <= 59 ∧ millisecond d = 0 ∧ weekday d = 0.

Ltac not_in_date :=
  repeat (rewrite not_elem_of_app; split);
  first [apply format_not_digit; [lia|unfold digit; lia]
        |unfold str_bytes; cbn; rewrite not_elem_of_cons; split; [lia|apply not_elem_of_nil]].

(** A date that the tool prints is one it takes: [clock set] with the text
    in which it confirms a date, or with a space in place of the T, parses to
    that date; and whatever it accepts has fields in range. *)
Theorem datetime_roundtrip :
  (∀ d, datetime_fields d → parse_datetime (print_date d) = Ok d) ∧
  (∀ s d, parse_datetime s = Ok d → datetime_fields d).
Proof.
  split.
  - intros d (Hy & Hmo & Hd & Hh & Hmi & Hs & Hms & Hw). unwidth.
    unfold parse_datetime, print_date. rewrite replace_char_id by not_in_date.
    set (date := format_dec 4 (year d) ++ str_bytes "-" ++ format_dec 2 (month d) ++ str_bytes "-" ++
                 format_dec 2 (day d)).
    set (time := format_dec 2 (hour d) ++ str_bytes ":" ++ format_dec 2 (minute d) ++ str_bytes ":" ++
                 format_dec 2 (second d)).
    assert (splitn2 84 (date ++ 84 :: time) = [date; time]) as Hsplit
      by (apply splitn2_app; subst date; not_in_date).
    subst date time. rewrite <- !app_assoc in Hsplit. cbn [str_bytes] in Hsplit |- *.
    match type of Hsplit with splitn2 84 ?x = _ =>
      match goal with |- context [splitn2 84 ?y] => change y with x end end.
    rewrite Hsplit.
    assert (∀ sep a b c', sep ∉ a → sep ∉ b → sep ∉ c' →
              split sep (a ++ [sep] ++ b ++ [sep] ++ c') = [a; b; c']) as H3.
    { intros sep a b c' Ha Hb Hc. cbn [app]. rewrite split_app by done.
      rewrite split_app by done. by rewrite split_absent. }
    change (str_bytes "-") with [45]. change (str_bytes ":") with [58].
    rewrite (H3 45), (H3 58) by (apply format_not_digit; [lia|unfold digit; lia]).
    unfold parse_u16, parse_u8. rewrite !parse_uint_format by lia. cbn [parsed res_bind].
    repeat (case_ltb; [lia|]). cbn [orb].
    destruct d. cbn in *. by subst.
  - intros s d. unfold parse_datetime. repeat case_match; try done.
    unfold parsed, parse_u16, parse_u8.
    repeat match goal with
    | |- context [parse_uint ?m ?x] => destruct (parse_uint m x) eqn:?; cbn [res_bind]; [|done]
    end.
    repeat match goal with
    | H : parse_uint ?m ?x = Some ?n |- _ =>
        apply parse_uint_spec in H; [|lia];
        assert (0 <= n <= m) by (destruct H as (ds & _ & _ & Hd & Hv & ?); split;
          [rewrite <- Hv; by apply (dec_fold_ge ds 0)|done]); clear H
    end.
    repeat case_match; try done. intros [= <-]. unfold datetime_fields. cbn. unwidth.
    repeat match goal with H : _ || _ = false |- _ => apply orb_false_iff in H as [? ?] end.
    lia.
Qed.

(** ** Block files *)
Lemma utf8_ascii c : 0 <= c < 128 → utf8 c = [c].
Proof. intros. unfold utf8. by case_ltb; [|lia]. Qed.

Lemma str_len_ascii s : ascii s → str_len s = blen s.
Proof.
  unfold str_len. induction 1 as [|c s Hc Hs IH]; [done|]. cbn [mbind list_bind].
  rewrite utf8_ascii, blen_app, !blen_cons, blen_nil by done. lia.
Qed.

Lemma split_at_ascii a b : ascii a → split_at (blen a) (a ++ b) = Some (a, b).
Proof.
  induction 1 as [|c a Hc Ha IH]; [by destruct b|]. cbn [app split_at]. rewrite blen_cons.
  blen_pose. destruct (Z.eqb_spec (1 + blen a) 0); [lia|].
  rewrite utf8_ascii, blen_cons, blen_nil by done. case_ltb; [lia|].
  replace (1 + blen a - (1 + 0)) with (blen a) by lia. by rewrite IH.
Qed.

Lemma strip_suffix_app s p : strip_suffix p (s ++ p) = Some s.
Proof. unfold strip_suffix. by rewrite reverse_app, strip_prefix_app, fmap_Some_2 with (x := reverse s); cbn; rewrite ?reverse_involutive. Qed.

Lemma digit_cases c : digit c → c ∈ [48; 49; 50; 51; 52; 53; 54; 55; 56; 57].
Proof. unfold digit. rewrite !elem_of_cons. lia. Qed.

Section BlockFiles.
Variable upper_other : Z → text.

(** A two-letter type with a digit is no type. *)
Lemma type_digit_rejected x y c :
  (x, y) ∈ [(79, 66); (68, 66); (70, 67); (70, 66)] → digit c →
  ∃ e, parse_block_type upper_other [x; y; c] = Err e.
Proof.
  intros Hxy Hc. apply digit_cases in Hc.
  repeat (apply elem_of_cons in Hxy as [[= -> ->]|Hxy]); [..|by apply not_elem_of_nil in Hxy];
    repeat (apply elem_of_cons in Hc as [->|Hc]); try (by apply not_elem_of_nil in Hc);
    by eexists.
Qed.

Lemma filename_loop_short x y bt ds num :
  (x, y) ∈ [(79, 66); (68, 66); (70, 67); (70, 66)] → 
  parse_block_type upper_other [x; y] = Ok bt → 0 <= x < 128 → 0 <= y < 128 →
  Forall digit ds → ds ≠ [] → parse_u16 ds = Some num →
  filename_loop upper_other ([x; y] ++ ds) [3; 2] = Ok (Some (bt, num)).
Proof.
  intros Hxy Hbt Hx Hy Hds Hne Hnum.
  assert (ascii ds) as Ha.
  { eapply Forall_impl; [exact Hds|]. unfold digit. cbn. lia. }
  assert (ascii ([x; y] ++ ds)) as Hall by (repeat (constructor; [lia|]); done).
  destruct ds as [|c ds]; [done|]. apply Forall_cons in Hds as [Hc Hds].
  assert (filename_turn upper_other ([x; y] ++ c :: ds) 3 = Ok None) as H3.
  { unfold filename_turn. rewrite str_len_ascii by done.
    destruct (Z.leb_spec (blen ([x; y] ++ c :: ds)) 3); [done|].
    assert (split_at 3 ([x; y] ++ c :: ds) = Some ([x; y; c], ds)) as ->.
    { apply (split_at_ascii [x; y; c]). repeat constructor; unfold digit in Hc; lia. }
    by destruct (type_digit_rejected x y c Hxy Hc) as [e ->]. }
  assert (filename_turn upper_other ([x; y] ++ c :: ds) 2 = Ok (Some (bt, num))) as H2.
  { unfold filename_turn. rewrite str_len_ascii by done.
    destruct (Z.leb_spec (blen ([x; y] ++ c :: ds)) 2); [blen_lia|].
    assert (split_at 2 ([x; y] ++ c :: ds) = Some ([x; y], c :: ds)) as ->.
    { apply (split_at_ascii [x; y]). repeat constructor; lia. }
    by rewrite Hbt, Hnum. }
  cbn [filename_loop]. rewrite H3. cbn [res_bind]. by rewrite H2.
Qed.

Lemma filename_loop_long x y z bt ds num :
  parse_block_type upper_other [x; y; z] = Ok bt → ascii [x; y; z] →
  Forall digit ds → ds ≠ [] → parse_u16 ds = Some num →
  filename_loop upper_other ([x; y; z] ++ ds) [3; 2] = Ok (Some (bt, num)).
Proof.
  intros Hbt Ha Hds Hne Hnum.
  assert (ascii ([x; y; z] ++ ds)) as Hall.
  { apply Forall_app. split; [done|]. eapply Forall_impl; [exact Hds|]. unfold digit. cbn. lia. }
  cbn [filename_loop]. unfold filename_turn. rewrite str_len_ascii by done.
  destruct ds as [|c ds]; [done|].
  destruct (Z.leb_spec (blen ([x; y; z] ++ c :: ds)) 3); [blen_lia|].
  assert (split_at 3 ([x; y; z] ++ c :: ds) = Some ([x; y; z], c :: ds)) as ->
    by (by apply (split_at_ascii [x; y; z])).
  by rewrite Hbt, Hnum.
Qed.

(** The known block types. *)
Definition block_types : list Z := [0x38; 0x41; 0x42; 0x43; 0x44; 0x45; 0x46; 0x47].

(** A directory of uploaded blocks names its blocks: the file name that a
    batch upload gives to block [num] of any known type is read back by the
    comparison as that type and number, so that no two blocks share a file. *)
Lemma block_filename_roundtrip bt num :
  bt ∈ block_types → u16 num →
  parse_block_filename upper_other (block_filename bt num) = Ok (Some (bt, num)).
Proof.
  intros Hbt Hn. unwidth.
  destruct (format_dec_spec 0 num) as (Hds & _ & Hne & _); [lia|].
  assert (parse_u16 (format_dec 0 num) = Some num) as Hp by (apply parse_uint_format; lia).
  unfold parse_block_filename, block_filename. rewrite (assoc_L (++)), strip_suffix_app.
  assert (∀ x y z, (x, y, z) ∈ [(83, 68, 66); (83, 70, 67); (83, 70, 66); (85, 68, 84)] → ascii [x; y; z]) as H3.
  { intros x y z. rewrite !elem_of_cons, elem_of_nil. intros Hin.
    repeat constructor; destruct_or?; simplify_eq; lia. }
  repeat (apply elem_of_cons in Hbt as [->|Hbt]); [..|by apply not_elem_of_nil in Hbt].
  - by apply (filename_loop_short 79 66); [constructor|done|lia..|done|done|done].
  - by apply (filename_loop_short 68 66); [do 2 constructor|done|lia..|done|done|done].
  - apply (filename_loop_long 83 68 66); try done. apply H3. by constructor.
  - by apply (filename_loop_short 70 67); [do 3 constructor|done|lia..|done|done|done].
  - apply (filename_loop_long 83 70 67); try done. apply H3. by do 2 constructor.
  - by apply (filename_loop_short 70 66); [do 4 constructor|done|lia..|done|done|done].
  - apply (filename_loop_long 83 70 66); try done. apply H3. by do 3 constructor.
  - apply (filename_loop_long 85 68 84); try done. apply H3. by do 4 constructor.
Qed.

(** A file whose name has a character of several bytes across the second or
    third byte makes the comparison panic: it is split at byte offsets. *)
Theorem block_filename_panics c rest :
  128 <= c → c < 2048 →
  parse_block_filename upper_other ([68; 66] ++ [c] ++ rest ++ str_bytes ".bin") = Panic.
Proof.
  intros H1 H2. unfold parse_block_filename. rewrite !(assoc_L (++)), strip_suffix_app.
  assert (utf8 c = [192 + c / 64; 128 + c mod 64]) as Hu.
  { unfold utf8. case_ltb; [lia|]. by case_ltb; [|lia]. }
  cbn [filename_loop app]. unfold filename_turn, str_len. cbn [mbind list_bind]. rewrite Hu.
  rewrite !utf8_ascii by lia. rewrite !blen_app, !blen_cons, blen_nil. blen_pose.
  case_ltb; [lia|]. cbn [split_at Z.eqb Pos.eqb]. rewrite !utf8_ascii by lia.
  rewrite Hu, !blen_cons, blen_nil. by vm_compute.
Qed.
End BlockFiles.

(** ** Force addresses *)
Section ForceAddresses.
Variable upper_other : Z → text.

(** Text that uppercase leaves alone. *)
Definition stable (s : text) : Prop := Forall (fun c => 0 <= c < 97) s.

Lemma upper_stable s : stable s → to_uppercase upper_other s = s.
Proof.
  unfold to_uppercase. induction 1 as [|c s Hc Hs IH]; [done|]. cbn [mbind list_bind].
  change (s ≫= char_to_uppercase upper_other = s) in IH.
  rewrite IH. unfold char_to_uppercase. case_ltb; [|lia]. unfold ascii_uppercase.
  by replace (97 <=? c) with false by lia.
Qed.
Lemma stable_digits s : Forall digit s → stable s.
Proof. intros Hs. eapply Forall_impl; [exact Hs|]. unfold digit. cbn. lia. Qed.

Lemma stable_app a b : stable a → stable b → stable (a ++ b).
Proof. intros. by apply Forall_app. Qed.

Lemma strip_prefix_same c p s : strip_prefix (c :: p) (c :: s) = strip_prefix p s.
Proof. cbn. by rewrite Z.eqb_refl. Qed.
Lemma strip_prefix_other c c' p s : c ≠ c' → strip_prefix (c :: p) (c' :: s) = None.
Proof. intros Hc. cbn. by destruct (Z.eqb_spec c c'). Qed.

Lemma first_digit s : Forall digit s → s ≠ [] → ∃ c r, s = c :: r ∧ 48 <= c <= 57.
Proof. intros Hs Hne. destruct s as [|c r]; [done|]. apply Forall_cons in Hs as [Hc _]. by exists c, r. Qed.

(** The addresses in which the force command reports what it did are
    addresses it takes: for inputs and outputs, any 32-bit byte number and any
    bit up to 7, the printed bit and byte addresses parse to what they name. *)
Theorem force_address_roundtrip a n b :
  a = ProcessInput ∨ a = ProcessOutput → u32 n → 0 <= b <= 7 →
  parse_address upper_other (area_char a ++ format_dec 0 n ++ str_bytes "." ++ format_dec 0 b) =
    Ok (ForceBit a n b) ∧
  parse_address upper_other (area_byte_prefix a ++ format_dec 0 n) = Ok (ForceByte a n) ∧
  parse_byte_address upper_other (area_byte_prefix a ++ format_dec 0 n) = Ok (a, n).
Proof.
  intros Ha Hn Hb. unwidth.
  destruct (format_dec_spec 0 n) as (Hdn & _ & Hne & _); [lia|].
  destruct (format_dec_spec 0 b) as (Hdb & _ & _ & _); [lia|].
  destruct (first_digit _ Hdn Hne) as (c & r & Hcr & Hc).
  assert (parse_u32 (format_dec 0 n) = Some n) as Hpn by (apply parse_uint_format; lia).
  assert (parse_u8 (format_dec 0 b) = Some b) as Hpb by (apply parse_uint_format; lia).
  assert (splitn2 46 (format_dec 0 n ++ 46 :: format_dec 0 b) = [format_dec 0 n; format_dec 0 b]) as Hsp.
  { apply splitn2_app, format_not_digit; [lia|unfold digit; lia]. }
  apply stable_digits in Hdn, Hdb.
  assert (stable (area_char a) ∧ stable (area_byte_prefix a)) as [Hs1 Hs2].
  { destruct Ha as [-> | ->]; split; repeat constructor; done. }
  assert (stable (str_bytes ".")) as Hdot by (repeat constructor; done).
  unfold parse_address, parse_byte_address. rewrite !upper_stable by auto using stable_app.
  split_and!.
  - assert (strip_prefix [66] (format_dec 0 n ++ 46 :: format_dec 0 b) = None) as Hno
      by (rewrite Hcr; apply strip_prefix_other; lia).
    change (str_bytes ".") with [46]. change (str_bytes "IB") with [73; 66].
    change (str_bytes "QB") with [81; 66]. change (str_bytes "I") with [73]. change (str_bytes "Q") with [81].
    destruct Ha as [-> | ->]; cbn [area_char app];
      [change (str_bytes "I") with [73]|change (str_bytes "Q") with [81]]; cbn [app];
      rewrite !strip_prefix_same, ?(strip_prefix_other 73 81), ?(strip_prefix_other 81 73), Hno by lia;
      cbn [strip_prefix res_bind]; rewrite Hsp, Hpn; cbn [parsed res_bind]; rewrite Hpb;
      cbn [parsed res_bind]; (destruct (Z.ltb_spec 7 b); [lia|reflexivity]).
  - destruct Ha as [-> | ->]; cbn [area_byte_prefix]; change (str_bytes "IB") with [73; 66];
      change (str_bytes "QB") with [81; 66]; cbn [app strip_prefix Z.eqb Pos.eqb]; by rewrite Hpn.
  - destruct Ha as [-> | ->]; cbn [area_byte_prefix]; change (str_bytes "IB") with [73; 66];
      change (str_bytes "QB") with [81; 66]; cbn [app strip_prefix Z.eqb Pos.eqb]; by rewrite Hpn.
Qed.
End ForceAddresses.

(** ** Examples *)
Lemma tag_write_read_prints_witness :
  ∃ d r1 s1 r2 s2,
    tag_run (fun _ => []) (fun _ => None) (fun _ => []) (TagWrite (str_bytes "db1,int4") (str_bytes "-7"))
      (linked {| pdu_size := 480 |} 1 DataStore_new, []) =
      (Ok tt, (linked {| pdu_size := 480 |} r1 s1, [str_bytes "ok"])) ∧
    mem_eq (mem_of s1) (spec_write 0x84 1 4 d (mem_of DataStore_new)) ∧ blen d = 2 ∧
    tag_run (fun _ => []) (fun _ => None) (fun _ => []) (TagRead (str_bytes "db1,int4"))
      (linked {| pdu_size := 480 |} r1 s1, [str_bytes "ok"]) =
      (Ok tt, (linked {| pdu_size := 480 |} r2 s2, [str_bytes "ok"; str_bytes "-7"])).
Proof.
  apply (tag_write_read_prints (fun _ => []) (fun _ => None) (fun _ => []) (str_bytes "db1,int4")
    (mk_tag DataBlock 1 4 0 Int) (-7) {| pdu_size := 480 |} 1 DataStore_new []);
    try reflexivity; cbn; unwidth; lia.
Defined.

Lemma marker_tag_read_truncated_witness :
  ∃ r' s',
    tag_run (fun _ => []) (fun _ => None) (fun _ => []) (TagRead (str_bytes "MW3"))
      (linked {| pdu_size := 480 |} 1 (write_area 0x83 0 3 [1; 2] DataStore_new), []) =
    (Ok tt, (linked {| pdu_size := 480 |} r' s', [str_bytes "01"])).
Proof.
  apply (marker_tag_read_truncated (fun _ => []) (fun _ => None) (fun _ => []) (str_bytes "MW3")
    (mk_tag Marker 0 3 0 Word)); try reflexivity; [cbn; lia|by left].
Defined.

Lemma datetime_roundtrip_witness :
  let d := {| year := 2026; month := 2; day := 28; hour := 23; minute := 59; second := 1;
              millisecond := 0; weekday := 0 |} in
  parse_datetime (str_bytes "2026-02-28T23:59:01") = Ok d.
Proof. intros d. apply (proj1 datetime_roundtrip d). unfold datetime_fields. cbn. unwidth. lia. Defined.

Lemma block_filename_roundtrip_witness :
  parse_block_filename (fun _ => []) (str_bytes "SDB1000.bin") = Ok (Some (0x42, 1000)).
Proof.
  apply (block_filename_roundtrip (fun _ => []) 0x42 1000); [by do 3 constructor|unwidth; lia].
Defined.

Lemma block_filename_panics_witness :
  parse_block_filename (fun _ => []) ([68; 66] ++ [233] ++ [] ++ str_bytes ".bin") = Panic.
Proof. apply (block_filename_panics (fun _ => []) 233 []); lia. Defined.

Lemma force_address_roundtrip_witness :
  parse_address (fun _ => []) (str_bytes "Q12.7") = Ok (ForceBit ProcessOutput 12 7).
Proof.
  apply (force_address_roundtrip (fun _ => []) ProcessOutput 12 7); [by right|unwidth; lia|lia].
Defined.
