(* ===== verification/CliBlocks.v ===== *)
(** * Block and program commands of the command line tool (cmd/block.rs,
    cmd/program.rs)

    These commands also read and write files.  The host is the lines printed and
    the files written: files named by a path on the command line, and files of a
    directory by their names in it.  Which paths the operating system refuses is
    a parameter, as is the order in which it lists a directory.  The transfer
    loops carry the number of turns they may make, as in Blocks.v. *)

From stdpp Require Import gmap.
From S2P Require Import Prelude Wire Io S7Header Types Connection Client ClientServices Blocks.
From S2P Require Import Tag Text Registry BlockInfo Store Dispatch Loopback Cli.
Local Open Scope Z_scope.
Local Open Scope loop_scope.

Record Host := {
  printed : list text;
  files : gmap text bytes;
  in_dir : gmap (text * text) bytes;
}.

Inductive BlockAction :=
| BlockList_
| BlockNumbers (type : text)
| BlockInfo_ (type : text) (number : Z)
| BlockUpload (type : text) (number : Z) (out : text)
| BlockDownload (type : text) (number : Z) (file : text)
| BlockCreateDb (number size : Z) (author family name version : option text)
| BlockSetAttrs (type : text) (number : Z) (author family name version : option text).

Inductive ProgramAction :=
| MemReset (force : bool)
| Format (force : bool)
| BatchUpload (types out : text) (full : bool)
| Compare (dir : text) (plc_only : bool).

Definition hex_x (w : nat) (n : Z) : text := str_bytes "0x" ++ hex_fixed w n.
Definition num_text (n : Z) : text := format_dec 0 n.
(** The arrow and the dash of the messages. *)
Definition arrow : text := str_bytes " " ++ [8594] ++ str_bytes " ".
Definition em_dash : text := str_bytes " " ++ [8212] ++ str_bytes " ".

Section Commands.
Variable upper_other : Z → text.
Abbreviation upper := (to_uppercase upper_other).
(** The error text of a path the operating system refuses. *)
Variable denied : text → option text.
Context {T : Type} `{Transport T}.
(** Turns allowed to each transfer loop. *)
Variable fuel : nat.

Definition Cmd (A : Type) : Type := Loop (Inner T * Host) CliError A.

(** A client call whose error ends the command. *)
Definition transfer {A} (m : @Bl T A) : Cmd A := fun '(i, h) =>
  match m i with
  | Some (r, i') => Some (res_map_err ClientError r, (i', h))
  | None => None
  end.
Definition invoke {A} (m : @Cl T A) : Cmd A := transfer (loop_run m).
Definition require {A} (r : res text A) : Cmd A := loop_run (io_lift (res_map_err Message r)).
Definition done_ {A} (a : A) : Cmd A := loop_run (io_ret a).
Definition println (l : text) : Cmd unit := fun '(i, h) =>
  Some (Ok tt, (i, {| printed := printed h ++ [l]; files := files h; in_dir := in_dir h |})).
Fixpoint println_all (ls : list text) : Cmd unit :=
  match ls with
  | [] => done_ tt
  | l :: ls => let^ _ := println l in println_all ls
  end.

(** [File::create(path)?.write_all(data)?] and [std::fs::read(path)?]. *)
Definition write_file (path : text) (data : bytes) : Cmd unit := fun '(i, h) =>
  match denied path with
  | Some msg => Some (Err (Message msg), (i, h))
  | None => Some (Ok tt, (i, {| printed := printed h; files := <[path := data]> (files h);
                                in_dir := in_dir h |}))
  end.
Definition read_file (path : text) : Cmd bytes := fun '(i, h) =>
  match denied path, files h !! path with
  | None, Some data => Some (Ok data, (i, h))
  | Some msg, _ => Some (Err (Message msg), (i, h))
  | None, None => Some (Err (Message (str_bytes "No such file or directory (os error 2)")), (i, h))
  end.
(** The same for [out_dir.join(fname)]. *)
Definition save_in (dir fname : text) (data : bytes) : Cmd unit := fun '(i, h) =>
  match denied (dir ++ [47] ++ fname) with
  | Some msg => Some (Err (Message msg), (i, h))
  | None => Some (Ok tt, (i, {| printed := printed h; files := files h;
                                in_dir := <[(dir, fname) := data]> (in_dir h) |}))
  end.

Definition attributes (author family name : option text) (version : option Z) : BlockAttributes :=
  let bytes_of (o : option text) := (fun s => s ≫= utf8) <$> o in
  {| at_author := bytes_of author; at_family := bytes_of family; at_name := bytes_of name;
     at_version := version; at_flags := None |}.

Definition block_type_line (e : BlockListEntry) : text :=
  str_bytes "  " ++ str_bytes (block_type_label (bl_block_type e)) ++ str_bytes " (" ++
  hex_x 4 (bl_block_type e) ++ str_bytes "): " ++ num_text (bl_count e) ++ str_bytes " blocks".

Definition block_info_lines (type : text) (i : BlockInfo) : list text :=
  [str_bytes "Block type:   " ++ hex_x 4 (bi_block_type i) ++ str_bytes " (" ++ type ++ str_bytes ")";
   str_bytes "Block number: " ++ num_text (bi_block_number i);
   str_bytes "Language:     " ++ num_text (bi_language i);
   str_bytes "Flags:        " ++ hex_x 4 (bi_flags i);
   str_bytes "Size:         " ++ num_text (bi_size i) ++ str_bytes " bytes";
   str_bytes "RAM size:     " ++ num_text (bi_size_ram i) ++ str_bytes " bytes";
   str_bytes "MC7 size:     " ++ num_text (bi_mc7_size i) ++ str_bytes " bytes";
   str_bytes "Local data:   " ++ num_text (bi_local_data i) ++ str_bytes " bytes";
   str_bytes "Checksum:     " ++ hex_x 4 (bi_checksum i);
   str_bytes "Version:      " ++ hex_x 4 (bi_version i);
   str_bytes "Author:       " ++ bi_author i;
   str_bytes "Family:       " ++ bi_family i;
   str_bytes "Header:       " ++ bi_header i;
   str_bytes "Date:         " ++ bi_date i].

Definition block_run (action : BlockAction) : Cmd unit :=
  match action with
  | BlockList_ =>
      let^ l := invoke S7Client_list_blocks in
      println_all
        ([str_bytes "Total blocks: " ++ num_text (total_count l)] ++
         (if bool_decide (bl_entries l = []) then [str_bytes "(no block type entries)"] else []) ++
         (block_type_line <$> bl_entries l))
  | BlockNumbers type =>
      let^ bt := require (parse_block_type upper_other type) in
      let^ nums := transfer (S7Client_list_blocks_of_type fuel bt) in
      println_all
        ((num_text (Z.of_nat (length nums)) ++ str_bytes " blocks of type " ++ upper type ++
          str_bytes ":") :: ((fun n => str_bytes "  " ++ upper type ++ num_text n) <$> nums))
  | BlockInfo_ type number =>
      let^ bt := require (parse_block_type upper_other type) in
      let^ info := invoke (S7Client_get_ag_block_info bt number) in
      println_all (block_info_lines type info)
  | BlockUpload type number out =>
      let^ bt := require (parse_block_type upper_other type) in
      let^ data := transfer (S7Client_upload fuel bt number) in
      let^ _ := write_file out data in
      let name := str_bytes "Uploaded " ++ type ++ [32] ++ num_text number ++ str_bytes " (" in
      println
        (match BlockData_from_bytes data with
         | Some bd =>
             name ++ num_text (total_length bd) ++ str_bytes " bytes + " ++
             num_text (blen (payload bd)) ++ str_bytes " payload)" ++ arrow ++ out
         | None => name ++ num_text (blen data) ++ str_bytes " raw bytes)" ++ arrow ++ out
         end)
  | BlockDownload type number file =>
      let^ bt := require (parse_block_type upper_other type) in
      let^ data := read_file file in
      let^ _ := transfer (S7Client_download fuel bt number data) in
      println (ok_dash (str_bytes "downloaded " ++ upper type ++ [32] ++ num_text number ++
                        str_bytes " from " ++ file))
  | BlockCreateDb number size author family name version =>
      let^ v := require (parse_version_opt version) in
      let^ _ := transfer (S7Client_create_db fuel number size (Some (attributes author family name v))) in
      println (ok_dash (str_bytes "created DB" ++ num_text number ++ str_bytes " (" ++
                        num_text size ++ str_bytes " bytes)"))
  | BlockSetAttrs type number author family name version =>
      let^ bt := require (parse_block_type upper_other type) in
      let^ raw := transfer (S7Client_full_upload fuel bt number) in
      let^ block := require (parsed (str_bytes "failed to parse block data")
                               (BlockData_from_bytes raw)) in
      let^ v := require (parse_version_opt version) in
      let block := BlockData_set_attributes (attributes author family name v) block in
      let^ _ := transfer (S7Client_download fuel bt number (BlockData_to_bytes block)) in
      println (ok_dash (str_bytes "attributes updated on " ++ upper type ++ num_text number))
  end.

(** ** Program management *)

(** One block of a batch upload. *)
Definition upload_block (full : bool) (out : text) (bt num : Z) : Cmd unit :=
  let^ data := transfer (if full then S7Client_full_upload fuel bt num
                         else S7Client_upload fuel bt num) in
  save_in out (block_filename bt num) data.
Fixpoint upload_numbers (full : bool) (out : text) (bt : Z) (nums : list Z) (total : Z) : Cmd Z :=
  match nums with
  | [] => done_ total
  | num :: nums =>
      let^ _ := upload_block full out bt num in
      upload_numbers full out bt nums (total + 1)
  end.
Fixpoint upload_types (full : bool) (out : text) (bts : list Z) (total : Z) : Cmd Z :=
  match bts with
  | [] => done_ total
  | bt :: bts =>
      let^ nums := transfer (S7Client_list_blocks_of_type fuel bt) in
      let^ total := upload_numbers full out bt nums total in
      upload_types full out bts total
  end.

(** The block files among the entries of a directory, each with what reading
    it gives. *)
Fixpoint load_blocks (entries : list (text * res text bytes)) : res text (list (Z * Z * bytes)) :=
  match entries with
  | [] => Ok []
  | (fname, content) :: entries =>
      if bool_decide (strip_suffix (str_bytes ".bin") fname = None) then load_blocks entries
      else
        let? block := parse_block_filename upper_other fname in
        match block with
        | Some (bt, num) =>
            let? data := content in
            let? rest := load_blocks entries in
            Ok ((bt, num, data) :: rest)
        | None => load_blocks entries
        end
  end.

Definition compare_line (entry : Z * Z * BlockCmpResult) : text :=
  let '(bt, num, result) := entry in
  let label := str_bytes (block_type_name bt) ++ num_text num in
  match result with
  | Match => str_bytes "  " ++ [10003] ++ str_bytes "  " ++ label
  | Mismatch local_crc plc_crc =>
      str_bytes "  " ++ [10007] ++ str_bytes "  " ++ label ++ em_dash ++
      str_bytes "MISMATCH (local=" ++ hex_x 8 local_crc ++ str_bytes " plc=" ++ hex_x 8 plc_crc ++
      str_bytes ")"
  | OnlyLocal => str_bytes "  ?  " ++ label ++ em_dash ++ str_bytes "only in local (not on PLC)"
  | OnlyPlc => str_bytes "  +  " ++ label ++ em_dash ++ str_bytes "only on PLC (not in local)"
  end.

(** The four counters. *)
Definition count_result (f : BlockCmpResult → bool) (results : list (Z * Z * BlockCmpResult)) : Z :=
  Z.of_nat (length (filter (fun e => f e.2 = true) results)).
Definition summary (results : list (Z * Z * BlockCmpResult)) : text :=
  let n f := num_text (count_result f results) in
  [10] ++ n (fun r => match r with Match => true | _ => false end) ++ str_bytes " match  " ++
  n (fun r => match r with Mismatch _ _ => true | _ => false end) ++ str_bytes " mismatch  " ++
  n (fun r => match r with OnlyLocal => true | _ => false end) ++ str_bytes " local-only  " ++
  n (fun r => match r with OnlyPlc => true | _ => false end) ++ str_bytes " plc-only".

(** [input] is the line typed at a confirmation, [listing] what the operating
    system lists for the directory, [None] if it is not one. *)
Definition program_run (action : ProgramAction) (input : text)
    (listing : option (list (text * res text bytes))) : Cmd unit :=
  match action with
  | MemReset force =>
      let^ _ := require (if (force : bool) then Ok tt else confirm_destructive input) in
      let^ _ := invoke S7Client_memory_reset in
      println (ok_dash (str_bytes "memory reset complete"))
  | Format force =>
      let^ _ := require (if (force : bool) then Ok tt else confirm_destructive input) in
      let^ _ := invoke S7Client_overall_reset in
      println (ok_dash (str_bytes "overall reset complete"))
  | BatchUpload types out full =>
      let^ block_types := require (parse_types_list upper_other types) in
      let^ _ := require (match denied out with Some msg => Err msg | None => Ok tt end) in
      let^ total := upload_types full out block_types 0 in
      println (ok_dash (str_bytes "uploaded " ++ num_text total ++ str_bytes " blocks to " ++ out))
  | Compare dir plc_only =>
      match listing with
      | None => require (Err (str_bytes "not a directory: " ++ dir))
      | Some entries =>
          let^ local := require (load_blocks entries) in
          if bool_decide (local = []) then
            println (str_bytes "no .bin block files found in " ++ dir)
          else
            let^ results := transfer (S7Client_compare_blocks fuel local plc_only) in
            println_all ((compare_line <$> results) ++ [summary results])
      end
  end.
End Commands.

(** * Correctness *)
Section BatchProofs.
Variable upper_other : Z → text.
Variable denied : text → option text.
Context {T : Type} `{Transport T}.
Variable fuel : nat.

(** ** What a batch upload leaves behind *)
Definition save_block (dir : text) (m : gmap (text * text) bytes) (u : Z * Z * bytes)
  : gmap (text * text) bytes := <[(dir, block_filename u.1.1 u.1.2) := u.2]> m.
(** The blocks by type and number, a later upload replacing an earlier one. *)
Definition uploaded (ups : list (Z * Z * bytes)) : gmap (Z * Z) bytes :=
  foldl (fun m u => <[u.1 := u.2]> m) ∅ ups.

Definition saves (dir : text) (h h' : Host) (ups : list (Z * Z * bytes)) : Prop :=
  printed h' = printed h ∧ files h' = files h ∧ in_dir h' = foldl (save_block dir) (in_dir h) ups.

Lemma saves_nil dir h : saves dir h h [].
Proof. done. Qed.
Lemma saves_app dir h h1 h' u v : saves dir h h1 u → saves dir h1 h' v → saves dir h h' (u ++ v).
Proof.
  intros (P1 & F1 & D1) (P2 & F2 & D2). unfold saves. rewrite foldl_app, <- D1. by split_and!; [congruence..|].
Qed.

Lemma loop_bind_inv {S E A B} (m : Loop S E A) (k : A → Loop S E B) s b s' :
  loop_bind m k s = Some (Ok b, s') → ∃ a s1, m s = Some (Ok a, s1) ∧ k a s1 = Some (Ok b, s').
Proof. unfold loop_bind. destruct (m s) as [[[a|e|] s1]|]; naive_solver. Qed.

Lemma transfer_ok {A} (m : @Bl T A) i h a i' h' :
  transfer m (i, h) = Some (Ok a, (i', h')) → m i = Some (Ok a, i') ∧ h' = h.
Proof. unfold transfer. destruct (m i) as [[[x|e|] j]|]; cbn; naive_solver. Qed.

(** What the client uploads of the given types: its blocks of each type, in the
    order of their numbers.  With [full] this is [upload_all_blocks]. *)
Definition upload_each (full : bool) (bt : Z) (nums : list Z) : Bl (list (Z * Z * bytes)) :=
  loop_each (fun num =>
    let^ data := (if full then S7Client_full_upload fuel bt num else S7Client_upload fuel bt num) in
    loop_run (io_ret [(bt, num, data)])) nums.
Definition batch_uploads (full : bool) (bts : list Z) : Bl (list (Z * Z * bytes)) :=
  loop_each (fun bt =>
    let^ nums := S7Client_list_blocks_of_type fuel bt in upload_each full bt nums) bts.

Lemma batch_uploads_full bts : batch_uploads true bts = S7Client_upload_all_blocks fuel bts.
Proof. done. Qed.

Lemma upload_numbers_saves full out bt nums : ∀ total i h n i' h',
  upload_numbers denied fuel full out bt nums total (i, h) = Some (Ok n, (i', h')) →
  ∃ ups, upload_each full bt nums i = Some (Ok ups, i') ∧ n = total + Z.of_nat (length ups) ∧
    saves out h h' ups.
Proof.
  induction nums as [|num nums IH]; intros total i h n i' h' E.
  { injection E as <- <- <-. exists []. split_and!; [done|cbn; lia|done]. }
  apply loop_bind_inv in E as (x & [i2 h2] & E1 & E2).
  apply loop_bind_inv in E1 as (data & [i1 h1] & E1 & E3).
  apply transfer_ok in E1. destruct E1 as [Eu ->]. unfold save_in in E3.
  destruct (denied _); [done|]. simplify_eq.
  apply IH in E2 as (ups & Er & -> & Hs). exists ((bt, num, data) :: ups). split_and!.
  - unfold upload_each in *. cbn [loop_each].
    erewrite loop_bind_ok by (erewrite loop_bind_ok by exact Eu; reflexivity).
    by rewrite (loop_bind_ok _ _ _ _ _ Er).
  - cbn. lia.
  - eapply (saves_app _ _ _ _ [(bt, num, data)]); [|exact Hs]. done.
Qed.

Lemma upload_types_saves full out bts : ∀ total i h n i' h',
  upload_types denied fuel full out bts total (i, h) = Some (Ok n, (i', h')) →
  ∃ ups, batch_uploads full bts i = Some (Ok ups, i') ∧ n = total + Z.of_nat (length ups) ∧
    saves out h h' ups.
Proof.
  induction bts as [|bt bts IH]; intros total i h n i' h' E.
  { injection E as <- <- <-. exists []. split_and!; [done|cbn; lia|done]. }
  apply loop_bind_inv in E as (nums & [i1 h1] & E1 & E2). apply transfer_ok in E1. destruct E1 as [El ->].
  apply loop_bind_inv in E2 as (t & [i2 h2] & E2 & E3).
  apply upload_numbers_saves in E2 as (u & Eu & -> & Hu). apply IH in E3 as (v & Ev & -> & Hv).
  exists (u ++ v). split_and!; [|rewrite length_app; lia|by eapply saves_app].
  unfold batch_uploads in *. cbn [loop_each].
  erewrite loop_bind_ok by (erewrite loop_bind_ok by exact El; exact Eu).
  by rewrite (loop_bind_ok _ _ _ _ _ Ev).
Qed.

Lemma parse_block_type_known s bt : parse_block_type upper_other s = Ok bt → bt ∈ block_types.
Proof using upper_other.
  clear denied.
  unfold parse_block_type, block_types. cbv zeta.
  repeat (case_bool_decide; [intros [= <-]; set_solver|]). done.
Qed.
Lemma parse_types_known l bts : parse_types upper_other l = Ok bts → Forall (.∈ block_types) bts.
Proof using upper_other.
  clear denied.
  revert bts. induction l as [|s l IH]; intros bts; cbn; [intros [= <-]; constructor|].
  destruct (parse_block_type upper_other _) as [bt|e|] eqn:E; cbn; try done.
  destruct (parse_types upper_other l) as [r|e|]; cbn; try done. intros [= <-].
  constructor; [by eapply parse_block_type_known|by apply IH].
Qed.

(** ** Reading the directory back *)
Definition key_ok (k : Z * Z) : Prop := k.1 ∈ block_types ∧ u16 k.2.
Definition key_file (k : Z * Z) : text := block_filename k.1 k.2.

Lemma key_file_parse k : key_ok k → parse_block_filename upper_other (key_file k) = Ok (Some k).
Proof. destruct k as [bt num]. intros [? ?]. by apply block_filename_roundtrip. Qed.
Lemma key_file_inj k k' : key_ok k → key_ok k' → key_file k = key_file k' → k = k'.
Proof. intros Hk Hk' E. apply key_file_parse in Hk, Hk'. rewrite E in Hk. congruence. Qed.
Lemma key_file_bin k : strip_suffix (str_bytes ".bin") (key_file k) ≠ None.
Proof. unfold key_file, block_filename. rewrite (assoc_L (++)), strip_suffix_app. done. Qed.

Lemma saved_lookup dir m ups :
  (∀ n, m !! (dir, n) = None) → Forall (fun u => key_ok u.1) ups →
  (∀ n d, foldl (save_block dir) m ups !! (dir, n) = Some d → ∃ k, key_ok k ∧ n = key_file k) ∧
  (∀ k, key_ok k → foldl (save_block dir) m ups !! (dir, key_file k) = uploaded ups !! k) ∧
  (∀ k d, uploaded ups !! k = Some d → key_ok k).
Proof.
  intros Hm. induction ups as [|[k d] ups IH] using rev_ind; intros Hok.
  { unfold uploaded. cbn. split_and!; [intros n d; by rewrite Hm|intros; by rewrite Hm|intros k d; by rewrite lookup_empty]. }
  apply Forall_app in Hok as [Hok Hk]. rewrite Forall_singleton in Hk. cbn [fst] in Hk.
  destruct (IH Hok) as (I1 & I2 & I3). unfold uploaded in *. rewrite !foldl_app. cbn [foldl].
  unfold save_block at 1 3. cbn [fst snd].
  change (block_filename k.1 k.2) with (key_file k). split_and!.
  - intros n d'. rewrite lookup_insert_Some. intros [[[= <-] _]|[_ Hn]]; [exists k; split; [exact Hk|done]|by eapply I1].
  - intros k' Hk'. destruct (decide (k = k')) as [->|Hne]; [by rewrite !lookup_insert_eq|].
    rewrite !lookup_insert_ne; [by apply I2|done|]. intros [= E]. by apply Hne, key_file_inj.
  - intros k' d'. rewrite lookup_insert_Some. intros [[<- _]|[_ Hn]]; [done|by eapply I3].
Qed.

(** A directory entry whose file can be read. *)
Definition readable (e : text * bytes) : text * res text bytes := (e.1, Ok e.2).

Lemma load_blocks_all entries :
  (∀ n d, (n, d) ∈ entries → ∃ k, key_ok k ∧ n = key_file k) →
  ∃ local, load_blocks upper_other (readable <$> entries) = Ok local ∧
    length local = length entries ∧ ∀ k d, (k, d) ∈ local ↔ key_ok k ∧ (key_file k, d) ∈ entries.
Proof.
  induction entries as [|[n d] entries IH]; intros Hall.
  { exists []. split_and!; [done..|]. intros k d. rewrite !elem_of_nil. by split; [|intros [_ ?]]. }
  destruct IH as (local & El & Hl & Hin); [intros n' d' Hn; apply (Hall n' d'); by right|].
  destruct (Hall n d) as (k & Hk & ->); [by left|].
  exists ((k, d) :: local). cbn [load_blocks fmap list_fmap readable fst snd].
  rewrite bool_decide_eq_false_2 by apply key_file_bin.
  rewrite key_file_parse by done. destruct k as [bt num]. cbn [res_bind]. rewrite El. split_and!.
  - done.
  - cbn. by rewrite Hl.
  - intros k' d'. rewrite !elem_of_cons, Hin. split.
    + intros [[= -> ->]|[? ?]]; [split; [done|by left]|split; [done|by right]].
    + intros [Hk' [[= E ->]|?]]; [left|by right]. by rewrite (key_file_inj k' (bt, num)).
Qed.

End BatchProofs.

(** The blocks uploaded from an input of bytes have known types and 16-bit
    numbers. *)
Section BatchKeys.
Variable fuel : nat.

Lemma loop_each_typed {A B} (P : A → Prop) (Q : B → Prop) (f : A → @Bl Pipe (list B)) l :
  (∀ x, P x → bl_typed (Forall Q) (f x)) → Forall P l → bl_typed (Forall Q) (loop_each f l).
Proof.
  intros Hf. induction 1 as [|x l Hx _ IH]; cbn [loop_each].
  - apply bl_typed_run, cl_typed_lift. by intros a [= <-].
  - eapply bl_typed_bind; [by apply Hf|]. intros ys Hys. eapply bl_typed_bind; [exact IH|].
    intros zs Hzs. apply bl_typed_run, cl_typed_lift. intros a [= <-]. by apply Forall_app.
Qed.
Lemma batch_uploads_typed full bts :
  Forall (.∈ block_types) bts → bl_typed (Forall (fun u => key_ok u.1)) (batch_uploads fuel full bts).
Proof.
  intros Hb. apply (loop_each_typed (.∈ block_types)); [|done]. intros bt Hbt.
  eapply bl_typed_bind; [apply list_blocks_typed|]. intros nums Hn.
  apply (loop_each_typed u16); [|done]. intros num Hnum.
  apply (bl_typed_bind (fun _ => True)); [destruct full; apply upload_with_typed|].
  intros d _. apply bl_typed_run, cl_typed_lift. intros a [= <-]. by apply Forall_singleton.
Qed.
End BatchKeys.

Section BatchReload.
Variable upper_other : Z → text.
Variable denied : text → option text.
Variable fuel : nat.

(** C32: a batch upload can be compared: when [program batch-upload] of a PLC,
    whatever bytes it sends, into an empty directory succeeds, it has run the
    client's uploads of the blocks of the types asked for, it reports the
    number of those blocks, and listing the directory in any order gives
    [program compare] exactly those blocks, each once, with the bytes the
    client uploaded for it; no file is skipped, confused with another block's
    or overwritten by another block. *)
Theorem batch_upload_reload types out full input listing (i : Inner Pipe) h i' h' entries :
  fed i → (∀ n, in_dir h !! (out, n) = None) →
  program_run upper_other denied fuel (BatchUpload types out full) input listing (i, h) =
    Some (Ok tt, (i', h')) →
  (∀ n d, (n, d) ∈ entries ↔ in_dir h' !! (out, n) = Some d) →
  ∃ bts ups local,
    parse_types_list upper_other types = Ok bts ∧
    batch_uploads fuel full bts i = Some (Ok ups, i') ∧
    printed h' = printed h ++ [ok_dash (str_bytes "uploaded " ++ num_text (Z.of_nat (length ups)) ++
                                        str_bytes " blocks to " ++ out)] ∧
    load_blocks upper_other (readable <$> entries) = Ok local ∧
    length local = length entries ∧
    ∀ k d, (k, d) ∈ local ↔ uploaded ups !! k = Some d.
Proof.
  intros Hfed Hempty E Hent. cbn [program_run] in E.
  apply loop_bind_inv in E as (bts & s1 & E1 & E). unfold parse_types_list in E1 |- *.
  destruct (parse_types upper_other _) as [l|e|] eqn:Ep; try done. injection E1 as <- <-.
  apply parse_types_known in Ep.
  apply loop_bind_inv in E as (x & s2 & E2 & E). destruct (denied out); [done|]. injection E2 as <- <-.
  apply loop_bind_inv in E as (n & [i3 h3] & E3 & E).
  apply upload_types_saves in E3 as (ups & Hups & -> & (Hp & _ & Hd)). injection E as <- <-.
  pose proof (batch_uploads_typed fuel full l Ep _ _ _ Hfed Hups) as [_ Hok]. specialize (Hok _ eq_refl).
  cbn [printed in_dir] in *.
  destruct (saved_lookup upper_other out (in_dir h) ups Hempty Hok) as (S1 & S2 & S3). rewrite <- Hd in *.
  destruct (load_blocks_all upper_other entries) as (local & El & Hl & Hin).
  { intros n d Hn. apply Hent in Hn. by eapply S1. }
  exists l, ups, local. split_and!; [done|done|by rewrite Hp|done..|].
  intros k d. rewrite Hin, Hent. split.
  - intros [Hk Hl']. by rewrite <- S2.
  - intros Hk. pose proof (S3 _ _ Hk) as Hok'. split; [done|]. by rewrite S2.
Qed.
End BatchReload.

(** ** Confirmation *)

(** Nothing destructive happens unconfirmed: without [--force] and with
    anything but y (in either case, blanks around it) typed at the prompt,
    memory reset, overall reset, setting and syncing the clock fail without a
    byte sent to the PLC and without printing. *)
Theorem unconfirmed_is_harmless {T} `{Transport T} up denied fuel input now datetime out
    (i : Inner T) (h : Host) :
  trim input ∉ [str_bytes "y"; str_bytes "Y"] →
  program_run up denied fuel (MemReset false) input None (i, h) =
    Some (Err (Message (str_bytes "aborted")), (i, h)) ∧
  program_run up denied fuel (Format false) input None (i, h) =
    Some (Err (Message (str_bytes "aborted")), (i, h)) ∧
  clock_run (ClockSync false) input now (i, out) = (Err (Message (str_bytes "aborted")), (i, out)) ∧
  (clock_run (ClockSet datetime false) input now (i, out)).2 = (i, out) ∧
  (clock_run (ClockSet datetime false) input now (i, out)).1 ≠ Ok tt.
Proof.
  intros Hy. assert (confirm_destructive input = Err (str_bytes "aborted")) as Hc.
  { unfold confirm_destructive, eq_ignore_ascii_case.
    rewrite bool_decide_eq_false_2; [done|]. intros E. apply Hy.
    destruct (trim input) as [|c [|]]; try done. injection E as E.
    change (ascii_upper c = 89) in E. unfold ascii_upper in E.
    destruct ((97 <=? c) && (c <=? 122)) eqn:Ec;
      [assert (c = 121) as -> by lia; by left|assert (c = 89) as -> by lia; by right; left]. }
  cbn [program_run clock_run]. rewrite Hc. split_and!; try done.
  all: unfold io_bind, check, io_lift; destruct (parse_datetime datetime); done.
Qed.

Lemma unconfirmed_is_harmless_witness :
  program_run (T := Pipe) (fun _ => []) (fun _ => None) 1 (Format false) (str_bytes "yes") None
    ({| inner_transport := {| rx := []; tx := [] |}; connection := {| pdu_size := 480 |};
        inner_pdu_ref := 1; connected := true; job_start := false |},
     {| printed := []; files := ∅; in_dir := ∅ |}) =
  Some (Err (Message (str_bytes "aborted")),
    ({| inner_transport := {| rx := []; tx := [] |}; connection := {| pdu_size := 480 |};
        inner_pdu_ref := 1; connected := true; job_start := false |},
     {| printed := []; files := ∅; in_dir := ∅ |})).
Proof.
  apply (unconfirmed_is_harmless (T := Pipe) (fun _ => []) (fun _ => None) 1 (str_bytes "yes") 0 [] []).
  rewrite !elem_of_cons, elem_of_nil. by intros [E|[E|E]].
Defined.

(** A PLC with one data block, number 7, of five bytes. *)
Definition demo_plc : Inner Pipe :=
  let a pl body := {| ack_ref := 1; ack_pl := pl; ack_dl := 4; ack_body := body |} in
  piped
    (ack_wire (a 12 (replicate 12 0 ++ [0xFF; 9; 0; 4; 0; 7; 0; 0])) ++
     ack_wire (a 2 ([0x1D; 0] ++ be32 5 ++ [0; 0; 0; 5])) ++
     ack_wire (a 2 ([0x1D; 1; 0xFF; 4; 0; 32] ++ [1; 2; 3; 4])) ++ ack_wire (a 2 [0x1D; 1; 9]) ++
     ack_wire (a 2 [0x1D; 2])) [] {| pdu_size := 54 |} 1 false.

(** Its only block is uploaded, saved and loaded again. *)
Lemma batch_upload_reload_witness :
  let fname := str_bytes "DB7.bin" in
  ∃ i' h',
    program_run (fun _ => []) (fun _ => None) 3 (BatchUpload (str_bytes "db") (str_bytes "out") false)
      [] None (demo_plc, {| printed := []; files := ∅; in_dir := ∅ |}) = Some (Ok tt, (i', h')) ∧
    ∃ bts ups local, parse_types_list (fun _ => []) (str_bytes "db") = Ok bts ∧
      batch_uploads 3 false bts demo_plc = Some (Ok ups, i') ∧
      printed h' = [ok_dash (str_bytes "uploaded " ++ num_text (Z.of_nat (length ups)) ++
                             str_bytes " blocks to " ++ str_bytes "out")] ∧
      load_blocks (fun _ => []) [(fname, Ok [1; 2; 3; 4; 9])] = Ok local ∧ length local = 1%nat ∧
      ∀ k d, (k, d) ∈ local ↔ uploaded ups !! k = Some d.
Proof.
  intros fname.
  set (start := {| printed := []; files := ∅; in_dir := ∅ |}).
  assert (∃ i', program_run (fun _ => []) (fun _ => None) 3
      (BatchUpload (str_bytes "db") (str_bytes "out") false) [] None (demo_plc, start) =
      Some (Ok tt, (i', {| printed := [ok_dash (str_bytes "uploaded 1 blocks to out")]; files := ∅;
                           in_dir := {[(str_bytes "out", fname) := [1; 2; 3; 4; 9]]} |}))) as [i' E].
  { eexists. vm_compute. reflexivity. }
  eexists i', _. split; [exact E|].
  apply (batch_upload_reload (fun _ => []) (fun _ => None) 3 (str_bytes "db") (str_bytes "out") false
           [] None demo_plc start i' _ [(fname, [1; 2; 3; 4; 9])]); [|done|exact E|].
  - clear E. apply (bool_decide_unpack _). vm_compute. exact I.
  - clear E. intros n d. cbn [in_dir]. rewrite list_elem_of_singleton, lookup_singleton_Some. split; [by intros [= -> ->]|by intros [[= <-] <-]].
Defined.
