(* ===== verification/CliInfo.v ===== *)
(** * The query and control commands of the command line tool (cmd/szl.rs,
    cmd/diag.rs, cmd/info.rs, cmd/plc_control.rs, cmd/password.rs) *)

From S2P Require Import Prelude Wire Io Tpkt Cotp S7Header Szl Store ServerHandshake Dispatch.
From S2P Require Import Connection Tag Text Client Types Blocks Loopback ClientServices ServiceLoop.
From S2P Require Import BlockInfo CpuInfo Cli.
Local Open Scope Z_scope.

Record SzlArgs := { szl_arg_id : Z; szl_arg_index : Z }.
Inductive PlcAction := PlcStop | PlcHotStart | PlcColdStart | PlcQuery.
Inductive InfoAction := InfoOrderCode | InfoCpuInfo | InfoCpInfo | InfoModuleList.
Inductive PasswordAction := PasswordSet (password : text) | PasswordClear.

(** The value parser of the SZL arguments. *)
Definition parse_hex_or_decimal (s : text) : option Z :=
  let s := trim s in
  match strip_prefix (str_bytes "0x") s, strip_prefix (str_bytes "0X") s with
  | Some r, _ | None, Some r => parse_hex 65535 r
  | None, None => parse_u16 s
  end.

Definition quote : text := [34].

Section Commands.
Variable upper_other : Z → text.
Context {T : Type} `{Transport T}.

Definition szl_run (args : SzlArgs) (format : OutputFormat) : @Cli T unit :=
  let* info := call (S7Client_read_szl (szl_arg_id args) (szl_arg_index args)) in
  match format with
  | FormatJson =>
      say (str_bytes "{" ++ quote ++ str_bytes "szl_id" ++ quote ++ str_bytes ":" ++
           format_dec 0 (szl_arg_id args) ++ str_bytes "," ++ quote ++ str_bytes "szl_index" ++ quote ++
           str_bytes ":" ++ format_dec 0 (szl_arg_index args) ++ str_bytes "," ++ quote ++
           str_bytes "data" ++ quote ++ str_bytes ":[" ++
           join (str_bytes ",") (hex_fixed 2 <$> szl_data info) ++ str_bytes "]}")
  | _ => say_all (print_bytes (szl_data info) format)
  end.

Definition diag_run : @Cli T unit :=
  let* info := call (S7Client_read_szl 0x0011 0x0000) in
  say (str_bytes "Connected. SZL 0x0011 returned " ++ format_dec 0 (blen (szl_data info)) ++
       str_bytes " bytes.").

Definition plc_control_run (action : PlcAction) : @Cli T unit :=
  match action with
  | PlcStop =>
      let* _ := call S7Client_plc_stop in say (ok_dash (str_bytes "plc stop command sent"))
  | PlcHotStart =>
      let* _ := call S7Client_plc_hot_start in say (ok_dash (str_bytes "plc hot-start command sent"))
  | PlcColdStart =>
      let* _ := call S7Client_plc_cold_start in say (ok_dash (str_bytes "plc cold-start command sent"))
  | PlcQuery =>
      let* status := call S7Client_get_plc_status in
      say (str_bytes "PLC status: " ++
           match status with
           | StatusRun => str_bytes "RUN"
           | StatusStop => str_bytes "STOP"
           | StatusUnknown => str_bytes "UNKNOWN"
           end)
  end.

Definition module_line (i : nat) (m : Z) : text :=
  str_bytes "[" ++ format_dec 0 (Z.of_nat i) ++ str_bytes "] module_type=0x" ++ hex_fixed 4 m.

Definition info_run (action : InfoAction) : @Cli T unit :=
  match action with
  | InfoOrderCode =>
      let* oc := call (S7Client_get_order_code upper_other) in
      say_all
        [str_bytes "Order code: " ++ oc_code oc;
         str_bytes "Version:    " ++ format_dec 0 (oc_v1 oc) ++ str_bytes "." ++
           format_dec 0 (oc_v2 oc) ++ str_bytes "." ++ format_dec 0 (oc_v3 oc)]
  | InfoCpuInfo =>
      let* ci := call (S7Client_get_cpu_info upper_other) in
      let t := cpu_texts ci in
      say_all
        [str_bytes "Module type:   " ++ module_type t; str_bytes "Serial number: " ++ serial_number t;
         str_bytes "AS name:       " ++ as_name t; str_bytes "Copyright:     " ++ copyright t;
         str_bytes "Module name:   " ++ module_name t;
         str_bytes "Protocol:      " ++ str_bytes (Protocol_display (cpu_protocol ci)) ++ str_bytes " " ++
           match cpu_protocol ci with
           | S7 => str_bytes "(S7-300/400/1200)"
           | S7Plus => str_bytes "(S7-1200/1500)"
           end]
  | InfoCpInfo =>
      let* cp := call S7Client_get_cp_info in
      say_all
        [str_bytes "Max PDU length:    " ++ format_dec 0 (max_pdu_len cp);
         str_bytes "Max connections:   " ++ format_dec 0 (max_connections cp);
         str_bytes "Max MPI rate:      " ++ format_dec 0 (max_mpi_rate cp);
         str_bytes "Max bus rate:      " ++ format_dec 0 (max_bus_rate cp)]
  | InfoModuleList =>
      let* modules := call S7Client_read_module_list in
      say_all (imap module_line modules ++
               (if bool_decide (modules = []) then [str_bytes "(empty module list)"] else []))
  end.

Definition password_run (action : PasswordAction) : @Cli T unit :=
  match action with
  | PasswordSet password =>
      let* _ := call (S7Client_set_session_password (password ≫= utf8)) in
      say (ok_dash (str_bytes "session password set"))
  | PasswordClear =>
      let* _ := call S7Client_clear_session_password in
      say (ok_dash (str_bytes "session password cleared"))
  end.
End Commands.

(** * Correctness: the commands against the simulated PLC *)
Lemma control_linked func context c r s :
  func ∈ [0x28; 0x29; 0x2A] →
  command context [func; 0x00] [] Job (linked c r s) = (Ok tt, linked c (as_u16 (r + 1)) s).
Proof.
  intros Hf. set (r' := as_u16 (r + 1)). assert (u16 r') as Hr by apply as_u16_u16.
  unfold command. erewrite io_bind_ok.
  2: { eapply (exchange_linked _ _ Job c r s
                 (S7Header_encode (ack_header r' 2 0 0 0) ++ [func; 0x00]) s).
       - rewrite blen_request_payload. vm_compute. discriminate.
       - vm_compute. discriminate.
       - intros T Tr tr. unfold request_payload.
         rewrite dispatch_request_job by (done || by apply request_header_wf).
         repeat (apply elem_of_cons in Hf as [->|Hf]); [reflexivity..|by apply not_elem_of_nil in Hf].
       - apply S7Header_decode_encode, ack_header_wf; try done; unwidth; lia. }
  unfold io_lift. by rewrite check_plc_error_ack.
Qed.

Lemma call_ok {T A} (m : @Cl T A) i a i' out : m i = (Ok a, i') → call m (i, out) = (Ok a, (i', out)).
Proof. intros E. unfold call. by rewrite E. Qed.

(** The query commands print what the simulated PLC says of itself, and the
    control commands do not change it: stopping, hot-starting and cold-starting
    are acknowledged, the store (with the CPU state in it) stays as it is, and a
    following status query prints RUN, also after a stop and whatever CPU state
    was set in the store. *)
Theorem control_without_effect up action c r s out :
  action ∈ [PlcStop; PlcHotStart; PlcColdStart] →
  ∃ line c',
    plc_control_run action (linked c r s, out) = (Ok tt, (linked c c' s, out ++ [line])) ∧
    plc_control_run PlcQuery (linked c c' s, out ++ [line]) =
      (Ok tt, (linked c (as_u16 (c' + 1)) s, out ++ [line] ++ [str_bytes "PLC status: RUN"])) ∧
    info_run up InfoCpuInfo (linked c c' s, out) =
      (Ok tt, (linked c (as_u16 (c' + 1)) s,
               out ++ [str_bytes "Module type:   CPU Simulated";
                       str_bytes "Serial number: SIM-0000000001"; str_bytes "AS name:       SimPLC";
                       str_bytes "Copyright:     (C) Simulated"; str_bytes "Module name:   SimPLC";
                       str_bytes "Protocol:      S7 (S7-300/400/1200)"])).
Proof.
  intros Ha.
  assert (∃ line, plc_control_run action (linked c r s, out) =
                  (Ok tt, (linked c (as_u16 (r + 1)) s, out ++ [line]))) as [line E].
  { repeat (apply elem_of_cons in Ha as [->|Ha]); [..|by apply not_elem_of_nil in Ha];
      (eexists; unfold plc_control_run; erewrite io_bind_ok;
       [|apply call_ok; apply control_linked; by repeat constructor]; reflexivity). }
  exists line, (as_u16 (r + 1)). split_and!; [exact E| |].
  - unfold plc_control_run. erewrite io_bind_ok.
    2: { apply call_ok. unfold S7Client_get_plc_status.
         by rewrite (io_bind_ok _ _ _ _ _ (read_szl_payload_linked 0x0424 0 _ _ _ ltac:(unwidth; lia))). }
    cbn [say]. by rewrite <- (assoc (++)).
  - unfold info_run. erewrite io_bind_ok.
    2: { apply call_ok. unfold S7Client_get_cpu_info.
         by rewrite (io_bind_ok _ _ _ _ _ (read_szl_payload_linked 0x001C 0 _ _ _ ltac:(unwidth; lia))). }
    reflexivity.
Qed.

Lemma control_without_effect_witness :
  let s := set_cpu_state Stop DataStore_new in
  ∃ line c',
    plc_control_run PlcStop (linked {| pdu_size := 480 |} 1 s, []) =
      (Ok tt, (linked {| pdu_size := 480 |} c' s, [line])) ∧
    plc_control_run PlcQuery (linked {| pdu_size := 480 |} c' s, [line]) =
      (Ok tt, (linked {| pdu_size := 480 |} (as_u16 (c' + 1)) s, [line; str_bytes "PLC status: RUN"])).
Proof.
  intros s.
  destruct (control_without_effect (fun _ => []) PlcStop {| pdu_size := 480 |} 1 s [])
    as (line & c' & H1 & H2 & _); [by constructor|]. by exists line, c'.
Defined.
