(* ===== verification/Queries.v ===== *)
(** * Requests that cannot change the simulated PLC

    The server changes data or clock for two requests only: the write function
    of a job and the clock request with subfunction 2.  Every method of the
    client that sends neither, and every command made of such methods, leaves
    the memory, the clock and the locks of a simulated PLC as they were, on
    every outcome.  The lemmas compose like the code: [quiet] for code that
    uses a client, [quiet_loop] for code with a transfer loop. *)

From stdpp Require Import gmap.
From S2P Require Import Prelude Wire Io Tpkt Cotp S7Header ReadVar WriteVar Clock Szl Store.
From S2P Require Import ServerHandshake Dispatch Connection Types Client Loopback Tag ClientServices.
From S2P Require Import Blocks BlockInfo CpuInfo.
Local Open Scope Z_scope.

(** ** The server *)

(** Requests without effect, by their parameter bytes. *)
Definition harmless (t : PduType) (param : bytes) : bool :=
  match t with
  | Job => negb (byte_or_0 param 0 =? FUNC_WRITE_VAR)
  | UserData =>
      negb ((byte_or_0 param 4 =? 0x11) && (Z.land (byte_or_0 param 5) 0x0F =? 7) &&
            (byte_or_0 param 6 =? 2))
  | _ => true
  end.

(** Serving a request reads nothing more and leaves the data alone. *)
Definition keeps_data {A} (m : @Srv Pipe A) : Prop :=
  ∀ p s, rx (m (p, s)).2.1 = rx p ∧ same_data s (m (p, s)).2.2.

Lemma keeps_data_bind {A B} (m : @Srv Pipe A) (k : A → @Srv Pipe B) :
  keeps_data m → (∀ a, keeps_data (k a)) → keeps_data (io_bind m k).
Proof.
  intros Hm Hk t s. destruct (Hm t s) as [H1 H2]. unfold io_bind.
  destruct (m (t, s)) as [[a|e|] [t' s']]; cbn in *; try done.
  destruct (Hk a t' s') as [H3 H4]. split; [congruence|by etrans].
Qed.
Lemma keeps_data_lift {A} (r : res Server.Error A) : keeps_data (@io_lift (Pipe * StoreInner) _ A r).
Proof. by intros t s. Qed.
Lemma keeps_data_send b : keeps_data (on_transport (send_cotp_data b)).
Proof.
  intros t s. unfold on_transport. pose proof (send_cotp_data_rx b t) as H.
  by destruct (send_cotp_data b t).
Qed.
Lemma keeps_data_store {A} (f : StoreInner → A * StoreInner) :
  (∀ s, same_data s (f s).2) → keeps_data (on_store f).
Proof. intros Hf t s. unfold on_store. specialize (Hf s). by destruct (f s). Qed.

Lemma read_items_loop_same items s : same_data s (read_items_loop items s).2.
Proof.
  revert s. induction items as [|i items IH]; intros s; [done|]. cbn [read_items_loop].
  destruct (read_item i s) as [d s1] eqn:E. specialize (IH s1).
  destruct (read_items_loop items s1) as [ds s2]. cbn in *.
  etrans; [|exact IH]. unfold read_item in E. by injection E as _ <-.
Qed.
Lemma handle_read_same payload s : same_data s (handle_read_var payload s).2.
Proof.
  unfold handle_read_var. destruct (ReadVarRequest_decode payload) as [[req ?]| |]; [|done..].
  pose proof (read_items_loop_same (ReadVar.read_items req) s) as H.
  by destruct (read_items_loop _ s).
Qed.

Create HintDb quiet.
#[export] Hint Resolve keeps_data_lift keeps_data_send handle_read_same : quiet.
#[export] Hint Extern 1 (keeps_data (on_store _)) => apply keeps_data_store; intros : quiet.

Lemma answer_var_keeps ref func r : keeps_data (answer_var ref func r).
Proof. destruct r as [[]| |]; [apply keeps_data_send..|apply keeps_data_lift]. Qed.

Lemma dispatch_request_keeps payload h body :
  S7Header_decode payload = Ok (h, body) → harmless (pdu_type h) body = true →
  keeps_data (dispatch_request payload).
Proof.
  intros Hd Hh. unfold dispatch_request. rewrite Hd.
  case_match; [apply keeps_data_send|]. case_match eqn:Ht; try apply keeps_data_send.
  - unfold dispatch_job. destruct body as [|func body]; [auto with quiet|]. cbn in Hh.
    case_match; [apply keeps_data_bind; [auto with quiet|intros; apply answer_var_keeps]|].
    unfold byte_or_0 in Hh. cbn in Hh. destruct (func =? FUNC_WRITE_VAR); [done|].
    repeat case_match; apply keeps_data_send.
  - cbn in Hh. case_match eqn:Hg; [|apply keeps_data_send].
    apply andb_prop in Hg as [_ Hg]. rewrite Hg in Hh. cbn in Hh.
    unfold handle_user_data, handle_clock_user_data, handle_szl_user_data. cbv zeta.
    case_match eqn:Hg7.
    + assert (((if 7 <=? blen body then byte_or_0 body 6 else 0) =? 2) = false) as ->.
      { destruct (6 <=? blen body); [|done]. rewrite Hg7 in Hh. cbn in Hh.
        case_match; [|done]. by destruct (byte_or_0 body 6 =? 2). }
      apply keeps_data_bind; [by auto with quiet|]. intros a. repeat case_match; auto with quiet.
    + apply keeps_data_bind; [repeat case_match; auto with quiet; by intros t s|].
      intros a. apply keeps_data_send.
Qed.

(** ** Code that uses a client

    The state such code runs on gives access to the link to the PLC: the state
    of a client on a [Link], alone or with what a command has printed or
    saved. *)
Class HasLink (X : Type) := link_of : X → Link.
#[export] Instance client_link : HasLink (Inner Link) := inner_transport.
#[export] Instance pair_link {X Y} `{HasLink X} : HasLink (X * Y) := fun x => link_of x.1.

(** A PLC that serves keeps serving, and keeps its data. *)
Definition kept (l l' : Link) : Prop :=
  link_peer l = Serving → link_peer l' = Serving ∧ same_data (link_store l) (link_store l').
#[export] Instance kept_preorder : PreOrder kept.
Proof.
  split; [by intros l Hl|]. intros x y z H1 H2 Hx. destruct (H1 Hx) as [Hy E1].
  destruct (H2 Hy) as [Hz E2]. split; [done|by etrans].
Qed.

Section Quiet.
Context {X E : Type} `{HasLink X}.

Definition quiet {A} (m : IO X E A) : Prop := ∀ x, kept (link_of x) (link_of (m x).2).
Definition quiet_loop {A} (m : Loop X E A) : Prop := ∀ x r x',
  m x = Some (r, x') → kept (link_of x) (link_of x').

Lemma quiet_bind {A B} (m : IO X E A) (k : A → IO X E B) :
  quiet m → (∀ a, quiet (k a)) → quiet (io_bind m k).
Proof.
  intros Hm Hk i. specialize (Hm i). unfold io_bind.
  destruct (m i) as [[a|e|] i']; cbn in *; try done. etrans; [exact Hm|apply Hk].
Qed.
Lemma quiet_lift {A} (r : res E A) : quiet (@io_lift X _ A r).
Proof. by intros i. Qed.
Lemma quiet_ret {A} (a : A) : quiet (io_ret a).
Proof. by intros i. Qed.
Lemma quiet_fail {A} (e : E) : quiet (@io_fail X _ A e).
Proof. by intros i. Qed.

Lemma quiet_loop_run {A} (m : IO X E A) : quiet m → quiet_loop (loop_run m).
Proof. intros Hm x r x' [= E0]. specialize (Hm x). by rewrite E0 in Hm. Qed.
Lemma quiet_loop_bind {A B} (m : Loop X E A) (k : A → Loop X E B) :
  quiet_loop m → (∀ a, quiet_loop (k a)) → quiet_loop (loop_bind m k).
Proof.
  intros Hm Hk x r x'. unfold loop_bind. destruct (m x) as [[[a|e|] x1]|] eqn:E0; [|intros [= <- <-]..|done].
  - intros E1. etrans; [by eapply Hm|by eapply Hk].
  - by eapply Hm.
  - by eapply Hm.
Qed.
Lemma quiet_loop_none {A} : quiet_loop (fun _ => @None (res E A * X)).
Proof. by intros x r x'. Qed.
Lemma quiet_loop_each {A B} (f : A → Loop X E (list B)) l :
  (∀ a, quiet_loop (f a)) → quiet_loop (loop_each f l).
Proof.
  intros Hf. induction l as [|a l IH]; cbn [loop_each].
  - apply quiet_loop_run, quiet_ret.
  - apply quiet_loop_bind; [done|]. intros ys. apply quiet_loop_bind; [done|]. intros zs.
    apply quiet_loop_run, quiet_ret.
Qed.
End Quiet.

(** ** The client *)
Lemma quiet_read_timed n : quiet (read_timed n).
Proof. intros i Hi. unfold read_timed. cbn. by destruct (_ <? n). Qed.
Lemma quiet_next_ref : quiet next_pdu_ref.
Proof. by intros i. Qed.

#[export] Hint Resolve quiet_lift quiet_ret quiet_fail quiet_loop_none quiet_read_timed quiet_next_ref : quiet.

(** Follows the binds and matches of a method. *)
Ltac quiet_steps := intros;
  repeat first
    [ solve [auto with quiet]
    | apply quiet_bind; [|let a := fresh "a" in intros a;
        match type of a with (_ * _)%type => destruct a as [? ?] | _ => idtac end]
    | apply quiet_loop_bind; [|let a := fresh "a" in intros a;
        match type of a with (_ * _)%type => destruct a as [? ?] | _ => idtac end]
    | apply quiet_loop_each; intros
    | apply quiet_loop_run
    | match goal with
      | |- quiet (match ?x with _ => _ end) => destruct x
      | |- quiet_loop (match ?x with _ => _ end) => destruct x
      end ].

Lemma quiet_recv_s7 : quiet recv_s7.
Proof.
  unfold recv_s7. apply quiet_bind; [auto with quiet|]. intros hdr.
  destruct hdr as [|? [|? [|? [|? [|? ?]]]]]; auto with quiet. cbv zeta.
  case_match; [auto with quiet|]. apply quiet_bind; [auto with quiet|]. intros b.
  destruct b as [|? [|? [|? ?]]]; auto with quiet. case_match; [auto with quiet|].
  apply quiet_bind; [auto with quiet|]. intros [h b'].
  apply quiet_bind; [by intros i|auto with quiet].
Qed.

Lemma link_write_quiet payload h body q s :
  7 + blen payload <= 65535 → S7Header_decode payload = Ok (h, body) →
  harmless (pdu_type h) body = true →
  let l := {| link_rx := q; link_store := s; link_peer := Serving |} in
  kept l (write_all (data_frame payload) l).2.
Proof.
  intros Hl Hd Hh l _. subst l. cbn [write_all Link_transport link_store link_rx link_peer].
  assert (∃ r p s', dispatch_loop (S (length (data_frame payload)))
            ({| rx := data_frame payload; tx := [] |}, s) = Some (r, (p, s')) ∧ same_data s s')
    as (r & p & s' & -> & Hs); [|done].
  destruct (length (data_frame payload)) as [|n] eqn:Hn; [done|].
  rewrite <- (app_nil_r (data_frame payload)). cbn [dispatch_loop].
  unfold dispatch_turn at 1, on_transport at 1. rewrite recv_cotp_data_frame by done.
  destruct (dispatch_request_keeps payload h body Hd Hh {| rx := []; tx := [] |} s) as [H1 H2].
  destruct (dispatch_request payload _) as [[u|e|] [[r' t'] s']]; cbn [fst snd rx] in H1, H2;
    [subst r'|..]; (eexists _, _, _; split; [reflexivity|exact H2]).
Qed.

Lemma quiet_exchange param data t :
  t = Job ∨ t = UserData → harmless t (param ++ data) = true → quiet (exchange param data t).
Proof.
  intros Ht Hh. unfold exchange, next_pdu_ref. intros i. unfold io_bind at 1. cbv zeta.
  set (r := as_u16 (inner_pdu_ref i + 1)).
  assert (quiet (send_s7 param data r t)) as Hs.
  { intros i' Hi'. unfold send_s7.
    destruct (TpktFrame_encode _) as [b| |] eqn:E; [|done..].
    apply TpktFrame_encode_inv in E as [Hl ->]. cbn [tpkt_payload CotpPdu_encode] in *.
    match goal with |- context [write_all ?x _] =>
      change x with (data_frame (request_payload param data r t)) end.
    destruct i' as [[q s pr] c r' k j]. cbn in Hi'. subst pr. cbn [set_job_start inner_transport].
    pose proof (link_write_quiet (request_payload param data r t)
      (request_header (as_u16 (blen param)) (as_u16 (blen data)) r t) (param ++ data) q s) as H. cbv zeta in H.
    destruct (write_all _ _) as [r0 t0]. refine (H _ _ Hh eq_refl); [|apply S7Header_decode_encode].
    - revert Hl. cbn. rewrite !blen_cons. lia.
    - assert (u16 r) by apply as_u16_u16.
      destruct Ht as [-> | ->]; split_and!; cbn; try apply as_u16_u16; unwidth; try done; lia. }
  exact (quiet_bind _ (fun _ => recv_s7) Hs (fun _ => quiet_recv_s7) (set_pdu_ref i r)).
Qed.

#[export] Hint Extern 2 (quiet (exchange _ _ _)) =>
  apply quiet_exchange; [first [by left|by right]|reflexivity] : quiet.

(** *** Its methods *)
Lemma quiet_read_one context item : quiet (read_one context item).
Proof. unfold read_one. quiet_steps. Qed.
Lemma quiet_db_read db start length : quiet (S7Client_db_read db start length).
Proof. apply quiet_read_one. Qed.
Lemma quiet_read_area a db start n t : quiet (S7Client_read_area a db start n t).
Proof. apply quiet_read_one. Qed.
Lemma quiet_read_multi_loop fuel mp k items results :
  quiet (read_multi_loop fuel mp k items results).
Proof.
  revert k items results. induction fuel as [|fuel IH]; intros k [|i items] results; cbn [read_multi_loop];
    auto with quiet. cbv zeta. quiet_steps.
Qed.
Lemma quiet_read_multi_vars items : quiet (S7Client_read_multi_vars items).
Proof. intros i. unfold S7Client_read_multi_vars. destruct items; [done|]. apply quiet_read_multi_loop. Qed.
#[export] Hint Resolve quiet_db_read quiet_read_area quiet_read_multi_vars : quiet.
Lemma quiet_ab_read a db start n : quiet (S7Client_ab_read a db start n).
Proof. unfold S7Client_ab_read. quiet_steps. Qed.
Lemma quiet_read_szl_payload id index : quiet (read_szl_payload id index).
Proof. unfold read_szl_payload. cbv zeta. quiet_steps. Qed.
#[export] Hint Resolve quiet_ab_read quiet_read_szl_payload : quiet.
Lemma quiet_read_szl id index : quiet (S7Client_read_szl id index).
Proof. unfold S7Client_read_szl. quiet_steps. Qed.
Lemma quiet_get_plc_status : quiet S7Client_get_plc_status.
Proof. unfold S7Client_get_plc_status. quiet_steps. Qed.
Lemma quiet_get_cp_info : quiet S7Client_get_cp_info.
Proof. unfold S7Client_get_cp_info. cbv zeta. quiet_steps. Qed.
Lemma quiet_read_module_list : quiet S7Client_read_module_list.
Proof. unfold S7Client_read_module_list. quiet_steps. Qed.
Lemma quiet_get_order_code up : quiet (S7Client_get_order_code up).
Proof. unfold S7Client_get_order_code. quiet_steps. Qed.
Lemma quiet_get_cpu_info up : quiet (S7Client_get_cpu_info up).
Proof. unfold S7Client_get_cpu_info. quiet_steps. Qed.
Lemma quiet_read_clock : quiet S7Client_read_clock.
Proof. unfold S7Client_read_clock. cbv zeta. quiet_steps. Qed.
Lemma quiet_list_blocks : quiet S7Client_list_blocks.
Proof. unfold S7Client_list_blocks. cbv zeta. quiet_steps. Qed.
Lemma quiet_get_ag_block_info bt bn : quiet (S7Client_get_ag_block_info bt bn).
Proof. unfold S7Client_get_ag_block_info, get_block_info, block_info_query. cbv zeta. quiet_steps. Qed.

Lemma quiet_command context param data :
  harmless Job (param ++ data) = true → quiet (command context param data Job).
Proof.
  intros Hh. unfold command. apply quiet_bind; [apply quiet_exchange; [by left|done]|].
  intros [h b]. auto with quiet.
Qed.
#[export] Hint Extern 2 (quiet (command _ _ _ Job)) => apply quiet_command; reflexivity : quiet.
#[export] Hint Resolve quiet_read_szl quiet_get_plc_status quiet_get_cp_info quiet_read_module_list
  quiet_get_order_code quiet_get_cpu_info quiet_read_clock quiet_list_blocks
  quiet_get_ag_block_info : quiet.

(** *** Transfers *)
Section Transfers.
Variable fuel : nat.
Abbreviation Bl := (@Bl Link).

Lemma quiet_list_loop n first seq bt numbers : quiet_loop (list_loop (T := Link) n first seq bt numbers).
Proof.
  revert first seq numbers. induction n as [|n IH]; intros first seq numbers; cbn [list_loop];
    [auto with quiet|]. apply quiet_loop_bind; [|intros t; cbv zeta; quiet_steps].
  apply quiet_loop_run. unfold list_turn. destruct first; quiet_steps.
Qed.
Lemma quiet_list_blocks_of_type bt : quiet_loop (S7Client_list_blocks_of_type (T := Link) fuel bt).
Proof. unfold S7Client_list_blocks_of_type. apply quiet_loop_bind; [apply quiet_list_loop|]. quiet_steps. Qed.

Lemma quiet_upload_with func context bt bn :
  func ≠ FUNC_WRITE_VAR → quiet_loop (upload_with (T := Link) fuel func context bt bn).
Proof.
  intros Hf.
  assert (∀ p d, harmless Job ((func :: p) ++ d) = true) as Hh.
  { intros p d. unfold harmless, byte_or_0. cbn. apply negb_true_iff, Z.eqb_neq, Hf. }
  unfold upload_with. apply quiet_loop_bind; [|intros id; apply quiet_loop_bind; [|intros data]].
  - apply quiet_loop_run. unfold upload_start.
    apply quiet_bind; [apply quiet_exchange; [by left|apply Hh]|]. intros [h b]. quiet_steps.
  - generalize (@nil Z). induction fuel as [|n IH]; intros data; cbn [upload_loop]; [auto with quiet|].
    apply quiet_loop_bind; [|intros [d more]; quiet_steps]. apply quiet_loop_run. unfold upload_turn.
    apply quiet_bind; [apply quiet_exchange; [by left|apply Hh]|]. intros [h b].
    apply quiet_bind; [auto with quiet|]. intros _. destruct (skip_echo b); [auto with quiet|].
    intros i. cbv zeta. by repeat case_match.
  - apply quiet_loop_bind; [|quiet_steps]. apply quiet_loop_run, quiet_command, Hh.
Qed.
Lemma quiet_upload bt bn : quiet_loop (S7Client_upload (T := Link) fuel bt bn).
Proof. by apply quiet_upload_with. Qed.
Lemma quiet_full_upload bt bn : quiet_loop (S7Client_full_upload (T := Link) fuel bt bn).
Proof. by apply quiet_upload_with. Qed.

Lemma quiet_download_loop n id avail data : quiet_loop (download_loop (T := Link) n id avail data).
Proof.
  revert data. induction n as [|n IH]; intros [|b data]; cbn [download_loop]; quiet_steps.
Qed.
Lemma quiet_download bt bn data : quiet_loop (S7Client_download (T := Link) fuel bt bn data).
Proof.
  intros i r i'. unfold S7Client_download. cbv zeta. revert r i'.
  match goal with |- ∀ r i', ?m i = _ → _ => enough (quiet_loop m) as H by exact (H i) end.
  apply quiet_loop_bind; [|intros id; apply quiet_loop_bind; [apply quiet_download_loop|quiet_steps]].
  apply quiet_loop_run. unfold download_start. quiet_steps.
Qed.
End Transfers.
#[export] Hint Resolve quiet_list_blocks_of_type quiet_upload quiet_full_upload quiet_download : quiet.

Lemma quiet_compare_blocks fuel local plc_only :
  quiet_loop (S7Client_compare_blocks (T := Link) fuel local plc_only).
Proof.
  unfold S7Client_compare_blocks. apply quiet_loop_bind; [|quiet_steps].
  apply quiet_loop_each. intros [[bt bn] data]. unfold compare_one.
  destruct (local_crc_of data); [|quiet_steps]. intros i r i'.
  pose proof (quiet_full_upload fuel bt bn i) as H.
  destruct (S7Client_full_upload fuel bt bn i) as [[[d|e|] i1]|]; [|intros [= <- <-]..|done].
  - cbv zeta. intros [= <- <-]. by eapply H.
  - by eapply H.
  - by eapply H.
Qed.
Lemma quiet_create_db fuel db size attrs : quiet_loop (S7Client_create_db (T := Link) fuel db size attrs).
Proof. apply quiet_download. Qed.
#[export] Hint Resolve quiet_compare_blocks quiet_create_db : quiet.
