(* ===== verification/CliMain.v ===== *)
(** * The command line tool as a whole (snap7-cli, cmd/mod.rs, args.rs, main.rs)

    [run] connects to the PLC and hands the client to the command's module.
    Parameters, besides those of the commands: the socket address parser, the
    text of a client error and the outcome of the TCP connection; [Env] is what
    the user and the host contribute while a command runs.  The standard output
    is in [Host], the notes on the error output are listed by [notes].  [serve]
    starts the gateway of GatewayServer.v from a file; it needs no PLC. *)

From stdpp Require Import gmap.
From S2P Require Import Prelude Wire Io S7Header Store Dispatch Connection Client Loopback Tag Text.
From S2P Require Import ClientServices Blocks BlockInfo CpuInfo Udp Handle Watch.
From S2P Require Import Cli CliBlocks CliInfo Queries.
Local Open Scope Z_scope.
Local Open Scope loop_scope.

Inductive Command :=
| CmdRead (args : ReadArgs)
| CmdWrite (args : WriteArgs)
| CmdTag (action : TagAction)
| CmdBlock (action : BlockAction)
| CmdProgram (action : ProgramAction)
| CmdSzl (args : SzlArgs)
| CmdDiag
| CmdWatch (args : WatchArgs)
| CmdPlcControl (action : PlcAction)
| CmdInfo (action : InfoAction)
| CmdPassword (action : PasswordAction)
| CmdClock (action : ClockAction)
| CmdForce (action : ForceAction)
| CmdServe (config : text).

Record CliArgs := {
  cli_host : option text;
  cli_port : Z;
  cli_rack : Z;
  cli_slot : Z;
  cli_format : OutputFormat;
  timeout_secs : Z;
  cli_tls : bool;
  tls_ca : option text;
  cli_udp : bool;
  cli_command : Command;
}.

(** What a command takes from outside: the line typed at a confirmation, the
    host's Unix time, the times of the ticks until the user interrupts, and
    the listing of a directory. *)
Record Env := {
  input : text;
  now : Z;
  ticks : list Z;
  listing : option (list (text * res text bytes));
}.

Section Main.
Context (upper_other : Z → text) (parse_f32 : text → option Z) (show_f32 : Z → text)
        (hex_decode : text → option bytes) (denied : text → option text).
Context {T : Type} `{Transport T} {SocketAddr : Type}.
Context (parse_addr : text → res text SocketAddr) (error_text : Client.Error → text).
Context (serve : text → res text unit).
Variable fuel : nat.

(** A command that prints, on the host's standard output. *)
Definition on_host {A} (m : @Cli T A) : @Cmd T A := fun '(i, h) =>
  let '(r, (i', out)) := m (i, CliBlocks.printed h) in
  Some (r, (i', {| CliBlocks.printed := out; files := files h; in_dir := in_dir h |})).
Definition watch_cmd (args : WatchArgs) (ticks : list Z) : @Cmd T unit :=
  let^ w := invoke (watch_run args ticks) in
  println_all (stdout w).

Definition command_run (cmd : Command) (format : OutputFormat) (env : Env) : @Cmd T unit :=
  match cmd with
  | CmdRead args => on_host (read_run args format)
  | CmdWrite args => on_host (write_run hex_decode args)
  | CmdTag action => on_host (tag_run upper_other parse_f32 show_f32 action)
  | CmdBlock action => block_run upper_other denied fuel action
  | CmdSzl args => on_host (szl_run args format)
  | CmdDiag => on_host diag_run
  | CmdWatch args => watch_cmd args (ticks env)
  | CmdPlcControl action => on_host (plc_control_run action)
  | CmdInfo action => on_host (info_run upper_other action)
  | CmdPassword action => on_host (password_run action)
  | CmdClock action => on_host (clock_run action (input env) (now env))
  | CmdForce action => on_host (force_run upper_other action)
  | CmdProgram action => program_run upper_other denied fuel action (input env) (listing env)
  | CmdServe _ => loop_run (io_lift Panic)   (* unreachable!() *)
  end.

Definition cli_params (cli : CliArgs) : Params :=
  {| connect_params := {| cp_rack := cli_rack cli; cp_slot := cli_slot cli;
                          cp_pdu_size := cp_pdu_size ConnectParams_default |};
     connect_timeout := timeout_secs cli * 10 ^ 9;
     request_timeout := request_timeout Params_default |}.

(** The lines [run] writes to the error output before it connects. *)
Definition notes (cli : CliArgs) : list text :=
  (if cli_tls cli
   then [str_bytes "note: --tls selected; TLS is used for S7CommPlus sessions only"] else []) ++
  (if cli_udp cli then [str_bytes "note: --udp selected; using UDP transport"] else []).

(** [run], given the host and what the connection attempt gives; with the
    client it used, if it came so far. *)
Definition run (cli : CliArgs) (outcome : TcpConnect T) (env : Env) (h : Host)
    : option (res CliError unit * option (Inner T) * Host) :=
  match cli_command cli with
  | CmdServe config => Some (res_map_err Message (serve config), None, h)
  | cmd =>
      match cli_host cli with
      | None =>
          Some (Err (Message (str_bytes "--host is required for this command (or use 'snap7 serve' for gateway mode)")), None, h)
      | Some host =>
          match parse_addr (host ++ str_bytes ":" ++ format_dec 0 (cli_port cli)) with
          | Err e => Some (Err (Message e), None, h)
          | Panic => Some (Panic, None, h)
          | Ok addr =>
              match S7Client_connect addr (cli_params cli) outcome with
              | Err e => Some (Err (Message (str_bytes "connection failed: " ++ error_text e)), None, h)
              | Panic => Some (Panic, None, h)
              | Ok client =>
                  match command_run cmd (cli_format cli) env (inner client, h) with
                  | Some (r, (i, h')) => Some (r, Some i, h')
                  | None => None
                  end
              end
          end
      end
  end.
End Main.

(** ** Commands that only query *)

(** The commands that only ask: reads, listings, uploads, the SZL and its
    reports, watching, the CPU state, the clock and comparing. *)
Definition is_query (cmd : Command) : bool :=
  match cmd with
  | CmdRead _ | CmdTag (TagRead _) | CmdSzl _ | CmdDiag | CmdWatch _ | CmdInfo _
  | CmdBlock (BlockList_ | BlockNumbers _ | BlockInfo_ _ _ | BlockUpload _ _ _)
  | CmdProgram (BatchUpload _ _ _ | Compare _ _)
  | CmdPlcControl PlcQuery | CmdClock ClockRead | CmdForce ForceList => true
  | _ => false
  end.

Section QueryProofs.
Context (upper_other : Z → text) (parse_f32 : text → option Z) (show_f32 : Z → text)
        (hex_decode : text → option bytes) (denied : text → option text).
Context {SocketAddr : Type} (parse_addr : text → res text SocketAddr)
        (error_text : Client.Error → text) (serve : text → res text unit).
Variable fuel : nat.

Lemma quiet_call {A} (m : Cl Link A) : quiet m → quiet (call m).
Proof. intros Hm [i out]. specialize (Hm i). unfold call. by destruct (m i). Qed.
Lemma quiet_say l : quiet (@say Link l).
Proof. by intros [i out]. Qed.
Lemma quiet_say_all ls : quiet (@say_all Link ls).
Proof. by intros [i out]. Qed.
Lemma quiet_check {A} (r : res text A) : quiet (@check Link A r).
Proof. by intros [i out]. Qed.
Lemma quiet_on_host {A} (m : @Cli Link A) : quiet m → quiet_loop (on_host m).
Proof.
  intros Hm [i h] r x'. specialize (Hm (i, CliBlocks.printed h)). unfold on_host.
  destruct (m (i, CliBlocks.printed h)) as [r0 [i' out]]. by intros [= <- <-].
Qed.
Lemma quiet_transfer {A} (m : @Bl Link A) : quiet_loop m → quiet_loop (transfer m).
Proof.
  intros Hm [i h] r x'. specialize (Hm i). unfold transfer.
  destruct (m i) as [[r0 i']|]; [|done]. intros [= <- <-]. by eapply Hm.
Qed.
Lemma quiet_println l : quiet_loop (@println Link l).
Proof. intros [i h] r x'. by intros [= <- <-]. Qed.
Lemma quiet_println_all ls : quiet_loop (@println_all Link ls).
Proof.
  induction ls as [|l ls IH]; cbn [println_all].
  - apply quiet_loop_run. auto with quiet.
  - apply quiet_loop_bind; [apply quiet_println|done].
Qed.
Lemma quiet_write_file path data : quiet_loop (write_file (T := Link) denied path data).
Proof. intros [i h] r x'. unfold write_file. case_match; by intros [= <- <-]. Qed.
Lemma quiet_read_file path : quiet_loop (read_file (T := Link) denied path).
Proof. intros [i h] r x'. unfold read_file. repeat case_match; by intros [= <- <-]. Qed.
Lemma quiet_save_in dir fname data : quiet_loop (save_in (T := Link) denied dir fname data).
Proof. intros [i h] r x'. unfold save_in. case_match; by intros [= <- <-]. Qed.
Lemma quiet_require {A} (r : res text A) : quiet_loop (@require Link A r).
Proof. apply quiet_loop_run. by intros [i h]. Qed.
Lemma quiet_done {A} (a : A) : quiet_loop (@done_ Link A a).
Proof. apply quiet_loop_run. auto with quiet. Qed.
#[local] Hint Resolve quiet_call quiet_say quiet_say_all quiet_check quiet_on_host quiet_transfer
  quiet_println quiet_println_all quiet_write_file quiet_read_file quiet_save_in quiet_require
  quiet_done : quiet.
Lemma quiet_invoke {A} (m : Cl Link A) : quiet m → quiet_loop (invoke m).
Proof. intros Hm. apply quiet_transfer, quiet_loop_run, Hm. Qed.
#[local] Hint Resolve quiet_invoke : quiet.

Lemma quiet_upload_numbers full out bt nums total :
  quiet_loop (upload_numbers (T := Link) denied fuel full out bt nums total).
Proof.
  revert total. induction nums as [|n nums IH]; intros total; cbn [upload_numbers]; [auto with quiet|].
  apply quiet_loop_bind; [|auto]. unfold upload_block. destruct full; quiet_steps.
Qed.
Lemma quiet_upload_types full out bts total :
  quiet_loop (upload_types (T := Link) denied fuel full out bts total).
Proof.
  revert total. induction bts as [|bt bts IH]; intros total; cbn [upload_types]; [auto with quiet|].
  quiet_steps. apply quiet_upload_numbers.
Qed.
Lemma quiet_block_run action : quiet_loop (block_run (T := Link) upper_other denied fuel action).
Proof. destruct action; cbn [block_run]; cbv zeta; quiet_steps. Qed.
Lemma quiet_program_run action input listing :
  quiet_loop (program_run (T := Link) upper_other denied fuel action input listing).
Proof.
  destruct action; cbn [program_run]; quiet_steps; try apply quiet_upload_types;
    apply quiet_invoke, quiet_command; reflexivity.
Qed.
Lemma quiet_watch_loop args ts w : quiet (watch_loop (T := Link) args ts w).
Proof.
  revert w. induction ts as [|t ts IH]; intros w; cbn [watch_loop]; [auto with quiet|]. intros i.
  pose proof (quiet_db_read (watch_db args) (watch_offset args) (watch_size args) i) as Hq.
  destruct (S7Client_db_read _ _ _ i) as [r i']. cbn in Hq.
  assert (∀ w', kept (link_of i) (link_of (watch_loop args ts w' i').2)) as Hw
    by (intros; etrans; [exact Hq|apply IH]).
  destruct r; auto.
Qed.

Lemma quiet_command_run cmd format env :
  is_query cmd = true →
  quiet_loop (command_run (T := Link) upper_other parse_f32 show_f32 hex_decode denied fuel cmd format env).
Proof.
  intros Hc.
  destruct cmd as [args|args|[]|action|action|args| |args|[]|[]|[]|[]|[]|config]; try done;
    cbn [command_run]; try (apply quiet_on_host).
  all: cbn [tag_run plc_control_run info_run password_run clock_run force_run];
    unfold read_run, read_tag, szl_run, diag_run, watch_cmd.
  all: cbv zeta; quiet_steps; try apply quiet_block_run; try apply quiet_program_run;
    try apply quiet_invoke, quiet_watch_loop; apply quiet_call;
    first [apply quiet_command; reflexivity|apply quiet_read_szl_payload].
Qed.

Abbreviation run := (run upper_other parse_f32 show_f32 hex_decode denied parse_addr error_text serve fuel).

(** Running the tool against a simulated PLC with store [s]: the client ends up
    connected to it, with the PDU size the server grants. *)
Lemma connect_dial addr cli s nodelay client :
  u8 (cli_rack cli) → u8 (cli_slot cli) →
  S7Client_connect (SocketAddr := SocketAddr) addr (cli_params cli) (ConnectStream (dial s) nodelay) =
    Ok client →
  inner client = linked {| pdu_size := 480 |} 1 s.
Proof.
  intros Hr Hs. unfold S7Client_connect, S7Client_from_transport, from_transport. cbn.
  destruct nodelay as [u|e|]; cbn; [|done..].
  rewrite connect_link; [|split_and!; cbn; try done; unwidth; lia]. by intros [= <-].
Qed.

Lemma connect_dial_ok addr cli s :
  u8 (cli_rack cli) → u8 (cli_slot cli) →
  ∃ client, S7Client_connect (SocketAddr := SocketAddr) addr (cli_params cli)
              (ConnectStream (dial s) (Ok tt)) = Ok client ∧
            inner client = linked {| pdu_size := 480 |} 1 s.
Proof.
  intros Hr Hs. unfold S7Client_connect, S7Client_from_transport, from_transport. cbn.
  rewrite connect_link; [|split_and!; cbn; try done; unwidth; lia]. by eexists.
Qed.

Definition with_command (cli : CliArgs) (cmd : Command) : CliArgs :=
  {| cli_host := cli_host cli; cli_port := cli_port cli; cli_rack := cli_rack cli;
     cli_slot := cli_slot cli; cli_format := cli_format cli; timeout_secs := timeout_secs cli;
     cli_tls := cli_tls cli; tls_ca := tls_ca cli; cli_udp := cli_udp cli; cli_command := cmd |}.

(** C10: the tool from end to end: with [--host] naming the simulated PLC,
    [snap7 write] of less than 8192 bytes to a data block below offset 2^21, in
    a PLC whose data blocks are not locked, connects, sends them, prints "ok",
    and a later [snap7 read] of the same range, on a new connection, prints
    exactly those bytes in the chosen format; between them the handshakes, the
    framing, the requests, the server's dispatch and its store all run. *)
Theorem write_then_read_prints cli host addr db off hex data s env h :
  cli_host cli = Some host →
  parse_addr (host ++ str_bytes ":" ++ format_dec 0 (cli_port cli)) = Ok addr →
  u8 (cli_rack cli) → u8 (cli_slot cli) → hex_decode hex = Some data →
  u16 db → 0 <= off < 2097152 → blen data < 8192 → is_area_locked 0x84 s = false →
  let write := {| write_db := db; write_offset := off; write_data_arg := hex; write_area_arg := Db |} in
  let read := {| read_db := db; read_offset := off; read_size := blen data; read_area_arg := Db |} in
  ∃ i1 h1 i2 h2,
    run (with_command cli (CmdWrite write)) (ConnectStream (dial s) (Ok tt)) env h =
      Some (Ok tt, Some i1, h1) ∧
    run (with_command cli (CmdRead read))
      (ConnectStream (dial (link_store (inner_transport i1))) (Ok tt)) env h1 =
      Some (Ok tt, Some i2, h2) ∧
    mem_eq (mem_of (link_store (inner_transport i1))) (spec_write 0x84 db off data (mem_of s)) ∧
    CliBlocks.printed h2 =
      CliBlocks.printed h ++ [str_bytes "ok"] ++ print_bytes data (cli_format cli).
Proof.
  intros Hh Ha Hr Hs Hx Hdb Hoff Hlen Hl write read. blen_pose.
  destruct (db_write_linked db off data {| pdu_size := 480 |} 1 s) as (s1 & Hw & Hm & _); [done..|].
  destruct (db_read_linked db off (blen data) {| pdu_size := 480 |} 1 s1) as (s2 & Hrd & _);
    [done|done|lia|].
  destruct (connect_dial_ok addr cli s Hr Hs) as (cl1 & Hc1 & Hi1).
  destruct (connect_dial_ok addr cli s1 Hr Hs) as (cl2 & Hc2 & Hi2).
  exists (linked {| pdu_size := 480 |} 2 s1).
  exists {| CliBlocks.printed := CliBlocks.printed h ++ [str_bytes "ok"]; files := files h; in_dir := in_dir h |}.
  eexists _, _.
  assert (run (with_command cli (CmdWrite write)) (ConnectStream (dial s) (Ok tt)) env h =
    Some (Ok tt, Some (linked {| pdu_size := 480 |} 2 s1),
      {| CliBlocks.printed := CliBlocks.printed h ++ [str_bytes "ok"]; files := files h; in_dir := in_dir h |}))
    as E1.
  { unfold CliMain.run. cbn [with_command cli_command cli_host cli_port cli_format]. rewrite Hh, Ha.
    change (cli_params (with_command cli _)) with (cli_params cli). rewrite Hc1, Hi1.
    cbn [command_run]. unfold on_host, write_run, check, io_lift, io_bind.
    cbn [write write_data_arg write_area_arg write_db write_offset]. rewrite Hx.
    cbn [parsed res_map_err]. unfold call. rewrite Hw. reflexivity. }
  split; [exact E1|]. split; [|split; [exact Hm|]].
  - unfold CliMain.run. cbn [with_command cli_command cli_host cli_port cli_format linked queued
      inner_transport link_store]. rewrite Hh, Ha.
    change (cli_params (with_command cli _)) with (cli_params cli). rewrite Hc2, Hi2.
    cbn [command_run]. unfold on_host, read_run, io_bind.
    cbn [read read_area_arg read_db read_offset read_size]. unfold call. rewrite Hrd. reflexivity.
  - cbn. rewrite Hm, spec_read_write. by rewrite <- app_assoc.
Qed.

(** C16: the commands that only ask change nothing: running the tool with one
    of them (read, tag read, szl, diag, watch, info, listing, describing and
    uploading blocks, batch upload and compare, CPU state, clock read, force
    list) against a simulated PLC leaves its memory, its clock and its area
    locks unchanged, from the handshake to the end, whatever the outcome. *)
Theorem query_commands_change_nothing cli s nodelay env h r i h' :
  is_query (cli_command cli) = true → u8 (cli_rack cli) → u8 (cli_slot cli) →
  run cli (ConnectStream (dial s) nodelay) env h = Some (r, Some i, h') →
  same_data s (link_store (inner_transport i)).
Proof.
  intros Hc Hr Hs. unfold CliMain.run. destruct (cli_command cli) as [| | | | | | | | | | | | |config] eqn:Ec;
    [..|done]; (destruct (cli_host cli) as [host|]; [|done]); (destruct (parse_addr _) as [addr| |]; [|done..]);
    (destruct (S7Client_connect addr _ _) as [client| |] eqn:E; [|done..]);
    apply connect_dial in E; try done; rewrite E;
    (match goal with |- context [command_run _ _ _ _ _ _ ?cmd ?f ?e ?x] =>
       pose proof (quiet_command_run cmd f e Hc x) as Hq;
       destruct (command_run upper_other parse_f32 show_f32 hex_decode denied fuel cmd f e x)
         as [[r0 [i0 h0]]|]; [|done] end);
    intros [= <- <- <-]; exact (proj2 (Hq _ _ eq_refl eq_refl)).
Qed.
End QueryProofs.

(** [--udp], [--tls] and [--tls-ca] change nothing but the notes printed: the
    command runs over the same unencrypted TCP connection with the same
    outcome, although the note says that UDP is used. *)
Theorem transport_flags_ignored up pf sf hd dn {SocketAddr} (pa : text → res text SocketAddr) et sv fuel
    {T} `{Transport T} cli outcome env h tls ca udp :
  run up pf sf hd dn pa et sv fuel
    {| cli_host := cli_host cli; cli_port := cli_port cli; cli_rack := cli_rack cli;
       cli_slot := cli_slot cli; cli_format := cli_format cli; timeout_secs := timeout_secs cli;
       cli_tls := tls; tls_ca := ca; cli_udp := udp; cli_command := cli_command cli |}
    (outcome : TcpConnect T) env h =
  run up pf sf hd dn pa et sv fuel cli outcome env h.
Proof. reflexivity. Qed.

(** ** Examples *)
Definition example_cli (cmd : Command) : CliArgs :=
  {| cli_host := Some (str_bytes "127.0.0.1"); cli_port := 102; cli_rack := 0; cli_slot := 1;
     cli_format := FormatCsv; timeout_secs := 5; cli_tls := false; tls_ca := None; cli_udp := false;
     cli_command := cmd |}.
Definition example_env : Env := {| input := []; now := 0; ticks := []; listing := None |}.
Definition example_host : Host := {| CliBlocks.printed := []; files := ∅; in_dir := ∅ |}.

Lemma write_then_read_prints_witness :
  ∃ i1 h1 i2 h2,
    run (fun _ => []) (fun _ => None) (fun _ => []) (fun _ => Some [222; 173]) (fun _ => None) Ok
      (fun _ => []) (fun _ => Ok tt) 0
      (example_cli (CmdWrite {| write_db := 1; write_offset := 4; write_data_arg := str_bytes "DEAD";
                                write_area_arg := Db |}))
      (ConnectStream (dial DataStore_new) (Ok tt)) example_env example_host =
      Some (Ok tt, Some i1, h1) ∧
    run (fun _ => []) (fun _ => None) (fun _ => []) (fun _ => Some [222; 173]) (fun _ => None) Ok
      (fun _ => []) (fun _ => Ok tt) 0
      (example_cli (CmdRead {| read_db := 1; read_offset := 4; read_size := 2; read_area_arg := Db |}))
      (ConnectStream (dial (link_store (inner_transport i1))) (Ok tt)) example_env h1 =
      Some (Ok tt, Some i2, h2) ∧
    mem_eq (mem_of (link_store (inner_transport i1)))
      (spec_write 0x84 1 4 [222; 173] (mem_of DataStore_new)) ∧
    CliBlocks.printed h2 = [str_bytes "ok"; str_bytes "offset,value"; str_bytes "0,DE"; str_bytes "1,AD"].
Proof.
  apply (write_then_read_prints (fun _ => []) (fun _ => None) (fun _ => []) (fun _ => Some [222; 173])
           (fun _ => None) Ok (fun _ => []) (fun _ => Ok tt) 0 (example_cli CmdDiag)
           (str_bytes "127.0.0.1") (str_bytes "127.0.0.1:102") 1 4 (str_bytes "DEAD") [222; 173]
           DataStore_new example_env example_host); try reflexivity; try (unwidth; cbn; lia).
Defined.

Lemma query_commands_change_nothing_witness :
  ∃ r i h',
    run (fun _ => []) (fun _ => None) (fun _ => []) (fun _ => None) (fun _ => None) Ok
      (fun _ => []) (fun _ => Ok tt) 0 (example_cli (CmdPlcControl PlcQuery))
      (ConnectStream (dial DataStore_new) (Ok tt)) example_env example_host = Some (r, Some i, h') ∧
    r = Ok tt ∧ same_data DataStore_new (link_store (inner_transport i)).
Proof.
  assert (∃ i h',
    run (fun _ => []) (fun _ => None) (fun _ => []) (fun _ => None) (fun _ => None) Ok
      (fun _ => []) (fun _ => Ok tt) 0 (example_cli (CmdPlcControl PlcQuery))
      (ConnectStream (dial DataStore_new) (Ok tt)) example_env example_host = Some (Ok tt, Some i, h'))
    as (i & h' & E) by (do 2 eexists; vm_compute; reflexivity).
  exists (Ok tt), i, h'. split; [exact E|]. split; [done|].
  apply (query_commands_change_nothing (fun _ => []) (fun _ => None) (fun _ => []) (fun _ => None)
           (fun _ => None) Ok (fun _ => []) (fun _ => Ok tt) 0 (example_cli (CmdPlcControl PlcQuery))
           DataStore_new (Ok tt) example_env example_host (Ok tt) i h'); try reflexivity;
    [unwidth; cbn; lia..|exact E].
Defined.
