(* ===== verification/BatchReader.v ===== *)
(** * The batch reader (snap7-cli, bin/plc_batch_reader.rs)

    The program turns a JSON list of tags into tag specifications for the OPC
    UA gateway, reads every node once or subscribes to all of them, and prints
    a row per value.  Parameters: JSON values and their text, the text of a
    32-bit float with two decimals, the debug text of the variants it does not
    format itself, and the text of a node identifier (libraries).  The OPC UA
    session is its results: the values of a read, the notifications of a
    subscription. *)

From stdpp Require Import gmap.
From S2P Require Import Prelude Wire Io S7Header Connection Client Tag Text Registry Poller Cli.
Local Open Scope Z_scope.

(** ** Pieces of [str] *)

(** [s.split(p)] for a pattern of several characters: [skip] characters of a
    match are still to be passed over. *)
Fixpoint split_str_from (p : text) (skip : nat) (s : text) : list text :=
  match s with
  | [] => [[]]
  | c :: r =>
      match skip with
      | S skip => split_str_from p skip r
      | O =>
          match strip_prefix p s with
          | Some _ => [] :: split_str_from p (length p - 1) r
          | None => match split_str_from p 0 r with x :: l => (c :: x) :: l | [] => [] end
          end
      end
  end.
Definition split_str (p s : text) : list text := split_str_from p 0 s.

(** [s.trim_matches(c)]. *)
Fixpoint trim_start_matches (c : Z) (s : text) : text :=
  match s with
  | [] => []
  | x :: r => if x =? c then trim_start_matches c r else s
  end.
Definition trim_end_matches (c : Z) (s : text) : text := reverse (trim_start_matches c (reverse s)).
Definition trim_matches (c : Z) (s : text) : text := trim_end_matches c (trim_start_matches c s).

(** ** Addresses *)

(** The types [parse_address] tries, in its order, with their width. *)
Definition reader_types : list (text * TransportSize * Z) :=
  [(str_bytes "DINT", DInt, 4); (str_bytes "REAL", Real, 4); (str_bytes "DWORD", DWord, 4);
   (str_bytes "WORD", Word, 2); (str_bytes "INT", Int, 2); (str_bytes "BYTE", Byte, 1)].
Fixpoint find_type (types : list (text * TransportSize * Z)) (s : text)
    : option (TransportSize * Z * text * text) :=
  match types with
  | [] => None
  | (p, ts, n) :: rest =>
      match strip_prefix p s with
      | Some digits => Some (ts, n, p, digits)
      | None => find_type rest s
      end
  end.

Definition gateway_tag (db : Z) (prefix : text) (off : Z) : text :=
  str_bytes "DB" ++ format_dec 0 db ++ str_bytes "," ++ prefix ++ format_dec 0 off.

Definition parse_address (addr : text) : option (Z * Z * TransportSize * Z * text) :=
  match split 46 addr with
  | part0 :: type_part :: _ =>
      match strip_prefix (str_bytes "DB") part0 with
      | None => None
      | Some digits =>
          match parse_u16 digits with
          | None => None
          | Some db =>
              match find_type reader_types type_part with
              | Some (ts, byte_len, type_prefix, offset_digits) =>
                  let byte_off := default 0 (parse_u32 offset_digits) in
                  Some (db, byte_off, ts, byte_len, gateway_tag db type_prefix byte_off)
              | None =>
                  match strip_prefix (str_bytes "DBX") type_part with
                  | Some rest =>
                      let byte_off := default 0 (head (split 46 rest) ≫= parse_u32) in
                      Some (db, byte_off, Bit, 1, gateway_tag db (str_bytes "BYTE") byte_off)
                  | None => None
                  end
              end
          end
      end
  | _ => None
  end.

Section BatchReader.
Context {Json Other : Type} (json_text : Json → text).
Context (show_f32_2 : Z → text) (show_other : Variant Other → text).

Record TagConfig := {
  idx : Json;
  tc_address : text;
  tagname : text;
  description : text;
  unit_ : text;
  update_rate : Z;
}.
Definition default_update_rate : Z := 2500.

(** ** Rows *)
Definition format_variant (v : Variant Other) : text :=
  match v with
  | Float f => show_f32_2 f
  | Int32 i => format_signed i
  | Int16 i => format_signed i
  | UInt32 u => str_bytes "0x" ++ hex_fixed 8 u
  | UInt16 u => format_dec 0 u
  | VByte b => format_dec 0 b
  | Boolean b => str_bytes (if b then "true" else "false")
  | other => show_other other
  end.
Definition value_text (v : option (Variant Other)) : text :=
  match v with Some v => format_variant v | None => str_bytes "N/A" end.

Definition row_text (a b c d e : text) : text :=
  pad_right 8 a ++ [32] ++ pad_right 22 b ++ [32] ++ pad_right 15 c ++ [32] ++
  pad_right 15 d ++ [32] ++ pad_right 10 e.
Definition print_row (format : text) (tag : TagConfig) (value : text) : list text :=
  if bool_decide (format = str_bytes "text") then
    [row_text (trim_matches 34 (json_text (idx tag))) (tagname tag) (tc_address tag) value (unit_ tag)]
  else if bool_decide (format = str_bytes "csv") then
    [join (str_bytes ",") [trim_matches 34 (json_text (idx tag)); tagname tag; tc_address tag; value;
                           unit_ tag; replace_char 44 59 (description tag)]]
  else [].
Definition print_header (format : text) : list text :=
  if bool_decide (format = str_bytes "text") then
    [row_text (str_bytes "idx") (str_bytes "tagname") (str_bytes "address") (str_bytes "value")
       (str_bytes "unit"); replicate 75 45]
  else if bool_decide (format = str_bytes "csv") then
    [str_bytes "idx,tagname,address,value,unit,description"]
  else [].

(** ** The tag list *)
Record Spec := { spec_index : nat; spec : TagSpec; spec_config : TagConfig }.

Definition node_name (name : text) (count : nat) : text :=
  match count with O => name | S _ => name ++ str_bytes "_" ++ format_dec 0 (Z.of_nat count) end.

Fixpoint collect_specs (i : nat) (tags : list TagConfig) (seen : gmap text nat) : list Spec :=
  match tags with
  | [] => []
  | tag :: rest =>
      match parse_address (tc_address tag) with
      | None => collect_specs (S i) rest seen
      | Some (_, _, _, _, gtag) =>
          let count := default 0%nat (seen !! tagname tag) in
          {| spec_index := i;
             spec := {| spec_tag := gtag; spec_name := node_name (tagname tag) count;
                        spec_writable := false |};
             spec_config := tag |} :: collect_specs (S i) rest (<[tagname tag := S count]> seen)
      end
  end.
Definition tag_specs (tags : list TagConfig) : list Spec := collect_specs 0 tags ∅.

(** ** Reading once *)
Definition read_once (format : text) (results : list (option (Variant Other))) (specs : list Spec)
    : list text :=
  print_header format ++
  concat (zip_with (fun result s => print_row format (spec_config s) (value_text result))
            results specs).

(** ** Subscribing *)
Definition name_map (specs : list Spec) : gmap text (nat * TagConfig) :=
  foldl (fun m s => <[spec_name (spec s) := (spec_index s, spec_config s)]> m) ∅ specs.

(** The name the callbacks take from the text of a node identifier. *)
Definition callback_name (node_str : text) : text :=
  trim_matches 34 (default node_str (split_str (str_bytes "s=") node_str !! 1%nat)).

Record Subscription := { last_values : gmap text text; printed : list text }.

Definition on_change (format : text) (names : gmap text (nat * TagConfig)) (st : Subscription)
    (n : text * option (Variant Other)) : Subscription :=
  let name := callback_name n.1 in
  match names !! name with
  | None => st
  | Some (_, tag) =>
      let value := value_text n.2 in
      if bool_decide (last_values st !! name = Some value) then st
      else {| last_values := <[name := value]> (last_values st);
              printed := printed st ++ print_row format tag value |}
  end.
Definition subscription (format : text) (specs : list Spec)
    (notifications : list (text * option (Variant Other))) : Subscription :=
  foldl (on_change format (name_map specs)) {| last_values := ∅; printed := print_header format |}
    notifications.

(** The counts printed after the monitored items are created. *)
Definition monitor_counts (good : list bool) (specs : list Spec) : nat * nat :=
  foldl (fun '(ok, fail) g => if g : bool then (S ok, fail) else (ok, S fail)) (0, 0)%nat
    (zip_with (fun _ g => g) specs good).

(** ** The program *)
Record ReaderArgs := {
  ra_host : text;
  ra_port : Z;
  ra_rack : Z;
  ra_slot : Z;
  ra_config_file : text;
  ra_rate : Z;
  ra_format : text;
  ra_once : bool;
  ra_poll_ms : Z;
  ra_opc_port : Z;
}.

Definition banner (args : ReaderArgs) (ntags : nat) : list text :=
  [str_bytes "PLC Batch Reader v2.0 (OPC-UA gateway mode)";
   str_bytes "============================================";
   str_bytes "PLC:        " ++ ra_host args ++ str_bytes ":" ++ format_dec 0 (ra_port args);
   str_bytes "Rack/Slot:  " ++ format_dec 0 (ra_rack args) ++ str_bytes "/" ++ format_dec 0 (ra_slot args);
   str_bytes "Config:     " ++ ra_config_file args ++ str_bytes " (" ++
     format_dec 0 (Z.of_nat ntags) ++ str_bytes " tags)";
   str_bytes "Format:     " ++ ra_format args;
   str_bytes "Mode:       " ++ str_bytes (if ra_once args then "read once" else "subscription");
   []].

(** What the OPC UA client session gives: the results of the read, of creating
    the subscription and the monitored items (good or not), and the
    notifications until the user interrupts. *)
Record Session := {
  session_read : res text (list (option (Variant Other)));
  session_subscribe : res text unit;
  session_monitor : res text (list bool);
  session_notifications : list (text * option (Variant Other));
}.

(** [main] on what the configuration file holds; [gateway] starts the gateway
    for a PLC address, an endpoint, an interval and tags.  The result is the
    exit status with the lines of the standard output. *)
Definition reader_main (args : ReaderArgs) (config : res text (list TagConfig))
    (gateway : text → text → Z → list TagSpec → res text unit) (session : res text Session)
    : res text unit * list text :=
  match config with
  | Err e => (Err e, [])
  | Panic => (Panic, [])
  | Ok tags =>
      let specs := tag_specs tags in
      let out := banner args (length tags) ++
        [str_bytes "Valid tags: " ++ format_dec 0 (Z.of_nat (length specs)) ++ str_bytes "/" ++
         format_dec 0 (Z.of_nat (length tags))] in
      if bool_decide (specs = []) then (Ok tt, out)
      else
        let plc := ra_host args ++ str_bytes ":" ++ format_dec 0 (ra_port args) in
        let endpoint := str_bytes "opc.tcp://127.0.0.1:" ++ format_dec 0 (ra_opc_port args) ++
                        str_bytes "/plc" in
        let out := out ++ [str_bytes "Starting OPC-UA gateway on " ++ endpoint ++ str_bytes " ..."] in
        match gateway plc endpoint (ra_poll_ms args) (spec <$> specs) with
        | Err e => (Err e, out)
        | Panic => (Panic, out)
        | Ok _ =>
            let out := out ++ [str_bytes "Gateway ready. Connecting to PLC " ++ plc ++ str_bytes " ..."; []] in
            match session with
            | Err e => (Err e, out)
            | Panic => (Panic, out)
            | Ok ses =>
                let out := out ++ [str_bytes "OPC-UA session established."; []] in
                if ra_once args then
                  match session_read ses with
                  | Ok results => (Ok tt, out ++ read_once (ra_format args) results specs)
                  | Err e => (Err e, out ++ print_header (ra_format args))
                  | Panic => (Panic, out ++ print_header (ra_format args))
                  end
                else
                  match session_subscribe ses, session_monitor ses with
                  | Ok _, Ok _ =>
                      (Ok tt, out ++ printed (subscription (ra_format args) specs
                                                (session_notifications ses)) ++ [[]; str_bytes "Stopped."])
                  | Panic, _ => (Panic, out ++ print_header (ra_format args))
                  | Err e, _ => (Err e, out ++ print_header (ra_format args))
                  | Ok _, Err e =>
                      (Err e, out ++ printed (subscription (ra_format args) specs
                                                (session_notifications ses)))
                  | Ok _, Panic =>
                      (Panic, out ++ printed (subscription (ra_format args) specs
                                                (session_notifications ses)))
                  end
            end
        end
  end.
End BatchReader.

(** ** The configuration file

    The JSON value the library parses; a number is the library's, with its
    value as an unsigned 64-bit integer where it is one. *)
Section ReaderConfig.
Context {Num : Type} (num_u64 : Num → option Z).

Inductive Json :=
| JNull
| JBool (b : bool)
| JNum (n : Num)
| JStr (s : text)
| JArray (l : list Json)
| JObject (fields : list (text * Json)).

(** [value.get(key)]: [None] on anything but an object. *)
Fixpoint json_field (key : text) (fields : list (text * Json)) : option Json :=
  match fields with
  | [] => None
  | (k, v) :: rest => if bool_decide (k = key) then Some v else json_field key rest
  end.
Definition json_get (key : string) (v : Json) : option Json :=
  match v with JObject fields => json_field (str_bytes key) fields | _ => None end.

Definition json_str (v : Json) : option text := match v with JStr s => Some s | _ => None end.
Definition json_u64 (v : Json) : option Z := match v with JNum n => num_u64 n | _ => None end.
Definition json_default {A} (d : A) (de : Json → option A) (v : option Json) : option A :=
  match v with Some v => de v | None => Some d end.

(** An entry of the list, given as an object; the library also takes an array of
    the fields in order, with the last three optional.  [None] is an error. *)
Definition TagConfig_de (v : Json) : option (@TagConfig Json) :=
  match v with
  | JObject _ =>
      i ← json_get "idx" v;
      address ← json_get "address" v ≫= json_str;
      name ← json_get "tagname" v ≫= json_str;
      descr ← json_default [] json_str (json_get "description" v);
      unit ← json_default [] json_str (json_get "unit" v);
      rate ← json_default default_update_rate json_u64 (json_get "update_rate" v);
      Some {| idx := i; tc_address := address; tagname := name; description := descr; unit_ := unit;
              update_rate := rate |}
  | JArray (i :: a :: n :: rest) =>
      if (3 <? length rest)%nat then None
      else
        address ← json_str a;
        name ← json_str n;
        descr ← json_default [] json_str (rest !! 0%nat);
        unit ← json_default [] json_str (rest !! 1%nat);
        rate ← json_default default_update_rate json_u64 (rest !! 2%nat);
        Some {| idx := i; tc_address := address; tagname := name; description := descr; unit_ := unit;
                update_rate := rate |}
  | _ => None
  end.

(** [serde_json::from_value(config.get("payload").cloned().unwrap_or_default())]. *)
Definition reader_config (config : Json) : option (list (@TagConfig Json)) :=
  match default JNull (json_get "payload" config) with
  | JArray l => mapM TagConfig_de l
  | _ => None
  end.

(** The file of a list of tags, with the optional fields. *)
Definition TagConfig_ser (rate : Z → Num) (t : @TagConfig Json) : Json :=
  JObject [(str_bytes "idx", idx t); (str_bytes "address", JStr (tc_address t));
           (str_bytes "tagname", JStr (tagname t)); (str_bytes "description", JStr (description t));
           (str_bytes "unit", JStr (unit_ t)); (str_bytes "update_rate", JNum (rate (update_rate t)))].

(** Every list of tags can be configured, and a file without a list of tags is
    refused. *)
Theorem reader_config_roundtrip rate tags :
  (∀ t, t ∈ tags → num_u64 (rate (update_rate t)) = Some (update_rate t)) →
  reader_config (JObject [(str_bytes "payload", JArray (TagConfig_ser rate <$> tags))]) = Some tags ∧
  (∀ fields, json_field (str_bytes "payload") fields = None → reader_config (JObject fields) = None).
Proof.
  intros Hr. split.
  - change (mapM TagConfig_de (TagConfig_ser rate <$> tags) = Some tags).
    induction tags as [|t tags IH]; [done|]. cbn [fmap list_fmap mapM].
    assert (TagConfig_de (TagConfig_ser rate t) = Some t) as ->.
    { transitivity (r ← num_u64 (rate (update_rate t));
        Some {| idx := idx t; tc_address := tc_address t; tagname := tagname t;
                description := description t; unit_ := unit_ t; update_rate := r |}); [reflexivity|].
      rewrite Hr by (by left). by destruct t. }
    cbn [mbind option_bind]. rewrite IH by (intros t' Ht'; apply Hr; by right). done.
  - intros fields Hf. unfold reader_config, json_get. by rewrite Hf.
Qed.
End ReaderConfig.

(** The documented output format [json] prints neither header nor rows. *)
Lemma json_format_prints_nothing {J} (json_text : J → text) t v :
  print_row json_text (str_bytes "json") t v = [] ∧ print_header (str_bytes "json") = [].
Proof. done. Qed.

(** ** Accepted addresses are tags of the gateway *)
Lemma find_type_sound types s ts n p digits :
  find_type types s = Some (ts, n, p, digits) → (p, ts, n) ∈ types ∧ s = p ++ digits.
Proof.
  induction types as [|[[p0 ts0] n0] types IH]; cbn; [done|].
  destruct (strip_prefix p0 s) as [d|] eqn:E.
  - intros [= <- <- <- <-]. apply strip_prefix_inv in E. split; [by left|done].
  - intros H. destruct (IH H) as [? ?]. split; [by right|done].
Qed.

Definition reader_transport (ts : TransportSize) : TransportSize :=
  match ts with Bit => Byte | _ => ts end.

Section BatchReaderProofs.
Context (upper_other : Z → text).

Lemma gateway_tag_parses db prefix ts off :
  u16 db → u32 off → (prefix, ts) ∈ typed_keywords →
  parse_tag upper_other (gateway_tag db prefix off) = Ok (mk_tag DataBlock db off 0 ts).
Proof.
  intros Hdb Hoff Hp. unfold u16, u32 in *.
  assert (numeral 65535 (format_dec 0 db) db) as Hn by (apply format_dec_numeral; lia).
  assert (numeral 4294967295 (format_dec 0 off) off) as Ho by (apply format_dec_numeral; lia).
  assert (ascii prefix ∧ ascii_uppercase <$> prefix = prefix) as [Ha Hu].
  { unfold typed_keywords in Hp. rewrite !elem_of_cons, elem_of_nil in Hp.
    destruct_or!; simplify_eq; split; try done; repeat constructor; by vm_compute. }
  unfold gateway_tag. rewrite parse_tag_upper, to_uppercase_ascii.
  - apply parse_upper_complete.
    rewrite !fmap_app, (uppercase_numeral _ _ _ Hn), (uppercase_numeral _ _ _ Ho), Hu.
    apply (syn_db_typed _ db (str_bytes ",") prefix); auto. by left.
  - repeat (apply Forall_app; split); try done; try (by eapply ascii_numeral);
      repeat constructor; by vm_compute.
  - repeat (apply Forall_app; split); try done; try (by eapply ascii_numeral);
      repeat constructor; by vm_compute.
Qed.

Lemma parse_u32_range o : u32 (default 0 (o ≫= parse_u32)).
Proof.
  destruct o as [s|]; cbn; [|unwidth; lia]. unfold parse_u32.
  destruct (parse_uint _ s) as [n|] eqn:E; cbn; [|unwidth; lia].
  apply parse_uint_spec in E; [|lia]. apply numeral_range in E. unwidth. lia.
Qed.

Lemma parse_address_tag addr db off ts n tag :
  parse_address addr = Some (db, off, ts, n, tag) →
  u16 db ∧ u32 off ∧ transport_size_bytes ts 1 = Some n ∧
  parse_tag upper_other tag = Ok (mk_tag DataBlock db off 0 (reader_transport ts)).
Proof.
  unfold parse_address. destruct (split 46 addr) as [|part0 [|type_part rest]]; [done..|].
  destruct (strip_prefix _ part0) as [digits|]; [|done].
  destruct (parse_u16 digits) as [d|] eqn:Ed; [|done].
  apply parse_uint_spec in Ed; [|lia]. apply numeral_range in Ed.
  assert (u16 d) as Hd by (unwidth; lia).
  destruct (find_type reader_types type_part) as [[[[t len] p] os]|] eqn:Et.
  - intros [= <- <- <- <- <-]. apply find_type_sound in Et as [Hin _].
    pose proof (parse_u32_range (Some os)) as Ho. cbn in Ho.
    unfold reader_types in Hin. rewrite !elem_of_cons, elem_of_nil in Hin.
    split; [done|]. split; [done|].
    destruct_or!; simplify_eq; (split; [done|]); apply gateway_tag_parses; try done;
      unfold typed_keywords; rewrite !elem_of_cons; tauto.
  - destruct (strip_prefix _ type_part) as [r|]; [|done]. intros [= <- <- <- <- <-].
    pose proof (parse_u32_range (head (split 46 r))) as Ho.
    split; [done|]. split; [done|]. split; [done|]. apply gateway_tag_parses; try done.
    unfold typed_keywords; rewrite !elem_of_cons; tauto.
Qed.
End BatchReaderProofs.

(** *** The list of specifications *)
Section SpecsProofs.
Context {Json : Type} {NodeId : Type} (NodeId_new : Z → text → NodeId).
Context (upper_other : Z → text) (show_io : IoError → string) (show_timeout : string).
Implicit Types tags : list (@TagConfig Json).

(** The node the gateway publishes for an accepted tag. *)
Definition published (i : nat) (s : @Spec Json) (e : TagEntry NodeId) : Prop :=
  ∃ db off ts n tag,
    parse_address (tc_address (spec_config s)) = Some (db, off, ts, n, tag) ∧
    e = {| node_id := NodeId_new 2 (spec_name (spec s));
           entry_address := mk_tag DataBlock db off 0 (reader_transport ts);
           entry_name := spec_name (spec s); writable := false; plc_index := i |}.

Lemma collect_specs_accepted k tags seen s :
  s ∈ collect_specs k tags seen →
  ∃ db off ts n, parse_address (tc_address (spec_config s)) =
                   Some (db, off, ts, n, spec_tag (spec s)) ∧ spec_writable (spec s) = false.
Proof.
  revert k seen. induction tags as [|t tags IH]; intros k seen; cbn; [by intros ?%elem_of_nil|].
  destruct (parse_address (tc_address t)) as [[[[[db off] ts] n] tag]|] eqn:E; [|apply IH].
  intros [-> |Hs]%elem_of_cons; [by exists db, off, ts, n|by eapply IH].
Qed.

(** The batch reader never gives the gateway a tag it refuses: whatever
    the configuration file lists, the gateway's registry loads, and holds for
    every accepted tag, in order, one read-only node under the tag's node name
    with the data block, offset and type of the tag's address (a bit address
    is polled as its whole byte). *)
Theorem batch_specs_register tags i :
  ∃ r, TagRegistry_from_specs NodeId_new upper_other show_io show_timeout
         (spec <$> tag_specs tags) i = Ok r ∧
       Forall2 (published i) (tag_specs tags) (registry_entries r).
Proof.
  assert (∃ es, Forall2 (publishes NodeId_new upper_other i) (spec <$> tag_specs tags) es ∧
                Forall2 (published i) (tag_specs tags) es) as (es & H1 & H2).
  { assert (∀ s, s ∈ tag_specs tags → ∃ e, publishes NodeId_new upper_other i (spec s) e ∧
                                           published i s e) as H.
    { intros s (db & off & ts & n & Hp & Hw)%collect_specs_accepted.
      destruct (parse_address_tag upper_other _ _ _ _ _ _ Hp) as (_ & _ & _ & Ht).
      eexists. split; [eexists; split; [exact Ht|reflexivity]|].
      exists db, off, ts, n, (spec_tag (spec s)). split; [done|]. unfold entry_of. by rewrite Hw. }
    induction (tag_specs tags) as [|s specs IH]; [by exists []|].
    destruct (H s) as (e & He1 & He2); [left|].
    destruct IH as (es & H1 & H2); [intros; apply H; by right|].
    exists (e :: es). by split; constructor. }
  exists {| registry_entries := es |}. split; [|done]. unfold TagRegistry_from_specs.
  assert (specs_loop NodeId_new upper_other show_io show_timeout (spec <$> tag_specs tags) i [] = Ok es)
    as ->; [|done]. apply specs_loop_ok. by exists es.
Qed.
End SpecsProofs.

(** ** Node names *)
Lemma format_dec_inj a b :
  0 <= a < 10 ^ 20 → 0 <= b < 10 ^ 20 → format_dec 0 a = format_dec 0 b → a = b.
Proof.
  intros Ha Hb E. destruct (format_dec_spec 0 a Ha) as (_ & <- & _).
  destruct (format_dec_spec 0 b Hb) as (_ & <- & _). by rewrite E.
Qed.

(** What follows the last underscore is determined. *)
Lemma last_part_inj (x y a b : text) :
  95 ∉ a → 95 ∉ b → x ++ [95] ++ a = y ++ [95] ++ b → x = y ∧ a = b.
Proof.
  revert y. induction x as [|c x IH]; intros [|d y] Ha Hb; cbn.
  - by intros [= ->].
  - intros [= <- ->]. exfalso. apply Ha. apply elem_of_app. right. left.
  - intros [= -> <-]. exfalso. apply Hb. apply elem_of_app. right. left.
  - intros [= -> E]. destruct (IH y Ha Hb E) as [-> ->]. done.
Qed.

Lemma format_dec_no_underscore n : 0 <= n < 10 ^ 20 → 95 ∉ format_dec 0 n.
Proof.
  intros Hn. destruct (format_dec_spec 0 n Hn) as (Hd & _). apply digits_not_in; [done|].
  unfold digit. lia.
Qed.

Lemma node_name_inj x y j k :
  Z.of_nat j < 10 ^ 20 → Z.of_nat k < 10 ^ 20 →
  (∀ n, (0 < n)%nat → x ≠ node_name y n) → (∀ n, (0 < n)%nat → y ≠ node_name x n) →
  node_name x j = node_name y k → x = y ∧ j = k.
Proof.
  intros Hj Hk Hx Hy. unfold node_name in *. destruct j as [|j], k as [|k].
  - done.
  - intros E. by destruct (Hx (S k) ltac:(lia)).
  - intros E. by destruct (Hy (S j) ltac:(lia)).
  - intros [Exy E]%last_part_inj; [|apply format_dec_no_underscore; lia..].
    apply format_dec_inj in E; [|lia..]. split; [done|lia].
Qed.

Section Names.
Context {Json : Type}.
Implicit Types tags : list (@TagConfig Json).

Lemma collect_specs_name k tags seen s :
  s ∈ collect_specs k tags seen →
  tagname (spec_config s) ∈ tagname <$> tags ∧
  ∃ c, spec_name (spec s) = node_name (tagname (spec_config s)) c ∧
       (default 0 (seen !! tagname (spec_config s)) ≤ c
          < default 0 (seen !! tagname (spec_config s)) + length tags)%nat.
Proof.
  revert k seen. induction tags as [|t tags IH]; intros k seen; cbn [collect_specs];
    [by intros ?%elem_of_nil|].
  rewrite fmap_cons. cbn [length]. destruct (parse_address (tc_address t)) as [[[[[? ?] ?] ?] ?]|].
  - intros [-> |Hs]%elem_of_cons; cbn.
    + split; [left|]. eexists. split; [done|]. lia.
    + destruct (IH _ _ Hs) as (Hin & c & -> & Hc). split; [by right|]. exists c. split; [done|].
      destruct (decide (tagname t = tagname (spec_config s))) as [Et|Hne].
      * rewrite <- Et in Hc |- *. rewrite lookup_insert_eq in Hc. cbn in Hc. lia.
      * rewrite lookup_insert_ne in Hc by done. lia.
  - intros Hs. destruct (IH _ _ Hs) as (Hin & c & -> & Hc). split; [by right|].
    exists c. split; [done|]. lia.
Qed.

Lemma collect_specs_nodup k tags seen :
  (∀ x y n, x ∈ tagname <$> tags → y ∈ tagname <$> tags → (0 < n)%nat → x ≠ node_name y n) →
  (∀ x : text, Z.of_nat (default 0%nat (seen !! x)) + Z.of_nat (length tags) < 10 ^ 20) →
  NoDup ((fun s => spec_name (spec s)) <$> collect_specs k tags seen).
Proof.
  revert k seen. induction tags as [|t tags IH]; intros k seen Hd Hl; cbn [collect_specs]; [constructor|].
  rewrite fmap_cons in Hd. cbn [length] in Hl.
  assert (∀ x y n, x ∈ tagname <$> tags → y ∈ tagname <$> tags → (0 < n)%nat → x ≠ node_name y n)
    as Hd' by (intros; apply Hd; [by right..|done]).
  destruct (parse_address (tc_address t)) as [[[[[? ?] ?] ?] ?]|];
    [|apply IH; [done|intros x; specialize (Hl x); lia]].
  set (c := default 0%nat (seen !! tagname t)). cbn. constructor.
  - intros (s & E & Hs)%list_elem_of_fmap. cbn in E.
    apply collect_specs_name in Hs as (Hin & c' & Hc & Hr). rewrite Hc in E.
    pose proof (Hl (tagname t)) as Hl1. pose proof (Hl (tagname (spec_config s))) as Hl2. fold c in Hl1.
    assert (Z.of_nat c' < 10 ^ 20).
    { destruct (decide (tagname t = tagname (spec_config s))) as [Et|Hne].
      - rewrite <- Et, lookup_insert_eq in Hr. cbn in Hr. lia.
      - rewrite lookup_insert_ne in Hr by done. lia. }
    apply node_name_inj in E as [Et ->]; [|lia|done| |].
    + rewrite <- Et, lookup_insert_eq in Hr. cbn in Hr. lia.
    + intros n. apply Hd; [left|by right].
    + intros n. apply Hd; [by right|left].
  - apply IH; [done|]. intros x. specialize (Hl x) as Hx. specialize (Hl (tagname t)). fold c in Hl.
    destruct (decide (tagname t = x)) as [<-|Hne].
    + rewrite lookup_insert_eq. cbn. lia.
    + rewrite lookup_insert_ne by done. lia.
Qed.

(** The node names the batch reader makes up are distinct, so no two tags
    share an OPC UA node, provided no tag name in the file is another one
    followed by an underscore and a number. *)
Theorem node_names_distinct tags :
  (∀ x y n, x ∈ tagname <$> tags → y ∈ tagname <$> tags → (0 < n)%nat → x ≠ node_name y n) →
  Z.of_nat (length tags) < 10 ^ 20 →
  NoDup ((fun s => spec_name (spec s)) <$> tag_specs tags).
Proof.
  intros Hd Hl. apply collect_specs_nodup; [done|]. intros x. rewrite lookup_empty. cbn. lia.
Qed.
End Names.

(** A tag list with the same address throughout. *)
Definition named (name : string) : @TagConfig nat :=
  {| idx := 0%nat; tc_address := str_bytes "DB1.INT4"; tagname := str_bytes name;
     description := []; unit_ := []; update_rate := default_update_rate |}.

Lemma node_names_distinct_witness :
  NoDup ((fun s => spec_name (spec s)) <$> tag_specs [named "a"; named "b"; named "a"]).
Proof.
  apply node_names_distinct; [|by vm_compute].
  intros x y n Hx Hy Hn E.
  assert (length x = 1%nat ∧ length y = 1%nat) as [Lx Ly].
  { cbn in Hx, Hy. rewrite !elem_of_cons, elem_of_nil in Hx, Hy. by destruct_or!; subst. }
  rewrite E in Lx. destruct n as [|n]; [lia|]. cbn [node_name] in Lx. rewrite !length_app in Lx.
  change (length (str_bytes "_")) with 1%nat in Lx. lia.
Defined.

(** Without the condition names collide: two tags "a" and one "a_1" give two
    nodes of the same name. *)
Theorem node_names_collide :
  ((fun s => spec_name (spec s)) <$> tag_specs [named "a"; named "a"; named "a_1"]) =
  [str_bytes "a"; str_bytes "a_1"; str_bytes "a_1"].
Proof. vm_compute. reflexivity. Qed.

(** ** Notifications *)
Section Notifications.
Context {Json Other : Type} (json_text : Json → text).
Context (show_f32_2 : Z → text) (show_other : Variant Other → text).
(** The text of a string identifier in namespace 2, as the source quotes it:
    [ns=2;s=MotorSpeed]. *)
Definition node_text (name : text) : text := str_bytes "ns=2;s=" ++ name.

(** The first "s=" of this text is the end of "ns=". *)
Lemma callback_name_node name : callback_name (node_text name) = str_bytes "2;".
Proof. reflexivity. Qed.

Lemma name_map_None (specs : list (@Spec Json)) name :
  name ∉ ((fun s => spec_name (spec s)) <$> specs) → name_map specs !! name = None.
Proof.
  unfold name_map.
  assert (∀ m : gmap text (nat * TagConfig), m !! name = None →
    name ∉ ((fun s : @Spec Json => spec_name (spec s)) <$> specs) →
    foldl (fun m s => <[spec_name (spec s) := (spec_index s, spec_config s)]> m) m specs !! name = None)
    as H; [|intros; by apply H].
  induction specs as [|s specs IH]; intros m Hm Hn; [done|]. cbn.
  rewrite fmap_cons, not_elem_of_cons in Hn. apply IH; [|by apply Hn].
  rewrite lookup_insert_ne; [done|]. intros E. by destruct Hn.
Qed.

(** In subscription mode the batch reader prints nothing but its header:
    the callback looks up what stands between the "s=" of "ns=" and the next
    one, never the tag's name, so every change of every node is dropped,
    unless a tag is named "2;". *)
Theorem subscription_prints_nothing format (specs : list (@Spec Json)) notifications :
  str_bytes "2;" ∉ ((fun s => spec_name (spec s)) <$> specs) →
  printed (subscription json_text show_f32_2 show_other format specs
             ((fun '(name, v) => (node_text name, v)) <$> notifications)) = print_header format.
Proof.
  intros Hn. unfold subscription. generalize (name_map_None specs _ Hn). generalize (name_map specs).
  intros names Hno. clear Hn.
  enough (∀ st, foldl (on_change json_text show_f32_2 show_other format names) st
            ((fun '(name, v) => (node_text name, v)) <$> notifications) = st) as H by by rewrite H.
  induction notifications as [|[name v] ns IH]; intros st; [done|]. rewrite fmap_cons. cbn [foldl].
  replace (on_change _ _ _ format names st (node_text name, v)) with st; [apply IH|].
  unfold on_change. cbn [fst]. by rewrite callback_name_node, Hno.
Qed.
End Notifications.

Lemma subscription_prints_nothing_witness :
  printed (subscription (Other := unit) (fun _ => []) (fun _ => []) (fun _ => []) (str_bytes "csv")
             (tag_specs [named "Speed"])
             [(node_text (str_bytes "Speed"), Some (Int16 7))]) =
  [str_bytes "idx,tagname,address,value,unit,description"].
Proof.
  apply (subscription_prints_nothing _ _ _ (str_bytes "csv") _ [(str_bytes "Speed", Some (Int16 7))]).
  replace (_ <$> _) with [str_bytes "Speed"] by (vm_compute; reflexivity).
  rewrite elem_of_cons, elem_of_nil. intros [E|[]]. discriminate.
Defined.
