(* ===== verification/Served.v ===== *)
(** * Clients on the byte stream of a served connection

    The theorems about clients and servers together run the client on [Link],
    a transport that answers in place.  This file relates such a run with the
    two programs as they are deployed: the client on a byte stream, and the
    connection task of the accept loop on the other end.  A client program
    that succeeds on a link succeeds on the stream, with the same result; the
    two sides hold a conversation in which the client sends each request
    without having seen more than the answers before it, and the task's steps
    answer it and leave the store that the link ends with.

    [served] relates a program with itself on the two transports and is closed
    under the constructs programs are made of; [Prog] is the programs that
    call the methods of a client. *)

From stdpp Require Import relations gmap.
From S2P Require Import Prelude Wire Io Tpkt Cotp S7Header Negotiate ReadVar WriteVar Clock Szl Store.
From S2P Require Import ServerHandshake Dispatch Types Connection Tag Text Client Loopback.
From S2P Require Import ClientServices Blocks BlockInfo CpuInfo AcceptLoop.
Local Open Scope Z_scope.
Local Open Scope loop_scope.

(** ** Conversations *)

(** A conversation: each message of the client with what the server sends. *)
Abbreviation Talk := (list (bytes * bytes)).
Definition requests (conv : Talk) : bytes := concat conv.*1.
Definition replies (conv : Talk) : bytes := concat conv.*2.

Lemma requests_cons q a conv : requests ((q, a) :: conv) = q ++ requests conv.
Proof. done. Qed.
Lemma replies_cons q a conv : replies ((q, a) :: conv) = a ++ replies conv.
Proof. done. Qed.
Lemma requests_app x y : requests (x ++ y) = requests x ++ requests y.
Proof. unfold requests. by rewrite fmap_app, concat_app. Qed.
Lemma replies_app x y : replies (x ++ y) = replies x ++ replies y.
Proof. unfold replies. by rewrite fmap_app, concat_app. Qed.

(** A dispatching task answers it, a turn for each message, whatever else has
    been sent before and is still to come. *)
Inductive serves : Talk → StoreInner → StoreInner → Prop :=
| serves_nil s : serves [] s s
| serves_cons q a conv s s1 s2 :
    (∀ w more o n, serve_turn w {| rx := q ++ more; tx := o |} n s =
                   (Dispatching w {| rx := more; tx := o ++ a |} n, s1)) →
    serves conv s1 s2 → serves ((q, a) :: conv) s s2.

Lemma serves_app x y s1 s2 s3 : serves x s1 s2 → serves y s2 s3 → serves (x ++ y) s1 s3.
Proof. induction 1; [done|]. intros H'. cbn. econstructor; eauto. Qed.

(** ** The server answers a request with one frame or with nothing *)
Definition one_frame (m : @Srv Pipe unit) (s : StoreInner) : Prop :=
  (∃ resp s', 7 + blen resp <= 65535 ∧ ∀ x o,
     m ({| rx := x; tx := o |}, s) = (Ok tt, ({| rx := x; tx := o ++ data_frame resp |}, s'))) ∨
  (∃ r s', r ≠ Ok tt ∧ ∀ p, m (p, s) = (r, (p, s'))).

Lemma one_frame_panic s : one_frame (io_lift Panic) s.
Proof. right. by exists Panic, s. Qed.
Lemma one_frame_send b s : one_frame (on_transport (send_cotp_data b)) s.
Proof.
  destruct (Z.ltb_spec 65535 (7 + blen b)) as [Hl|Hl].
  - right. eexists (Err _), s. split; [done|]. intros p. unfold on_transport.
    unfold send_cotp_data, send_tpkt_cotp, io_bind, io_lift, TpktFrame_encode.
    cbn [CotpPdu_encode app tpkt_payload]. unfold TPKT_HEADER_LEN.
    case_ltb; [done|blen_lia].
  - left. exists b, s. split; [done|]. intros x o. unfold on_transport.
    by rewrite send_cotp_data_ok.
Qed.
Lemma one_frame_store {A} (f : StoreInner → A * StoreInner) k s :
  one_frame (k (f s).1) (f s).2 → one_frame (io_bind (on_store f) k) s.
Proof. unfold one_frame, io_bind, on_store. by destruct (f s). Qed.
Lemma one_frame_bind_ret {A} (a : A) k s : one_frame (k a) s → one_frame (io_bind (io_ret a) k) s.
Proof. done. Qed.
Lemma one_frame_bind_panic {A} (k : A → @Srv Pipe unit) s : one_frame (io_bind (io_lift Panic) k) s.
Proof. right. by exists Panic, s. Qed.

Create HintDb frame.
#[export] Hint Resolve one_frame_panic one_frame_send one_frame_bind_ret one_frame_bind_panic : frame.
#[export] Hint Extern 2 (one_frame (io_bind (on_store _) _) _) => apply one_frame_store : frame.
#[export] Hint Extern 2 (one_frame _ _) => case_match : frame.

Lemma answer_var_frame ref func r s : one_frame (answer_var ref func r) s.
Proof. destruct r as [[]| |]; [apply one_frame_send..|apply one_frame_panic]. Qed.

Lemma dispatch_request_frame payload s : one_frame (dispatch_request payload) s.
Proof.
  unfold dispatch_request. destruct (S7Header_decode payload) as [[h p]| |];
    [|apply one_frame_send|apply one_frame_panic].
  case_match; [apply one_frame_send|]. case_match; try apply one_frame_send.
  - unfold dispatch_job. destruct p as [|func p]; [apply one_frame_panic|].
    repeat (case_match; [try apply one_frame_send|]); try apply one_frame_send;
      apply one_frame_store, answer_var_frame.
  - case_match; [|apply one_frame_send].
    unfold handle_user_data, handle_clock_user_data, handle_szl_user_data. cbv zeta.
    repeat case_match; auto 6 with frame.
Qed.

(** A turn on a whole frame, with anything behind it. *)
Lemma serve_turn_frame payload s :
  7 + blen payload <= 65535 →
  (∃ resp s', 7 + blen resp <= 65535 ∧ ∀ w more o n,
     serve_turn w {| rx := data_frame payload ++ more; tx := o |} n s =
     (Dispatching w {| rx := more; tx := o ++ data_frame resp |} n, s') ∧
     ∀ fuel, dispatch_loop (S fuel) ({| rx := data_frame payload ++ more; tx := o |}, s) =
             dispatch_loop fuel ({| rx := more; tx := o ++ data_frame resp |}, s')) ∨
  (∃ r s', ∀ fuel more o, dispatch_loop (S fuel) ({| rx := data_frame payload ++ more; tx := o |}, s) =
             Some (r, ({| rx := more; tx := o |}, s'))).
Proof.
  intros Hl. unfold serve_turn. cbn [dispatch_loop]. unfold dispatch_turn, on_transport at 1.
  destruct (dispatch_request_frame payload s) as [(resp & s' & Hr & H)|(r & s' & Hr & H)].
  - left. exists resp, s'. split; [done|]. intros w more o n. unfold on_transport.
    by rewrite recv_cotp_data_frame, H.
  - right. exists r, s'. intros fuel more o. unfold on_transport.
    rewrite recv_cotp_data_frame, H by done. by destruct r as [[]| |].
Qed.

(** ** Programs on a link and on a stream *)

(** The client has seen the answers to the first [k] messages and no more: it
    waits, and has sent one message more than it has answers for. *)
Definition waits {A} (m : Loop (Inner Pipe) Client.Error A) (c : Connection) (r : Z) (conv : Talk)
    (k : nat) : Prop :=
  ∀ t, ∃ e i, m (piped (replies (take k conv)) t c r false) = Some (Err e, i) ∧
    tx (inner_transport i) = t ++ requests (take (S k) conv).

(** From an idle client: success on the link is a conversation. *)
Definition served {A} (m1 : Loop (Inner Link) Client.Error A)
    (m2 : Loop (Inner Pipe) Client.Error A) : Prop :=
  ∀ c r s a i, m1 (linked c r s) = Some (Ok a, i) →
  ∃ conv r' s', i = linked c r' s' ∧ serves conv s s' ∧
    (∀ fut t, m2 (piped (replies conv ++ fut) t c r false) =
              Some (Ok a, piped fut (t ++ requests conv) c r' false)) ∧
    (∀ k, (k < length conv)%nat → waits m2 c r conv k).

(** The same program, run on both. *)
Abbreviation served_io m1 m2 := (served (loop_run m1) (loop_run m2)).

Lemma served_ret {A} (a : A) : served_io (io_ret a) (io_ret a).
Proof.
  intros c r s b i [= <- <-]. exists [], r, s. split_and!; [done|constructor| |].
  - intros fut t. cbn. by rewrite app_nil_r.
  - cbn. lia.
Qed.
Lemma served_lift {A} (x : res Client.Error A) : served_io (io_lift x) (io_lift x).
Proof. destruct x; [apply served_ret|by intros ????? [=]..]. Qed.
Lemma served_fail {A} (e : Client.Error) : served_io (@io_fail _ _ A e) (io_fail e).
Proof. by intros ????? [=]. Qed.
Lemma served_none {A} (m2 : Loop (Inner Pipe) Client.Error A) : served (fun _ => None) m2.
Proof. by intros ?????. Qed.

(** Part of a conversation of two programs in a row. *)
Lemma waits_first {A B} (m : Loop (Inner Pipe) Client.Error A)
    (f : A → Loop (Inner Pipe) Client.Error B) c r x y k :
  (k < length x)%nat → waits m c r x k → waits (loop_bind m f) c r (x ++ y) k.
Proof.
  intros Hk Hw t. destruct (Hw t) as (e & i & E & Ht). exists e, i.
  rewrite !take_app_le by lia. split; [|done]. unfold loop_bind. by rewrite E.
Qed.
Lemma waits_second {A B} (m : Loop (Inner Pipe) Client.Error A)
    (f : A → Loop (Inner Pipe) Client.Error B) a c r r' x y k :
  (∀ fut t, m (piped (replies x ++ fut) t c r false) =
            Some (Ok a, piped fut (t ++ requests x) c r' false)) →
  waits (f a) c r' y k → waits (loop_bind m f) c r (x ++ y) (length x + k).
Proof.
  intros Hm Hw t. destruct (Hw (t ++ requests x)) as (e & i & E & Ht). exists e, i.
  rewrite <- Nat.add_succ_r, !take_app_add', replies_app, requests_app by done.
  rewrite (assoc_L (++)), <- Ht. split; [|done].
  by rewrite (loop_bind_ok _ _ _ _ _ (Hm _ _)).
Qed.

Lemma served_bind {A B} m1 m2 (f1 : A → Loop (Inner Link) Client.Error B) f2 :
  served m1 m2 → (∀ a, served (f1 a) (f2 a)) → served (loop_bind m1 f1) (loop_bind m2 f2).
Proof.
  intros Hm Hf c r s b i. unfold loop_bind at 1.
  destruct (m1 (linked c r s)) as [[[a|e|] i1]|] eqn:E1; try done. intros E2.
  destruct (Hm _ _ _ _ _ E1) as (x & r1 & s1 & -> & Hs1 & Hrun1 & Hw1).
  destruct (Hf _ _ _ _ _ _ E2) as (y & r2 & s2 & -> & Hs2 & Hrun2 & Hw2).
  exists (x ++ y), r2, s2. split_and!; [done|by eapply serves_app| |].
  - intros fut t. rewrite replies_app, requests_app, <- (assoc_L (++)).
    by rewrite (loop_bind_ok _ _ _ _ _ (Hrun1 _ _)), Hrun2, (assoc_L (++)).
  - intros k. rewrite length_app. intros Hk. destruct (decide (k < length x)%nat).
    + apply waits_first; [done|]. by apply Hw1.
    + replace k with (length x + (k - length x))%nat by lia.
      eapply waits_second; [done|]. apply Hw2. lia.
Qed.
Lemma served_io_bind {A B} (m1 : IO (Inner Link) Client.Error A) m2
    (f1 : A → IO (Inner Link) Client.Error B) f2 :
  served_io m1 m2 → (∀ a, served_io (f1 a) (f2 a)) → served_io (io_bind m1 f1) (io_bind m2 f2).
Proof.
  intros Hm Hf. pose proof (served_bind _ _ _ _ Hm Hf) as H.
  assert (∀ T E C D (m : IO T E C) (f : C → IO T E D) t,
    loop_run (io_bind m f) t = loop_bind (loop_run m) (fun a => loop_run (f a)) t) as Heq.
  { intros. unfold loop_run, loop_bind, io_bind. by destruct (m t) as [[]]. }
  intros c r s b i. rewrite Heq. intros E. destruct (H _ _ _ _ _ E) as (conv & r' & s' & H1 & H2 & H3 & H4).
  exists conv, r', s'. split_and!; [done..| |].
  - intros fut t. by rewrite Heq.
  - intros k Hk t. rewrite Heq. by apply H4.
Qed.

(** A program that looks at the connection first. *)
Lemma served_connection {A} (f1 : Connection → Loop (Inner Link) Client.Error A) f2 :
  (∀ c, served (f1 c) (f2 c)) →
  served (fun i => f1 (connection i) i) (fun i => f2 (connection i) i).
Proof. intros H c r s a i. apply (H c c). Qed.

(** The exchange of a request and its response. *)
Lemma recv_s7_link_cases resp c r s :
  7 + blen resp <= 65535 →
  (recv_s7 (queued (data_frame resp) c r true s)) =
  match S7Header_decode resp with
  | Ok hb => (Ok hb, queued [] c r false s)
  | Err e => (Err (Client.Proto e), queued [] c r true s)
  | Panic => (Panic, queued [] c r true s)
  end.
Proof.
  intros Hl. rewrite <- (app_nil_r (data_frame resp)).
  destruct (S7Header_decode resp) as [[h b]|e|] eqn:Hd; [by apply recv_s7_link|..].
  all: unfold recv_s7, data_frame; blen_pose; rewrite tpkt_frame_split.
  all: erewrite io_bind_ok by (apply read_timed_link; reflexivity).
  all: cbn [be16]; rewrite of_be16_split by (unwidth; blen_lia); case_ltb; [blen_lia|].
  all: erewrite io_bind_ok by (apply read_timed_link; lia); cbn [Z.eqb Pos.eqb negb].
  all: unfold io_lift, io_bind at 1; by rewrite Hd.
Qed.

(** The frame [send_s7] writes, and an exchange on any transport in terms of it. *)
Lemma exchange_unfold {T} `{Transport T} param data t (i : Inner T) :
  let r := as_u16 (inner_pdu_ref i + 1) in
  let P := request_payload param data r t in
  7 + blen P <= 65535 →
  exchange param data t i =
  let '(x, t') := write_all (data_frame P) (inner_transport i) in
  io_bind (io_lift (res_map_err Client.Io x)) (fun _ => recv_s7)
    (set_transport (set_job_start (set_pdu_ref i r) true) t').
Proof.
  intros r P Hl. unfold exchange, next_pdu_ref, io_bind at 1. cbv zeta. fold r.
  unfold io_bind at 1, send_s7. fold P.
  rewrite TpktFrame_encode_ok by (cbn [tpkt_payload CotpPdu_encode app]; rewrite !blen_cons; lia).
  change (tpkt_frame _) with (data_frame P). cbn [set_job_start set_pdu_ref inner_transport].
  destruct (write_all _ _) as [[]]; done.
Qed.
Lemma exchange_too_long {T} `{Transport T} param data t (i : Inner T) :
  65535 < 7 + blen (request_payload param data (as_u16 (inner_pdu_ref i + 1)) t) →
  ∃ e, (exchange param data t i).1 = Err e.
Proof.
  intros Hl. unfold exchange, next_pdu_ref, io_bind, send_s7, TpktFrame_encode. cbv zeta.
  cbn [tpkt_payload CotpPdu_encode app]. unfold TPKT_HEADER_LEN.
  case_ltb; [by eexists|blen_lia].
Qed.

(** A message to an idle link: the answer of the task's turn, or silence. *)
Lemma link_write_cases P s :
  7 + blen P <= 65535 →
  (∃ resp s', 7 + blen resp <= 65535 ∧
     write_all (data_frame P) {| link_rx := []; link_store := s; link_peer := Serving |} =
     (Ok tt, {| link_rx := data_frame resp; link_store := s'; link_peer := Serving |}) ∧
     serves [(data_frame P, data_frame resp)] s s') ∨
  (∃ s', write_all (data_frame P) {| link_rx := []; link_store := s; link_peer := Serving |} =
     (Ok tt, {| link_rx := []; link_store := s'; link_peer := Serving |})).
Proof.
  intros Hl. cbn [write_all Link_transport link_peer link_store link_rx app].
  pose proof (serve_turn_frame P s Hl) as [(resp & s' & Hr & H)|(x & s' & H)];
    [left; exists resp, s'|right; exists s'].
  - split; [done|]. destruct (length (data_frame P)) as [|n] eqn:Hn; [done|]. split.
    + rewrite <- (app_nil_r (data_frame P)), (proj2 (H closing_peer _ _ 0)). by rewrite dispatch_loop_eof.
    + econstructor; [intros; apply H|constructor].
  - rewrite <- (app_nil_r (data_frame P)) at 2. by rewrite H.
Qed.

Lemma exchange_pipe_empty param data t c r o :
  7 + blen (request_payload param data (as_u16 (r + 1)) t) <= 65535 →
  ∃ e i, exchange param data t (piped [] o c r false) = (Err e, i) ∧
    tx (inner_transport i) = o ++ data_frame (request_payload param data (as_u16 (r + 1)) t).
Proof.
  intros Hl. rewrite (exchange_unfold _ _ _ (piped [] o c r false)) by done. by eexists _, _.
Qed.

Lemma served_exchange param data t : served_io (exchange param data t) (exchange param data t).
Proof.
  intros c r s hb i. set (P := request_payload param data (as_u16 (r + 1)) t).
  destruct (Z.ltb_spec 65535 (7 + blen P)) as [Hl|Hl].
  { intros [= E]. destruct (exchange_too_long param data t (linked c r s) Hl) as [e He].
    by rewrite E in He. }
  unfold loop_run at 1. rewrite (exchange_unfold _ _ _ (linked c r s)) by done.
  change (request_payload _ _ _ _) with P.
  destruct (link_write_cases P s Hl) as [(resp & s' & Hr & Hw & Hs)|(s' & Hw)].
  2: { cbn [linked queued inner_transport]. rewrite Hw. by intros [=]. }
  cbn [linked queued inner_transport]. rewrite Hw. intros [= E].
  change (recv_s7 (queued (data_frame resp) c (as_u16 (r + 1)) true s') = (Ok hb, i)) in E.
  rewrite recv_s7_link_cases in E by done.
  destruct (S7Header_decode resp) as [hb'| |] eqn:Hd; [|done..]. injection E as -> <-.
  exists [(data_frame P, data_frame resp)], (as_u16 (r + 1)), s'. split_and!; [done..| |].
  - intros fut o. unfold loop_run, replies, requests. cbn [fmap list_fmap concat fst snd].
    rewrite !app_nil_r. destruct hb as [h b]. rewrite (exchange_pipe _ _ _ resp fut h b); [done| |done..].
    subst P. rewrite blen_request_payload in Hl. lia.
  - intros [|k] Hk o; [|cbn in Hk; lia]. cbn [take]. unfold loop_run.
    destruct (exchange_pipe_empty param data t c r o Hl) as (e & j & E & Hj).
    exists e, j. split; [by rewrite <- E|].
    rewrite Hj. unfold requests. cbn. by rewrite app_nil_r.
Qed.

Create HintDb served.
#[export] Hint Resolve served_ret served_lift served_fail served_none served_exchange : served.

(** Follows the binds and matches of a method on both sides. *)
Ltac served_steps := intros;
  repeat first
    [ solve [auto with served]
    | apply served_io_bind; [|let a := fresh "a" in intros a;
        match type of a with (_ * _)%type => destruct a as [? ?] | _ => idtac end]
    | apply served_bind; [|let a := fresh "a" in intros a;
        match type of a with (_ * _)%type => destruct a as [? ?] | _ => idtac end]
    | match goal with
      | |- served_io (match ?x with _ => _ end) _ => destruct x
      | |- served (match ?x with _ => _ end) _ => destruct x
      end ].

(** ** The methods of a client *)
Section Methods.
Abbreviation same_io m := (served_io (m Link _) (m Pipe _)).
Abbreviation same m := (served (m Link _) (m Pipe _)).

Lemma served_read_one context item : same_io (fun T Tr => @read_one T Tr context item).
Proof. unfold read_one. served_steps. Qed.
Lemma served_write_one context msg item data :
  same_io (fun T Tr => @write_one T Tr context msg item data).
Proof. unfold write_one. served_steps. Qed.
#[local] Hint Resolve served_read_one served_write_one : served.

Lemma served_read_multi_loop fuel mp k items results :
  same_io (fun T Tr => @read_multi_loop T Tr fuel mp k items results).
Proof.
  revert k items results. induction fuel as [|fuel IH]; intros k [|i items] results;
    cbn [read_multi_loop]; cbv zeta; served_steps.
Qed.
Lemma served_write_multi_loop fuel mp k items :
  same_io (fun T Tr => @write_multi_loop T Tr fuel mp k items).
Proof.
  revert k items. induction fuel as [|fuel IH]; intros k [|i items];
    cbn [write_multi_loop]; cbv zeta; served_steps.
Qed.
Lemma served_read_multi_vars items : same_io (fun T Tr => @S7Client_read_multi_vars T Tr items).
Proof.
  unfold S7Client_read_multi_vars. destruct items as [|i items]; [apply served_ret|].
  apply (served_connection (fun c => loop_run (read_multi_loop _ (saturating_sub (pdu_size c) 12) _ _ _))
           (fun c => loop_run (read_multi_loop _ (saturating_sub (pdu_size c) 12) _ _ _))).
  intros c. apply served_read_multi_loop.
Qed.
Lemma served_write_multi_vars items : same_io (fun T Tr => @S7Client_write_multi_vars T Tr items).
Proof.
  unfold S7Client_write_multi_vars. destruct items as [|i items]; [apply served_ret|].
  apply (served_connection (fun c => loop_run (write_multi_loop _ (saturating_sub (pdu_size c) 12) _ _))
           (fun c => loop_run (write_multi_loop _ (saturating_sub (pdu_size c) 12) _ _))).
  intros c. apply served_write_multi_loop.
Qed.
#[local] Hint Resolve served_read_multi_vars served_write_multi_vars : served.

Lemma served_force_bit a addr bit v : same_io (fun T Tr => @S7Client_force_bit T Tr a addr bit v).
Proof.
  unfold S7Client_force_bit, S7Client_read_area, S7Client_write_area. cbv zeta. served_steps.
Qed.
Lemma served_read_szl_payload id index : same_io (fun T Tr => @read_szl_payload T Tr id index).
Proof. unfold read_szl_payload. cbv zeta. served_steps. Qed.
Lemma served_command context param data t :
  same_io (fun T Tr => @command T Tr context param data t).
Proof. unfold command. served_steps. Qed.
#[local] Hint Resolve served_read_szl_payload served_command : served.

Lemma served_read_szl id index : same_io (fun T Tr => @S7Client_read_szl T Tr id index).
Proof. unfold S7Client_read_szl. served_steps. Qed.
Lemma served_read_szl_list : same_io (fun T Tr => @S7Client_read_szl_list T Tr).
Proof. unfold S7Client_read_szl_list. cbv zeta. served_steps. Qed.
Lemma served_get_plc_status : same_io (fun T Tr => @S7Client_get_plc_status T Tr).
Proof. unfold S7Client_get_plc_status. served_steps. Qed.
Lemma served_get_cp_info : same_io (fun T Tr => @S7Client_get_cp_info T Tr).
Proof. unfold S7Client_get_cp_info. cbv zeta. served_steps. Qed.
Lemma served_read_module_list : same_io (fun T Tr => @S7Client_read_module_list T Tr).
Proof. unfold S7Client_read_module_list. served_steps. Qed.
Lemma served_get_protection : same_io (fun T Tr => @S7Client_get_protection T Tr).
Proof. unfold S7Client_get_protection. served_steps. Qed.
Lemma served_get_order_code up : same_io (fun T Tr => @S7Client_get_order_code up T Tr).
Proof. unfold S7Client_get_order_code. served_steps. Qed.
Lemma served_get_cpu_info up : same_io (fun T Tr => @S7Client_get_cpu_info up T Tr).
Proof. unfold S7Client_get_cpu_info. served_steps. Qed.
Lemma served_read_clock : same_io (fun T Tr => @S7Client_read_clock T Tr).
Proof. unfold S7Client_read_clock. cbv zeta. served_steps. Qed.
Lemma served_set_clock dt : same_io (fun T Tr => @S7Client_set_clock T Tr dt).
Proof. unfold S7Client_set_clock. served_steps. Qed.
Lemma served_list_blocks : same_io (fun T Tr => @S7Client_list_blocks T Tr).
Proof. unfold S7Client_list_blocks. cbv zeta. served_steps. Qed.
Lemma served_get_block_info func bt bn : same_io (fun T Tr => @get_block_info T Tr func bt bn).
Proof. unfold get_block_info, block_info_query. cbv zeta. served_steps. Qed.
#[local] Hint Resolve served_get_block_info : served.
Lemma served_fill_loop db size value offsets :
  same_io (fun T Tr => @fill_loop T Tr db size value offsets).
Proof.
  induction offsets as [|o offsets IH]; cbn [fill_loop]; cbv zeta; unfold S7Client_db_write; served_steps.
Qed.
#[local] Hint Resolve served_fill_loop : served.
Lemma served_db_fill db value : same_io (fun T Tr => @S7Client_db_fill T Tr db value).
Proof. unfold S7Client_db_fill, S7Client_get_ag_block_info. cbv zeta. served_steps. Qed.

(** *** Transfers *)
Lemma served_each {A B} (f1 : A → Loop (Inner Link) Client.Error (list B)) f2 l :
  (∀ a, served (f1 a) (f2 a)) → served (loop_each f1 l) (loop_each f2 l).
Proof. intros Hf. induction l as [|a l IH]; cbn [loop_each]; served_steps. Qed.

Lemma served_list_loop n first seq bt numbers :
  same (fun T Tr => @list_loop T Tr n first seq bt numbers).
Proof.
  revert first seq numbers. induction n as [|n IH]; intros first seq numbers; cbn [list_loop];
    [auto with served|]. apply served_bind; [|intros t; cbv zeta; served_steps].
  unfold list_turn. destruct first; served_steps.
Qed.
#[local] Hint Resolve served_list_loop : served.
Lemma served_list_blocks_of_type fuel bt :
  same (fun T Tr => @S7Client_list_blocks_of_type T Tr fuel bt).
Proof. unfold S7Client_list_blocks_of_type. served_steps. Qed.

Lemma served_upload_turn func context id data :
  same_io (fun T Tr => @upload_turn T Tr func context id data).
Proof.
  unfold upload_turn. apply served_io_bind; [auto with served|]. intros [h b].
  apply served_io_bind; [auto with served|]. intros _.
  destruct (skip_echo b) as [|x d]; [auto with served|].
  cbv zeta. set (data' := data ++ _).
  apply (served_connection
    (fun c => loop_run (fun i => if _ <? chunk_limit (pdu_size c) then (Ok (data', false), i) else _))
    (fun c => loop_run (fun i => if _ <? chunk_limit (pdu_size c) then (Ok (data', false), i) else _))).
  intros c. case_match; [apply (served_ret (data', false))|].
  case_match; [apply (served_fail (A := bytes * bool))|apply (served_ret (data', true))].
Qed.
#[local] Hint Resolve served_upload_turn : served.
Lemma served_upload_loop n func context id data :
  same (fun T Tr => @upload_loop T Tr n func context id data).
Proof. revert data. induction n as [|n IH]; intros data; cbn [upload_loop]; served_steps. Qed.
#[local] Hint Resolve served_upload_loop : served.
Lemma served_upload_with fuel func context bt bn :
  same (fun T Tr => @upload_with T Tr fuel func context bt bn).
Proof. unfold upload_with, upload_start. served_steps. Qed.
Lemma served_upload_all_blocks fuel types :
  same (fun T Tr => @S7Client_upload_all_blocks T Tr fuel types).
Proof.
  apply served_each. intros bt. apply served_bind; [apply served_list_blocks_of_type|].
  intros numbers. apply served_each. intros n.
  apply served_bind; [apply served_upload_with|auto with served].
Qed.

Lemma served_download_loop n id avail data :
  same (fun T Tr => @download_loop T Tr n id avail data).
Proof.
  revert data. induction n as [|n IH]; intros [|b data]; cbn [download_loop]; cbv zeta; served_steps.
Qed.
#[local] Hint Resolve served_download_loop : served.
Lemma served_download fuel bt bn data : same (fun T Tr => @S7Client_download T Tr fuel bt bn data).
Proof.
  pose (body T (Tr : Transport T) (c : Connection) :=
    let avail := Z.to_nat (saturating_sub (pdu_size c) 50) in
    let^ id := loop_run (@download_start T Tr bt bn (as_u32 (blen data)) (take avail data)) in
    let^ _ := download_loop fuel id (saturating_sub (pdu_size c) 50) (drop avail data) in
    loop_run (command "download_end" ([0x1E; 0x02] ++ be32 id) [] Job)).
  apply (served_connection (body Link _) (body Pipe _)).
  intros c. subst body. cbv zeta beta. unfold download_start. served_steps.
Qed.
End Methods.

(** ** Client programs

    Any program that calls the methods of one client and decides by their
    results what to do next.  A transfer takes the number of turns it may make. *)
Inductive Call : Type → Type :=
| DbRead (db start length : Z) : Call bytes
| DbWrite (db start : Z) (data : bytes) : Call unit
| ReadArea (a : Area) (db start count : Z) (t : TransportSize) : Call bytes
| WriteArea (a : Area) (db start : Z) (t : TransportSize) (data : bytes) : Call unit
| ReadMultiVars (items : list MultiReadItem) : Call (list bytes)
| WriteMultiVars (items : list MultiWriteItem) : Call unit
| AbRead (a : Area) (db start length : Z) : Call bytes
| AbWrite (a : Area) (db start : Z) (data : bytes) : Call unit
| TmRead (start amount : Z) : Call bytes
| CtRead (start amount : Z) : Call bytes
| ForceBit (a : Area) (byte_addr bit : Z) (value : bool) : Call unit
| ForceByte (a : Area) (byte_addr value : Z) : Call unit
| ReadSzl (id index : Z) : Call SzlResponse
| ReadSzlList : Call (list Z)
| GetPlcStatus : Call PlcStatus
| GetCpInfo : Call CpInfo
| ReadModuleList : Call (list Z)
| GetProtection : Call Protection
| GetOrderCode (upper_other : Z → text) : Call OrderCode
| GetCpuInfo (upper_other : Z → text) : Call CpuInfo
| ReadClock : Call PlcDateTime
| SetClock (dt : PlcDateTime) : Call unit
| CopyRamToRom : Call unit
| Compress : Call unit
| MemoryReset : Call unit
| OverallReset : Call unit
| PlcStop : Call unit
| PlcHotStart : Call unit
| PlcColdStart : Call unit
| SetSessionPassword (password : bytes) : Call unit
| ClearSessionPassword : Call unit
| DeleteBlock (block_type block_number : Z) : Call unit
| ListBlocks : Call BlockList
| ListBlocksOfType (fuel : nat) (block_type : Z) : Call (list Z)
| GetAgBlockInfo (block_type block_number : Z) : Call BlockInfo
| GetPgBlockInfo (block_type block_number : Z) : Call BlockInfo
| DbFill (db value : Z) : Call unit
| Upload (fuel : nat) (block_type block_number : Z) : Call bytes
| FullUpload (fuel : nat) (block_type block_number : Z) : Call bytes
| UploadAllBlocks (fuel : nat) (block_types : list Z) : Call (list (Z * Z * bytes))
| Download (fuel : nat) (block_type block_number : Z) (data : bytes) : Call unit
| CreateDb (fuel : nat) (db size : Z) (attrs : option BlockAttributes) : Call unit.

Inductive Prog (A : Type) : Type :=
| Return (r : res Client.Error A)
| Invoke {B : Type} (m : Call B) (k : B → Prog A).
Arguments Return {A}. Arguments Invoke {A B}.

Section Run.
Context {T : Type} `{Transport T}.

Definition run_call {A} (m : Call A) : Loop (Inner T) Client.Error A :=
  match m with
  | DbRead db start length => loop_run (S7Client_db_read db start length)
  | DbWrite db start data => loop_run (S7Client_db_write db start data)
  | ReadArea a db start count t => loop_run (S7Client_read_area a db start count t)
  | WriteArea a db start t data => loop_run (S7Client_write_area a db start t data)
  | ReadMultiVars items => loop_run (S7Client_read_multi_vars items)
  | WriteMultiVars items => loop_run (S7Client_write_multi_vars items)
  | AbRead a db start length => loop_run (S7Client_ab_read a db start length)
  | AbWrite a db start data => loop_run (S7Client_ab_write a db start data)
  | TmRead start amount => loop_run (S7Client_tm_read start amount)
  | CtRead start amount => loop_run (S7Client_ct_read start amount)
  | ForceBit a addr bit v => loop_run (S7Client_force_bit a addr bit v)
  | ForceByte a addr v => loop_run (S7Client_force_byte a addr v)
  | ReadSzl id index => loop_run (S7Client_read_szl id index)
  | ReadSzlList => loop_run S7Client_read_szl_list
  | GetPlcStatus => loop_run S7Client_get_plc_status
  | GetCpInfo => loop_run S7Client_get_cp_info
  | ReadModuleList => loop_run S7Client_read_module_list
  | GetProtection => loop_run S7Client_get_protection
  | GetOrderCode up => loop_run (S7Client_get_order_code up)
  | GetCpuInfo up => loop_run (S7Client_get_cpu_info up)
  | ReadClock => loop_run S7Client_read_clock
  | SetClock dt => loop_run (S7Client_set_clock dt)
  | CopyRamToRom => loop_run S7Client_copy_ram_to_rom
  | Compress => loop_run S7Client_compress
  | MemoryReset => loop_run S7Client_memory_reset
  | OverallReset => loop_run S7Client_overall_reset
  | PlcStop => loop_run S7Client_plc_stop
  | PlcHotStart => loop_run S7Client_plc_hot_start
  | PlcColdStart => loop_run S7Client_plc_cold_start
  | SetSessionPassword p => loop_run (S7Client_set_session_password p)
  | ClearSessionPassword => loop_run S7Client_clear_session_password
  | DeleteBlock bt bn => loop_run (S7Client_delete_block bt bn)
  | ListBlocks => loop_run S7Client_list_blocks
  | ListBlocksOfType fuel bt => S7Client_list_blocks_of_type fuel bt
  | GetAgBlockInfo bt bn => loop_run (S7Client_get_ag_block_info bt bn)
  | GetPgBlockInfo bt bn => loop_run (S7Client_get_pg_block_info bt bn)
  | DbFill db value => loop_run (S7Client_db_fill db value)
  | Upload fuel bt bn => S7Client_upload fuel bt bn
  | FullUpload fuel bt bn => S7Client_full_upload fuel bt bn
  | UploadAllBlocks fuel types => S7Client_upload_all_blocks fuel types
  | Download fuel bt bn data => S7Client_download fuel bt bn data
  | CreateDb fuel db size attrs => S7Client_create_db fuel db size attrs
  end.

Fixpoint run {A} (p : Prog A) : Loop (Inner T) Client.Error A :=
  match p with
  | Return r => loop_run (io_lift r)
  | Invoke m k => let^ b := run_call m in run (k b)
  end.

(** Connects, then runs the program on the client. *)
Definition session {A} (params : ConnectParams) (p : Prog A) (t : T)
    : option (res Client.Error A * T) :=
  match from_transport t params with
  | (Ok i, _) => match run p i with Some (r, i') => Some (r, inner_transport i') | None => None end
  | (Err e, t') => Some (Err e, t')
  | (Panic, t') => Some (Panic, t')
  end.
End Run.

(** [ab_read], [tm_read] and [ct_read] return the first of the results. *)
Lemma served_first_result items :
  served_io (let* results := S7Client_read_multi_vars items in io_lift (swap_remove_0 results))
    (let* results := S7Client_read_multi_vars items in io_lift (swap_remove_0 results)).
Proof. apply served_io_bind; [apply served_read_multi_vars|intros; apply served_lift]. Qed.

Lemma served_call {A} (m : Call A) : served (run_call m) (run_call m).
Proof.
  destruct m; cbn [run_call];
    [ apply served_read_one | apply served_write_one | apply served_read_one | apply
      served_write_one | apply served_read_multi_vars | apply served_write_multi_vars | apply
      served_first_result | apply served_write_multi_vars | apply served_first_result | apply
      served_first_result | apply served_force_bit | apply served_write_one | apply
      served_read_szl | apply served_read_szl_list | apply served_get_plc_status | apply
      served_get_cp_info | apply served_read_module_list | apply served_get_protection | apply
      served_get_order_code | apply served_get_cpu_info | apply served_read_clock | apply
      served_set_clock | apply served_command | apply served_command | apply served_command |
      apply served_command | apply served_command | apply served_command | apply served_command |
      apply served_command | apply served_command | apply served_command | apply
      served_list_blocks | apply served_list_blocks_of_type | apply served_get_block_info | apply
      served_get_block_info | apply served_db_fill | apply served_upload_with | apply
      served_upload_with | apply served_upload_all_blocks | apply served_download | apply
      served_download ].
Qed.
Lemma served_run {A} (p : Prog A) : served (run p) (run p).
Proof.
  induction p as [r|B m k IH]; [apply served_lift|]. apply served_bind; [apply served_call|apply IH].
Qed.

(** ** The steps of the task *)
Lemma with_conn_self sv i c : conns sv !! i = Some c → with_conn sv i c (store sv) = sv.
Proof. intros Hc. destruct sv. unfold with_conn. cbn in *. by rewrite list_insert_id. Qed.
Lemma with_conn_twice sv i c c' s s' : with_conn (with_conn sv i c s) i c' s' = with_conn sv i c' s'.
Proof. unfold with_conn. cbn. by rewrite list_insert_insert_eq. Qed.
Lemma finish_dispatching sv i w p n s :
  finish sv i (Dispatching w p n) s = with_conn sv i (Dispatching w p n) s.
Proof. done. Qed.
Lemma with_conn_lookup sv i c c' s : conns sv !! i = Some c → conns (with_conn sv i c' s) !! i = Some c'.
Proof. intros Hc. cbn. apply list_lookup_insert_eq. by eapply lookup_lt_Some. Qed.

(** A task that receives a message does not wait for one. *)
Lemma serve_turn_receives w p n s w' p' n' s' :
  serve_turn w p n s = (Dispatching w' p' n', s') → conn_waits (Dispatching w p n) = false.
Proof.
  unfold serve_turn, dispatch_turn, on_transport. cbn. destruct (closes w); [done|].
  by destruct (recv_cotp_data p) as [[payload|[e|[]|]|] p1].
Qed.
Lemma serve_handshake_receives w p w' p' n' :
  serve_handshake w p = Dispatching w' p' n' → conn_waits (Handshaking w p) = false.
Proof.
  unfold serve_handshake. cbn. destruct (closes w); [done|]. destruct (nodelay w); [|done..].
  by destruct (server_handshake p) as [[n|[e|[]|]|] p1].
Qed.

Lemma serves_steps conv s s' sv i w more o n :
  serves conv s s' → store sv = s →
  conns sv !! i = Some (Dispatching w {| rx := requests conv ++ more; tx := o |} n) →
  nsteps conn_step (length conv) sv
    (with_conn sv i (Dispatching w {| rx := more; tx := o ++ replies conv |} n) s').
Proof.
  intros Hs. revert sv o. induction Hs as [s|q a conv s s1 s2 Ht Hs IH]; intros sv o Hst Hc.
  - subst s. cbn. rewrite app_nil_r, with_conn_self by done. constructor.
  - rewrite requests_cons, <- (assoc_L (++)) in Hc. eapply nsteps_l.
    { apply step_dispatch; [done|]. eapply serve_turn_receives, Ht. }
    rewrite Hst, Ht. cbn [fst snd]. rewrite finish_dispatching, replies_cons, (assoc_L (++)).
    rewrite <- (with_conn_twice sv i
      (Dispatching w {| rx := requests conv ++ more; tx := o ++ a |} n) _ s1 s2).
    apply IH; [done|]. by eapply with_conn_lookup.
Qed.

Lemma serves_take k conv s s' :
  serves conv s s' → ∃ sk, serves (take k conv) s sk ∧ ((length conv <= k)%nat → sk = s').
Proof.
  intros Hs. revert k. induction Hs as [s|q a conv s s1 s2 Ht Hs IH]; intros k.
  - exists s. destruct k; by split; [constructor|].
  - destruct k as [|k]; [exists s; split; [constructor|cbn; lia]|].
    destruct (IH k) as (sk & H1 & H2). exists sk. split; [by econstructor|].
    intros Hk. apply H2. cbn in Hk. lia.
Qed.

(** ** Greeting *)
Definition negotiate_wish (params : ConnectParams) : NegotiateRequest :=
  {| req_max_amq_calling := 1; req_max_amq_called := 1; req_pdu_length := cp_pdu_size params |}.
Definition hello (params : ConnectParams) : Talk :=
  [(tpkt_frame (CotpPdu_encode (ConnectRequest 0 1 (cp_rack params) (cp_slot params))),
    tpkt_frame (CotpPdu_encode (ConnectConfirm 1 1)));
   (data_frame (negotiate_job 1 (negotiate_wish params)),
    data_frame (negotiate_ack 1 (negotiated (negotiate_wish params))))].

Lemma hello_connect params rest :
  ConnectParams_wf params →
  connect params {| rx := replies (hello params) ++ rest; tx := [] |} =
  (Ok {| pdu_size := Z.min (cp_pdu_size params) 480 |},
   {| rx := rest; tx := requests (hello params) |}).
Proof.
  intros (Hr & Hs & Hp). unfold replies, requests, hello. cbn [fmap list_fmap concat fst snd].
  rewrite !app_nil_r, <- (assoc_L (++)).
  rewrite (connect_run params (negotiated (negotiate_wish params))); [done|].
  unfold NegotiateResponse_wf. cbn. unwidth. lia.
Qed.

(** With no more than the first [k] answers, connecting waits. *)
Lemma hello_waits params k :
  ConnectParams_wf params → (k < 2)%nat →
  ∃ e t, connect params {| rx := replies (take k (hello params)); tx := [] |} = (Err e, t) ∧
    tx t = requests (take (S k) (hello params)).
Proof.
  intros (Hr & Hs & Hp) Hk. unfold connect.
  rewrite (io_bind_ok _ _ _ _ _ (send_cotp_ok
    (ConnectRequest 0 1 (cp_rack params) (cp_slot params)) _ ltac:(vm_compute; discriminate))).
  unfold replies, requests, hello. destruct k as [|[|k]]; [| |lia];
    cbn [take fmap list_fmap concat fst snd rx tx app].
  - rewrite app_nil_r. by eexists _, _.
  - unfold connect_negotiate. erewrite io_bind_ok.
    2: { erewrite io_bind_ok by (rewrite recv_cotp_frame by (vm_compute; discriminate);
           rewrite CotpPdu_decode_encode by (cbn; unwidth; lia); reflexivity).
         cbn [CotpPdu_wire].
         apply client_send_cotp_data_ok. vm_compute. discriminate. }
    rewrite app_nil_r. by eexists _, _.
Qed.

Lemma hello_steps params sv i w more :
  ConnectParams_wf params → nodelay w = Ok tt →
  conns sv !! i = Some (Handshaking w {| rx := requests (hello params) ++ more; tx := [] |}) →
  conn_step sv
    (with_conn sv i (Dispatching w {| rx := more; tx := replies (hello params) |}
                       (Z.min (cp_pdu_size params) 480)) (store sv)).
Proof.
  intros (Hr & Hs & Hp) Hw Hc.
  assert (serve_handshake w {| rx := requests (hello params) ++ more; tx := [] |} =
          Dispatching w {| rx := more; tx := replies (hello params) |}
            (Z.min (cp_pdu_size params) 480)) as E.
  { unfold serve_handshake, requests, replies, hello. rewrite Hw. cbn [fmap list_fmap concat fst snd].
    rewrite !app_nil_r, <- (assoc_L (++)), server_handshake_run; [done|..];
      unfold NegotiateRequest_wf; cbn; unwidth; lia. }
  pose proof (step_handshake sv i w _ Hc (serve_handshake_receives _ _ _ _ _ E)) as H.
  by rewrite E in H.
Qed.

(** ** Adequacy *)

(** The server's side of a conversation: its task, given the greeting and the
    first messages, sends the answers to them, and after the last its store
    is [s']. *)
Definition task_answers (params : ConnectParams) (conv : Talk) (s s' : StoreInner) : Prop :=
  ∀ k, (2 <= k)%nat → ∃ sk, ((length conv <= k)%nat → sk = s') ∧
  ∀ sv i w more, nodelay w = Ok tt →
    conns sv !! i = Some (Handshaking w {| rx := requests (take k conv) ++ more; tx := [] |}) →
    store sv = s →
    rtc server_step sv
      (with_conn sv i (Dispatching w {| rx := more; tx := replies (take k conv) |}
                         (Z.min (cp_pdu_size params) 480)) sk).

Lemma conversation_steps params conv s s' sv i w more :
  ConnectParams_wf params → nodelay w = Ok tt → serves conv s s' → store sv = s →
  conns sv !! i = Some (Handshaking w {| rx := requests (hello params ++ conv) ++ more; tx := [] |}) →
  nsteps conn_step (S (length conv)) sv
    (with_conn sv i (Dispatching w {| rx := more; tx := replies (hello params ++ conv) |}
                       (Z.min (cp_pdu_size params) 480)) s').
Proof.
  intros Hp Hw Hs Hst Hc. rewrite requests_app, <- (assoc_L (++)) in Hc. rewrite replies_app.
  eapply nsteps_l; [by apply hello_steps|].
  rewrite <- (with_conn_twice sv i (Dispatching w {| rx := requests conv ++ more;
    tx := replies (hello params) |} (Z.min (cp_pdu_size params) 480)) _ (store sv) s').
  eapply serves_steps; [exact Hs|done|by eapply with_conn_lookup].
Qed.

Lemma task_answers_hello params conv s s' :
  ConnectParams_wf params → serves conv s s' → task_answers params (hello params ++ conv) s s'.
Proof.
  intros Hp Hs [|[|k]] Hk; [lia..|]. destruct (serves_take k conv s s' Hs) as (sk & Hs' & Hlast).
  exists sk. split; [cbn; intros; apply Hlast; lia|]. intros sv i w more Hw Hc Hst.
  change (take (S (S k)) (hello params ++ conv)) with (hello params ++ take k conv) in *.
  apply (rtc_subrel conn_step); [by right|]. apply rtc_nsteps. eexists.
  eapply conversation_steps; eauto.
Qed.

(** The client's side: with the answers to all messages the session returns
    [a]; with fewer, it has sent one message more than it has answers for. *)
Definition client_asks {A} (params : ConnectParams) (p : Prog A) (conv : Talk) (a : A) : Prop :=
  session params p {| rx := replies conv; tx := [] |} =
    Some (Ok a, {| rx := []; tx := requests conv |}) ∧
  ∀ k, (k < length conv)%nat → ∃ e t,
    session params p {| rx := replies (take k conv); tx := [] |} = Some (Err e, t) ∧
    tx t = requests (take (S k) conv).

Lemma client_asks_hello {A} params (p : Prog A) conv a r' :
  let c := {| pdu_size := Z.min (cp_pdu_size params) 480 |} in
  ConnectParams_wf params →
  (∀ fut t, run p (piped (replies conv ++ fut) t c 1 false) =
            Some (Ok a, piped fut (t ++ requests conv) c r' false)) →
  (∀ k, (k < length conv)%nat → waits (run p) c 1 conv k) →
  client_asks params p (hello params ++ conv) a.
Proof.
  intros c Hp Hrun Hw. unfold client_asks, session, from_transport. split.
  - rewrite replies_app, requests_app, hello_connect by done.
    specialize (Hrun [] (requests (hello params))). rewrite app_nil_r in Hrun.
    unfold piped, c in Hrun. rewrite Hrun. done.
  - intros k. rewrite length_app. intros Hk. destruct (decide (k < 2)%nat) as [H2|H2].
    + destruct (hello_waits params k Hp H2) as (e & t & E & Ht). exists e, t.
      rewrite !take_app_le by (cbn; lia). by rewrite E.
    + destruct k as [|[|k]]; [lia..|].
      destruct (Hw k ltac:(cbn in Hk; lia) (requests (hello params))) as (e & i & E & Ht).
      exists e, (inner_transport i).
      change (take (S (S k)) (hello params ++ conv)) with (hello params ++ take k conv).
      change (take (S (S (S k))) (hello params ++ conv)) with (hello params ++ take (S k) conv).
      rewrite replies_app, requests_app, hello_connect by done. split; [|done].
      unfold piped, c in E. by rewrite E.
Qed.

(** The conversation of a session that succeeds on the link. *)
Lemma session_conversation {A} params (p : Prog A) s a l :
  ConnectParams_wf params → session params p (dial s) = Some (Ok a, l) →
  ∃ conv, client_asks params p (hello params ++ conv) a ∧ serves conv s (link_store l).
Proof.
  intros Hp. unfold session at 1, from_transport. rewrite connect_link by done.
  set (c := {| pdu_size := _ |}).
  change {| inner_transport := _; connection := c; inner_pdu_ref := 1; connected := true;
            job_start := false |} with (linked c 1 s).
  destruct (run p (linked c 1 s)) as [[r i]|] eqn:E; [|done]. intros [= -> <-].
  destruct (served_run p c 1 s a i E) as (conv & r' & s' & -> & Hs & Hrun & Hw).
  exists conv. split; [by eapply client_asks_hello|done].
Qed.

(** C2: a client session that succeeds against the simulated PLC's link
    succeeds over a byte stream served by a connection task of the server:
    connecting and then running any program of method calls (all methods but
    [compare_blocks]; a program stops at its first error) is a conversation
    in which the client, given the answers to the messages so far, sends the
    next one, and returns the same result after the last; and in which the
    task, from its handshake on and by the accept loop's own steps, answers
    the messages it has been sent, leaving the store the link ends with. *)
Theorem sessions_served {A} params (p : Prog A) s a l :
  ConnectParams_wf params →
  session params p (dial s) = Some (Ok a, l) →
  ∃ conv, client_asks params p conv a ∧ task_answers params conv s (link_store l).
Proof.
  intros Hp Hses. destruct (session_conversation params p s a l Hp Hses) as (conv & Hc & Hs).
  exists (hello params ++ conv). split; [done|]. by apply task_answers_hello.
Qed.

(** A program that writes two bytes of a data block, reads them back and
    returns their sum. *)
Definition sum_prog : Prog Z :=
  Invoke (DbWrite 1 0 [4; 7]) (fun _ =>
  Invoke (DbRead 1 0 2) (fun b => Return (Ok (foldr Z.add 0 b)))).

Lemma sessions_served_witness :
  ∃ conv, client_asks ConnectParams_default sum_prog conv 11 ∧
    ∃ s, task_answers ConnectParams_default conv DataStore_new s.
Proof.
  destruct (session ConnectParams_default sum_prog (dial DataStore_new)) as [[[x|e|] l]|] eqn:E;
    [|exfalso; by vm_compute in E..].
  assert (x = 11) as -> by (vm_compute in E; congruence).
  destruct (sessions_served ConnectParams_default sum_prog DataStore_new 11 l) as (conv & H1 & H2);
    [|exact E|].
  - unfold ConnectParams_wf. cbn. unwidth. lia.
  - exists conv. split; [exact H1|]. exists (link_store l). exact H2.
Defined.

(** ** A connection from accept to close *)

(** With nothing left to send and an end that closes, the task leaves. *)
Lemma eof_turn w o n s :
  closes w = true → conn_waits (Dispatching w {| rx := []; tx := o |} n) = false ∧
  serve_turn w {| rx := []; tx := o |} n s = (Leaving o, s).
Proof. intros Hw. cbn. by rewrite Hw. Qed.

(** Its end: closed, all it had sent, the client counted out and the permit
    back. *)
Definition ended (sv : S7Server) (i : nat) (sent : bytes) (s : StoreInner) : S7Server :=
  with_semaphore (with_conn sv i (Closed sent) (client_disconnected s)) (S (semaphore sv)).

Lemma connection_steps params conv s s' sv i w :
  ConnectParams_wf params → serves conv (client_connected s) s' →
  closes w = true → nodelay w = Ok tt → store sv = s →
  conns sv !! i = Some (Accepted w {| rx := requests (hello params ++ conv); tx := [] |}) →
  nsteps conn_step (5 + length conv) sv (ended sv i (replies (hello params ++ conv)) s').
Proof.
  intros Hp Hs Hcl Hnd Hst Hi. set (talk := hello params ++ conv) in *.
  set (sv1 := with_conn sv i (Handshaking w {| rx := requests talk; tx := [] |}) (client_connected s)).
  replace (5 + length conv)%nat with (1 + (S (length conv) + 3))%nat by lia.
  eapply nsteps_l; [by apply step_connected|]. rewrite Hst. fold sv1.
  eapply nsteps_trans; [apply (conversation_steps params conv (client_connected s) s' sv1 i w []); try done;
                        rewrite app_nil_r; by eapply with_conn_lookup|]. fold talk.
  set (n := Z.min _ _). destruct (eof_turn w (replies talk) n s' Hcl) as [Hw Ht].
  assert (conns (with_conn sv1 i (Dispatching w {| rx := []; tx := replies talk |} n) s') !! i =
          Some (Dispatching w {| rx := []; tx := replies talk |} n)) as Hd.
  { eapply with_conn_lookup. by eapply with_conn_lookup. }
  eapply nsteps_l; [by apply step_dispatch|].
  change (store (with_conn sv1 i (Dispatching w {| rx := []; tx := replies talk |} n) s')) with s'.
  rewrite Ht. cbn [fst snd]. apply lookup_lt_Some in Hi.
  eapply nsteps_l; [apply step_disconnected|eapply nsteps_l; [apply step_release|]].
  1-2: cbn; apply list_lookup_insert_eq; by rewrite !length_insert.
  subst sv1. unfold ended, finish, with_semaphore, with_conn. cbn.
  rewrite !list_insert_insert_eq. constructor.
Qed.

(** While the other connections have settled, the steps are those of one task,
    and there is one at a time. *)
Definition only (sv : S7Server) (i : nat) : Prop :=
  ∀ j c, j ≠ i → conns sv !! j = Some c → conn_settled c = true.

Lemma only_index sv i j c :
  only sv i → conns sv !! j = Some c → conn_settled c = false → j = i.
Proof. intros Ho Hj Hc. destruct (decide (j = i)) as [|Hne]; [done|]. specialize (Ho j c Hne Hj). congruence. Qed.

Lemma waits_unsettled c : is_closed c = false → conn_waits c = false → conn_settled c = false.
Proof. unfold conn_settled. by intros -> ->. Qed.

Lemma only_step sv i sv' : only sv i → conn_step sv sv' → only sv' i.
Proof.
  intros Ho Hs j c Hne Hj. apply (Ho j c Hne).
  destruct Hs as [sv k w p Hk|sv k w p Hk Hw|sv k w p n Hk Hw|sv k sent Hk|sv k sent Hk]; cbn in Hj;
    (assert (k = i) as -> by (eapply only_index; [exact Ho|exact Hk|by apply waits_unsettled]));
    by rewrite list_lookup_insert_ne in Hj.
Qed.

Lemma only_deterministic sv i x y : only sv i → conn_step sv x → conn_step sv y → x = y.
Proof.
  intros Ho Hx Hy.
  assert (∀ k c, conns sv !! k = Some c → is_closed c = false → conn_waits c = false → k = i) as Hix
    by eauto using only_index, waits_unsettled.
  destruct Hx as [sv k w p Hk|sv k w p Hk Hw|sv k w p n Hk Hw|sv k sent Hk|sv k sent Hk];
    destruct Hy as [sv j w' p' Hj|sv j w' p' Hj Hw'|sv j w' p' n' Hj Hw'|sv j sent' Hj|sv j sent' Hj];
    (assert (k = i) as -> by (by eapply Hix)); (assert (j = i) as -> by (by eapply Hix)); congruence.
Qed.

(** Every run of a relation that is deterministic along it is a part of the
    one that ends. *)
Lemma runs_of_one {A} (R : A → A → Prop) (P : A → Prop) m x z :
  (∀ a b, P a → R a b → P b) → (∀ a b c, P a → R a b → R a c → b = c) → P x →
  (∀ b, ¬ R z b) → nsteps R m x z →
  ∀ n y, nsteps R n x y → (n <= m)%nat ∧ nsteps R (m - n) y z.
Proof.
  intros Hp Hdet Hx Hz Hm n y Hn. revert m Hx Hm.
  induction Hn as [x|n x x' y Hxx' _ IH]; intros m Hx Hm; [by rewrite Nat.sub_0_r; split; [lia|]|].
  destruct Hm as [x|m x x'' z Hxx'' Hm]; [by destruct (Hz x')|].
  replace x'' with x' in Hm by eauto. destruct (IH m (Hp _ _ Hx Hxx') Hm). split; [lia|done].
Qed.

(** C14: a connection the server has accepted is served to its end: if the
    session succeeds on the link to a PLC that counts the connection, and the
    client sends the session's messages and then closes, then in a server whose
    other connections are closed or wait for their peers every run of the
    connection tasks is a part of one of three steps more than messages, at
    whose end the client has been sent the answer to every message, which are
    those that give it its result, the task is closed, the client counted out,
    the permit back, and the store the one the link ends with. *)
Theorem session_lifecycle {A} params (p : Prog A) s a l :
  ConnectParams_wf params →
  session params p (dial (client_connected s)) = Some (Ok a, l) →
  ∃ conv, client_asks params p conv a ∧
    ∀ sv i w, store sv = s → closes w = true → nodelay w = Ok tt → only sv i →
    conns sv !! i = Some (Accepted w {| rx := requests conv; tx := [] |}) →
    let fin := ended sv i (replies conv) (link_store l) in
    nsteps conn_step (3 + length conv) sv fin ∧
    ∀ n sv', nsteps conn_step n sv sv' →
      (n <= 3 + length conv)%nat ∧ nsteps conn_step (3 + length conv - n) sv' fin.
Proof.
  intros Hp Hses. destruct (session_conversation params p _ a l Hp Hses) as (conv & Hc & Hs).
  exists (hello params ++ conv). split; [done|]. intros sv i w Hst Hcl Hnd Ho Hi fin.
  assert (nsteps conn_step (3 + length (hello params ++ conv)) sv fin) as Hrun
    by (by apply (connection_steps params conv s _ _ _ w)).
  split; [done|]. apply (runs_of_one _ (fun x => only x i)); try done;
    [intros ? ? ? ?; by eapply only_step|intros ? ? ? ?; by eapply only_deterministic|].
  intros sv' (j & c & Hj & Hcs)%conn_step_index. cbn in Hj.
  destruct (decide (j = i)) as [->|Hne].
  - rewrite list_lookup_insert_eq in Hj by (by eapply lookup_lt_Some). by simplify_eq.
  - rewrite list_lookup_insert_ne in Hj by done. by rewrite (Ho j c Hne Hj) in Hcs.
Qed.

(** A server that holds one connection: a client that runs [sum_prog]. *)
Lemma session_lifecycle_witness :
  ∃ conv, client_asks ConnectParams_default sum_prog conv 11 ∧
    ∃ sv, conns sv = [Accepted closing_peer {| rx := requests conv; tx := [] |}] ∧
      (∃ sv', nsteps conn_step (3 + length conv) sv sv' ∧ conns sv' = [Closed (replies conv)]) ∧
      ∀ n sv', nsteps conn_step n sv sv' → (n <= 3 + length conv)%nat.
Proof.
  destruct (session ConnectParams_default sum_prog (dial (client_connected DataStore_new)))
    as [[[x|e|] l]|] eqn:E; [|exfalso; by vm_compute in E..].
  assert (x = 11) as -> by (vm_compute in E; congruence).
  destruct (session_lifecycle ConnectParams_default sum_prog DataStore_new 11 l)
    as (conv & H1 & H2); [|exact E|].
  - unfold ConnectParams_wf. cbn. unwidth. lia.
  - exists conv. split; [exact H1|].
    exists {| semaphore := 0; acceptor := Acquiring; store := DataStore_new;
              conns := [Accepted closing_peer {| rx := requests conv; tx := [] |}] |}.
    split; [reflexivity|].
    destruct (H2 {| semaphore := 0; acceptor := Acquiring; store := DataStore_new;
              conns := [Accepted closing_peer {| rx := requests conv; tx := [] |}] |}
              0%nat closing_peer) as [H3 H4]; [reflexivity..| |reflexivity|].
    + intros [|[|j]] c Hne Hj; [destruct (Hne eq_refl)|discriminate Hj..].
    + split; [eexists; split; [exact H3|reflexivity]|]. intros n sv' Hn. exact (proj1 (H4 n sv' Hn)).
Defined.
