(* ===== verification/Examples.v ===== *)
(** * The example programs (snap7-cli, bin/)

    [snap7-test-server] and [snap7-sensor-server] serve a store they fill;
    the sensor server's own thread keeps writing new values while clients
    read.  [gateway_demo] runs the same sensors behind the OPC UA gateway, and
    [opcua_subscriber] prints the notifications of a subscription.  Parameters:
    32-bit float addition, comparison and decimal text on bit patterns, the
    deltas drawn by the random generator, the debug texts of OPC UA values, and
    what the OPC UA client library answers. *)

From stdpp Require Import gmap.
From S2P Require Import Prelude Wire Io S7Header ReadVar WriteVar Store Dispatch Concurrent.
From S2P Require Import Connection Client Loopback Tag Registry Text Cli BatchReader AcceptLoop Watch.
Local Open Scope Z_scope.

(** [std::env::args().nth(n).and_then(|s| s.parse().ok()).unwrap_or(d)]. *)
Definition number_arg (max d : Z) (n : nat) (args : list text) : Z :=
  default d (args !! n ≫= parse_uint max).

(** ** The test server *)
Definition server_port : list text → Z := number_arg 65535 10200 1.
Definition test_store : StoreInner :=
  write_bytes 3 0 [0x01; 0x02; 0x03; 0x04] (write_bytes 1 0 [0xDE; 0xAD; 0xBE; 0xEF] DataStore_new).

Definition test_server : S7Server := S7Server_serve {| max_connections := 8 |} test_store.

(** ** The sensor server *)
Definition update_interval_ms : list text → Z := number_arg (2 ^ 64 - 1) 1000 2.
Record Sensor := { sensor_db : Z; initial : Z; lowest : Z; highest : Z }.

(** 25.0 in 20.0..30.0, 60.0 in 40.0..80.0 and 101.325 in 100.0..105.0. *)
Definition temperature : Sensor :=
  {| sensor_db := 1; initial := 0x41C80000; lowest := 0x41A00000; highest := 0x41F00000 |}.
Definition humidity : Sensor :=
  {| sensor_db := 2; initial := 0x42700000; lowest := 0x42200000; highest := 0x42A00000 |}.
Definition pressure : Sensor :=
  {| sensor_db := 3; initial := 0x42CAA666; lowest := 0x42C80000; highest := 0x42D20000 |}.
Definition sensors : list Sensor := [temperature; humidity; pressure].

(** [store.write_bytes(db, 0, &value.to_be_bytes())] as a call. *)
Definition sensor_write (s : Sensor) (value : Z) : StoreOp :=
  OpWrite DATA_BLOCK (sensor_db s) 0 (be32 value).
Definition sensor_store : StoreInner :=
  (run_ops ((fun s => sensor_write s (initial s)) <$> sensors) DataStore_new).2.

Definition sensor_server : S7Server := S7Server_serve {| max_connections := 8 |} sensor_store.

Section Sensors.
Context (f32_add : Z → Z → Z) (f32_lt : Z → Z → bool).

(** [f32::clamp]. *)
Definition clamp (x lo hi : Z) : Z :=
  let x := if f32_lt x lo then lo else x in
  if f32_lt hi x then hi else x.

(** A turn of the update loop: every value moves by its delta and is written. *)
Definition sensor_next (s : Sensor) (value delta : Z) : Z :=
  clamp (f32_add value delta) (lowest s) (highest s).
Fixpoint sensor_calls (t h p : Z) (deltas : list (Z * Z * Z)) : list StoreOp :=
  match deltas with
  | [] => []
  | (dt, dh, dp) :: rest =>
      let t := sensor_next temperature t dt in
      let h := sensor_next humidity h dh in
      let p := sensor_next pressure p dp in
      sensor_write temperature t :: sensor_write humidity h :: sensor_write pressure p ::
      sensor_calls t h p rest
  end.
(** The thread of the update loop, for as many turns as there are deltas. *)
Definition sensor_task (deltas : list (Z * Z * Z)) : Task :=
  At (Owner (sensor_calls (initial temperature) (initial humidity) (initial pressure) deltas)).
End Sensors.

(** What the sensor server prints: at its start, and after every update.  The
    time of day comes from the host's clock, [secs] whole seconds after the
    epoch; [show] is a value with two decimals. *)
Definition sensor_banner (port interval : Z) : list text :=
  [str_bytes "snap7-sensor-server Starting...";
   str_bytes "  Port: " ++ format_dec 0 port;
   str_bytes "  Update interval: " ++ format_dec 0 interval ++ str_bytes "ms";
   str_bytes "  Datablock:";
   str_bytes "    DB1: Temperature (REAL, offset 0)";
   str_bytes "    DB2: Humidity (REAL, offset 0)";
   str_bytes "    DB3: Pressure (REAL, offset 0)";
   []].
Definition sensor_time (secs : Z) : text :=
  format_dec 2 (secs mod 86400 / 3600) ++ str_bytes ":" ++ format_dec 2 (secs mod 3600 / 60) ++
  str_bytes ":" ++ format_dec 2 (secs mod 60).
Definition sensor_line (show : Z → text) (secs t h p : Z) : text :=
  str_bytes "[" ++ sensor_time secs ++ str_bytes "] Update: Temperature=" ++ show t ++
  [0xC2; 0xB0] ++ str_bytes "C, Humidity=" ++ show h ++ str_bytes "%, Pressure=" ++ show p ++
  str_bytes "kPa".

(** ** The demo gateway *)
(** Its update thread draws smaller deltas and prints nothing; otherwise it is
    the sensor server's. *)
Definition demo_update_task (f32_add : Z → Z → Z) (f32_lt : Z → Z → bool)
    (deltas : list (Z * Z * Z)) : Task := sensor_task f32_add f32_lt deltas.
Definition demo_plc_port : list text → Z := number_arg 65535 10200 1.
Definition demo_opc_port : list text → Z := number_arg 65535 4840 2.
Definition demo_banner (plc_port opc_port : Z) : list text :=
  [str_bytes "=== snap7 OPC-UA Gateway Demo ===";
   str_bytes "  PLC simulator : 0.0.0.0:" ++ format_dec 0 plc_port ++ str_bytes "  (S7 protocol)";
   str_bytes "  OPC-UA server : opc.tcp://0.0.0.0:" ++ format_dec 0 opc_port ++ str_bytes "/gateway";
   [];
   str_bytes "  Subscribe to these nodes (ns=2):";
   str_bytes "    ns=2;s=Temperature    REAL  DB1 @ byte 0";
   str_bytes "    ns=2;s=Humidity       REAL  DB2 @ byte 0";
   str_bytes "    ns=2;s=Pressure       REAL  DB3 @ byte 0";
   [];
   str_bytes "  Run the subscriber in another terminal:";
   str_bytes "    cargo run --features opcua --bin opcua_subscriber";
   []].
Definition demo_plc_server : S7Server := S7Server_serve {| max_connections := 4 |} sensor_store.
Definition demo_tags : list TagSpec :=
  [ {| spec_tag := str_bytes "DB1,REAL0"; spec_name := str_bytes "Temperature"; spec_writable := false |};
    {| spec_tag := str_bytes "DB2,REAL0"; spec_name := str_bytes "Humidity"; spec_writable := false |};
    {| spec_tag := str_bytes "DB3,REAL0"; spec_name := str_bytes "Pressure"; spec_writable := false |} ].

(** ** The subscriber *)
Section Subscriber.
Context {Value Status : Type} (value_debug : Value → text) (status_debug : Status → text).

Definition subscriber_name (node_name : text) : text :=
  trim_end_matches 34 (default node_name (split_str (str_bytes "s=") node_name !! 1%nat)).
Definition notification_line (node_name : text) (value : option Value) (status : option Status) : text :=
  str_bytes "[notification] " ++ pad_right 15 (subscriber_name node_name) ++ str_bytes " = " ++
  match value with
  | Some v => value_debug v
  | None =>
      str_bytes "<no value, status=" ++
      match status with Some s => status_debug s | None => str_bytes "unknown" end ++ str_bytes ">"
  end.

(** What the OPC UA client gives [main]: the results of building the client,
    connecting, subscribing and monitoring (an item's id, or the status it
    failed with), the notifications until the end, and which end it is. *)
Record SubscriberSession := {
  sub_client : res text unit;
  sub_connect : res text unit;
  sub_create : res text Z;
  sub_monitor : res text (list (Z + Status));
  sub_notified : list (text * option Value * option Status);
  sub_closed : bool;
}.
Definition subscriber_endpoint (args : list text) : text :=
  default (str_bytes "opc.tcp://127.0.0.1:4840/gateway") (args !! 1%nat).
Definition subscriber_nodes : list text :=
  [str_bytes "Temperature"; str_bytes "Humidity"; str_bytes "Pressure"].
(** A failed item is reported on the error output. *)
Definition monitored_lines (results : list (Z + Status)) : list text :=
  zip subscriber_nodes results ≫= (fun '(name, r) =>
    match r with
    | inl id => [str_bytes "  " ++ [0xE2; 0x9C; 0x93] ++ str_bytes " " ++ name ++
                 str_bytes " monitored (id=" ++ format_dec 0 id ++ str_bytes ")"]
    | inr _ => []
    end).

(** [main]: how it ends, the lines [main] prints and the lines the callback
    prints, which may come anywhere after the subscription is created. *)
Definition subscriber_main (args : list text) (ses : SubscriberSession)
    : res unit unit * list text * list text :=
  let out := [str_bytes "=== OPC-UA Subscription Demo ===";
              str_bytes "Connecting to: " ++ subscriber_endpoint args; []] in
  match sub_client ses, sub_connect ses with
  | Ok _, Ok _ =>
      let out := out ++ [str_bytes "Waiting for session..."; str_bytes "Connected!"; []] in
      match sub_create ses with
      | Ok sub_id =>
          let out := out ++ [str_bytes "Subscription " ++ format_dec 0 sub_id ++
                             str_bytes " created. Monitoring:"] ++
                     ((fun name => str_bytes "  ns=2;s=" ++ name) <$> subscriber_nodes) ++ [[]] in
          match sub_monitor ses with
          | Ok results =>
              (Ok tt,
               out ++ monitored_lines results ++
               [[]; str_bytes "Listening for changes (Ctrl-C to stop)..."; []] ++
               (if sub_closed ses then [str_bytes "Session closed by server."]
                else [[]; str_bytes "Stopping."]),
               (fun '(node, v, st) => notification_line node v st) <$> sub_notified ses)
          | _ => (Panic, out, [])
          end
      | _ => (Panic, out, [])
      end
  | _, _ => (Panic, out, [])
  end.
End Subscriber.

(** ** Sensor values are read whole *)
Definition sensor_item (s : Sensor) : AddressItem :=
  {| area := DataBlock; db_number := sensor_db s; start := 0; bit_offset := 0; item_length := 4;
     transport := Real |}.

Section SensorProofs.
Context (f32_add : Z → Z → Z) (f32_lt : Z → Z → bool).

(** What the sensor thread calls: writes of four bytes to a sensor's block. *)
Lemma sensor_calls_spec t h p deltas op :
  op ∈ sensor_calls f32_add f32_lt t h p deltas →
  ∃ s v, s ∈ sensors ∧ op = sensor_write s v.
Proof.
  revert t h p. induction deltas as [|[[dt dh] dp] deltas IH]; intros t h p; cbn; [by intros ?%elem_of_nil|].
  intros [-> |[-> |[-> |Hin]%elem_of_cons]%elem_of_cons]%elem_of_cons; [| | |by eapply IH];
    eexists _, _; (split; [|reflexivity]); unfold sensors; rewrite !elem_of_cons; tauto.
Qed.

Lemma sensor_store_holds s :
  s ∈ sensors → (run_op (read_op (sensor_item s)) sensor_store).1 = be32 (initial s).
Proof.
  unfold sensors. rewrite !elem_of_cons, elem_of_nil. intros H; destruct_or!; subst; [..|done];
    vm_compute; reflexivity.
Qed.

Lemma sensor_write_whole s s' v :
  s ∈ sensors → s' ∈ sensors → whole_for (sensor_item s) (sensor_write s' v).
Proof.
  intros Hs Hs'. split; [unfold sensor_write, op_in_range; rewrite blen_be32; lia|].
  unfold sensor_write. destruct (decide (sensor_db s' = sensor_db s)) as [E|E].
  - right. by rewrite E.
  - left. cbn. rewrite (bool_decide_eq_false_2 (sensor_db s' = _)) by done. by rewrite andb_false_r.
Qed.

(** The course of a sensor: each value from the one before and its own delta. *)
Fixpoint sensor_series (s : Sensor) (v : Z) (ds : list Z) : list Z :=
  match ds with
  | [] => []
  | d :: ds => let v := sensor_next f32_add f32_lt s v d in v :: sensor_series s v ds
  end.
Definition sensor_deltas (s : Sensor) (deltas : list (Z * Z * Z)) : list Z :=
  (fun '(dt, dh, dp) =>
     if sensor_db s =? 1 then dt else if sensor_db s =? 2 then dh else dp) <$> deltas.

(** What some calls write to the block of a sensor. *)
Definition writes_to (s : Sensor) (calls : list StoreOp) : list bytes :=
  omap (fun op => match op with
                  | OpWrite _ d _ bs => if bool_decide (d = sensor_db s) then Some bs else None
                  | _ => None
                  end) calls.

Lemma sensor_calls_series s t h p deltas :
  s ∈ sensors →
  writes_to s (sensor_calls f32_add f32_lt t h p deltas) =
  be32 <$> sensor_series s (if sensor_db s =? 1 then t else if sensor_db s =? 2 then h else p)
             (sensor_deltas s deltas).
Proof.
  intros Hs. revert t h p. induction deltas as [|[[dt dh] dp] deltas IH]; intros t h p; [done|].
  unfold writes_to in *. cbn [sensor_calls]. unfold sensors in Hs. rewrite !elem_of_cons, elem_of_nil in Hs.
  destruct Hs as [-> |[-> |[-> |[]]]]; cbn in *; by rewrite IH.
Qed.

Lemma sensor_initial s :
  s ∈ sensors →
  (if sensor_db s =? 1 then initial temperature
   else if sensor_db s =? 2 then initial humidity else initial pressure) = initial s.
Proof.
  unfold sensors. rewrite !elem_of_cons, elem_of_nil. intros [-> |[-> |[-> |[]]]]; reflexivity.
Qed.

(** The last of some writes, among writes and reads of sensors. *)
Lemma latest_writes s bs cs :
  Forall (fun x => (x.1.1 = 0%nat ∧ ∃ s' v, s' ∈ sensors ∧ x.1.2 = sensor_write s' v) ∨
                   (x.1.1 ≠ 0%nat ∧ ∃ it, x.1.2 = read_op it)) cs →
  latest (sensor_item s) bs cs =
  default bs (last (writes_to s (ops_of (filter (fun x => x.1.1 = 0%nat) cs)))).
Proof.
  induction cs as [|[[i op] o] cs IH] using rev_ind; intros Hcs; [done|].
  apply Forall_app in Hcs as [Hcs Hc]. rewrite Forall_singleton in Hc. cbn [fst snd] in Hc.
  unfold latest, writes_to, ops_of in *. rewrite foldl_app, filter_app, fmap_app, omap_app, IH by done.
  destruct Hc as [[-> (s' & v & Hs' & ->)]|[Hi [it ->]]].
  - rewrite filter_cons_True by done. unfold sensor_write. cbn -[be32 disturbs]. unfold disturbs.
    cbn [sensor_item area db_number start item_length]. rewrite blen_be32.
    destruct (decide (sensor_db s' = sensor_db s)) as [Hd|Hd].
    + rewrite !(bool_decide_eq_true_2 (sensor_db s' = _)) by done. by rewrite last_snoc.
    + rewrite !(bool_decide_eq_false_2 (sensor_db s' = _)) by done. by rewrite andb_false_r, app_nil_r.
  - rewrite filter_cons_False by done. cbn. by rewrite app_nil_r.
Qed.

(** The last of the first values of a course. *)
Lemma last_prefix_series (init : Z) (W R : list bytes) (vs : list Z) :
  W ++ R = be32 <$> vs →
  ∃ v, (init :: vs) !! length W = Some v ∧ default (be32 init) (last W) = be32 v.
Proof.
  intros E. destruct W as [|w W _] using rev_ind; [by exists init|].
  rewrite last_snoc, length_app, Nat.add_1_r. cbn.
  assert ((be32 <$> vs) !! length W = Some w) as Hw.
  { rewrite <- E, <- (assoc_L (++)). cbn [app]. by rewrite list_lookup_middle. }
  apply list_lookup_fmap_Some in Hw as (v & -> & Hv). by exists v.
Qed.

(** C37: a client of the sensor server never sees a torn or a stale value: while
    the server's own thread keeps writing new values and any number of clients
    read, in every interleaving of their critical sections, a read of the four
    bytes of a sensor after [k] updates of that sensor returns exactly the
    bytes of the [k]-th value of the sensor's course, which begins with its
    first value and goes on with a clamped step per update. *)
Theorem sensor_reads_whole deltas readers tr c' pre j s out post :
  exec {| tasks := sensor_task f32_add f32_lt deltas :: readers; shared := sensor_store |} tr c' →
  Begin 0 ∉ tr →
  (∀ i op o, (i, op, o) ∈ commits tr → i ≠ 0%nat → ∃ it, op = read_op it ∧ item_in_range it) →
  s ∈ sensors → commits tr = pre ++ (j, read_op (sensor_item s), out) :: post →
  let k := length (writes_to s (ops_of (filter (fun x => x.1.1 = 0%nat) pre))) in
  ∃ v, (initial s :: sensor_series s (initial s) (sensor_deltas s deltas)) !! k = Some v ∧ out = be32 v.
Proof.
  intros He Hb Hr Hs E k.
  destruct (exec_program 0 _ _ _ _ He Hb eq_refl) as (t & _ & Hp & _).
  cbn [work_of program sensor_task] in Hp.
  assert (Forall (fun x => (x.1.1 = 0%nat ∧ ∃ s' v, s' ∈ sensors ∧ x.1.2 = sensor_write s' v) ∨
    (x.1.1 ≠ 0%nat ∧ ∃ it, x.1.2 = read_op it ∧ item_in_range it)) (commits tr)) as Hall.
  { apply Forall_forall. intros [[i op] o] Hc. destruct (decide (i = 0%nat)) as [->|Hi].
    - left. split; [done|]. eapply sensor_calls_spec. rewrite Hp. apply elem_of_app. left.
      apply list_elem_of_fmap. exists (0%nat, op, o). split; [done|]. by apply list_elem_of_filter.
    - right. split; [done|]. by eapply Hr. }
  assert (out = default (be32 (initial s)) (last (writes_to s (ops_of (filter (fun x => x.1.1 = 0%nat) pre)))))
    as ->.
  { rewrite (exec_latest (sensor_item s) _ _ _ He) with (4 := E); [|split_and!; cbn; unfold U32_MAX; lia|done|].
    - cbn [shared]. rewrite sensor_store_holds by done. apply latest_writes.
      rewrite E in Hall. apply Forall_app in Hall as [Hall _].
      eapply Forall_impl; [exact Hall|]. cbn. naive_solver.
    - eapply Forall_impl; [exact Hall|]. intros [[i op] o]. cbn.
      intros [(_ & s' & v & Hs' & ->)|(_ & it & -> & Hit)]; [by apply sensor_write_whole|by split]. }
  eapply last_prefix_series. rewrite <- (sensor_initial s Hs), <- sensor_calls_series, Hp by done.
  unfold commits_by. rewrite E, filter_app. unfold ops_of, writes_to.
  by rewrite fmap_app, <- (assoc_L (++)), omap_app.
Qed.
End SensorProofs.

(** A reader between two updates of the temperature. *)
Lemma sensor_reads_whole_witness :
  let add (_ d : Z) := d in
  let c := {| tasks := [sensor_task add Z.ltb [(0x41C80001, 0, 0)];
                        At (Reads [sensor_item temperature] [])]; shared := sensor_store |} in
  commits (schedule [0; 1; 0; 1; 0; 1]%nat c).1 =
    [(0%nat, sensor_write temperature 0x41C80001, [])] ++
    [(1%nat, read_op (sensor_item temperature), [0x41; 0xC8; 0x00; 0x01])] ∧
  ∃ v, [initial temperature; 0x41C80001] !! 1%nat = Some v ∧ [0x41; 0xC8; 0x00; 0x01] = be32 v.
Proof.
  intros add c.
  assert (commits (schedule [0; 1; 0; 1; 0; 1]%nat c).1 =
    [(0%nat, sensor_write temperature 0x41C80001, [])] ++
    [(1%nat, read_op (sensor_item temperature), [0x41; 0xC8; 0x00; 0x01])]) as E
    by (vm_compute; reflexivity).
  split; [exact E|].
  refine (sensor_reads_whole add Z.ltb [(0x41C80001, 0, 0)] _ _ _ _ 1 temperature _ []
            (schedule_exec [0; 1; 0; 1; 0; 1]%nat c) _ _ _ E).
  - not_begun.
  - rewrite E. intros i op o [[= -> -> ->]|[[= -> -> ->]|[]%elem_of_nil]%elem_of_cons]%elem_of_cons Hi;
      [done|]. exists (sensor_item temperature). split; [done|].
    unfold item_in_range, U32_MAX. cbn. lia.
  - left.
Defined.

(** ** The other programs *)

(** A client of the test server reads the bytes its comments promise. *)
Theorem test_server_serves c r :
  (S7Client_db_read 1 0 4 (linked c r test_store)).1 = Ok [0xDE; 0xAD; 0xBE; 0xEF] ∧
  (S7Client_db_read 3 0 4 (linked c r test_store)).1 = Ok [0x01; 0x02; 0x03; 0x04].
Proof.
  assert (∀ db, u16 db → (S7Client_db_read db 0 4 (linked c r test_store)).1 =
                         Ok (spec_read 132 db 0 4 (mem_of test_store))) as H.
  { intros db Hdb. destruct (read_one_linked "db_read" (db_item db 0 4) c r test_store) as (s' & _ & E).
    - apply db_item_addressable; [done|unwidth; lia..].
    - cbn. lia.
    - unfold S7Client_db_read. unfold db_item in E. by rewrite E. }
  rewrite !H by (unwidth; lia). vm_compute. done.
Qed.

(** The tags of the demo gateway address the four bytes of the sensors. *)
Theorem demo_tags_are_sensors upper_other :
  (fun t => parse_tag upper_other (spec_tag t)) <$> demo_tags =
  (fun s => Ok (mk_tag DataBlock (sensor_db s) 0 0 Real)) <$> sensors.
Proof. reflexivity. Qed.

(** The subscriber does not print which node changed: the line does not depend
    on the name of the node, it shows "2;" for every node of namespace 2. *)
Theorem subscriber_name_lost {Value Status} (value_debug : Value → text)
    (status_debug : Status → text) name value status :
  notification_line value_debug status_debug (node_text name) value status =
  notification_line value_debug status_debug (str_bytes "2;") value status.
Proof. reflexivity. Qed.

(** The clock in the sensor server's lines is the time of day of the watch
    command's timestamps. *)
Theorem sensor_time_is_utc secs :
  0 <= secs → ∃ date, iso8601_now secs = date ++ str_bytes "T" ++ sensor_time secs ++ str_bytes "Z".
Proof.
  intros Hs. destruct (seconds_to_ymd_hms secs) as [[[[[y mo] d] h] mi] sec] eqn:E.
  exists (format_dec 4 y ++ str_bytes "-" ++ format_dec 2 mo ++ str_bytes "-" ++ format_dec 2 d).
  unfold iso8601_now. rewrite E. unfold seconds_to_ymd_hms in E. cbv zeta in E.
  injection E as _ _ _ Hh Hm Hsec. unfold sensor_time.
  assert (secs mod 86400 / 3600 = h) as -> by (subst h; clear; Z.to_euclidean_division_equations; lia).
  assert (secs mod 3600 / 60 = mi) as -> by (subst mi; clear; Z.to_euclidean_division_equations; lia).
  by rewrite Hsec, <- !(assoc_L (++)).
Qed.
