(* ===== verification/Bench.v ===== *)
(** * The benchmarks (snap7-bench)

    What a benchmark iteration does on the client, for every size measured,
    and the server and client of [spawn_server_and_client].  The benchmark
    harness decides how often an iteration runs; what opening the socket gives
    is an argument, and a socket address is the port on the local host. *)

From S2P Require Import Prelude Wire Io Store Dispatch Connection Tag Text Client Loopback Udp Handle.
From S2P Require Import AcceptLoop.
Local Open Scope Z_scope.

Section Bench.
Context {T : Type} `{Transport T}.

(** [expect] and [unwrap]. *)
Definition unwrap {E A} (r : res E A) : res E A := match r with Err _ => Panic | _ => r end.
Definition unwrap_io {A} (m : IO (Inner T) Client.Error A) : IO (Inner T) Client.Error A := fun i =>
  let '(r, i) := m i in (unwrap r, i).

Definition bench_params : Params :=
  {| connect_params := {| cp_rack := 0; cp_slot := 1; cp_pdu_size := cp_pdu_size ConnectParams_default |};
     connect_timeout := connect_timeout Params_default;
     request_timeout := request_timeout Params_default |}.

(** [connect_external]; [var] is the environment variable SNAP7_BENCH_PORT. *)
Definition connect_external (var : option text) (outcome : TcpConnect T)
  : res Client.Error (S7Client T Z) :=
  match var ≫= parse_uint 65535 with
  | Some port => unwrap (S7Client_connect port bench_params outcome)
  | None => Panic
  end.

(** [spawn_server_and_client]: the store, the server, and the client on it. *)
Definition bench_store : StoreInner := write_bytes 1 0 [1; 2; 3; 4; 5; 6; 7; 8] DataStore_new.
Definition bench_server : S7Server := S7Server_serve {| max_connections := 32 |} bench_store.
Definition spawn_client (port : Z) (outcome : TcpConnect T) : res Client.Error (S7Client T Z) :=
  unwrap (S7Client_connect port bench_params outcome).

(** One iteration of each benchmark. *)
Definition bench_sizes : list Z := [1; 4; 8; 64; 240].
Definition bench_db_read (size : Z) : IO (Inner T) Client.Error bytes :=
  unwrap_io (S7Client_db_read 1 0 size).
Definition bench_db_write (size : Z) : IO (Inner T) Client.Error unit :=
  unwrap_io (S7Client_db_write 2 0 (replicate (Z.to_nat size) 0xAB)).
Definition bench_roundtrip : IO (Inner T) Client.Error bytes :=
  let* _ := unwrap_io (S7Client_db_write 3 0 (replicate 8 0xDE)) in
  unwrap_io (S7Client_db_read 3 0 8).

(** [n] iterations. *)
Fixpoint iterate {A} (n : nat) (m : IO (Inner T) Client.Error A) : IO (Inner T) Client.Error (list A) :=
  match n with
  | O => io_ret []
  | S n => let* v := m in let* vs := iterate n m in io_ret (v :: vs)
  end.

(** A benchmark function: connects, and lets the harness run the iterations of
    each size, [iters size] of them. *)
Fixpoint over_sizes {A} (iters : Z → nat) (m : Z → IO (Inner T) Client.Error A) (sizes : list Z)
    : IO (Inner T) Client.Error (list (list A)) :=
  match sizes with
  | [] => io_ret []
  | size :: sizes =>
      let* vs := iterate (iters size) (m size) in
      let* rest := over_sizes iters m sizes in
      io_ret (vs :: rest)
  end.
Definition bench_run {A} (var : option text) (outcome : TcpConnect T)
    (m : IO (Inner T) Client.Error A) : res Client.Error A :=
  match connect_external var outcome with
  | Ok client => (m (inner client)).1
  | Err e => Err e
  | Panic => Panic
  end.
Definition bench_db_read_group (iters : Z → nat) var outcome : res Client.Error (list (list bytes)) :=
  bench_run var outcome (over_sizes iters bench_db_read bench_sizes).
Definition bench_db_write_group (iters : Z → nat) var outcome : res Client.Error (list (list unit)) :=
  bench_run var outcome (over_sizes iters bench_db_write bench_sizes).
Definition bench_roundtrip_group (iters : nat) var outcome : res Client.Error (list bytes) :=
  bench_run var outcome (iterate iters bench_roundtrip).
(** The same on a runtime of one thread. *)
Definition bench_db_read_sync : (Z → nat) → _ → _ → res Client.Error (list (list bytes)) :=
  bench_db_read_group.
Definition bench_db_write_sync : (Z → nat) → _ → _ → res Client.Error (list (list unit)) :=
  bench_db_write_group.
End Bench.

(** ** Correctness *)

(** The client that the set-up of a benchmark ends with. *)
Lemma spawn_client_dial port s :
  ∃ client, spawn_client port (ConnectStream (dial s) (Ok tt)) = Ok client ∧
            inner client = linked {| pdu_size := 480 |} 1 s.
Proof.
  unfold spawn_client, S7Client_connect, S7Client_from_transport, from_transport.
  cbn [TcpTransport_connect res_map_err res_bind connect_params bench_params].
  rewrite connect_link; [|split_and!; cbn; unwidth; lia]. by eexists.
Qed.

(** Iterations that always succeed, on a client connected to a simulated PLC
    whose store keeps [P]. *)
Lemma iterate_linked {A} (P : StoreInner → Prop) (v : A) m c :
  (∀ r s, P s → ∃ r' s', m (linked c r s) = (Ok v, linked c r' s') ∧ P s') →
  ∀ n r s, P s → ∃ r' s', iterate n m (linked c r s) = (Ok (replicate n v), linked c r' s') ∧ P s'.
Proof.
  intros Hm n. induction n as [|n IH]; intros r s HP; [by exists r, s|].
  destruct (Hm r s HP) as (r1 & s1 & E1 & H1). destruct (IH r1 s1 H1) as (r2 & s2 & E2 & H2).
  exists r2, s2. split; [|done]. cbn [iterate replicate].
  by rewrite (io_bind_ok _ _ _ _ _ E1), (io_bind_ok _ _ _ _ _ E2).
Qed.

(** The same when an iteration establishes more than it needs. *)
Lemma iterate_establishes {A} (P Q : StoreInner → Prop) (v : A) m c n r s :
  (∀ s', Q s' → P s') →
  (∀ r s, P s → ∃ r' s', m (linked c r s) = (Ok v, linked c r' s') ∧ Q s') →
  P s → ∃ r' s', iterate (S n) m (linked c r s) = (Ok (replicate (S n) v), linked c r' s') ∧ Q s'.
Proof.
  intros HQP Hm HP. destruct (Hm r s HP) as (r1 & s1 & E1 & H1).
  destruct (iterate_linked Q v m c ltac:(eauto) n r1 s1 H1) as (r2 & s2 & E2 & H2).
  exists r2, s2. split; [|done]. cbn [iterate replicate].
  by rewrite (io_bind_ok _ _ _ _ _ E1), (io_bind_ok _ _ _ _ _ E2).
Qed.

Definition unlocked (s : StoreInner) : Prop := is_area_locked 0x84 s = false.

Definition holds (db : Z) (d : bytes) (s : StoreInner) : Prop :=
  spec_read 0x84 db 0 (blen d) (mem_of s) = d ∧ unlocked s.

Lemma bench_read_step db size v c r s :
  u16 db → 0 <= size < 8192 → spec_read 0x84 db 0 size (mem_of s) = v →
  ∃ r' s', unwrap_io (S7Client_db_read db 0 size) (linked c r s) = (Ok v, linked c r' s') ∧
           same_data s s'.
Proof.
  intros Hdb Hsize <-. destruct (db_read_linked db 0 size c r s) as (s' & E & Hd); [done|lia|done|].
  exists (as_u16 (r + 1)), s'. split; [|done]. unfold unwrap_io. by rewrite E.
Qed.
Lemma bench_write_step db d c r s :
  u16 db → blen d < 8192 → unlocked s →
  ∃ r' s', unwrap_io (S7Client_db_write db 0 d) (linked c r s) = (Ok tt, linked c r' s') ∧
           holds db d s'.
Proof.
  intros Hdb Hd Hs. destruct (db_write_linked db 0 d c r s) as (s' & E & Hm & Hk); [done|lia|done..|].
  exists (as_u16 (r + 1)), s'. split; [unfold unwrap_io; by rewrite E|].
  split; [rewrite Hm; apply spec_read_write|unfold unlocked; by rewrite Hk].
Qed.

(** The sizes measured fit a request. *)
Lemma bench_size_small size : size ∈ bench_sizes → 0 <= size <= 240.
Proof. unfold bench_sizes. rewrite !elem_of_cons, elem_of_nil. lia. Qed.

(** The iterations of one size, on any link whose data blocks are unlocked. *)
Lemma bench_reads_linked n size s0 c r s :
  0 <= size <= 240 → same_data s0 s →
  ∃ r' s', iterate n (bench_db_read size) (linked c r s) =
    (Ok (replicate n (spec_read 0x84 1 0 size (mem_of s0))), linked c r' s') ∧ same_data s0 s'.
Proof.
  intros Hsize. revert n r s. apply iterate_linked. intros r s Hd. pose proof Hd as (E1 & _).
  destruct (bench_read_step 1 size (spec_read 0x84 1 0 size (mem_of s0)) c r s)
    as (r' & s' & E & Hd'); [unwidth; lia|lia|by rewrite E1|].
  exists r', s'. split; [done|]. by trans s.
Qed.
Lemma bench_writes_linked n size c r s :
  0 <= size <= 240 → unlocked s →
  ∃ r' s', iterate n (bench_db_write size) (linked c r s) =
    (Ok (replicate n tt), linked c r' s') ∧ unlocked s'.
Proof.
  intros Hsize. revert n r s. apply iterate_linked. intros r s Hs.
  destruct (bench_write_step 2 (replicate (Z.to_nat size) 0xAB) c r s) as (r' & s' & E & _ & Hs');
    [unwidth; lia|unfold blen; rewrite length_replicate; lia|done|].
  by exists r', s'.
Qed.
Lemma over_sizes_linked {A} (P : StoreInner → Prop) iters (m : Z → IO (Inner Link) Client.Error A) v c sizes :
  (∀ n size r s, size ∈ sizes → P s →
     ∃ r' s', iterate n (m size) (linked c r s) = (Ok (replicate n (v size)), linked c r' s') ∧ P s') →
  ∀ r s, P s → (over_sizes iters m sizes (linked c r s)).1 =
               Ok ((fun size => replicate (iters size) (v size)) <$> sizes).
Proof.
  intros Hm. induction sizes as [|size sizes IH]; intros r s HP; [done|].
  destruct (Hm (iters size) size r s) as (r' & s' & E & HP'); [by left|done|].
  cbn [over_sizes fmap list_fmap]. rewrite (io_bind_ok _ _ _ _ _ E).
  assert ((over_sizes iters m sizes (linked c r' s')).1 =
          Ok ((fun size => replicate (iters size) (v size)) <$> sizes)) as Hrest.
  { apply IH; [|done]. intros n sz r2 s2 Hin. apply Hm. by right. }
  unfold io_bind. destruct (over_sizes _ _ _ _) as [res i]. cbn in Hrest. by subst.
Qed.

(** The benchmark programs run to their end: with the port of a simulated PLC
    in the environment, whatever number of iterations the harness asks for,
    each read returns the bytes of data block 1 for the size measured, every
    write succeeds, and the same on a runtime of one thread. *)
Theorem bench_groups_complete var port s iters :
  var ≫= parse_uint 65535 = Some port → is_area_locked 0x84 s = false →
  let peer := ConnectStream (dial s) (Ok tt) in
  bench_db_read_group iters var peer =
    Ok ((fun size => replicate (iters size) (spec_read 0x84 1 0 size (mem_of s))) <$> bench_sizes) ∧
  bench_db_write_group iters var peer =
    Ok ((fun size => replicate (iters size) tt) <$> bench_sizes) ∧
  bench_db_read_sync iters var peer = bench_db_read_group iters var peer ∧
  bench_db_write_sync iters var peer = bench_db_write_group iters var peer.
Proof.
  intros Hv Hs peer. destruct (spawn_client_dial port s) as (client & Hc & Hi).
  assert (∀ A (m : IO (Inner Link) Client.Error A),
    bench_run var peer m = (m (linked {| pdu_size := 480 |} 1 s)).1) as Hrun.
  { intros A m. unfold bench_run, connect_external. rewrite Hv. unfold spawn_client in Hc. fold peer in Hc.
    by rewrite Hc, Hi. }
  split_and!; [| |done..].
  - unfold bench_db_read_group. rewrite Hrun. apply (over_sizes_linked (same_data s)); [|done].
    intros n size r s' Hin%bench_size_small. by apply bench_reads_linked.
  - unfold bench_db_write_group. rewrite Hrun. apply (over_sizes_linked unlocked); [|done].
    intros n size r s' Hin%bench_size_small. by apply bench_writes_linked.
Qed.

(** No benchmark is cut short by a panic and each measures what it says:
    on a client set up against the simulated PLC with its data blocks unlocked,
    any number of iterations of the read benchmark of any size return the bytes
    of data block 1, of the write benchmark succeed and leave data block 2
    holding the payload, and of the round trip return the payload each time. *)
Theorem bench_iterations port s n size :
  is_area_locked 0x84 s = false → size ∈ bench_sizes →
  ∃ client, spawn_client port (ConnectStream (dial s) (Ok tt)) = Ok client ∧
  (iterate n (bench_db_read size) (inner client)).1 =
    Ok (replicate n (spec_read 0x84 1 0 size (mem_of s))) ∧
  (∃ i, iterate (S n) (bench_db_write size) (inner client) = (Ok (replicate (S n) tt), i) ∧
        spec_read 0x84 2 0 size (mem_of (link_store (inner_transport i))) =
          replicate (Z.to_nat size) 0xAB) ∧
  (iterate n bench_roundtrip (inner client)).1 = Ok (replicate n (replicate 8 0xDE)).
Proof.
  intros Hs Hin. pose proof (bench_size_small size Hin).
  assert (blen (replicate (Z.to_nat size) 0xAB) = size) as Hlen by (unfold blen; rewrite length_replicate; lia).
  destruct (spawn_client_dial port s) as (client & Hc & Hi). exists client. rewrite Hi. split; [done|].
  split_and!.
  - destruct (bench_reads_linked n size s {| pdu_size := 480 |} 1 s) as (r' & s' & E & _); [done..|].
    by rewrite E.
  - destruct (iterate_establishes unlocked (holds 2 (replicate (Z.to_nat size) 0xAB)) tt
      (bench_db_write size) {| pdu_size := 480 |} n 1 s) as (r' & s' & E & Hm & _); [by intros ? []| |done|].
    + intros r s1 Hs1. apply bench_write_step; [unwidth; lia|lia|done].
    + exists (linked {| pdu_size := 480 |} r' s'). split; [exact E|]. by rewrite Hlen in Hm.
  - destruct (iterate_linked unlocked (replicate 8 0xDE) bench_roundtrip {| pdu_size := 480 |})
      with (n := n) (r := 1) (s := s) as (r' & s' & E & _); [|done|by rewrite E].
    intros r s1 Hs1.
    destruct (bench_write_step 3 (replicate 8 0xDE) {| pdu_size := 480 |} r s1)
      as (r2 & s2 & E2 & Hm2 & Hs2); [unwidth; lia|done|done|].
    destruct (bench_read_step 3 8 _ {| pdu_size := 480 |} r2 s2 ltac:(unwidth; lia) ltac:(lia) Hm2)
      as (r3 & s3 & E3 & _ & _ & Hk & _).
    exists r3, s3. unfold bench_roundtrip. rewrite (io_bind_ok _ _ _ _ _ E2), E3.
    split; [done|]. unfold unlocked. by rewrite Hk.
Qed.

Lemma bench_iterations_witness :
  ∃ client, spawn_client 10200 (ConnectStream (dial bench_store) (Ok tt)) = Ok client ∧
    (iterate 3 (bench_db_read 4) (inner client)).1 = Ok [[1; 2; 3; 4]; [1; 2; 3; 4]; [1; 2; 3; 4]].
Proof.
  destruct (bench_iterations 10200 bench_store 3 4) as (client & E & H & _);
    [reflexivity|right; left|]. exists client. split; [exact E|]. rewrite H. reflexivity.
Defined.
