(* ===== verification/TestsProto.v ===== *)
(** * The unit tests of the message formats, run on the model

    The tests that proto/ keeps in its source files, one definition per test
    under the test's name: the encoders and decoders of the model are put
    through the same inputs and held to the same assertions.  A test passes
    when it evaluates to [true]; a panic or an [unwrap] of an error fails it. *)

From stdpp Require Import list.
From S2P Require Import Prelude Wire Tpkt Cotp S7Header Negotiate ReadVar WriteVar Clock Szl Vlq PlusWire.
Local Open Scope Z_scope.

(** ** Assertions *)
Definition assert_eq {A} `{EqDecision A} (x y : A) : bool := bool_decide (x = y).
Definition is_err {E A} (r : res E A) : bool := match r with Err _ => true | _ => false end.
(** [unwrap], then the rest of the test. *)
Definition unwrap_then {E A} (r : res E A) (k : A → bool) : bool :=
  match r with Ok a => k a | _ => false end.
(** Decode a whole buffer and test the value. *)
Definition decoded {A} (d : Rd A) (b : bytes) (k : A → bool) : bool :=
  unwrap_then (d b) (fun r => k r.1).
(** [buf[i]]; out of range it panics. *)
Definition byte_at (b : bytes) (i : nat) (v : Z) : bool := assert_eq (b !! i) (Some v).

Definition ascii (s : string) : bytes := map (fun c => Z.of_N (Ascii.N_of_ascii c)) (String.list_ascii_of_string s).

#[local] Instance PduType_eq_dec : EqDecision PduType. Proof. solve_decision. Defined.
#[local] Instance TransportSize_eq_dec : EqDecision TransportSize. Proof. solve_decision. Defined.
#[local] Instance Version_eq_dec : EqDecision Version. Proof. solve_decision. Defined.
#[local] Instance PlcDateTime_eq_dec : EqDecision PlcDateTime. Proof. solve_decision. Defined.

(** ** tpkt.rs *)
Definition tpkt_roundtrip : bool :=
  unwrap_then (TpktFrame_encode {| tpkt_payload := ascii "hello" |}) (fun b =>
  decoded TpktFrame_decode b (fun f => assert_eq (tpkt_payload f) (ascii "hello"))).
Definition tpkt_decode_truncated_returns_err : bool := is_err (TpktFrame_decode [0x03; 0x00]).
Definition tpkt_decode_wrong_version_returns_err : bool :=
  is_err (TpktFrame_decode ([0x02; 0x00; 0x00; 0x05] ++ ascii "hi")).
Definition tpkt_encode_empty_payload : bool :=
  unwrap_then (TpktFrame_encode {| tpkt_payload := [] |}) (fun b =>
  assert_eq (blen b) 4 && assert_eq b [0x03; 0x00; 0x00; 0x04]).
Definition tpkt_decode_length_too_small_returns_err : bool :=
  is_err (TpktFrame_decode [0x03; 0x00; 0x00; 0x02]).
Definition tpkt_encode_oversized_returns_err : bool :=
  is_err (TpktFrame_encode {| tpkt_payload := replicate (Z.to_nat 65532) 0 |}).

Definition tpkt_tests : list bool :=
  [tpkt_roundtrip; tpkt_decode_truncated_returns_err; tpkt_decode_wrong_version_returns_err;
   tpkt_encode_empty_payload; tpkt_decode_length_too_small_returns_err;
   tpkt_encode_oversized_returns_err].

(** ** cotp.rs *)
Definition cotp_dt_roundtrip : bool :=
  decoded CotpPdu_decode (CotpPdu_encode (Data 0 true (ascii "payload"))) (fun p =>
  match p with
  | Data tpdu_nr last payload =>
      assert_eq tpdu_nr 0 && last && assert_eq payload (ascii "payload")
  | _ => false
  end).
Definition cotp_cr_roundtrip : bool :=
  decoded CotpPdu_decode (CotpPdu_encode (ConnectRequest 0x0000 0x0001 0 2)) (fun p =>
  match p with
  | ConnectRequest _ src_ref rack slot =>
      assert_eq src_ref 0x0001 && assert_eq rack 0 && assert_eq slot 2
  | _ => false
  end).
Definition cotp_cc_roundtrip : bool :=
  decoded CotpPdu_decode (CotpPdu_encode (ConnectConfirm 0x0001 0x0001)) (fun p =>
  match p with
  | ConnectConfirm dst_ref src_ref => assert_eq dst_ref 0x0001 && assert_eq src_ref 0x0001
  | _ => false
  end).
Definition cotp_er_roundtrip : bool :=
  decoded CotpPdu_decode (CotpPdu_encode (CotpError 0x0001 0x0001 0x03)) (fun p =>
  match p with CotpError _ _ reject_cause => assert_eq reject_cause 0x03 | _ => false end).
Definition cotp_er_wire_format : bool :=
  assert_eq (CotpPdu_encode (CotpError 0x0000 0x0001 0x03))
    [0x06; 0x70; 0x00; 0x00; 0x00; 0x01; 0x03].
Definition cotp_dt_last_false : bool :=
  decoded CotpPdu_decode (CotpPdu_encode (Data 5 false (ascii "x"))) (fun p =>
  match p with Data tpdu_nr last _ => assert_eq tpdu_nr 5 && negb last | _ => false end).
Definition cotp_decode_unknown_code_returns_err : bool :=
  is_err (CotpPdu_decode [0x02; 0xAA; 0x00; 0x00]).
Definition cotp_decode_truncated_returns_err : bool := is_err (CotpPdu_decode [0x01]).
Definition cotp_cr_rack_slot_encoding : bool :=
  decoded CotpPdu_decode (CotpPdu_encode (ConnectRequest 0 0 1 3)) (fun p =>
  match p with
  | ConnectRequest _ _ rack slot => assert_eq rack 1 && assert_eq slot 3
  | _ => false
  end).

Definition cotp_tests : list bool :=
  [cotp_dt_roundtrip; cotp_cr_roundtrip; cotp_cc_roundtrip; cotp_er_roundtrip; cotp_er_wire_format;
   cotp_dt_last_false; cotp_decode_unknown_code_returns_err; cotp_decode_truncated_returns_err;
   cotp_cr_rack_slot_encoding].

(** ** s7/header.rs *)
Definition s7_header_job_roundtrip : bool :=
  let buf := S7Header_encode {| pdu_type := Job; reserved := 0; pdu_ref := 1; param_len := 8;
                                data_len := 0; error_class := None; error_code := None |} in
  assert_eq (blen buf) 10 &&
  decoded S7Header_decode buf (fun h =>
    assert_eq (pdu_type h) Job && assert_eq (pdu_ref h) 1 && assert_eq (param_len h) 8 &&
    assert_eq (error_class h) None).
Definition s7_header_ackdata_roundtrip : bool :=
  let buf := S7Header_encode {| pdu_type := AckData; reserved := 0; pdu_ref := 2; param_len := 8;
                                data_len := 4; error_class := Some 0; error_code := Some 0 |} in
  assert_eq (blen buf) 12 &&
  decoded S7Header_decode buf (fun h =>
    assert_eq (pdu_type h) AckData && assert_eq (error_class h) (Some 0) &&
    assert_eq (error_code h) (Some 0)).
Definition s7_header_wrong_magic_returns_err : bool :=
  is_err (S7Header_decode [0x00; 0x01; 0x00; 0x00; 0x00; 0x01; 0x00; 0x08; 0x00; 0x00]).
Definition s7_header_truncated_returns_err : bool :=
  is_err (S7Header_decode [0x32; 0x01; 0x00; 0x00]).
Definition pdu_type_try_from_invalid_returns_err : bool := is_err (PduType_try_from 0xFF).
Definition area_try_from_invalid_returns_err : bool := is_err (Area_try_from 0x00).
Definition transport_size_try_from_roundtrip : bool :=
  unwrap_then (TransportSize_try_from 0x08) (fun t => assert_eq t Real) &&
  is_err (TransportSize_try_from 0xFE).

Definition header_tests : list bool :=
  [s7_header_job_roundtrip; s7_header_ackdata_roundtrip; s7_header_wrong_magic_returns_err;
   s7_header_truncated_returns_err; pdu_type_try_from_invalid_returns_err;
   area_try_from_invalid_returns_err; transport_size_try_from_roundtrip].

(** ** s7/negotiate.rs *)
Definition negotiate_request_roundtrip : bool :=
  decoded NegotiateRequest_decode
    (NegotiateRequest_encode {| req_max_amq_calling := 1; req_max_amq_called := 1;
                                req_pdu_length := 480 |})
    (fun r => assert_eq (req_pdu_length r) 480 && assert_eq (req_max_amq_calling r) 1).
Definition negotiate_response_roundtrip : bool :=
  decoded NegotiateResponse_decode
    (NegotiateResponse_encode {| resp_max_amq_calling := 1; resp_max_amq_called := 1;
                                 resp_pdu_length := 240 |})
    (fun r => assert_eq (resp_pdu_length r) 240).
Definition negotiate_request_truncated_returns_err : bool :=
  is_err (NegotiateRequest_decode [0xF0; 0x00; 0x00; 0x01]).
Definition negotiate_request_wrong_func_returns_err : bool :=
  is_err (NegotiateRequest_decode [0x04; 0x00; 0x00; 0x01; 0x00; 0x01; 0x01; 0xE0]).
Definition negotiate_response_wrong_func_returns_err : bool :=
  is_err (NegotiateResponse_decode [0x04; 0x00; 0x00; 0x01; 0x00; 0x01; 0x01; 0xE0]).

Definition negotiate_tests : list bool :=
  [negotiate_request_roundtrip; negotiate_response_roundtrip;
   negotiate_request_truncated_returns_err; negotiate_request_wrong_func_returns_err;
   negotiate_response_wrong_func_returns_err].

(** ** s7/read_var.rs *)
Definition make_item (db st len : Z) : AddressItem :=
  {| area := DataBlock; db_number := db; start := st; bit_offset := 0; item_length := len;
     transport := Byte |}.
(** A test of [items[i]]; out of range it panics. *)
Definition nth_ok {A} (l : list A) (i : nat) (k : A → bool) : bool :=
  match l !! i with Some x => k x | None => false end.

Definition read_var_request_roundtrip : bool :=
  decoded ReadVarRequest_decode (ReadVarRequest_encode {| read_items := [make_item 1 0 4] |}) (fun r =>
  assert_eq (length (read_items r)) 1%nat &&
  nth_ok (read_items r) 0 (fun i =>
    assert_eq (db_number i) 1 && assert_eq (start i) 0 && assert_eq (item_length i) 4)).
Definition read_var_request_multi_item : bool :=
  decoded ReadVarRequest_decode
    (ReadVarRequest_encode {| read_items := [make_item 1 0 2; make_item 2 10 4] |}) (fun r =>
  assert_eq (length (read_items r)) 2%nat &&
  nth_ok (read_items r) 1 (fun i => assert_eq (db_number i) 2 && assert_eq (start i) 10)).
Definition read_var_request_byte_address_encoding : bool :=
  let buf := ReadVarRequest_encode {| read_items := [make_item 1 4 1] |} in
  byte_at buf (9 + 2) 0x00 && byte_at buf (10 + 2) 0x00 && byte_at buf (11 + 2) 0x20.
Definition read_var_response_decode_ok : bool :=
  decoded (ReadVarResponse_decode 1) [0xFF; 0x04; 0x00; 0x10; 0xDE; 0xAD] (fun r =>
  assert_eq (length (resp_items r)) 1%nat &&
  nth_ok (resp_items r) 0 (fun i =>
    assert_eq (return_code i) 0xFF && assert_eq (item_data i) [0xDE; 0xAD])).
Definition read_var_response_decode_odd_length_padded : bool :=
  decoded (ReadVarResponse_decode 2)
    [0xFF; 0x02; 0x00; 0x08; 0xAB; 0x00; 0xFF; 0x02; 0x00; 0x08; 0xCD; 0x00] (fun r =>
  nth_ok (resp_items r) 0 (fun i => assert_eq (item_data i) [0xAB]) &&
  nth_ok (resp_items r) 1 (fun i => assert_eq (item_data i) [0xCD])).
Definition read_var_response_encode_even_length : bool :=
  decoded (ReadVarResponse_decode 1)
    (ReadVarResponse_encode {| resp_items := [{| return_code := 0xFF; item_data := [0xDE; 0xAD] |}] |})
    (fun r => nth_ok (resp_items r) 0 (fun i =>
       assert_eq (return_code i) 0xFF && assert_eq (item_data i) [0xDE; 0xAD])).
Definition read_var_response_encode_odd_length_padded : bool :=
  let buf := ReadVarResponse_encode {| resp_items := [{| return_code := 0xFF; item_data := [0xAB] |}] |} in
  assert_eq (blen buf) 6 && byte_at buf 5 0x00.
Definition read_var_request_truncated_returns_err : bool := is_err (ReadVarRequest_decode [0x04]).
Definition read_var_request_wrong_func_returns_err : bool :=
  is_err (ReadVarRequest_decode [0x05; 0x01]).
Definition read_var_request_wrong_item_spec_returns_err : bool :=
  is_err (ReadVarRequest_decode
    ([0x04; 0x01; 0xFF] ++
     [0x0A; 0x10; 0x04; 0x00; 0x04; 0x00; 0x01; 0x84; 0x00; 0x00; 0x00])).

Definition read_var_tests : list bool :=
  [read_var_request_roundtrip; read_var_request_multi_item; read_var_request_byte_address_encoding;
   read_var_response_decode_ok; read_var_response_decode_odd_length_padded;
   read_var_response_encode_even_length; read_var_response_encode_odd_length_padded;
   read_var_request_truncated_returns_err; read_var_request_wrong_func_returns_err;
   read_var_request_wrong_item_spec_returns_err].

(** ** s7/write_var.rs *)
Definition make_write_item (db st : Z) (d : bytes) : WriteItem :=
  {| address := make_item db st (as_u16 (blen d)); write_data := d |}.

Definition write_var_response_decode_ok : bool :=
  decoded (WriteVarResponse_decode 1) [0xFF] (fun r => byte_at (return_codes r) 0 0xFF).
Definition write_var_response_decode_multi : bool :=
  decoded (WriteVarResponse_decode 3) [0xFF; 0xFF; 0x05] (fun r =>
  assert_eq (return_codes r) [0xFF; 0xFF; 0x05]).
Definition write_var_request_encode_structure : bool :=
  let buf := WriteVarRequest_encode {| write_items := [make_write_item 1 0 [0xDE; 0xAD]] |} in
  byte_at buf 0 FUNC_WRITE_VAR && byte_at buf 1 1 && byte_at buf 14 0x00 &&
  byte_at buf 15 (TransportSize_as_u8 Byte) && byte_at buf 16 0x00 && byte_at buf 17 0x10 &&
  byte_at buf 18 0xDE && byte_at buf 19 0xAD.
Definition write_var_request_odd_data_padded : bool :=
  let buf := WriteVarRequest_encode {| write_items := [make_write_item 1 0 [0xAB]] |} in
  assert_eq (blen buf) 20 && byte_at buf 19 0x00.
Definition write_var_response_truncated_returns_err : bool := is_err (WriteVarResponse_decode 1 []).
Definition write_var_request_encode_decode_roundtrip : bool :=
  decoded WriteVarRequest_decode
    (WriteVarRequest_encode {| write_items := [make_write_item 3 4 [0x11; 0x22; 0x33; 0x44]] |})
    (fun r =>
       assert_eq (length (write_items r)) 1%nat &&
       nth_ok (write_items r) 0 (fun i =>
         assert_eq (db_number (address i)) 3 && assert_eq (start (address i)) 4 &&
         assert_eq (write_data i) [0x11; 0x22; 0x33; 0x44])).
Definition write_var_request_decode_wrong_func_returns_err : bool :=
  is_err (WriteVarRequest_decode [0x04; 0x01]).

Definition write_var_tests : list bool :=
  [write_var_response_decode_ok; write_var_response_decode_multi; write_var_request_encode_structure;
   write_var_request_odd_data_padded; write_var_response_truncated_returns_err;
   write_var_request_encode_decode_roundtrip; write_var_request_decode_wrong_func_returns_err].

(** ** s7/clock.rs *)
Definition clock_2024 : PlcDateTime :=
  {| year := 2024; month := 6; day := 15; hour := 10; minute := 30; second := 0; millisecond := 0;
     weekday := 7 |}.
Definition clock_roundtrip_2024 : bool :=
  let buf := PlcDateTime_encode clock_2024 in
  assert_eq (blen buf) 8 && decoded PlcDateTime_decode buf (fun d => assert_eq d clock_2024).
Definition clock_1999 : PlcDateTime :=
  {| year := 1999; month := 12; day := 31; hour := 23; minute := 59; second := 59;
     millisecond := 990; weekday := 6 |}.
Definition clock_roundtrip_1999 : bool :=
  decoded PlcDateTime_decode (PlcDateTime_encode clock_1999) (fun d => assert_eq d clock_1999).
Definition clock_roundtrip_with_milliseconds : bool :=
  decoded PlcDateTime_decode
    (PlcDateTime_encode {| year := 2024; month := 1; day := 1; hour := 0; minute := 0; second := 0;
                           millisecond := 123; weekday := 1 |})
    (fun d => assert_eq (millisecond d) 123).
Definition clock_decode_truncated_returns_err : bool :=
  is_err (PlcDateTime_decode [0x24; 0x06; 0x15]).
Definition clock_encode_is_8_bytes : bool :=
  assert_eq (blen (PlcDateTime_encode {| year := 2000; month := 1; day := 1; hour := 0; minute := 0;
                                         second := 0; millisecond := 0; weekday := 1 |})) 8.

Definition clock_tests : list bool :=
  [clock_roundtrip_2024; clock_roundtrip_1999; clock_roundtrip_with_milliseconds;
   clock_decode_truncated_returns_err; clock_encode_is_8_bytes].

(** ** s7/szl.rs *)
Definition szl_request_encode_params_length : bool :=
  assert_eq (blen (SzlRequest_encode_params {| szl_id := 0x0011; szl_index := 0x0000 |})) 8.
Definition szl_request_encode_data_length : bool :=
  assert_eq (blen (SzlRequest_encode_data {| szl_id := 0x0011; szl_index := 0x0001 |})) 8.
Definition szl_request_encode_data_contains_id_index : bool :=
  let b := SzlRequest_encode_data {| szl_id := 0x001C; szl_index := 0x0000 |} in
  byte_at b 0 0xFF && byte_at b 1 0x09 && assert_eq (take 2 (drop 2 b)) [0x00; 0x04] &&
  assert_eq (take 2 (drop 4 b)) [0x00; 0x1C] && assert_eq (take 2 (drop 6 b)) [0x00; 0x00].
Definition szl_request_roundtrip : bool :=
  decoded SzlRequest_decode (SzlRequest_encode {| szl_id := 0x0011; szl_index := 0x0000 |}) (fun r =>
  assert_eq (szl_id r) 0x0011 && assert_eq (szl_index r) 0x0000).
Definition szl_response_decode_with_data : bool :=
  decoded SzlResponse_decode
    ([0x00; 0x1C] ++ [0x00; 0x00] ++ [0xDE; 0xAD; 0xBE; 0xEF]) (fun r =>
  assert_eq (resp_szl_id r) 0x001C && assert_eq (resp_szl_index r) 0x0000 &&
  assert_eq (szl_data r) [0xDE; 0xAD; 0xBE; 0xEF]).
Definition szl_response_decode_truncated_returns_err : bool :=
  is_err (SzlResponse_decode [0x00; 0x1C; 0x00; 0x00; 0x00; 0x22]).
Definition szl_request_truncated_returns_err : bool := is_err (SzlRequest_decode [0x00; 0x01; 0x12]).

Definition szl_tests : list bool :=
  [szl_request_encode_params_length; szl_request_encode_data_length;
   szl_request_encode_data_contains_id_index; szl_request_roundtrip; szl_response_decode_with_data;
   szl_response_decode_truncated_returns_err; szl_request_truncated_returns_err].

(** ** s7commplus/vlq.rs *)
Definition vlq_single_byte : bool := assert_eq (encode_vlq 0x2A) [0x2A].
Definition vlq_two_bytes : bool := assert_eq (encode_vlq 300) [0x82; 0x2C].
Definition vlq_decode_single : bool := decoded decode_vlq [0x2A] (fun v => assert_eq v 0x2A).
Definition vlq_decode_two_bytes : bool := decoded decode_vlq [0x82; 0x2C] (fun v => assert_eq v 300).
Definition vlq_roundtrip_large : bool :=
  forallb (fun v => decoded decode_vlq (encode_vlq v) (fun v' => assert_eq v' v))
    [0; 1; 127; 128; 255; 300; 16383; 16384; 2097151; 2097152; 4294967295].
Definition vlq_decode_truncated_returns_err : bool := is_err (decode_vlq [0x82]).
Definition vlq_decode_overflow_returns_err : bool :=
  is_err (decode_vlq [0x90; 0x80; 0x80; 0x80; 0x00]).

Definition vlq_tests : list bool :=
  [vlq_single_byte; vlq_two_bytes; vlq_decode_single; vlq_decode_two_bytes; vlq_roundtrip_large;
   vlq_decode_truncated_returns_err; vlq_decode_overflow_returns_err].

(** ** s7commplus/data.rs *)
Definition data_area_sample : DataArea :=
  {| opcode := 0x31; function_code := 0x04CA; seqnum := 1; session_id := 0; transport_flags := 0;
     da_payload := [0xDE; 0xAD] |}.
Definition data_area_encode_decode_roundtrip : bool :=
  decoded DataArea_decode (DataArea_encode data_area_sample) (fun d =>
  assert_eq (opcode d) 0x31 && assert_eq (function_code d) 0x04CA && assert_eq (seqnum d) 1 &&
  assert_eq (session_id d) 0 && assert_eq (transport_flags d) 0 &&
  assert_eq (da_payload d) [0xDE; 0xAD]).
Definition data_area_encode_wire_bytes : bool :=
  assert_eq
    (DataArea_encode {| opcode := 0x31; function_code := 0x04CA; seqnum := 0x0001; session_id := 0;
                        transport_flags := 0; da_payload := [] |})
    [0x31; 0x00; 0x00; 0x04; 0xCA; 0x00; 0x00; 0x00; 0x01; 0x00; 0x00; 0x00; 0x00; 0x00].
Definition data_area_decode_truncated_returns_err : bool := is_err (DataArea_decode [0x31; 0x00; 0x00]).

(** ** s7commplus/frame.rs *)
Definition make_frame (v : Z) (d : bytes) (k : S7PlusFrame → bool) : bool :=
  unwrap_then (Version_try_from v) (fun v => k {| version := v; frame_data := d |}).
Definition frame_encode_v1 : bool :=
  make_frame 0x01 [0xAA; 0xBB] (fun f =>
  unwrap_then (S7PlusFrame_encode f) (fun b =>
  assert_eq b [0x72; 0x01; 0x00; 0x02; 0xAA; 0xBB; 0x72; 0x01; 0x00; 0x02])).
Definition frame_encode_keepalive : bool :=
  unwrap_then (S7PlusFrame_encode {| version := KeepAlive; frame_data := [] |}) (fun b =>
  assert_eq b [0x72; 0xFF; 0x00; 0x00; 0x72; 0xFF; 0x00; 0x00]).
Definition frame_decode_v2_roundtrip : bool :=
  make_frame 0x02 [0x01; 0x02; 0x03] (fun f =>
  unwrap_then (S7PlusFrame_encode f) (fun b =>
  decoded S7PlusFrame_decode b (fun f' =>
    assert_eq (version f') V2 && assert_eq (frame_data f') [0x01; 0x02; 0x03]))).
Definition frame_decode_wrong_magic_returns_err : bool :=
  is_err (S7PlusFrame_decode [0x73; 0x01; 0x00; 0x00; 0x73; 0x01; 0x00; 0x00]).
Definition frame_decode_trailer_mismatch_returns_err : bool :=
  is_err (S7PlusFrame_decode [0x72; 0x01; 0x00; 0x00; 0x72; 0x02; 0x00; 0x00]).
Definition frame_decode_truncated_returns_err : bool :=
  is_err (S7PlusFrame_decode [0x72; 0x01; 0x00; 0x04; 0xAA; 0xBB]).

(** ** s7commplus/session.rs *)
Definition create_object_request_wire_length : bool :=
  assert_eq (blen (CreateObjectRequest_encode 1)) 78.
(** [u16::from_be_bytes([buf[3], buf[4]])]. *)
Definition function_code_is (buf : bytes) (fc : Z) : bool :=
  match buf !! 3%nat, buf !! 4%nat with
  | Some h, Some l => assert_eq (of_be16 h l) fc
  | _, _ => false
  end.
Definition create_object_request_function_code : bool :=
  function_code_is (CreateObjectRequest_encode 1) 0x04CA.
Definition create_object_response_decode_from_bytes : bool :=
  let sid := 0x0000001A in
  decoded CreateObjectResponse_decode
    ([0x32] ++ be16 0x0000 ++ be16 0x04CA ++ be16 0x0000 ++ be16 0x0001 ++ be32 sid ++ [0x00])
    (fun r => assert_eq r.1 sid).

(** ** s7commplus/multivar.rs *)
Definition get_var_request_function_code : bool :=
  function_code_is (GetVarRequest_encode 1 0xDEAD0001 0xABCD1234 2) 0x054C.
Definition get_var_request_session_id_position : bool :=
  let buf := GetVarRequest_encode 2 0x12345678 0xAABBCCDD 1 in
  assert_eq (take 4 (drop 9 buf)) (be32 0x12345678).
Definition set_var_request_function_code : bool :=
  function_code_is (SetVarRequest_encode 3 5 0x11223344 1 [0x3F; 0x80; 0x00; 0x00]) 0x0542.
Definition get_var_response_decode : bool :=
  decoded GetVarResponse_decode
    ([0x32] ++ be16 0x0000 ++ be16 0x054C ++ be16 0x0000 ++ be16 0x0001 ++ be32 0x00000005 ++ [0x00] ++
     [0x0A] ++ be16 4 ++ [0x3F; 0x80; 0x00; 0x00])
    (fun r => assert_eq (vr_return_code r) 0x0A && assert_eq (vr_value r) [0x3F; 0x80; 0x00; 0x00]).

Definition plus_tests : list bool :=
  [data_area_encode_decode_roundtrip; data_area_encode_wire_bytes;
   data_area_decode_truncated_returns_err; frame_encode_v1; frame_encode_keepalive;
   frame_decode_v2_roundtrip; frame_decode_wrong_magic_returns_err;
   frame_decode_trailer_mismatch_returns_err; frame_decode_truncated_returns_err;
   create_object_request_wire_length; create_object_request_function_code;
   create_object_response_decode_from_bytes; get_var_request_function_code;
   get_var_request_session_id_position; set_var_request_function_code; get_var_response_decode].

(** All of them pass. *)
Theorem proto_tests_pass :
  forallb id (tpkt_tests ++ cotp_tests ++ header_tests ++ negotiate_tests ++ read_var_tests ++
              write_var_tests ++ clock_tests ++ szl_tests ++ vlq_tests ++ plus_tests) = true.
Proof. vm_compute. reflexivity. Qed.
