(* ===== verification/TestsClient.v ===== *)
(** * The unit tests of the clients, run on the model

    The tests of client.rs, connection.rs, plus_client.rs, plus_connection.rs,
    and of the server's handshake.  Their mock peers read whatever has arrived
    and answer with prepared frames, so a mock is the bytes it writes: the
    client runs on a [Pipe] that holds them as its input. *)

From stdpp Require Import list.
From S2P Require Import Prelude Wire Io Tpkt Cotp S7Header Negotiate ReadVar Clock PlusWire.
From S2P Require Import ServerHandshake Connection Tag Client PlusClient ClientServices Blocks BlockInfo.
From S2P Require Import Udp Handle TestsProto.
Local Open Scope Z_scope.

#[local] Instance PlcDateTime_decision : EqDecision PlcDateTime. Proof. solve_decision. Defined.

(** ** Mock peers *)

(** A PDU in its frame, as [write_tpkt_cotp] sends it. *)
Definition write_tpkt_cotp (pdu : CotpPdu) : bytes :=
  match TpktFrame_encode {| tpkt_payload := CotpPdu_encode pdu |} with Ok b => b | _ => [] end.
(** An S7 message with these lengths in its header. *)
Definition mock_message (t : PduType) (r plen dlen : Z) (err : option Z * option Z) (body : bytes) : bytes :=
  write_tpkt_cotp (Data 0 true
    (S7Header_encode {| pdu_type := t; reserved := 0; pdu_ref := r; param_len := plen;
                        data_len := dlen; error_class := err.1; error_code := err.2 |} ++ body)).
Definition mock_ack (r plen dlen : Z) (body : bytes) : bytes :=
  mock_message AckData r plen dlen (Some 0, Some 0) body.

(** The answers to the connect request and the negotiation. *)
Definition mock_handshake_with (pdu : Z) : bytes :=
  write_tpkt_cotp (ConnectConfirm 1 1) ++
  mock_ack 1 8 0 (NegotiateResponse_encode {| resp_max_amq_calling := 1; resp_max_amq_called := 1;
                                              resp_pdu_length := pdu |}).
Definition mock_handshake : bytes := mock_handshake_with 480.

Definition mock_plc_db_read (response_data : bytes) : bytes :=
  mock_handshake ++
  mock_ack 2 2 (as_u16 (4 + blen response_data))
    ([0x04; 0x01] ++ [0xFF; 0x04] ++ be16 (as_u16 (blen response_data * 8)) ++ response_data).

(** One item of a read response, padded to an even length. *)
Definition mock_item (d : bytes) : bytes :=
  [0xFF; 0x04] ++ be16 (as_u16 (blen d * 8)) ++ d ++ (if is_even (blen d) then [] else [0x00]).
Definition mock_plc_multi_read (items : list bytes) : bytes :=
  let data_bytes := concat (mock_item <$> items) in
  mock_handshake ++
  mock_ack 2 2 (as_u16 (blen data_bytes)) ([0x04; as_u8 (Z.of_nat (length items))] ++ data_bytes).

Definition mock_plc_multi_write (pdu : Z) (batches : list nat) : bytes :=
  mock_handshake_with pdu ++
  concat (imap (fun i n =>
    mock_ack (as_u16 (Z.of_nat (i + 2))) 2 (as_u16 (Z.of_nat n))
      ([0x05; as_u8 (Z.of_nat n)] ++ replicate n 0xFF)) batches).

Definition mock_split_pdu : bytes :=
  mock_handshake_with 64 ++
  concat (imap (fun i payload =>
    let data_bytes := mock_item payload in
    mock_ack (as_u16 (Z.of_nat (i + 2))) 2 (as_u16 (blen data_bytes)) ([0x04; 0x01] ++ data_bytes))
    [replicate 30 0x11; replicate 30 0x22]).

Definition mock_plc_control (ok : bool) : bytes :=
  let '(ec, ecd) := if ok then (0, 0) else (0x81, 0x04) in
  mock_handshake ++ mock_message AckData 2 0 0 (Some ec, Some ecd) [].

Definition mock_plc_status (status_byte : Z) : bytes :=
  let szl_payload := be16 0x0424 ++ replicate 4 0 ++ be16 0x0001 ++ replicate 3 0 ++ [status_byte] in
  let params := [0x00; 0x01; 0x12; 0x08; 0x12; 0x84; 0x01; 0x00] in
  let data_envelope := [0xFF; 0x09; 0x00; 0x0C] in
  mock_handshake ++
  mock_message UserData 2 (as_u16 (blen params)) (as_u16 (blen data_envelope + blen szl_payload))
    (None, None) (params ++ data_envelope ++ szl_payload).

Definition mock_set_clock : bytes := mock_handshake ++ mock_ack 2 0 0 [].

Definition mock_read_clock (dt : PlcDateTime) : bytes :=
  let datetime_bytes := PlcDateTime_encode dt in
  mock_handshake ++
  mock_message UserData 2 12 4 (None, None)
    ([0x00; 0x01; 0x12; 0x08; 0x12; 0x87; 0x01; 0x00] ++ take 4 datetime_bytes ++ drop 4 datetime_bytes).

Definition mock_szl_list (ids : list Z) : bytes :=
  let szl_bytes := be16 0x0000 ++ be16 0x0000 ++ be16 4 ++ be16 (as_u16 (Z.of_nat (length ids))) ++
                   concat ((fun i => be16 i ++ be16 0x0000) <$> ids) in
  mock_handshake ++
  mock_ack 2 8 (as_u16 (4 + blen szl_bytes))
    ([0x00; 0x01; 0x12; 0x04; 0x11; 0x44; 0x01; 0x00] ++ [0xFF; 0x09] ++
     be16 (as_u16 (blen szl_bytes)) ++ szl_bytes).

Definition mock_full_upload (block_data : bytes) : bytes :=
  mock_handshake ++
  mock_ack 2 2 8 ([0x1F; 0x00] ++ be32 0xDEADBEEF ++ be32 (as_u32 (blen block_data))) ++
  mock_ack 3 2 (as_u16 (4 + blen block_data))
    ([0x1F; 0x01] ++ [0xFF; 0x04] ++ be16 (as_u16 (blen block_data * 8)) ++ block_data) ++
  mock_ack 4 0 0 [].

(** ** The tests of client.rs *)

(** [S7Client::from_transport(..).unwrap()] on the mock, then a method and the
    assertions on its result. *)
Definition with_client {A} (mock : bytes) (m : @Cl Pipe A) (k : res Client.Error A → bool) : bool :=
  unwrap_then (from_transport {| rx := mock; tx := [] |} ConnectParams_default).1 (fun i => k (m i).1).
Definition returns {A} `{EqDecision A} (mock : bytes) (m : @Cl Pipe A) (v : A) : bool :=
  with_client mock m (fun r => unwrap_then r (fun x => assert_eq x v)).

Definition db_read_returns_data : bool :=
  let expected := [0xDE; 0xAD; 0xBE; 0xEF] in
  returns (mock_plc_db_read expected) (S7Client_db_read 1 0 4) expected.
Definition read_multi_vars_returns_all_items : bool :=
  let item1 := [0xDE; 0xAD; 0xBE; 0xEF] in
  let item2 := [0x01; 0x02] in
  returns (mock_plc_multi_read [item1; item2])
    (S7Client_read_multi_vars [MultiReadItem_db 1 0 4; MultiReadItem_db 2 10 2]) [item1; item2].
Definition read_multi_vars_empty_returns_empty : bool :=
  returns (mock_plc_multi_read []) (S7Client_read_multi_vars []) [].
Definition write_multi_vars_returns_ok : bool :=
  returns (mock_plc_multi_write 480 [2%nat])
    (S7Client_write_multi_vars [MultiWriteItem_db 1 0 [0xAA; 0xBB; 0xCC; 0xDD];
                                MultiWriteItem_db 2 10 [0x01; 0x02]]) tt.
Definition write_multi_vars_empty_returns_ok : bool :=
  returns (mock_plc_multi_write 480 []) (S7Client_write_multi_vars []) tt.
Definition write_multi_vars_batches_when_pdu_limit_exceeded : bool :=
  returns (mock_plc_multi_write 64 [1%nat; 1%nat])
    (S7Client_write_multi_vars [MultiWriteItem_db 1 0 (replicate 20 0x11);
                                MultiWriteItem_db 2 0 (replicate 20 0x22)]) tt.
Definition read_multi_vars_batches_when_pdu_limit_exceeded : bool :=
  returns mock_split_pdu
    (S7Client_read_multi_vars [MultiReadItem_db 1 0 30; MultiReadItem_db 2 0 30])
    [replicate 30 0x11; replicate 30 0x22].

Definition plc_stop_succeeds : bool := returns (mock_plc_control true) S7Client_plc_stop tt.
Definition plc_hot_start_succeeds : bool := returns (mock_plc_control true) S7Client_plc_hot_start tt.
Definition plc_cold_start_succeeds : bool := returns (mock_plc_control true) S7Client_plc_cold_start tt.
Definition plc_stop_rejected_returns_error : bool :=
  with_client (mock_plc_control false) S7Client_plc_stop is_err.
Definition get_plc_status_returns_run : bool :=
  returns (mock_plc_status 0x08) S7Client_get_plc_status StatusRun.
Definition get_plc_status_returns_stop : bool :=
  returns (mock_plc_status 0x04) S7Client_get_plc_status StatusStop.
Definition get_plc_status_returns_unknown : bool :=
  returns (mock_plc_status 0x00) S7Client_get_plc_status StatusUnknown.
Definition get_plc_status_unknown_byte_returns_stop : bool :=
  returns (mock_plc_status 0xFF) S7Client_get_plc_status StatusStop.

Definition mb_read_returns_data : bool :=
  returns (mock_plc_multi_read [[0xAA; 0xBB]]) (S7Client_mb_read 10 2) [0xAA; 0xBB].
Definition eb_read_returns_data : bool :=
  returns (mock_plc_multi_read [[0x01; 0x02; 0x03]]) (S7Client_eb_read 0 3) [0x01; 0x02; 0x03].
Definition ib_read_returns_data : bool :=
  returns (mock_plc_multi_read [[0x11; 0x22]]) (S7Client_ib_read 0 2) [0x11; 0x22].
Definition tm_read_returns_data : bool :=
  returns (mock_plc_multi_read [[0x00; 0x14; 0x00; 0x28]]) (S7Client_tm_read 0 2)
    [0x00; 0x14; 0x00; 0x28].
Definition ct_read_returns_data : bool :=
  returns (mock_plc_multi_read [[0x00; 0x07]]) (S7Client_ct_read 3 1) [0x00; 0x07].

Definition set_clock_succeeds : bool :=
  returns mock_set_clock
    (S7Client_set_clock {| year := 2025; month := 5; day := 9; hour := 12; minute := 0; second := 0;
                           millisecond := 0; weekday := 5 |}) tt.
(** At Unix time [now]. *)
Definition set_clock_to_now_succeeds (now : Z) : bool :=
  returns mock_set_clock (S7Client_set_clock_to_now now) tt.
Definition read_clock_returns_correct_datetime : bool :=
  let expected := {| year := 2025; month := 5; day := 9; hour := 14; minute := 30; second := 0;
                     millisecond := 0; weekday := 5 |} in
  returns (mock_read_clock expected) S7Client_read_clock expected.
Definition read_szl_list_returns_ids : bool :=
  let ids := [0x0011; 0x001C; 0x0131; 0x0424] in
  returns (mock_szl_list ids) S7Client_read_szl_list ids.
Definition read_szl_list_empty_returns_empty : bool :=
  returns (mock_szl_list []) S7Client_read_szl_list [].

Definition full_upload_returns_block_data : bool :=
  let expected := [0x01; 0x02; 0x03; 0x04] in
  unwrap_then (from_transport {| rx := mock_full_upload expected; tx := [] |} ConnectParams_default).1
    (fun i => match S7Client_full_upload 4 0x41 1 i with
              | Some (r, _) => unwrap_then r (fun data => assert_eq data expected)
              | None => false
              end).
Definition get_pdu_length_returns_negotiated_size : bool :=
  returns (mock_plc_db_read [0x00]) S7Client_get_pdu_length 480.

(** [buf[i..].copy_from_slice(d)]. *)
Definition put_at (i : nat) (d : bytes) (buf : bytes) : bytes :=
  take i buf ++ d ++ drop (i + length d) buf.
Definition parse_block_info_valid : bool :=
  let footer_start := (84 - 48)%nat in
  let buf := put_at 0 [0x70; 0x70] (put_at 3 [0x09] (put_at 4 [0x01] (put_at 5 [0x41]
    (put_at 6 [0x00; 0x05] (put_at 8 (be32 84) (put_at 28 [0x00; 0x10] (put_at 32 [0x00; 0x08]
    (put_at 34 [0x00; 0x0A] (put_at (footer_start + 20) (ascii "SIEMENS")
    (put_at (footer_start + 28) (ascii "TEST") (put_at (footer_start + 36) (ascii "V1.0")
    (put_at (footer_start + 44) [0xAB; 0xCD] (replicate 84 0))))))))))))) in
  unwrap_then (parse_block_info buf) (fun info =>
    assert_eq (bi_block_number info) 5 && assert_eq (bi_block_type info) 0x41 &&
    assert_eq (bi_language info) 1 && assert_eq (bi_flags info) 9 && assert_eq (bi_size info) 84 &&
    assert_eq (bi_size_ram info) 16 && assert_eq (bi_mc7_size info) 10 &&
    assert_eq (bi_local_data info) 8 && assert_eq (bi_checksum info) 0xABCD &&
    assert_eq (bi_author info) (ascii "SIEMENS") && assert_eq (bi_family info) (ascii "TEST") &&
    assert_eq (bi_header info) (ascii "V1.0")).
Definition parse_block_info_too_short : bool := is_err (parse_block_info (replicate 10 0)).
Definition parse_block_info_mismatched_load_size : bool :=
  is_err (parse_block_info (put_at 8 (be32 100) (put_at 34 [0x00; 0x0A] (replicate 84 0)))).

(** Both connections are answered by [mock_tcp_plc]. *)
Definition mock_tcp_plc : TcpConnect Pipe :=
  ConnectStream {| rx := mock_handshake; tx := [] |} (Ok tt).
Definition reconnect_resets_state : bool :=
  unwrap_then (S7Client_connect tt Params_default mock_tcp_plc) (fun client =>
  S7Client_is_connected client &&
  match S7Client_reconnect mock_tcp_plc client with
  | (Ok _, client) => S7Client_is_connected client
  | _ => false
  end).

Definition client_tests : list bool :=
  [db_read_returns_data; read_multi_vars_returns_all_items; read_multi_vars_empty_returns_empty;
   write_multi_vars_returns_ok; write_multi_vars_empty_returns_ok;
   write_multi_vars_batches_when_pdu_limit_exceeded; read_multi_vars_batches_when_pdu_limit_exceeded;
   plc_stop_succeeds; plc_hot_start_succeeds; plc_cold_start_succeeds; plc_stop_rejected_returns_error;
   get_plc_status_returns_run; get_plc_status_returns_stop; get_plc_status_returns_unknown;
   get_plc_status_unknown_byte_returns_stop; mb_read_returns_data; eb_read_returns_data;
   ib_read_returns_data; tm_read_returns_data; ct_read_returns_data; set_clock_succeeds;
   set_clock_to_now_succeeds 1746187200; read_clock_returns_correct_datetime;
   read_szl_list_returns_ids; read_szl_list_empty_returns_empty; full_upload_returns_block_data;
   get_pdu_length_returns_negotiated_size; parse_block_info_valid; parse_block_info_too_short;
   parse_block_info_mismatched_load_size; reconnect_resets_state].

(** ** connection.rs *)
Definition handshake_sends_cr_receives_cc : bool :=
  unwrap_then (connect ConnectParams_default {| rx := mock_handshake; tx := [] |}).1 (fun c =>
  assert_eq (pdu_size c) 480).
Definition handshake_fails_when_cc_not_received : bool :=
  is_err (connect ConnectParams_default {| rx := write_tpkt_cotp (CotpError 0 0 0); tx := [] |}).1.

(** ** The server's handshake.rs *)
Definition write_negotiate_request (pdu_length : Z) : bytes :=
  mock_message Job 1 8 0 (None, None)
    (NegotiateRequest_encode {| req_max_amq_calling := 1; req_max_amq_called := 1;
                                req_pdu_length := pdu_length |}).
Definition handshake_completes_with_valid_client : bool :=
  let '(result, p) := server_handshake
    {| rx := write_tpkt_cotp (ConnectRequest 0x0000 0x0001 0 2) ++ write_negotiate_request 480;
       tx := [] |} in
  unwrap_then result (fun pdu_size => assert_eq pdu_size 480) &&
  unwrap_then (recv_cotp {| rx := tx p; tx := [] |}).1 (fun cc =>
    match cc with ConnectConfirm _ _ => true | _ => false end).
Definition handshake_fails_on_non_cr : bool :=
  is_err (server_handshake {| rx := write_tpkt_cotp (Data 0 true (ascii "oops")); tx := [] |}).1.

(** ** plus_connection.rs and plus_client.rs *)

(** A data area in its frames. *)
Definition plus_reply_frames (da : bytes) : bytes :=
  match S7PlusFrame_encode {| version := V1; frame_data := da |} with
  | Ok fb => match TpktFrame_encode {| tpkt_payload := fb |} with Ok b => b | _ => [] end
  | _ => []
  end.
Definition build_create_object_response (session_id : Z) : bytes :=
  plus_reply_frames ([OPCODE_RESPONSE] ++ be16 0x0000 ++ be16 0x04CA ++ be16 0x0000 ++ be16 0x0001 ++
             be32 session_id ++ [0x00]).
Definition plus_connect_extracts_session_id : bool :=
  let expected_sid := 0xCAFEBABE in
  unwrap_then (plus_connect {| rx := build_create_object_response expected_sid; tx := [] |}).1 (fun c =>
  assert_eq (pc_session_id c) expected_sid).

Definition build_get_var_response (session_id seqnum : Z) (value : bytes) : bytes :=
  plus_reply_frames ([OPCODE_RESPONSE] ++ be16 0x0000 ++ be16 0x054C ++ be16 0x0000 ++ be16 seqnum ++
             be32 session_id ++ [0x00] ++ [0x0A] ++ be16 (as_u16 (blen value)) ++ value).
Definition plus_db_read_returns_value : bool :=
  let value := [0x3F; 0x80; 0x00; 0x00] in
  let client := {| pi_transport := {| rx := build_get_var_response 1 2 value; tx := [] |};
                   pi_conn := {| pc_session_id := 1; pc_seqnum := 2; pc_version := V1 |} |} in
  unwrap_then (S7PlusClient_db_read 1 0 4 client).1 (fun data => assert_eq data value).

Definition session_tests : list bool :=
  [handshake_sends_cr_receives_cc; handshake_fails_when_cc_not_received;
   handshake_completes_with_valid_client; handshake_fails_on_non_cr;
   plus_connect_extracts_session_id; plus_db_read_returns_value].

(** All of them pass. *)
Theorem client_tests_pass : forallb id (client_tests ++ session_tests) = true.
Proof. vm_compute. reflexivity. Qed.
