(* ===== verification/TestsComponents.v ===== *)
(** * The unit tests of the remaining components, run on the model

    The tests of tag.rs, types.rs, udp.rs, of the server's store.rs and
    server.rs, of the gateway's config.rs, registry.rs and poller.rs, of the
    partner and of the watch command.  Tests that open sockets run on the
    transports that stand for them: the simulated PLC behind a [Link], and two
    partners whose input is what the other has sent. *)

From stdpp Require Import gmap list.
From S2P Require Import Prelude Wire Io S7Header Store Dispatch Types Connection Tag Text Client Loopback.
From S2P Require Import Partner Registry Poller Udp Handle Watch TestsProto.
Local Open Scope Z_scope.

#[local] Instance TransportSize_decision : EqDecision TransportSize. Proof. solve_decision. Defined.
#[local] Instance Area_decision : EqDecision Area. Proof. solve_decision. Defined.
#[local] Instance Variant_decision : EqDecision (Variant string). Proof. solve_decision. Defined.
#[local] Instance PartnerStatus_decision : EqDecision PartnerStatus. Proof. solve_decision. Defined.

(** ** tag.rs *)

(** The tags of the tests are ASCII; other characters are left as they are. *)
Definition parsed (tag : string) (k : TagAddress → bool) : bool :=
  unwrap_then (parse_tag (fun c => [c]) (str_bytes tag)) k.
Definition rejected (tag : string) : bool := is_err (parse_tag (fun c => [c]) (str_bytes tag)).
(** The assertions that most tests make. *)
Definition db_tag (db off : Z) (ts : TransportSize) (t : TagAddress) : bool :=
  assert_eq (tag_db_number t) db && assert_eq (byte_offset t) off && assert_eq (tag_transport t) ts.
Definition area_tag (a : Area) (off : Z) (ts : TransportSize) (t : TagAddress) : bool :=
  assert_eq (tag_area t) a && assert_eq (byte_offset t) off && assert_eq (tag_transport t) ts.

Definition parse_db_real : bool := parsed "DB1,REAL4" (db_tag 1 4 Real).
Definition parse_db_word : bool := parsed "DB2,WORD10" (db_tag 2 10 Word).
Definition parse_db_dint : bool :=
  parsed "DB70,DINT0" (fun t => db_tag 70 0 DInt t && assert_eq (tag_bit_offset t) 0).
Definition parse_db_bit_access : bool :=
  parsed "DB70,332.0" (fun t => db_tag 70 332 Bit t && assert_eq (tag_bit_offset t) 0).
Definition parse_db_bit_access_bit7 : bool :=
  parsed "DB70,332.7" (fun t => db_tag 70 332 Bit t && assert_eq (tag_bit_offset t) 7).
Definition parse_db_bit_invalid_bit : bool := rejected "DB70,332.8".
Definition parse_invalid_returns_err : bool := rejected "NOTVALID".
Definition parse_dot_separator_real : bool := parsed "DB170.REAL262" (db_tag 170 262 Real).
Definition parse_dot_separator_word : bool := parsed "DB1.WORD10" (db_tag 1 10 Word).
Definition parse_comma_separator_unchanged : bool :=
  parsed "DB170,REAL262" (fun a =>
  parsed "DB170.REAL262" (fun b => db_tag (tag_db_number b) (byte_offset b) (tag_transport b) a)).
Definition parse_bit_access_dot_not_confused : bool :=
  parsed "DB70,332.0" (fun t => assert_eq (tag_transport t) Bit && assert_eq (byte_offset t) 332 &&
                                assert_eq (tag_bit_offset t) 0).
Definition parse_timer_single_part : bool :=
  parsed "T5" (fun t => area_tag ATimer 5 TTimer t && assert_eq (tag_db_number t) 0).
Definition parse_counter_single_part : bool :=
  parsed "C3" (fun t => area_tag ACounter 3 TCounter t && assert_eq (tag_db_number t) 0).
Definition parse_marker_byte_single_part : bool := parsed "MB10" (area_tag Marker 10 Byte).
Definition parse_marker_word_single_part : bool := parsed "MW20" (area_tag Marker 20 Word).
Definition parse_marker_dword_single_part : bool := parsed "MD4" (area_tag Marker 4 DWord).
Definition parse_marker_bit_single_part : bool :=
  parsed "M10.3" (fun t => area_tag Marker 10 Bit t && assert_eq (tag_bit_offset t) 3).
Definition parse_marker_bit_mx_prefix : bool :=
  parsed "MX5.7" (fun t => area_tag Marker 5 Bit t && assert_eq (tag_bit_offset t) 7).

Definition tag_tests : list bool :=
  [parse_db_real; parse_db_word; parse_db_dint; parse_db_bit_access; parse_db_bit_access_bit7;
   parse_db_bit_invalid_bit; parse_invalid_returns_err; parse_dot_separator_real;
   parse_dot_separator_word; parse_comma_separator_unchanged; parse_bit_access_dot_not_confused;
   parse_timer_single_part; parse_counter_single_part; parse_marker_byte_single_part;
   parse_marker_word_single_part; parse_marker_dword_single_part; parse_marker_bit_single_part;
   parse_marker_bit_mx_prefix].

(** ** types.rs *)
Definition connect_params_default : bool :=
  let p := ConnectParams_default in
  assert_eq (cp_rack p) 0 && assert_eq (cp_slot p) 1 && assert_eq (cp_pdu_size p) 480.
Definition block_data_roundtrip : bool :=
  let bd := {| block_type := 0x41; block_number := 1; format := 0; total_length := 24; flags := 0;
               crc1 := 0x1234; crc2 := 0x5678; Types.payload := [0xDE; 0xAD] |} in
  let bytes := BlockData_to_bytes bd in
  assert_eq (blen bytes) 22 &&
  match BlockData_from_bytes bytes with
  | Some parsed =>
      assert_eq (block_type parsed) 0x41 && assert_eq (block_number parsed) 1 &&
      assert_eq (Types.payload parsed) [0xDE; 0xAD]
  | None => false
  end.
Definition block_data_short_input_returns_none : bool :=
  match BlockData_from_bytes (replicate 10 0) with None => true | Some _ => false end.
Definition encrypt_8_char_password : bool :=
  let result := encrypt_password (ascii "PASSWORD") in
  assert_eq (blen result) 8 && assert_eq result (encrypt_password (ascii "PASSWORD")).
Definition encrypt_short_password_padded : bool :=
  let result := encrypt_password (ascii "abc") in
  byte_at result 0 0x43 && byte_at result 3 0x57.
Definition encrypt_long_password_truncated : bool :=
  let result := encrypt_password (ascii "1234567890") in
  assert_eq (blen result) 8 && assert_eq result (encrypt_password (ascii "12345678")).
Definition block_type_discriminants : bool :=
  assert_eq (BlockType_as_u8 DB) 0x41 && assert_eq (BlockType_as_u8 OB) 0x38.

Definition types_tests : list bool :=
  [connect_params_default; block_data_roundtrip; block_data_short_input_returns_none;
   encrypt_8_char_password; encrypt_short_password_padded; encrypt_long_password_truncated;
   block_type_discriminants].

(** ** The server's store.rs *)
Definition read_unset_returns_zeros : bool := assert_eq (read_bytes 1 0 4 DataStore_new) [0; 0; 0; 0].
Definition write_then_read_roundtrip : bool :=
  assert_eq (read_bytes 1 0 4 (write_bytes 1 0 [0xDE; 0xAD; 0xBE; 0xEF] DataStore_new))
    [0xDE; 0xAD; 0xBE; 0xEF].
Definition write_to_different_dbs_isolated : bool :=
  let store := write_bytes 2 0 [0xBB] (write_bytes 1 0 [0xAA] DataStore_new) in
  assert_eq (read_bytes 1 0 1 store) [0xAA] && assert_eq (read_bytes 2 0 1 store) [0xBB].
Definition read_area_uses_area_code : bool :=
  let store := write_area 0x83 0 10 [0x99] DataStore_new in
  let '(pa, store) := read_area 0x82 0 10 1 store in
  let '(mk, _) := read_area 0x83 0 10 1 store in
  assert_eq pa [0x00] && assert_eq mk [0x99].
Definition register_area_roundtrip : bool :=
  negb (is_area_registered 0x81 DataStore_new) &&
  let store := register_area 0x81 1024 DataStore_new in
  is_area_registered 0x81 store && negb (is_area_registered 0x81 (unregister_area 0x81 store)).
Definition cpu_state_defaults_to_stop : bool := assert_eq (cpu_state DataStore_new) Stop.
Definition cpu_state_transitions : bool :=
  let store := set_cpu_state Run DataStore_new in
  assert_eq (cpu_state store) Run && assert_eq (cpu_state (set_cpu_state Stop store)) Stop.
(** The callback that sets the flag is callback 0. *)
Definition write_callback_invoked : bool :=
  let store := write_bytes 1 0 [0x01] (on_write 0 DataStore_new) in
  existsb (fun f => match f with FiredWrite 0 _ => true | _ => false end) (fired store).
Definition event_callback_invoked : bool :=
  let store := set_cpu_state Run (on_event 0 DataStore_new) in
  existsb (fun f => match f with FiredEvent 0 name => assert_eq name "cpu_start"%string | _ => false end)
    (fired store).

(** ** The server's server.rs *)
Definition connected_to (s : StoreInner) (k : S7Client Link unit → bool) : bool :=
  unwrap_then (S7Client_connect tt Params_default (ConnectStream (dial s) (Ok tt))) k.
Definition server_accepts_s7client_connection : bool :=
  connected_to (write_bytes 1 0 [0x12; 0x34] DataStore_new) (fun client =>
  unwrap_then (S7Client_db_read 1 0 2 (Handle.inner client)).1 (fun data => assert_eq data [0x12; 0x34])).
Definition get_status_reflects_cpu_state : bool :=
  let status := get_status DataStore_new in
  assert_eq (st_cpu_state status) Stop && assert_eq (clients_count status) 0 && server_running status.
Definition lock_area_blocks_writes : bool :=
  let store := lock_area DATA_BLOCK (write_bytes 1 0 [0xAA] DataStore_new) in
  let store := write_bytes 1 0 [0xFF] store in
  assert_eq (read_bytes 1 0 1 store) [0xAA] &&
  assert_eq (read_bytes 1 0 1 (write_bytes 1 0 [0xFF] (unlock_area DATA_BLOCK store))) [0xFF].
Definition event_mask_and_queue : bool :=
  let store := set_mask 0xFFFFFFFF DataStore_new in
  assert_eq (get_mask store) 0xFFFFFFFF &&
  match (pick_event (clear_events store)).1 with None => true | Some _ => false end.
Definition server_write_then_read : bool :=
  connected_to DataStore_new (fun client =>
  match S7Client_db_write 2 10 [0xAB; 0xCD] (Handle.inner client) with
  | (Ok _, i) => unwrap_then (S7Client_db_read 2 10 2 i).1 (fun data => assert_eq data [0xAB; 0xCD])
  | _ => false
  end).

Definition server_tests : list bool :=
  [read_unset_returns_zeros; write_then_read_roundtrip; write_to_different_dbs_isolated;
   read_area_uses_area_code; register_area_roundtrip; cpu_state_defaults_to_stop;
   cpu_state_transitions; write_callback_invoked; event_callback_invoked;
   server_accepts_s7client_connection; get_status_reflects_cpu_state; lock_area_blocks_writes;
   event_mask_and_queue; server_write_then_read].

(** ** The gateway's config.rs *)
Definition empty_plcs_returns_empty : bool :=
  match plc_configs {| opc_endpoint := str_bytes "opc.tcp://0.0.0.0:4840"; poll_interval_ms := 1000;
                       plc_addr := None; tags := None; plcs := None;
                       opc_security := OpcSecurityConfig_default |} with
  | [] => true
  | _ => false
  end.

(** ** The gateway's registry.rs *)

(** A [NodeId] is its namespace and its name. *)
Definition tag_spec (tag name : string) : TagSpec :=
  {| spec_tag := str_bytes tag; spec_name := str_bytes name; spec_writable := false |}.
Definition from_specs (specs : list TagSpec) (plc_index : nat)
  : res Gateway.Error (TagRegistry (Z * text)) :=
  TagRegistry_from_specs pair (fun c => [c]) (fun _ => EmptyString) EmptyString specs plc_index.
(** [reg.entries().next().unwrap()]. *)
Definition first_entry {N} (r : TagRegistry N) (k : TagEntry N → bool) : bool :=
  match registry_entries r with e :: _ => k e | [] => false end.

Definition valid_tags_parse_ok : bool :=
  unwrap_then (from_specs [tag_spec "DB1,REAL4" "Speed"; tag_spec "DB2,WORD0" "Pressure"] 0) (fun reg =>
  assert_eq (TagRegistry_len reg) 2%nat).
Definition invalid_tag_returns_err : bool := is_err (from_specs [tag_spec "NOTVALID" "Bad"] 0).
Definition node_id_is_stable : bool :=
  unwrap_then (from_specs [tag_spec "DB1,BYTE0" "Sensor"] 1) (fun reg =>
  first_entry reg (fun e => assert_eq (node_id e).1 2 && assert_eq (plc_index e) 1%nat)).
Definition writable_flag_preserved : bool :=
  unwrap_then (from_specs [{| spec_tag := str_bytes "DB1,REAL0"; spec_name := str_bytes "Temperature";
                              spec_writable := true |}] 0) (fun reg =>
  first_entry reg writable).
Definition find_by_node_id_finds : bool :=
  unwrap_then (from_specs [tag_spec "DB1,REAL0" "MotorSpeed"] 0) (fun reg =>
  first_entry reg (fun e =>
    match find_by_node_id reg (node_id e) with
    | Some found => assert_eq (entry_name found) (str_bytes "MotorSpeed")
    | None => false
    end)).
Definition find_nonexistent_node_id : bool :=
  unwrap_then (from_specs [tag_spec "DB1,REAL0" "MotorSpeed"] 0) (fun reg =>
  match find_by_node_id reg (2, str_bytes "DoesNotExist") with None => true | Some _ => false end).

(** ** The gateway's poller.rs *)

(** A variant of another type is its text; a float is its bits, 1.0 is
    0x3F800000. *)
Definition reads_as (bs : bytes) (ts : TransportSize) (v : Variant string) : bool :=
  match bytes_to_variant (Other := string) bs ts with Some v' => assert_eq v' v | None => false end.
Definition writes_as (v : Variant string) (bs : bytes) (ts : TransportSize) : bool :=
  match variant_to_bytes v with
  | Some (bs', ts') => assert_eq ts' ts && assert_eq bs' bs
  | None => false
  end.

Definition decode_f32_big_endian : bool := reads_as [0x3F; 0x80; 0x00; 0x00] Real (Float 0x3F800000).
Definition decode_u16_big_endian : bool := reads_as [0x01; 0x00] Word (UInt16 256).
Definition decode_i16_negative : bool := reads_as [0xFF; 0x80] Int (Int16 (-128)).
Definition decode_insufficient_bytes_returns_none : bool :=
  match bytes_to_variant (Other := string) [0x01] Word with None => true | Some _ => false end.
Definition decode_byte : bool := reads_as [0x42] Byte (VByte 0x42).
Definition decode_bit_true : bool := reads_as [0x01] Bit (Boolean true).
Definition decode_bit_false : bool := reads_as [0x00] Bit (Boolean false).
Definition decode_dint : bool := reads_as [0x00; 0x00; 0x00; 0x01] DInt (Int32 1).
Definition decode_dword : bool := reads_as [0x00; 0x00; 0x00; 0x01] DWord (UInt32 1).
Definition transport_size_bytes_real : bool :=
  assert_eq (transport_size_bytes Real 1) (Some 4) && assert_eq (transport_size_bytes Real 2) (Some 8).
Definition transport_size_bytes_word : bool :=
  assert_eq (transport_size_bytes Word 1) (Some 2) && assert_eq (transport_size_bytes Word 3) (Some 6).
Definition transport_size_bytes_byte : bool :=
  assert_eq (transport_size_bytes Byte 1) (Some 1) && assert_eq (transport_size_bytes Byte 10) (Some 10).
Definition variant_to_bytes_float : bool := writes_as (Float 0x3F800000) [0x3F; 0x80; 0x00; 0x00] Real.
Definition variant_to_bytes_uint16 : bool := writes_as (UInt16 256) [0x01; 0x00] Word.
Definition variant_to_bytes_int16 : bool := writes_as (Int16 (-128)) [0xFF; 0x80] Int.
Definition variant_to_bytes_unsupported : bool :=
  match variant_to_bytes (OtherVariant "test"%string) with None => true | Some _ => false end.

Definition gateway_tests : list bool :=
  [empty_plcs_returns_empty; valid_tags_parse_ok; invalid_tag_returns_err; node_id_is_stable;
   writable_flag_preserved; find_by_node_id_finds; find_nonexistent_node_id; decode_f32_big_endian;
   decode_u16_big_endian; decode_i16_negative; decode_insufficient_bytes_returns_none; decode_byte;
   decode_bit_true; decode_bit_false; decode_dint; decode_dword; transport_size_bytes_real;
   transport_size_bytes_word; transport_size_bytes_byte; variant_to_bytes_float;
   variant_to_bytes_uint16; variant_to_bytes_int16; variant_to_bytes_unsupported].

(** ** The watch command *)
Definition iso8601_now_format (now : Z) : bool :=
  let s := iso8601_now now in
  assert_eq (length s) 20%nat && assert_eq (last s) (Some 90) &&
  forallb (fun '(i, c) => assert_eq (s !! i) (Some c))
    [(4%nat, 45); (7%nat, 45); (10%nat, 84); (13%nat, 58); (16%nat, 58)].
Definition known_timestamp : bool := assert_eq (seconds_to_ymd_hms 0) (1970, 1, 1, 0, 0, 0).
Definition known_timestamp_2 : bool :=
  assert_eq (seconds_to_ymd_hms 1746187200) (2025, 5, 2, 12, 0, 0).

(** ** udp.rs: the reply of the peer is the one datagram that arrives. *)
Definition udp_transport_loopback_roundtrip : bool :=
  unwrap_then (UdpTransport_connect (Ok tt) (Ok tt) [Datagram (ascii "world")]) (fun client =>
  match poll_write (Ready (Ok tt)) (ascii "hello") client with
  | (Ready (Ok n), client) =>
      assert_eq n 5 && assert_eq (outgoing client) [ascii "hello"] &&
      match poll_read 64 client with
      | (Ready (Ok _), rbuf, _) => assert_eq rbuf (ascii "world")
      | _ => false
      end
  | _ => false
  end).

(** ** The partner

    Two programs that talk to each other, each a function from all it hears to
    its result and all it says: run in turns on what the other has said so far
    until nothing new is said, [n] turns at most.  (The test with a payload of
    several fragments is an instance of [bsend_brecv_roundtrip].) *)
Fixpoint converse {A B} (n : nat) (a : bytes → A * bytes) (b : bytes → B * bytes) (heard : bytes) : A * B :=
  let '(ra, said) := a heard in
  let '(rb, reply) := b said in
  match n with
  | S n => if decide (reply = heard) then (ra, rb) else converse n a b reply
  | O => (ra, rb)
  end.

(** What a partner has said: the output of its stream. *)
Definition said (p : S7Partner Pipe) : bytes := match p_inner p with Some (t, _) => tx t | None => [] end.
(** The end of a program; [unwrap] of an error ends it. *)
Definition ended {E A} (r : res E A * S7Partner Pipe) : option A * S7Partner Pipe :=
  (match r.1 with Ok a => Some a | _ => None end, r.2).

(** [S7Partner::connect] and then [m]; the passive side waits in [accept].
    A side whose handshake is still waiting has said what the handshake said. *)
Definition opened (handshake : IO Pipe Partner.Error Z) (heard : bytes)
    {A} (m : S7Partner Pipe → option A * S7Partner Pipe) : option A * bytes :=
  let stream := {| rx := heard; tx := [] |} in
  match partner_open (drive_handshake handshake) (Ok stream) new_unconnected with
  | (Ok _, p) => let '(r, p) := m p in (r, said p)
  | _ => (None, tx (handshake stream).2)
  end.
Definition active_side {A} (m : S7Partner Pipe → option A * S7Partner Pipe) (heard : bytes) : option A * bytes :=
  opened active_handshake heard m.
Definition passive_side {A} (m : S7Partner Pipe → option A * S7Partner Pipe) (heard : bytes) : option A * bytes :=
  opened passive_handshake heard m.
(** [brecv().await.unwrap()]; an input of [n] bytes is at most [n] turns. *)
Definition receives (p : S7Partner Pipe) : option (Z * bytes) * S7Partner Pipe :=
  match brecv (S (match p_inner p with Some (t, _) => length (rx t) | None => O end)) p with
  | Some r => ended r
  | None => (None, p)
  end.
Definition sends (r_id : Z) (d : bytes) (p : S7Partner Pipe) : option unit * S7Partner Pipe :=
  ended (bsend r_id d p).

Definition bsend_brecv_roundtrips (r_id : Z) (d : bytes) : bool :=
  let '(sent, received) := converse 40 (active_side (sends r_id d)) (passive_side receives) [] in
  assert_eq sent (Some tt) && assert_eq received (Some (r_id, d)).
Definition bsend_brecv_small_payload : bool := bsend_brecv_roundtrips 0xDEADBEEF (ascii "hello partner").
Definition bidirectional_exchange : bool :=
  let passive p :=
    match receives p with
    | (Some (r_id, d), p) => sends (as_u32 (r_id + 1)) d p
    | (None, p) => (None, p)
    end in
  let active p :=
    match sends 0x42 (ascii "ping") p with
    | (Some _, p) => receives p
    | (None, p) => (None, p)
    end in
  let '(received, sent) := converse 40 (active_side active) (passive_side passive) [] in
  assert_eq received (Some (0x43, ascii "ping")) && assert_eq sent (Some tt).
Definition stats_and_status : bool :=
  let passive : S7Partner Pipe := new_unconnected in
  assert_eq (partner_get_status passive) PartnerDisconnected &&
  assert_eq (partner_get_stats passive) (0, 0) &&
  let active p :=
    let connected := partner_get_status p in
    match sends 0x01 (ascii "stats_test") p with
    | (Some _, p) => (Some (connected, (partner_get_stats p).1), p)
    | (None, p) => (None, p)
    end in
  let listening p :=
    let connected := partner_get_status p in
    match receives p with
    | (Some _, p) => (Some connected, p)
    | (None, p) => (None, p)
    end in
  match converse 40 (active_side active) (passive_side listening) [] with
  | (Some (active_status, sent), Some passive_status) =>
      assert_eq active_status PartnerConnected && assert_eq passive_status PartnerConnected &&
      (0 <? sent)
  | _ => false
  end.

Definition other_tests : list bool :=
  [iso8601_now_format 1746187200; known_timestamp; known_timestamp_2; udp_transport_loopback_roundtrip;
   bsend_brecv_small_payload; bidirectional_exchange; stats_and_status].

(** All of them pass. *)
Theorem component_tests_pass :
  forallb id (tag_tests ++ types_tests ++ server_tests ++ gateway_tests ++ other_tests) = true.
Proof. vm_compute. reflexivity. Qed.
