(* ===== verification/TestsSystem.v ===== *)
(** * The unit tests of the pool, of the configuration file and of the running
    server, run on the model

    The tests of pool.rs, whose port nobody listens on; those of the gateway's
    config.rs, on the tables their documents parse to; and the one of
    server.rs that counts the connections of a server while a client is
    connected. *)

From S2P Require Import Prelude Wire Io S7Header Store Dispatch Connection Tag Client Loopback AcceptLoop.
From S2P Require Import Registry ConfigFile Udp Handle Pool Served TestsProto.
Local Open Scope Z_scope.

(** ** pool.rs *)
Definition cfg (max : nat) : PoolConfig := {| max_size := max; cfg_connect_timeout := 100 * 10 ^ 6 |}.

Definition pool_config_defaults_are_sane : bool :=
  let c := PoolConfig_default in
  (1 <=? Z.of_nat (max_size c)) && (0 <? cfg_connect_timeout c / 10 ^ 6).
Definition pool_config_max_size : bool := assert_eq (max_size (cfg 4)) 4%nat.

(** A pool for port 1 of the local host, where connecting is refused. *)
Definition unreachable (max : nat) : S7Pool Pipe Z := S7Pool_new 1 Params_default (cfg max).
Definition refused : option (TcpConnect Pipe) := Some ConnectFailed.
Definition task_is_err (t : task Pipe Z) : bool := match t with Pool.Failed _ => true | _ => false end.

Definition pool_acquire_returns_err_on_unreachable_host : bool :=
  match acquire 3 refused (unreachable 2) with
  | Some (result, _) => task_is_err result
  | None => false
  end.
(** The second call is not kept waiting. *)
Definition pool_acquire_releases_permit_on_error : bool :=
  match acquire 3 refused (unreachable 1) with
  | Some (result, pool) =>
      task_is_err result && (match acquire 3 refused pool with Some _ => true | None => false end)
  | None => false
  end.
(** One of the two tasks gets the permit first; the other is served after it. *)
Definition pool_semaphore_limits_concurrent_borrows : bool :=
  match acquire 3 refused (unreachable 1) with
  | Some (r1, pool) =>
      match acquire 3 refused pool with
      | Some (r2, _) => task_is_err r1 && task_is_err r2
      | None => false
      end
  | None => false
  end.

(** ** config.rs *)
Definition str (key value : string) : text * Toml := (str_bytes key, TStr (str_bytes value)).
Definition tag_table (tag name : string) : Toml := TTable [str "tag" tag; str "name" name].
Definition array (key : string) (l : list Toml) : text * Toml := (str_bytes key, TArray l).
Definition from_toml (fields : list (text * Toml)) (k : GatewayConfig → bool) : bool :=
  match GatewayConfig_de (TTable fields) with Some c => k c | None => false end.

Definition parse_single_plc_config : bool :=
  from_toml [str "plc_addr" "127.0.0.1:102"; str "opc_endpoint" "opc.tcp://0.0.0.0:4840";
             array "tags" [tag_table "DB1,REAL4" "MotorSpeed"]] (fun cfg =>
  match plc_configs cfg with
  | [p] => assert_eq (plc_config_addr p) (str_bytes "127.0.0.1:102") &&
           assert_eq (length (plc_tags p)) 1%nat
  | _ => false
  end).
Definition parse_multi_plc_config : bool :=
  from_toml [str "opc_endpoint" "opc.tcp://0.0.0.0:4840";
             array "plcs" [
               TTable [str "addr" "10.0.0.1:102"; array "tags" [tag_table "DB1,REAL0" "Temp1"]];
               TTable [str "addr" "10.0.0.2:102"; (str_bytes "poll_interval_ms", TInt 2000);
                       array "tags" [tag_table "DB5,WORD0" "Pressure1"]]]] (fun cfg =>
  match plc_configs cfg with
  | [p; q] => assert_eq (plc_config_addr p) (str_bytes "10.0.0.1:102") &&
              assert_eq (length (plc_tags p)) 1%nat &&
              assert_eq (plc_config_addr q) (str_bytes "10.0.0.2:102") &&
              assert_eq (plc_poll_interval_ms q) 2000
  | _ => false
  end).
Definition multi_plc_takes_precedence : bool :=
  from_toml [str "plc_addr" "127.0.0.1:102"; str "opc_endpoint" "opc.tcp://0.0.0.0:4840";
             array "plcs" [TTable [str "addr" "10.0.0.1:102";
                                   array "tags" [tag_table "DB1,REAL0" "Tag1"]]]] (fun cfg =>
  match plc_configs cfg with
  | [p] => assert_eq (plc_config_addr p) (str_bytes "10.0.0.1:102")
  | _ => false
  end).
Definition security_defaults : bool :=
  from_toml [str "plc_addr" "127.0.0.1:102"; str "opc_endpoint" "opc.tcp://0.0.0.0:4840";
             array "tags" [tag_table "DB1,BYTE0" "Status"]] (fun cfg =>
  assert_eq (policy (opc_security cfg)) (str_bytes "None") &&
  assert_eq (mode (opc_security cfg)) (str_bytes "None")).
Definition security_with_cert : bool :=
  from_toml [str "plc_addr" "127.0.0.1:102"; str "opc_endpoint" "opc.tcp://0.0.0.0:4840";
             array "tags" [tag_table "DB1,BYTE0" "Status"];
             (str_bytes "opc_security", TTable [
               str "policy" "Basic256Sha256"; str "mode" "SignAndEncrypt";
               str "certificate" "/etc/certs/server.pem"; str "private_key" "/etc/certs/key.pem"])] (fun cfg =>
  assert_eq (policy (opc_security cfg)) (str_bytes "Basic256Sha256") &&
  assert_eq (mode (opc_security cfg)) (str_bytes "SignAndEncrypt") &&
  match certificate (opc_security cfg) with Some _ => true | None => false end).

(** ** server.rs *)

(** The connection of a client that has connected: its task has counted it and
    is in the dispatch loop. *)
Definition client_count_increments_on_connect : bool :=
  let store := client_connected DataStore_new in
  match serve_handshake closing_peer {| rx := requests (hello ConnectParams_default); tx := [] |} with
  | Dispatching _ _ _ => assert_eq (clients_count (get_status store)) 1
  | _ => false
  end.

(** All of them pass. *)
Theorem system_tests_pass :
  forallb id
    [pool_config_defaults_are_sane; pool_config_max_size;
     pool_acquire_returns_err_on_unreachable_host; pool_acquire_releases_permit_on_error;
     pool_semaphore_limits_concurrent_borrows; parse_single_plc_config; parse_multi_plc_config;
     multi_plc_takes_precedence; security_defaults; security_with_cert;
     client_count_increments_on_connect] = true.
Proof. vm_compute. reflexivity. Qed.
